(* ===== verification/_CoqProject ===== *)
-Q . S2P
Prelude.v
GoStrings.v
GoPath.v
GoTime.v
GoJson.v
CondSet.v
FieldError.v
Types.v
Api.v
Admission.v
Scheme.v
Lifecycle.v
Names.v
Deployment.v
Reconcile.v
KindReconciler.v
Rest.v
SourcesClient.v
Clientset.v
Informers.v
Injection.v
Leader.v
Contents.v
Controller.v
Wiring.v
Workqueue.v
TwoLane.v
Tracker.v
Resolver.v
ControlLoop.v
Process.v
Lister.v
Heap.v
DeepCopy.v
GoHttp.v
Config.v
Mode.v
Handoff.v
Sink.v
Poll.v
Stream.v
Run.v
Adapter.v
Webhook.v
EndToEnd.v
FakeClientset.v
Builders.v
TableRow.v
