(* ===== verification/Prelude.v ===== *)
(** * Verification of the YipYap Knative source

    The program is a Knative event source in two halves.  A controller (with
    its webhooks) turns a YipYapSource resource into a Deployment; the
    Deployment runs the receive adapter, which fetches CloudEvents from the
    yipyap server, by polling or over a stream, and posts them to a sink.  The
    halves meet only in the environment variables of the container.

    ** The files

    What the program takes from Go: GoStrings.v (strings, bytes, UTF-8),
    GoPath.v (path.Match), GoTime.v (durations, timestamps), GoJson.v
    (encoding/json), GoHttp.v (path.Join, queries, headers, requests).  These
    are executable definitions of the library functions the source calls.

    The control plane:
    - CondSet.v: the condition manager (apis/condition_set.go of knative.dev/pkg),
      one function per method, over a list of conditions and a clock;
    - FieldError.v: the tree of diagnostics (apis/field_error.go);
    - Types.v: the resource and its status (v1alpha1, with the duck types);
    - Api.v: the defaulting and the validation webhook
      (yipyapsource_defaults.go, yipyapsource_validation.go);
    - Admission.v: the defaulting and the validating admission controller around
      them (webhook/resourcesemantics of knative.dev/pkg), and the API server's
      write path through both;
    - Webhook.v: the webhook process (cmd/webhook/main.go): its controllers, the
      server that dispatches reviews to them, the ConfigMap controller, and the
      registration of the three in the cluster;
    - Scheme.v: the registration of the types in a runtime scheme
      (v1alpha1/register.go and the register.go of both clientsets);
    - Lifecycle.v: the status methods (yipyapsource_lifecycle.go);
    - Names.v: child names, with MD5 (kmeta/names.go);
    - Deployment.v: the rendered Deployment (resources/deployment.go);
    - Reconcile.v: ReconcileKind (pkg/reconciler/yipyapsource/yipyapsource.go)
      against the interface [Kube], and a model of an API server behind it;
    - KindReconciler.v: the generated reconciler around it (reconciler.go and
      state.go under pkg/client/injection/reconciler, with the processing and
      the retries of knative.dev/pkg/reconciler), as actions on a world: the API
      server, the clock, the events.  It ends with an API server with optimistic
      concurrency and other writers, for the theorems on the write-back;
    - Rest.v: the REST client the generated clients are built on
      (client-go/rest): construction from a configuration, the request builder
      with the error that sticks to it, the path of the URL;
    - SourcesClient.v, Clientset.v: the generated typed client and the clientset
      (pkg/client/clientset): the request of each method, construction, and an
      API server for which the typed client is the client of KindReconciler.v;
    - Informers.v: the shared informer factory (pkg/client/informers), a state
      machine over informers with identity;
    - Injection.v: the packages under pkg/client/injection that put clients,
      factories and informers into a context and take them out again, and the
      setup of the controller process that runs them;
    - Leader.v: the buckets a replica leads (reconciler/leader.go) and the
      construction of the reconciler from its options (the generated
      controller.go);
    - Contents.v: what the Mark methods do to the contents of the conditions,
      transition times aside;
    - Controller.v: NewController (pkg/reconciler/yipyapsource/controller.go) and
      what a run of its reconciler makes of the stored status;
    - Wiring.v: the handlers of the informers, and what a worker does with the
      result of a run;
    - Workqueue.v: the queue of client-go and the delays of its rate limiter;
    - TwoLane.v: the work queue of a controller (controller/two_lane_queue.go of
      knative.dev/pkg) with delayed additions, its goroutines, the workers and
      the shutdown, as a step relation;
    - Process.v: the controller process (cmd/controller/main.go): its caches, its
      servers, the run of the controller and its end, around the steps of
      TwoLane.v;
    - Tracker.v: which sources watch which objects (tracker/enqueue.go);
    - Resolver.v: how a sink becomes a URL (resolver/addressable_resolver.go);
    - ControlLoop.v: from a change, through the queue, to a run and the next one;
    - Lister.v: the indexed cache and the lister (pkg/client/listers), a
      refinement of a map.

    Structs are values in these files.  Where sharing matters, Heap.v has
    pointers, slices and maps on a heap and the class [Copyable] of the types
    with a deep copy; DeepCopy.v has the generated copies
    (zz_generated.deepcopy.go) as its instances.

    The adapter (cmd/receive-adapter/source):
    - Config.v: LoadConfig (config.go);
    - Mode.v: the mode precedence chain (mode.go);
    - Sink.v: overrides, the binary-mode request, the verdict (sink.go);
    - Poll.v: the poll client and the cursor file (poll.go);
    - Stream.v: the stream client (stream.go);
    - Run.v: the loop over sessions (run.go);
    - Adapter.v: the process with its health server (../main.go).

    Handoff.v joins the halves: what Deployment.v renders, Config.v loads.
    EndToEnd.v follows a resource through all of it: let in by the webhooks,
    reconciled to a Deployment, served by the adapter the Deployment runs.

    What the program's own tests stand on:
    - FakeClientset.v: the fake clientset (pkg/client/clientset/versioned/fake)
      over the object tracker of client-go/testing, with its reactors and watchers;
    - Builders.v: the options that build the sources of a table test
      (pkg/reconciler/yipyapsource/testing);
    - TableRow.v: the objects of a row in their indexers, behind the listers and
      the fake clientset a run of the reconciler works on.

    ** How the code is modelled

    A Go function is a function; a method that changes its receiver returns
    the new value; an error is the [Err] of [result] below, with a constructor
    per failure and the data its message carries; a panic is an error value of
    its own (or [None]).  Maps are [gmap]s; where Go iterates over a map in an
    arbitrary order, the order is a parameter or is shown not to matter.
    Durations are [int64] values, [Z] with its wrap-around.  What the program
    meets is an interface: [UrlLib] (URL parsing and printing), [CertLib] (PEM
    and X.509), [HttpClient] and [StreamServer] (the network), [EventCodec]
    (the CloudEvents SDK's JSON decoding, which gives an event, an error or a panic),
    [ObjectCodec] with [CodecLaws] (the JSON of a resource and JSON patches, up to
    equality of JSON values), [Kube] (lister, client, resolver), and oracles for the
    file system.  Witnesses instantiate each with a concrete function.

    An API server fills in defaults, so nothing here takes a stored Deployment or
    webhook configuration for the one that was sent.  [Reconcile.defaulting] says what is relied on for a
    Deployment (its containers keep name, image and environment, and what was stored
    is stored unchanged when it is sent again) and [Webhook.webhook_defaulting] for a
    webhook configuration (the names, services and selectors of its entries stay, an
    absent scope may become [*]); what depends on more than that is an equivalence in
    the theorem.

    Components that run at the same time share a state and interleave: a label
    is one step of one goroutine, [step] a partial function of state and label,
    and the theorems of TwoLane.v, ControlLoop.v and Process.v are about every
    run, with an invariant ([TwoLane.state_ok], [Process.process_ok]) that each
    step keeps.  A mutex makes a method one step.

    Recursion is structural or by fuel: the matcher, the duration parser and
    the JSON parser take fuel from the length of their input, and theorems in
    their files ([match_fuel] style lemmas, [decode_fuel]) show that it is
    enough; running out is a distinct error that never occurs.

    ** What the theorems show

    Delivery: the cursor on disk never passes an event no sink has accepted,
    for one client with crashes ([Poll.poll_at_least_once]) and for the whole
    loop ([Run.run_at_least_once]); delivered means a 2xx from a sink; the cursor file
    is replaced atomically, and what a failed write can leave behind is named; the
    stream hands over each event once, and its backoff is bounded; both hold when the
    loop ends in a panic, of its ticker or of the SDK's decoder, and when it does is
    an equivalence ([Run.run_panics_iff]).  Control plane: validation
    accepts exactly the valid resources, defaulting is idempotent and keeps
    validity, the conditions stay well formed and Ready is their conjunction in
    every reachable status, a reconciliation converges and says in the status
    what happened.  Around it: the status a run leaves is coherent even after a
    failure and is left alone by the next run ([Controller.status_settles]);
    its write-back survives concurrent edits without touching the spec; only the
    leader writes, a new leader misses nothing, and no failed run is forgotten;
    the resource a run works on shares nothing with the cache, whose lister
    refines a map; informers are shared and run once; the webhooks store
    exactly the valid resources, defaulted, never lock one out, and are reached
    through the registration the process keeps; the controller process runs no
    worker before its caches have synced and leaves none behind when it exits in
    order; a second signal, or a promotion that fails, ends it at once with status 1.
    Between the halves: a round trip, the specs for which it fails, and what the
    adapter does for a stored source ([EndToEnd.stored_source_is_served]).  Around
    the tests: the fake clientset answers as a map does, and the builders build
    the status a run leaves.  Some theorems state behaviour the code's comments do
    not intend:
    a default mode the adapter rejects ([Handoff.default_mode_never_loads]), a
    poll interval that panics or never ticks, and an envelope the SDK panics on that
    is fetched again for ever (Run.v), a condition that goes
    stale and a Deployment updated for ever by an API server that fills in defaults
    (Reconcile.v), a reference the webhook
    does not look at and the resolver refuses (Resolver.v), an interrupted status
    write taken for a success (KindReconciler.v), a missed deletion that is
    dropped (Wiring.v), a validating webhook registered for deletions
    (Webhook.v), a controller that waits for ever when its elector cannot be built
    (Process.v).

    ** What is not modelled

    The setup in the shared main functions (flags, logging, metrics, the ConfigMap
    watcher) and the certificates of the webhook process, what an informer does
    while it runs (its cache and the delivery of its events are modelled, its
    reflector is not), the elections behind the buckets (Process.v has whether an
    elector could be built and whether a promotion fails), time a session cut short
    by a panic took (the elapsed time of Run.v counts whole sessions), the transport, the retries and the throttling of the
    REST client below its requests, the token bucket (its answers are arguments),
    in the tests the other fake clients, the construction and promotion of the
    reconciler and the readers of a watch, logging and metrics, and the deadlines
    of single requests.  hack/tools.go holds imports only. *)

From stdpp Require Export base tactics list gmap strings pretty sorting.
From Stdlib Require Export ZArith Lia Ascii.

#[global] Arguments String.append : simpl nomatch.

(** ** Fallible computations

    A Go function returning [(T, error)] is modelled by [result E T]: the
    error value or the result, never both. *)

Inductive result (E A : Type) : Type :=
| Ok (a : A)
| Err (e : E).
Arguments Ok {E A} a.
Arguments Err {E A} e.

#[export] Instance result_ret {E} : MRet (result E) := fun _ a => Ok a.
#[export] Instance result_bind {E} : MBind (result E) := fun _ _ k r =>
  match r with
  | Ok a => k a
  | Err e => Err e
  end.

Definition map_err {E F A} (f : E -> F) (r : result E A) : result F A :=
  match r with
  | Ok a => Ok a
  | Err e => Err (f e)
  end.

Definition is_ok {E A} (r : result E A) : bool :=
  match r with Ok _ => true | Err _ => false end.

#[export] Instance result_eq_dec {E A} `{EqDecision E, EqDecision A} : EqDecision (result E A).
Proof. solve_decision. Defined.

(** ** Tactics *)

(** Closes goals that are propositional up to equations between constructors. *)
Ltac prop_solver :=
  intros; repeat (subst || match goal with H : Some _ = Some _ |- _ => injection H as H end);
  solve [tauto | intuition congruence | firstorder congruence].

(** ** Options

    A value that is there, where looking whether it is costs less than writing it
    out. *)

Definition present {A} (o : option A) : bool := match o with Some _ => true | None => false end.

Lemma present_Some {A} (o : option A) : present o = true -> exists a, o = Some a.
Proof. destruct o as [a|]; [by exists a|done]. Qed.

(** ** Lists *)

Lemma Forall_filter {A} (P Q : A -> Prop) `{!forall x, Decision (Q x)} l :
  Forall P l -> Forall P (filter Q l).
Proof.
  rewrite !Forall_forall. intros HP x [_ Hx]%list_elem_of_filter. auto.
Qed.

(** An invariant of a loop over a list. *)
Lemma foldl_inv {A B} (P : A -> Prop) (f : A -> B -> A) (l : list B) (a : A) :
  P a -> (forall a b, b ∈ l -> P a -> P (f a b)) -> P (foldl f a l).
Proof.
  revert a. induction l as [|b l IH]; intros a Ha Hf; [done|].
  apply IH; [apply Hf; [left|done]|]. intros a' b' Hb. apply Hf. by right.
Qed.

(** ** Machine integers

    [int64] (and [time.Duration], which is an [int64] of nanoseconds) is an
    integer of [Z] together with an explicit two's complement wrap-around. *)

Definition min_int64 : Z := (- 2 ^ 63)%Z.
Definition max_int64 : Z := (2 ^ 63 - 1)%Z.
Definition wrap64 (z : Z) : Z := ((z + 2 ^ 63) mod 2 ^ 64 - 2 ^ 63)%Z.
Definition in_int64 (z : Z) : Prop := (min_int64 <= z <= max_int64)%Z.

Lemma wrap64_range z : in_int64 (wrap64 z).
Proof.
  unfold in_int64, wrap64, min_int64, max_int64.
  pose proof (Z.mod_pos_bound (z + 2 ^ 63) (2 ^ 64)). lia.
Qed.

Lemma wrap64_id z : in_int64 z -> wrap64 z = z.
Proof.
  unfold in_int64, wrap64, min_int64, max_int64. intros H.
  rewrite Z.mod_small; lia.
Qed.

(** ** Sorting

    [sort.Slice] on a slice of at most twelve elements is an insertion sort;
    the slices this program sorts (the conditions of one resource, the
    diagnostics of one validation) are of that size.  [go_insert less x rl]
    moves [x] down the already sorted prefix, given reversed, as the inner
    loop [for j > a && less(data[j], data[j-1])] does. *)

Section sort.
Context {A : Type} (less : A -> A -> bool).

Fixpoint go_insert (x : A) (rl : list A) : list A :=
  match rl with
  | [] => [x]
  | y :: r => if less x y then y :: go_insert x r else x :: y :: r
  end.

Definition go_sort_rev (l : list A) : list A :=
  fold_left (fun acc x => go_insert x acc) l [].

Definition go_sort (l : list A) : list A := reverse (go_sort_rev l).

Lemma go_insert_perm x rl : go_insert x rl ≡ₚ x :: rl.
Proof.
  induction rl as [|y r IH]; simpl; [done|].
  destruct (less x y); [|done]. rewrite IH. constructor.
Qed.

Lemma go_sort_rev_perm l acc :
  fold_left (fun acc x => go_insert x acc) l acc ≡ₚ l ++ acc.
Proof.
  revert acc; induction l as [|x l IH]; intros acc; simpl; [done|].
  rewrite IH, go_insert_perm. by rewrite Permutation_middle.
Qed.

Lemma go_sort_perm l : go_sort l ≡ₚ l.
Proof.
  unfold go_sort, go_sort_rev. rewrite reverse_Permutation, go_sort_rev_perm.
  by rewrite app_nil_r.
Qed.

(** The order the comparison induces: [R y x] when [x] is not below [y]. *)
Definition not_less (y x : A) : Prop := less x y = false.

Context (less_asym : forall x y, less x y = true -> less y x = false).
Context `{!Transitive not_less}.

Lemma go_insert_sorted x rl :
  StronglySorted (flip not_less) rl -> StronglySorted (flip not_less) (go_insert x rl).
Proof.
  induction 1 as [|y r Hr IH Hy]; simpl; [repeat constructor|].
  destruct (less x y) eqn:E.
  - constructor; [done|].
    rewrite go_insert_perm. constructor; [|done].
    unfold flip, not_less. auto.
  - constructor; [by constructor|].
    constructor; [done|]. eapply Forall_impl; [exact Hy|].
    intros z Hz. unfold flip in *. by trans y.
Qed.

Lemma go_sort_rev_sorted l acc :
  StronglySorted (flip not_less) acc ->
  StronglySorted (flip not_less) (fold_left (fun acc x => go_insert x acc) l acc).
Proof.
  revert acc; induction l as [|x l IH]; intros acc H; simpl; [done|].
  by apply IH, go_insert_sorted.
Qed.

Lemma StronglySorted_reverse (R : relation A) l :
  StronglySorted (flip R) l -> StronglySorted R (reverse l).
Proof.
  induction 1 as [|y r Hr IH Hy]; [constructor|].
  rewrite reverse_cons. apply StronglySorted_app_2; [|done|repeat constructor].
  intros a b Ha Hb. rewrite elem_of_reverse in Ha.
  apply list_elem_of_singleton in Hb as ->.
  rewrite Forall_forall in Hy. by apply Hy.
Qed.

Lemma go_sort_sorted l : StronglySorted not_less (go_sort l).
Proof.
  apply StronglySorted_reverse, go_sort_rev_sorted. constructor.
Qed.
End sort.
