(* ===== verification/GoStrings.v ===== *)
(** * The string functions of the Go standard library the program calls

    A Go [string] (or [[]byte]) is a sequence of bytes: [String.string], one
    [ascii] per byte.  [strings.Split] and [strings.Join], [strings.TrimSpace]
    with Go's Unicode white space, the case mappings, prefixes and suffixes,
    and decimal printing.

    Case mapping is the ASCII one: the program only compares a lowered string
    with the ASCII words poll, stream and auto, and the two non-ASCII letters
    whose lower case is ASCII (U+0130 and U+212A, lowered to i and k) occur in
    none of them. *)

From S2P Require Import Prelude.
Local Open Scope string_scope.

(** ** Bytes *)

Definition bytes (l : list nat) : string :=
  foldr (fun n s => String (ascii_of_nat n) s) "" l.

Definition is_digit (c : ascii) : bool :=
  let n := nat_of_ascii c in (48 <=? n)%nat && (n <=? 57)%nat.
Definition is_upper (c : ascii) : bool :=
  let n := nat_of_ascii c in (65 <=? n)%nat && (n <=? 90)%nat.
Definition is_lower (c : ascii) : bool :=
  let n := nat_of_ascii c in (97 <=? n)%nat && (n <=? 122)%nat.
Definition is_alnum (c : ascii) : bool := is_digit c || is_upper c || is_lower c.
(** [c < utf8.RuneSelf]. *)
Definition is_ascii_byte (c : ascii) : bool := (nat_of_ascii c <? 128)%nat.

Definition lower_byte (c : ascii) : ascii :=
  if is_upper c then ascii_of_nat (nat_of_ascii c + 32) else c.
Definition upper_byte (c : ascii) : ascii :=
  if is_lower c then ascii_of_nat (nat_of_ascii c - 32) else c.

Fixpoint string_map (f : ascii -> ascii) (s : string) : string :=
  match s with
  | "" => ""
  | String c s => String (f c) (string_map f s)
  end.

Fixpoint string_forallb (f : ascii -> bool) (s : string) : bool :=
  match s with
  | "" => true
  | String c s => f c && string_forallb f s
  end.

Definition to_lower : string -> string := string_map lower_byte.
Definition to_upper : string -> string := string_map upper_byte.

(** ** Prefixes, suffixes, membership *)

Fixpoint strip_prefix (p s : string) : option string :=
  match p, s with
  | "", _ => Some s
  | String a p, String b s => if Ascii.eqb a b then strip_prefix p s else None
  | String _ _, "" => None
  end.

Definition has_prefix (s p : string) : bool := bool_decide (is_Some (strip_prefix p s)).
Definition has_suffix (s p : string) : bool := has_prefix (String.rev s) (String.rev p).

Fixpoint string_contains (c : ascii) (s : string) : bool :=
  match s with
  | "" => false
  | String b s => Ascii.eqb c b || string_contains c s
  end.

(** [strings.Contains] for a whole substring is not used by the program. *)

(** ** [strings.Split] with a one-byte separator, and [strings.Join] *)

Fixpoint split (sep : ascii) (s : string) : list string :=
  match s with
  | "" => [""]
  | String c s =>
      if Ascii.eqb c sep then "" :: split sep s
      else match split sep s with
           | [] => [String c ""]
           | p :: ps => String c p :: ps
           end
  end.

Fixpoint join (sep : string) (l : list string) : string :=
  match l with
  | [] => ""
  | [s] => s
  | s :: l => s +:+ sep +:+ join sep l
  end.

(** ** [strings.TrimSpace]

    The UTF-8 encodings of the runes of [unicode.IsSpace]. *)

Definition space_runes : list string :=
  [bytes [9]; bytes [10]; bytes [11]; bytes [12]; bytes [13]; bytes [32];
   bytes [194; 133]; bytes [194; 160]; bytes [225; 154; 128];
   bytes [226; 128; 128]; bytes [226; 128; 129]; bytes [226; 128; 130];
   bytes [226; 128; 131]; bytes [226; 128; 132]; bytes [226; 128; 133];
   bytes [226; 128; 134]; bytes [226; 128; 135]; bytes [226; 128; 136];
   bytes [226; 128; 137]; bytes [226; 128; 138]; bytes [226; 128; 168];
   bytes [226; 128; 169]; bytes [226; 128; 175]; bytes [226; 129; 159];
   bytes [227; 128; 128]].

Fixpoint strip_one (encs : list string) (s : string) : option string :=
  match encs with
  | [] => None
  | e :: encs =>
      match strip_prefix e s with
      | Some r => Some r
      | None => strip_one encs s
      end
  end.

(** Every strip shortens the string, so its length is enough fuel. *)
Fixpoint trim_fuel (encs : list string) (n : nat) (s : string) : string :=
  match n with
  | O => s
  | S n => match strip_one encs s with
           | Some r => trim_fuel encs n r
           | None => s
           end
  end.

Definition trim_start (encs : list string) (s : string) : string :=
  trim_fuel encs (String.length s) s.

Definition trim_left (s : string) : string := trim_start space_runes s.
Definition trim_right (s : string) : string :=
  String.rev (trim_start (map String.rev space_runes) (String.rev s)).
Definition trim_space (s : string) : string := trim_right (trim_left s).

(** ** Order, decimal printing, quoting *)

Definition str_ltb (a b : string) : bool := negb (String.leb b a).

Definition itoa (n : nat) : string := pretty n.

(** [strconv.Quote], the verb percent-q, on ASCII text; bytes above 127 are
    kept as they are. *)
Definition hex_digit (n : nat) : ascii :=
  ascii_of_nat (if (n <? 10)%nat then 48 + n else 87 + n).
Definition quote_byte (c : ascii) : string :=
  let n := nat_of_ascii c in
  if (n =? 34)%nat then bytes [92; 34]
  else if (n =? 92)%nat then bytes [92; 92]
  else if (n =? 7)%nat then "\a"
  else if (n =? 8)%nat then "\b"
  else if (n =? 9)%nat then "\t"
  else if (n =? 10)%nat then "\n"
  else if (n =? 11)%nat then "\v"
  else if (n =? 12)%nat then "\f"
  else if (n =? 13)%nat then "\r"
  else if (n <? 32)%nat || (n =? 127)%nat then
    "\x" +:+ String (hex_digit (n / 16)) (String (hex_digit (n mod 16)) "")
  else String c "".
Fixpoint quote_body (s : string) : string :=
  match s with "" => "" | String c s => quote_byte c +:+ quote_body s end.
Definition go_quote (s : string) : string := bytes [34] +:+ quote_body s +:+ bytes [34].

(** ** Lemmas on append, reversal, length *)

Lemma app_nil_r_str s : s +:+ "" = s.
Proof. induction s as [|c s IH]; simpl; [done|by rewrite IH]. Qed.

Lemma app_assoc_str a b c : a +:+ (b +:+ c) = (a +:+ b) +:+ c.
Proof. induction a as [|x a IH]; simpl; [done|by rewrite IH]. Qed.

Lemma length_app_str a b :
  String.length (a +:+ b) = (String.length a + String.length b)%nat.
Proof. induction a as [|x a IH]; simpl; [done|by rewrite IH]. Qed.

Lemma rev_app_spec a b : String.rev_app a b = String.rev a +:+ b.
Proof.
  unfold String.rev. revert b. induction a as [|x a IH]; intros b; simpl; [done|].
  rewrite IH, (IH (String x "")). by rewrite <- app_assoc_str.
Qed.

Lemma rev_cons_str x a : String.rev (String x a) = String.rev a +:+ String x "".
Proof. unfold String.rev at 1. simpl. apply rev_app_spec. Qed.

Lemma rev_append_str a b : String.rev (a +:+ b) = String.rev b +:+ String.rev a.
Proof.
  induction a as [|x a IH]; simpl; [by rewrite app_nil_r_str|].
  rewrite !rev_cons_str, IH. by rewrite app_assoc_str.
Qed.

Lemma rev_rev_str a : String.rev (String.rev a) = a.
Proof.
  induction a as [|x a IH]; [done|].
  rewrite rev_cons_str, rev_append_str, IH. done.
Qed.

Lemma length_rev_str a : String.length (String.rev a) = String.length a.
Proof.
  induction a as [|x a IH]; [done|].
  rewrite rev_cons_str, length_app_str, IH. simpl. lia.
Qed.

Lemma string_forallb_app f a b :
  string_forallb f (a +:+ b) = string_forallb f a && string_forallb f b.
Proof. induction a as [|x a IH]; simpl; [done|]. by rewrite IH, andb_assoc. Qed.

Lemma string_contains_app c a b :
  string_contains c (a +:+ b) = string_contains c a || string_contains c b.
Proof. induction a as [|x a IH]; simpl; [done|]. by rewrite IH, orb_assoc. Qed.

Lemma strip_prefix_Some p s r : strip_prefix p s = Some r <-> s = p +:+ r.
Proof.
  revert s. induction p as [|a p IH]; intros [|b s]; simpl; try naive_solver.
  destruct (Ascii.eqb_spec a b) as [->|Hne]; [rewrite IH|]; naive_solver.
Qed.

Lemma has_prefix_spec s p : has_prefix s p = true <-> exists r, s = p +:+ r.
Proof.
  unfold has_prefix. rewrite bool_decide_eq_true. unfold is_Some.
  by setoid_rewrite strip_prefix_Some.
Qed.

Lemma has_suffix_spec s p : has_suffix s p = true <-> exists r, s = r +:+ p.
Proof.
  unfold has_suffix. rewrite has_prefix_spec. split.
  - intros [r Hr]. exists (String.rev r).
    rewrite <- (rev_rev_str s), Hr, rev_append_str. by rewrite rev_rev_str.
  - intros [r ->]. exists (String.rev r). apply rev_append_str.
Qed.

(** ** Lemmas on splitting and joining *)

Lemma split_not_nil sep s : split sep s <> [].
Proof.
  destruct s as [|c s]; simpl; [done|].
  destruct (Ascii.eqb c sep); [done|]. by destruct (split sep s).
Qed.

Lemma split_no_sep sep s p : p ∈ split sep s -> string_contains sep p = false.
Proof.
  revert p. induction s as [|c s IH]; intros p; simpl.
  - intros ->%list_elem_of_singleton. done.
  - destruct (Ascii.eqb_spec c sep) as [->|Hne].
    + intros [->|Hp]%elem_of_cons; [done|auto].
    + pose proof (split_not_nil sep s). destruct (split sep s) as [|q qs]; [done|].
      intros [->|Hp]%elem_of_cons.
      * simpl. destruct (Ascii.eqb_spec sep c); [congruence|]. apply IH. left.
      * apply IH. by right.
Qed.

Lemma split_whole sep s : string_contains sep s = false -> split sep s = [s].
Proof.
  induction s as [|c s IH]; simpl; [done|].
  intros [H1 H2]%orb_false_iff. rewrite Ascii.eqb_sym, H1, IH by done. done.
Qed.

Lemma split_app_sep sep a s :
  string_contains sep a = false -> split sep (a +:+ String sep s) = a :: split sep s.
Proof.
  induction a as [|c a IH]; simpl; [by rewrite Ascii.eqb_refl|].
  intros [H1 H2]%orb_false_iff. by rewrite Ascii.eqb_sym, H1, IH by done.
Qed.

Lemma split_join sep l :
  l <> [] -> Forall (fun p => string_contains sep p = false) l ->
  split sep (join (String sep "") l) = l.
Proof.
  intros Hne Hall. induction Hall as [|p l Hp Hl IH]; [done|].
  destruct l as [|q l]; [by apply split_whole|].
  change (join (String sep "") (p :: q :: l))
    with (p +:+ String sep (join (String sep "") (q :: l))).
  rewrite split_app_sep by done. by rewrite IH.
Qed.

Lemma join_split sep s : join (String sep "") (split sep s) = s.
Proof.
  induction s as [|c s IH]; simpl; [done|].
  pose proof (split_not_nil sep s). destruct (split sep s) as [|q qs] eqn:E; [done|].
  destruct (Ascii.eqb_spec c sep) as [->|Hne].
  - change (join (String sep "") ("" :: q :: qs))
      with ("" +:+ String sep (join (String sep "") (q :: qs))). by rewrite IH.
  - destruct qs as [|q' qs]; simpl in *; by rewrite IH.
Qed.

(** ** Lemmas on trimming *)

Lemma strip_one_shorter encs s r :
  Forall (fun e => e <> "") encs -> strip_one encs s = Some r ->
  (String.length r < String.length s)%nat.
Proof.
  intros Hne. induction Hne as [|e encs He Hes IH]; simpl; [done|].
  destruct (strip_prefix e s) as [r'|] eqn:E; [|exact IH].
  intros [= <-]. apply strip_prefix_Some in E as ->.
  rewrite length_app_str. destruct e; [done|simpl; lia].
Qed.

Lemma trim_fuel_enough encs n s :
  Forall (fun e => e <> "") encs -> (String.length s <= n)%nat ->
  trim_fuel encs n s = trim_start encs s.
Proof.
  intros Hne. unfold trim_start.
  assert (forall n m s, (String.length s <= n)%nat -> (String.length s <= m)%nat ->
    trim_fuel encs n s = trim_fuel encs m s) as Hgen; [|intros; apply Hgen; lia].
  clear n s. induction n as [|n IH]; intros m s Hn Hm.
  - destruct s; [|simpl in *; lia]. destruct m; simpl; [done|].
    destruct (strip_one encs "") as [r|] eqn:E; [|done].
    apply strip_one_shorter in E; [simpl in *; lia|done].
  - destruct m as [|m].
    + destruct s; [|simpl in *; lia]. simpl.
      destruct (strip_one encs "") as [r|] eqn:E; [|done].
      apply strip_one_shorter in E; [simpl in *; lia|done].
    + simpl. destruct (strip_one encs s) as [r|] eqn:E; [|done].
      apply strip_one_shorter in E; [|done]. apply IH; lia.
Qed.

Lemma trim_start_unfold encs s :
  Forall (fun e => e <> "") encs ->
  trim_start encs s =
    match strip_one encs s with Some r => trim_start encs r | None => s end.
Proof.
  intros Hne. rewrite <- (trim_fuel_enough encs (S (String.length s)) s) by (done || lia).
  simpl. destruct (strip_one encs s) as [r|] eqn:E; [|done].
  apply trim_fuel_enough; [done|]. apply strip_one_shorter in E; [lia|done].
Qed.

Lemma trim_start_fixed encs s : strip_one encs s = None -> trim_start encs s = s.
Proof. unfold trim_start. destruct s; simpl; [done|]. intros E. by rewrite E. Qed.

Lemma trim_start_stuck encs s :
  Forall (fun e => e <> "") encs -> strip_one encs (trim_start encs s) = None.
Proof.
  intros Hne. remember (String.length s) as n eqn:Hn.
  revert s Hn. induction (lt_wf n) as [n _ IH]; intros s ->.
  rewrite trim_start_unfold by done.
  destruct (strip_one encs s) as [r|] eqn:E; [|done].
  eapply IH; [|done]. by eapply strip_one_shorter.
Qed.

Lemma trim_start_suffix encs s : exists p, s = p +:+ trim_start encs s.
Proof.
  unfold trim_start. generalize (String.length s). intros n. revert s.
  induction n as [|n IH]; intros s; simpl; [by exists ""|].
  destruct (strip_one encs s) as [r|] eqn:E; [|by exists ""].
  assert (exists e, s = e +:+ r) as [e ->].
  { clear -E. induction encs as [|e encs IH]; simpl in *; [done|].
    destruct (strip_prefix e s) eqn:E'; [|auto].
    injection E as ->. apply strip_prefix_Some in E' as ->. eauto. }
  destruct (IH r) as [p Hp]. exists (e +:+ p). by rewrite <- app_assoc_str, <- Hp.
Qed.

Lemma space_runes_nonempty : Forall (fun e => e <> "") space_runes.
Proof. repeat constructor; done. Qed.

Lemma rev_space_runes_nonempty : Forall (fun e => e <> "") (map String.rev space_runes).
Proof. repeat constructor; done. Qed.

(** A string that neither starts nor ends with white space. *)
Definition trimmed (s : string) : bool :=
  bool_decide (strip_one space_runes s = None /\
               strip_one (map String.rev space_runes) (String.rev s) = None).

Lemma trim_space_trimmed s : trimmed s = true -> trim_space s = s.
Proof.
  unfold trimmed. rewrite bool_decide_eq_true. intros [H1 H2].
  unfold trim_space, trim_right, trim_left.
  rewrite (trim_start_fixed space_runes s) by done.
  rewrite trim_start_fixed by done. apply rev_rev_str.
Qed.

(** Cutting the end of a string never makes it start with a space it did not
    start with. *)
Lemma strip_one_prefix_None encs p q :
  strip_one encs (p +:+ q) = None -> strip_one encs p = None.
Proof.
  induction encs as [|e encs IH]; simpl; [done|].
  destruct (strip_prefix e (p +:+ q)) eqn:E; [done|]. intros H.
  destruct (strip_prefix e p) eqn:E'; [|auto].
  apply strip_prefix_Some in E' as ->. rewrite <- app_assoc_str in E.
  assert (strip_prefix e (e +:+ (s +:+ q)) = Some (s +:+ q))
    by (by apply strip_prefix_Some). congruence.
Qed.

Lemma trimmed_trim_space s : trimmed (trim_space s) = true.
Proof.
  unfold trimmed. rewrite bool_decide_eq_true. split.
  - unfold trim_space, trim_right.
    destruct (trim_start_suffix (map String.rev space_runes)
                (String.rev (trim_left s))) as [p Hp].
    apply (strip_one_prefix_None _ _ (String.rev p)).
    rewrite <- rev_append_str, <- Hp, rev_rev_str.
    apply trim_start_stuck, space_runes_nonempty.
  - unfold trim_space, trim_right. rewrite rev_rev_str.
    apply trim_start_stuck, rev_space_runes_nonempty.
Qed.

Lemma trim_space_idemp s : trim_space (trim_space s) = trim_space s.
Proof. apply trim_space_trimmed, trimmed_trim_space. Qed.

(** ** Lemmas on the order *)

Lemma str_ltb_irrefl a : str_ltb a a = false.
Proof.
  unfold str_ltb. rewrite negb_false_iff. apply Is_true_true, (reflexivity (R:=String.le) a).
Qed.

Lemma str_ltb_not_le a b : str_ltb a b = false <-> String.le b a.
Proof. unfold str_ltb, String.le. by rewrite negb_false_iff, Is_true_true. Qed.

Lemma str_ltb_asym a b : str_ltb a b = true -> str_ltb b a = false.
Proof.
  intros H. apply str_ltb_not_le.
  destruct (total String.le a b) as [|Hba]; [done|].
  apply str_ltb_not_le in Hba. congruence.
Qed.

Lemma str_ltb_total a b : str_ltb a b = false -> str_ltb b a = false -> a = b.
Proof. rewrite !str_ltb_not_le. intros. by apply (anti_symm String.le). Qed.

(** ** Lemmas on decimal printing *)

Lemma pretty_N_char_digit n : (n < 10)%N -> is_digit (pretty_N_char n) = true.
Proof.
  intros H. destruct n as [|p]; [done|].
  do 4 (destruct p as [p|p|]; try done; try lia).
Qed.

Lemma pretty_N_go_digits x s :
  string_forallb is_digit s = true -> string_forallb is_digit (pretty_N_go x s) = true.
Proof.
  revert s. induction (N.lt_wf_0 x) as [x _ IH]; intros s Hs.
  destruct (decide (0 < x)%N) as [Hx|Hx].
  - rewrite pretty_N_go_step by done. apply IH.
    + apply N.div_lt; lia.
    + simpl. rewrite Hs, andb_true_r. apply pretty_N_char_digit, N.mod_lt. lia.
  - replace x with 0%N by lia. by rewrite pretty_N_go_0.
Qed.

Lemma itoa_digits n : string_forallb is_digit (itoa n) = true.
Proof.
  unfold itoa, pretty, pretty_nat, pretty, pretty_N. case_decide; [done|].
  by apply pretty_N_go_digits.
Qed.

Lemma digits_no_char c s :
  is_digit c = false -> string_forallb is_digit s = true -> string_contains c s = false.
Proof.
  intros Hc. induction s as [|d s IH]; simpl; [done|].
  intros [Hd Hs]%andb_true_iff. rewrite IH by done. rewrite orb_false_r.
  apply Ascii.eqb_neq. congruence.
Qed.

#[global] Arguments strip_prefix : simpl never.
#[global] Arguments trim_space : simpl never.
#[global] Arguments split : simpl never.

Create HintDb gostr.
Create Rewrite HintDb gostr.
#[export] Hint Rewrite app_nil_r_str length_app_str rev_append_str rev_rev_str
  length_rev_str string_contains_app string_forallb_app : gostr.
#[export] Hint Resolve space_runes_nonempty rev_space_runes_nonempty split_not_nil
  trimmed_trim_space trim_space_idemp str_ltb_irrefl : gostr.

(** ** Examples *)

Example trim_ex : trim_space (bytes [32; 194; 160] +:+ "a b" +:+ bytes [226; 128; 137; 10]) = "a b".
Proof. reflexivity. Qed.
Example split_ex : split "," " a.* ,,b" = [" a.* "; ""; "b"].
Proof. reflexivity. Qed.
