(* ===== verification/GoPath.v ===== *)
(** * [path.Match] of the Go standard library

    The validation of a YipYapSource rejects type globs for which
    [path.Match(glob, "")] reports [ErrBadPattern].  The functions below follow
    Go's [Match], [scanChunk], [matchChunk] and [getEsc] byte by byte, with
    UTF-8 decoding as [utf8.DecodeRuneInString] does it.  Loops take fuel; the
    error [OutOfFuel] is shown unreachable for the fuel the entry points give.

    Main results: the loops never run out of fuel ([path_Match_fuel]) and the
    outcome "bad pattern" does not depend on the name matched
    ([path_Match_error_name_irrelevant]), so probing with the empty name is a
    complete syntax check. *)

From S2P Require Import Prelude GoStrings.
Local Open Scope string_scope.

(** ** UTF-8 *)

Definition rune_error : Z := 65533.
Definition byte_at (c : ascii) : Z := Z.of_nat (nat_of_ascii c).

Definition in_range (lo x hi : Z) : bool := (lo <=? x)%Z && (x <=? hi)%Z.

(** Bits of a continuation byte. *)
Definition cont (b : Z) : Z := Z.land b 63.

(** [utf8.DecodeRuneInString]: the first rune and the bytes it occupies. *)
Definition decode_rune (s : string) : Z * nat :=
  match s with
  | "" => (rune_error, 0%nat)
  | String c0 s1 =>
    let b0 := byte_at c0 in
    if (b0 <? 128)%Z then (b0, 1%nat) else
    match s1 with
    | "" => (rune_error, 1%nat)
    | String c1 s2 =>
      let b1 := byte_at c1 in
      if in_range 194 b0 223 then
        if in_range 128 b1 191
        then (Z.lor (Z.shiftl (Z.land b0 31) 6) (cont b1), 2%nat)
        else (rune_error, 1%nat)
      else
      match s2 with
      | "" => (rune_error, 1%nat)
      | String c2 s3 =>
        let b2 := byte_at c2 in
        if in_range 224 b0 239 then
          let lo := if (b0 =? 224)%Z then 160%Z else 128%Z in
          let hi := if (b0 =? 237)%Z then 159%Z else 191%Z in
          if in_range lo b1 hi && in_range 128 b2 191
          then (Z.lor (Z.shiftl (Z.land b0 15) 12)
                  (Z.lor (Z.shiftl (cont b1) 6) (cont b2)), 3%nat)
          else (rune_error, 1%nat)
        else
        match s3 with
        | "" => (rune_error, 1%nat)
        | String c3 _ =>
          let b3 := byte_at c3 in
          let lo := if (b0 =? 240)%Z then 144%Z else 128%Z in
          let hi := if (b0 =? 244)%Z then 143%Z else 191%Z in
          if in_range 240 b0 244 && in_range lo b1 hi && in_range 128 b2 191
             && in_range 128 b3 191
          then (Z.lor (Z.shiftl (Z.land b0 7) 18)
                 (Z.lor (Z.shiftl (cont b1) 12)
                    (Z.lor (Z.shiftl (cont b2) 6) (cont b3))), 4%nat)
          else (rune_error, 1%nat)
        end
      end
    end
  end.

Fixpoint string_drop (n : nat) (s : string) : string :=
  match n, s with
  | O, _ => s
  | S n, String _ s => string_drop n s
  | S _, "" => ""
  end.

(** ** [path.Match] *)

Inductive glob_error := ErrBadPattern | OutOfFuel.

#[export] Instance glob_error_eq_dec : EqDecision glob_error.
Proof. solve_decision. Defined.

(** [getEsc]: a possibly escaped character of a character class. *)
Definition get_esc (chunk : string) : result glob_error (Z * string) :=
  match chunk with
  | "" => Err ErrBadPattern
  | String c chunk' =>
      if Ascii.eqb c "-" || Ascii.eqb c "]" then Err ErrBadPattern else
      let body := if Ascii.eqb c "\" then chunk' else chunk in
      match body with
      | "" => Err ErrBadPattern
      | _ =>
          let '(r, n) := decode_rune body in
          let nchunk := string_drop n body in
          if (r =? rune_error)%Z && (n =? 1)%nat then Err ErrBadPattern
          else match nchunk with
               | "" => Err ErrBadPattern
               | _ => Ok (r, nchunk)
               end
      end
  end.

(** The loop of [matchChunk] over the ranges of one class: the rest of the
    chunk after the closing bracket and whether [r] was in some range. *)
Fixpoint match_ranges (fuel : nat) (r : Z) (chunk : string) (nrange : nat)
    (matched : bool) : result glob_error (string * bool) :=
  match fuel with
  | O => Err OutOfFuel
  | S fuel =>
      match if (0 <? nrange)%nat then strip_prefix "]" chunk else None with
      | Some rest => Ok (rest, matched)
      | None =>
          '(lo, chunk1) ← get_esc chunk;
          '(hi, chunk2) ← match strip_prefix "-" chunk1 with
                          | Some c => get_esc c
                          | None => Ok (lo, chunk1)
                          end;
          match_ranges fuel r chunk2 (S nrange) (matched || in_range lo r hi)
      end
  end.

(** [matchChunk]: [Ok (rest, ok)].  [failed] records that the match failed;
    the scan goes on to check the syntax. *)
Fixpoint match_chunk (fuel : nat) (chunk s : string) (failed : bool)
    : result glob_error (string * bool) :=
  match chunk with
  | "" => Ok (if failed then ("", false) else (s, true))
  | String c rest =>
    match fuel with
    | O => Err OutOfFuel
    | S fuel =>
      let failed := failed || String.eqb s "" in
      (* compare one literal byte *)
      let literal d rest :=
        if failed then match_chunk fuel rest s failed
        else match_chunk fuel rest (string_drop 1 s) (negb (has_prefix s (String d ""))) in
      if Ascii.eqb c "[" then
        let '(r, s) :=
          if failed then (0%Z, s)
          else let '(r, n) := decode_rune s in (r, string_drop n s) in
        let '(negated, rest) :=
          match strip_prefix "^" rest with
          | Some rest => (true, rest)
          | None => (false, rest)
          end in
        '(rest, matched) ← match_ranges (S (String.length rest)) r rest 0 false;
        match_chunk fuel rest s (failed || Bool.eqb matched negated)
      else if Ascii.eqb c "?" then
        if failed then match_chunk fuel rest s failed
        else match_chunk fuel rest (string_drop (decode_rune s).2 s) (has_prefix s "/")
      else if Ascii.eqb c "\" then
        match rest with
        | "" => Err ErrBadPattern
        | String d rest => literal d rest
        end
      else literal c rest
    end
  end.

Definition matchChunk (chunk s : string) : result glob_error (string * bool) :=
  match_chunk (String.length chunk) chunk s false.

(** [scanChunk]: leading stars, then the text up to the next star that is
    outside a class. *)
Fixpoint strip_stars (p : string) : bool * string :=
  match p with
  | String "*" p => (true, (strip_stars p).2)
  | _ => (false, p)
  end.

Fixpoint scan_chunk (inrange : bool) (p : string) : string * string :=
  match p with
  | "" => ("", "")
  | String c p' =>
      if Ascii.eqb c "\" then
        match p' with
        | "" => (p, "")
        | String d p'' =>
            let '(a, b) := scan_chunk inrange p'' in (String c (String d a), b)
        end
      else if Ascii.eqb c "*" && negb inrange then ("", p)
      else
        let inrange :=
          if Ascii.eqb c "[" then true else if Ascii.eqb c "]" then false else inrange in
        let '(a, b) := scan_chunk inrange p' in (String c a, b)
  end.

Definition scanChunk (pattern : string) : bool * string * string :=
  let '(star, p) := strip_stars pattern in
  let '(chunk, rest) := scan_chunk false p in
  (star, chunk, rest).

(** The attempts of [Match] after a star: [Some t] continues the outer loop
    with name [t]. *)
Fixpoint star_loop (chunk : string) (last : bool) (name : string)
    : result glob_error (option string) :=
  match name with
  | "" => Ok None
  | String c name' =>
      if Ascii.eqb c "/" then Ok None else
      '(t, ok) ← matchChunk chunk name';
      if ok : bool then
        if last && negb (String.eqb t "") then star_loop chunk last name'
        else Ok (Some t)
      else star_loop chunk last name'
  end.

(** The syntax check of the remaining chunks before reporting "no match". *)
Fixpoint check_rest (fuel : nat) (pattern : string) : result glob_error bool :=
  match pattern with
  | "" => Ok false
  | _ =>
      match fuel with
      | O => Err OutOfFuel
      | S fuel =>
          let '(_, chunk, rest) := scanChunk pattern in
          _ ← matchChunk chunk "";
          check_rest fuel rest
      end
  end.

Fixpoint match_loop (fuel : nat) (pattern name : string) : result glob_error bool :=
  match pattern with
  | "" => Ok (String.eqb name "")
  | _ =>
    match fuel with
    | O => Err OutOfFuel
    | S fuel =>
      let '(star, chunk, rest) := scanChunk pattern in
      if star && String.eqb chunk "" then Ok (negb (string_contains "/" name)) else
      '(t, ok) ← matchChunk chunk name;
      if (ok : bool) && (String.eqb t "" || negb (String.eqb rest "")) then
        match_loop fuel rest t
      else
        next ← (if star : bool then star_loop chunk (String.eqb rest "") name else Ok None);
        match next with
        | Some t => match_loop fuel rest t
        | None => check_rest fuel rest
        end
    end
  end.

Definition path_Match (pattern name : string) : result glob_error bool :=
  match_loop (String.length pattern) pattern name.

(** ** What a call reports, forgetting the matched text *)

Definition erase {E A} (r : result E A) : result E unit :=
  match r with Ok _ => Ok tt | Err e => Err e end.

Lemma erase_bind {E A B} (r : result E A) (k k' : A -> result E B) :
  (forall a, r = Ok a -> erase (k a) = erase (k' a)) ->
  erase (r ≫= k) = erase (r ≫= k').
Proof. destruct r; naive_solver. Qed.

(** Two results that agree on the error and on the rest of the chunk. *)
Definition same_rest (r r' : result glob_error (string * bool)) : Prop :=
  match r, r' with
  | Ok (rest, _), Ok (rest', _) => rest = rest'
  | Err e, Err e' => e = e'
  | _, _ => False
  end.

(** The ranges of a class: error and rest do not depend on the rune. *)
Lemma match_ranges_indep fuel r r' chunk n m m' :
  same_rest (match_ranges fuel r chunk n m) (match_ranges fuel r' chunk n m').
Proof.
  revert chunk n m m'. induction fuel as [|fuel IH]; intros chunk n m m'; [done|].
  cbn [match_ranges].
  destruct (if (0 <? n)%nat then strip_prefix "]" chunk else None) as [rest|]; [done|].
  destruct (get_esc chunk) as [[lo chunk1]|e]; cbn; [|done].
  destruct (match strip_prefix "-" chunk1 with Some c => get_esc c | None => Ok (lo, chunk1) end)
    as [[hi chunk2]|e]; cbn; [apply IH|done].
Qed.

(** A chunk: being malformed does not depend on the text it is matched with. *)
Lemma match_chunk_indep fuel chunk s s' b b' :
  erase (match_chunk fuel chunk s b) = erase (match_chunk fuel chunk s' b').
Proof.
  revert chunk s s' b b'. induction fuel as [|fuel IH]; intros [|c rest] s s' b b'; try done.
  cbn [match_chunk].
  destruct (Ascii.eqb c "["); [|destruct (Ascii.eqb c "?"); [|destruct (Ascii.eqb c "\")]].
  - destruct (if b || String.eqb s "" then _ else _) as [r s1].
    destruct (if b' || String.eqb s' "" then _ else _) as [r' s1'].
    destruct (match strip_prefix "^" rest with Some _ => _ | None => _ end) as [neg rest1].
    pose proof (match_ranges_indep (S (String.length rest1)) r r' rest1 0 false false) as H.
    destruct (match_ranges _ r rest1 0 false) as [[x mx]|e],
      (match_ranges _ r' rest1 0 false) as [[x' mx']|e']; cbn in *; subst; done || apply IH.
  - repeat case_match; apply IH.
  - destruct rest as [|d rest]; [done|]. repeat case_match; apply IH.
  - repeat case_match; apply IH.
Qed.

Lemma matchChunk_indep chunk s s' : erase (matchChunk chunk s) = erase (matchChunk chunk s').
Proof. apply match_chunk_indep. Qed.

(** ** Progress: every loop consumes its pattern *)

Lemma length_string_drop n s : String.length (string_drop n s) = (String.length s - n)%nat.
Proof. revert s. induction n as [|n IH]; intros [|c s]; simpl; auto. Qed.

Lemma decode_rune_size s : s <> "" -> (1 <= (decode_rune s).2)%nat.
Proof. intros H. unfold decode_rune. repeat case_match; simpl; lia || done. Qed.

Lemma get_esc_shorter chunk r rest :
  get_esc chunk = Ok (r, rest) -> (String.length rest < String.length chunk)%nat.
Proof.
  unfold get_esc. destruct chunk as [|c chunk']; [done|].
  destruct (_ || _); [done|].
  set (body := if Ascii.eqb c "\" then chunk' else String c chunk').
  assert (String.length body <= S (String.length chunk'))%nat as Hb
    by (subst body; case_match; simpl; lia).
  destruct body as [|d body'] eqn:Ebody; [done|].
  pose proof (decode_rune_size (String d body')) as Hsize.
  destruct (decode_rune (String d body')) as [r' n].
  destruct (_ && _); [done|].
  destruct (string_drop n (String d body')) as [|x xs] eqn:Edrop; [done|].
  intros [= <- <-]. rewrite <- Edrop, length_string_drop.
  specialize (Hsize ltac:(done)). simpl in *. lia.
Qed.

Lemma match_ranges_shorter fuel r chunk n m rest x :
  match_ranges fuel r chunk n m = Ok (rest, x) ->
  (String.length rest < String.length chunk)%nat.
Proof.
  revert chunk n m. induction fuel as [|fuel IH]; intros chunk n m; [done|].
  cbn [match_ranges].
  destruct (if (0 <? n)%nat then strip_prefix "]" chunk else None) as [rest0|] eqn:E.
  - intros [= -> ->]. destruct (0 <? n)%nat; [|done].
    apply strip_prefix_Some in E as ->. simpl. lia.
  - destruct (get_esc chunk) as [[lo chunk1]|e] eqn:E1; cbn; [|done].
    apply get_esc_shorter in E1.
    destruct (strip_prefix "-" chunk1) as [c|] eqn:E2.
    + apply strip_prefix_Some in E2 as ->.
      destruct (get_esc c) as [[hi chunk2]|e] eqn:E3; cbn; [|done].
      apply get_esc_shorter in E3. intros H%IH. simpl in *. lia.
    + cbn. intros H%IH. lia.
Qed.

Lemma match_ranges_fuel fuel r chunk n m :
  (String.length chunk < fuel)%nat -> match_ranges fuel r chunk n m <> Err OutOfFuel.
Proof.
  revert chunk n m. induction fuel as [|fuel IH]; intros chunk n m Hf; [lia|].
  cbn [match_ranges].
  destruct (if (0 <? n)%nat then strip_prefix "]" chunk else None); [done|].
  assert (forall c, get_esc c <> Err OutOfFuel) as Hesc.
  { intros c. unfold get_esc. repeat case_match; done. }
  destruct (get_esc chunk) as [[lo chunk1]|e] eqn:E1; cbn;
    [|specialize (Hesc chunk); congruence].
  apply get_esc_shorter in E1.
  destruct (strip_prefix "-" chunk1) as [c|] eqn:E2.
  - apply strip_prefix_Some in E2 as ->.
    destruct (get_esc c) as [[hi chunk2]|e] eqn:E3; cbn;
      [|specialize (Hesc c); congruence].
    apply get_esc_shorter in E3. apply IH. simpl in *. lia.
  - cbn. apply IH. lia.
Qed.

Lemma match_chunk_fuel fuel chunk s b :
  (String.length chunk <= fuel)%nat -> match_chunk fuel chunk s b <> Err OutOfFuel.
Proof.
  revert chunk s b. induction fuel as [|fuel IH]; intros [|c rest] s b Hf;
    try done; simpl in Hf; [lia|].
  cbn [match_chunk].
  destruct (Ascii.eqb c "["); [|destruct (Ascii.eqb c "?"); [|destruct (Ascii.eqb c "\")]].
  - destruct (if b || String.eqb s "" then _ else _) as [r s1].
    assert (String.length (match strip_prefix "^" rest with
                           | Some rest => (true, rest)
                           | None => (false, rest) end).2 <= String.length rest)%nat as Hr.
    { destruct (strip_prefix "^" rest) eqn:E; [|done].
      apply strip_prefix_Some in E as ->. simpl. lia. }
    destruct (match strip_prefix "^" rest with Some _ => _ | None => _ end) as [neg rest1].
    pose proof (match_ranges_fuel (S (String.length rest1)) r rest1 0 false
                  (Nat.lt_succ_diag_r _)) as Hm.
    destruct (match_ranges _ r rest1 0 false) as [[x mx]|e] eqn:E; cbn; [|congruence].
    apply match_ranges_shorter in E. apply IH. simpl in *. lia.
  - repeat case_match; apply IH; lia.
  - destruct rest as [|d rest]; [done|]. simpl in *. repeat case_match; apply IH; lia.
  - repeat case_match; apply IH; lia.
Qed.

Lemma scan_chunk_length b p :
  (String.length (scan_chunk b p).1 + String.length (scan_chunk b p).2 = String.length p)%nat.
Proof.
  assert (forall n b p, (String.length p <= n)%nat ->
    (String.length (scan_chunk b p).1 + String.length (scan_chunk b p).2
     = String.length p)%nat) as H; [|by eapply H].
  clear. induction n as [|n IH]; intros b [|c p] Hn; simpl in *; try done; [lia|].
  destruct (Ascii.eqb c "\").
  - destruct p as [|d p]; [done|]. specialize (IH b p).
    destruct (scan_chunk b p) as [x y]. simpl in *. lia.
  - destruct (_ && _); [done|].
    set (b' := if Ascii.eqb c "[" then true else _). specialize (IH b' p).
    destruct (scan_chunk b' p) as [x y]. simpl in *. lia.
Qed.

Lemma strip_stars_length p :
  (String.length (strip_stars p).2 + (if (strip_stars p).1 then 1 else 0)
   <= String.length p)%nat /\
  ((strip_stars p).1 = false -> (strip_stars p).2 = p /\ forall q, p <> String "*" q).
Proof.
  induction p as [|c p [IH1 IH2]]; [done|].
  destruct (decide (c = "*"%char)) as [->|Hne].
  - simpl. split; [|done]. destruct (strip_stars p) as [[] q]; simpl in *; lia.
  - assert (strip_stars (String c p) = (false, String c p)) as ->.
    { destruct c as [[] [] [] [] [] [] [] []]; done. }
    simpl. split; [lia|]. intros _. split; [done|]. intros q. congruence.
Qed.

(** Each round of the outer loops removes at least one byte. *)
Lemma scanChunk_shorter p star chunk rest :
  p <> "" -> scanChunk p = (star, chunk, rest) ->
  (String.length rest < String.length p)%nat.
Proof.
  unfold scanChunk. intros Hp.
  pose proof (strip_stars_length p) as [H1 H2].
  destruct (strip_stars p) as [b q]. simpl in *.
  pose proof (scan_chunk_length false q) as Hl.
  destruct (scan_chunk false q) as [x y] eqn:Escan. simpl in *.
  intros [= <- <- <-]. destruct b; [lia|].
  destruct (H2 eq_refl) as [-> Hstar].
  assert (x <> "") as Hx; [|destruct x; [done|simpl in *; lia]].
  destruct p as [|c p]; [done|]. simpl in Escan.
  destruct (Ascii.eqb c "\").
  - destruct p as [|d p]; [by simplify_eq|].
    destruct (scan_chunk false p). by simplify_eq.
  - destruct (Ascii.eqb_spec c "*") as [->|]; [by destruct (Hstar p)|].
    simpl in Escan. destruct (scan_chunk _ p). by simplify_eq.
Qed.

(** ** The results *)

Lemma star_loop_erase chunk last name :
  is_ok (matchChunk chunk "") -> is_ok (star_loop chunk last name).
Proof.
  intros Hok. induction name as [|c name IH]; cbn [star_loop]; [done|].
  destruct (Ascii.eqb c "/"); [done|].
  pose proof (matchChunk_indep chunk name "") as Hi.
  destruct (matchChunk chunk name) as [[t ok]|e]; cbn; [|destruct (matchChunk chunk ""); done].
  repeat case_match; done.
Qed.

Lemma match_loop_erase fuel pattern name :
  erase (match_loop fuel pattern name) = erase (check_rest fuel pattern).
Proof.
  revert pattern name. induction fuel as [|fuel IH]; intros [|c p] name; try done.
  cbn [match_loop check_rest].
  destruct (scanChunk (String c p)) as [[star chunk] rest] eqn:Escan.
  destruct (star && String.eqb chunk "") eqn:Estar.
  - apply andb_true_iff in Estar as [-> ->%String.eqb_eq]. cbn.
    assert (rest = "") as ->; [|by destruct fuel].
    unfold scanChunk in Escan. destruct (strip_stars (String c p)) as [b q] eqn:Es.
    destruct (scan_chunk false q) as [x y] eqn:Ec. simplify_eq.
    destruct q as [|d q]; [by simplify_eq/=|]. exfalso.
    assert (forall q', d = "*"%char -> strip_stars (String c p) <> (true, String d q')) as Hs.
    { intros q' ->. generalize (String c p) as w. clear. induction w as [|e w IH]; [done|].
      destruct (decide (e = "*"%char)) as [->|Hne]; simpl.
      - intros [= Hw]. apply IH. destruct (strip_stars w) as [[] z] eqn:Ez; simpl in Hw; subst; [done|].
        pose proof (strip_stars_length w) as [_ H]. rewrite Ez in H.
        destruct (H eq_refl) as [H1 H2]. simpl in H1. by destruct (H2 q').
      - destruct e as [[] [] [] [] [] [] [] []]; done. }
    simpl in Ec. destruct (Ascii.eqb d "\").
    + destruct q as [|d' q]; [done|]. destruct (scan_chunk false q). done.
    + destruct (Ascii.eqb_spec d "*") as [->|]; simpl in Ec.
      * by eapply Hs.
      * destruct (scan_chunk _ q). done.
  - pose proof (matchChunk_indep chunk name "") as Hi.
    pose proof (star_loop_erase chunk (String.eqb rest "") name) as Hsl.
    destruct (matchChunk chunk name) as [[t ok]|e], (matchChunk chunk "") as [u|e'];
      try done; cbn in *.
    destruct (ok && _); [apply IH|].
    destruct star; cbn; [|done].
    destruct (star_loop chunk (String.eqb rest "") name) as [[t'|]|e]; cbn.
    + apply IH.
    + done.
    + by destruct Hsl.
Qed.

(** Whether a pattern is reported malformed does not depend on the name. *)
Lemma path_Match_error_name_irrelevant pattern name name' :
  erase (path_Match pattern name) = erase (path_Match pattern name').
Proof. unfold path_Match. by rewrite !match_loop_erase. Qed.

Lemma check_rest_fuel fuel pattern :
  (String.length pattern <= fuel)%nat -> check_rest fuel pattern <> Err OutOfFuel.
Proof.
  revert pattern. induction fuel as [|fuel IH]; intros [|c p] Hf; try done; simpl in Hf; [lia|].
  cbn [check_rest].
  destruct (scanChunk (String c p)) as [[star chunk] rest] eqn:Escan.
  apply scanChunk_shorter in Escan; [|done].
  pose proof (match_chunk_fuel (String.length chunk) chunk "" false (Nat.le_refl _)) as Hc.
  fold (matchChunk chunk "") in Hc.
  destruct (matchChunk chunk "") as [u|e]; cbn; [|congruence].
  apply IH. simpl in Escan. lia.
Qed.

(** [path.Match] terminates with a verdict: the fuel is enough. *)
Lemma path_Match_fuel pattern name : path_Match pattern name <> Err OutOfFuel.
Proof.
  intros H. apply (check_rest_fuel (String.length pattern) pattern); [done|].
  pose proof (match_loop_erase (String.length pattern) pattern name) as He.
  unfold path_Match in H. rewrite H in He. simpl in He.
  destruct (check_rest _ _); simpl in He; congruence.
Qed.

Example match1 : path_Match "run.yipyap.alert.*" "run.yipyap.alert.fired.v1" = Ok true.
Proof. reflexivity. Qed.
Example match2 : path_Match "[a-" "" = Err ErrBadPattern.
Proof. reflexivity. Qed.
Example match3 : path_Match "a*[^]-b" "x" = Err ErrBadPattern.
Proof. reflexivity. Qed.
Example match4 : path_Match "[\]a-z]?*x" "mé/x" = Ok false.
Proof. reflexivity. Qed.
Example match5 : path_Match "[a-z]?*x" "méyyx" = Ok true.
Proof. reflexivity. Qed.
