(* ===== verification/GoTime.v ===== *)
(** * [time] of the Go standard library: durations and timestamps

    A duration is an [int64] of nanoseconds, here a [Z] in the range of
    [in_int64].  [ParseDuration] follows Go's parser: the accumulation in
    [uint64] with its wrap-around, the overflow tests, and the float64
    arithmetic of the fraction, computed with the IEEE 754 operations of
    [SpecFloat] at precision 53 (no axioms are involved). *)

From Stdlib Require Import SpecFloat.
From S2P Require Import Prelude GoStrings.
Local Open Scope string_scope.

(** ** Constants *)

Definition Nanosecond : Z := 1.
Definition Microsecond : Z := 1000.
Definition Millisecond : Z := 1000000.
Definition Second : Z := 1000000000.
Definition Minute : Z := 60 * Second.
Definition Hour : Z := 60 * Minute.

(** [time.Duration(n) * time.Second] on [int64]. *)
Definition seconds64 (n : Z) : Z := wrap64 (wrap64 n * Second).

Lemma seconds64_exact n :
  (0 <= n <= 9223372036)%Z -> seconds64 n = (n * Second)%Z.
Proof.
  intros H. unfold seconds64, Second.
  rewrite (wrap64_id n) by (unfold in_int64, min_int64, max_int64; lia).
  apply wrap64_id. unfold in_int64, min_int64, max_int64. lia.
Qed.

(** ** float64 *)

Definition f64_of_Z (z : Z) : spec_float := binary_normalize 53 1024 z 0 false.
Definition f64_mul : spec_float -> spec_float -> spec_float := SFmul 53 1024.
Definition f64_div : spec_float -> spec_float -> spec_float := SFdiv 53 1024.

(** [uint64(x)] for a non-negative float below 2^64: truncation. *)
Definition uint64_of_f64 (x : spec_float) : Z :=
  match x with
  | S754_finite false m e =>
      if (0 <=? e)%Z then Z.shiftl (Zpos m) e else Z.shiftr (Zpos m) (- e)
  | _ => 0
  end.

(** ** [ParseDuration] *)

Inductive duration_error := DurInvalid | DurMissingUnit | DurUnknownUnit | DurOutOfFuel.

#[export] Instance duration_error_eq_dec : EqDecision duration_error.
Proof. solve_decision. Defined.

Definition digit_val (c : ascii) : Z := Z.of_nat (nat_of_ascii c) - 48.

(** [leadingInt]: the digits at the front, failing past 2^63. *)
Fixpoint leading_int (x : Z) (s : string) : option (Z * string) :=
  match s with
  | String c s' =>
      if is_digit c then
        if (2 ^ 63 / 10 <? x)%Z then None
        else
          let x := (x * 10 + digit_val c)%Z in
          if (2 ^ 63 <? x)%Z then None else leading_int x s'
      else Some (x, s)
  | "" => Some (x, s)
  end.

(** [leadingFraction]: value, scale, rest; digits past the overflow are
    dropped. *)
Fixpoint leading_fraction (x : Z) (scale : spec_float) (overflow : bool) (s : string)
    : Z * spec_float * string :=
  match s with
  | String c s' =>
      if is_digit c then
        if overflow then leading_fraction x scale true s'
        else if ((2 ^ 63 - 1) / 10 <? x)%Z then leading_fraction x scale true s'
        else
          let y := (x * 10 + digit_val c)%Z in
          if (2 ^ 63 <? y)%Z then leading_fraction x scale true s'
          else leading_fraction y (f64_mul scale (f64_of_Z 10)) false s'
      else (x, scale, s)
  | "" => (x, scale, s)
  end.

(** The unit: everything up to the next dot or digit. *)
Fixpoint take_unit (s : string) : string * string :=
  match s with
  | String c s' =>
      if Ascii.eqb c "." || is_digit c then ("", s)
      else let '(u, r) := take_unit s' in (String c u, r)
  | "" => ("", "")
  end.

Definition unit_map (u : string) : option Z :=
  if String.eqb u "ns" then Some Nanosecond
  else if String.eqb u "us" then Some Microsecond
  else if String.eqb u (bytes [194; 181] +:+ "s") then Some Microsecond
  else if String.eqb u (bytes [206; 188] +:+ "s") then Some Microsecond
  else if String.eqb u "ms" then Some Millisecond
  else if String.eqb u "s" then Some Second
  else if String.eqb u "m" then Some Minute
  else if String.eqb u "h" then Some Hour
  else None.

Fixpoint parse_terms (fuel : nat) (d : Z) (s : string) : result duration_error Z :=
  match s with
  | "" => Ok d
  | String c _ =>
    match fuel with
    | O => Err DurOutOfFuel
    | S fuel =>
      if negb (Ascii.eqb c "." || is_digit c) then Err DurInvalid else
      match leading_int 0 s with
      | None => Err DurInvalid
      | Some (v, s1) =>
        let pre := negb (String.length s =? String.length s1)%nat in
        let '(f, scale, s2, post) :=
          match strip_prefix "." s1 with
          | Some s1' =>
              let '(f, scale, s2) := leading_fraction 0 (f64_of_Z 1) false s1' in
              (f, scale, s2, negb (String.length s1' =? String.length s2)%nat)
          | None => (0%Z, f64_of_Z 1, s1, false)
          end in
        if negb pre && negb post then Err DurInvalid else
        let '(u, s3) := take_unit s2 in
        if String.eqb u "" then Err DurMissingUnit else
        match unit_map u with
        | None => Err DurUnknownUnit
        | Some unit =>
            if (2 ^ 63 / unit <? v)%Z then Err DurInvalid else
            let v := (v * unit)%Z in
            let v := if (0 <? f)%Z
                     then (v + uint64_of_f64 (f64_mul (f64_of_Z f) (f64_div (f64_of_Z unit) scale)))%Z
                     else v in
            if (2 ^ 63 <? v)%Z then Err DurInvalid else
            let d := ((d + v) mod 2 ^ 64)%Z in
            if (2 ^ 63 <? d)%Z then Err DurInvalid else parse_terms fuel d s3
        end
      end
    end
  end.

Definition ParseDuration (s : string) : result duration_error Z :=
  let '(neg, s) :=
    match s with
    | String c s' =>
        if Ascii.eqb c "-" || Ascii.eqb c "+" then (Ascii.eqb c "-", s') else (false, s)
    | "" => (false, s)
    end in
  if String.eqb s "0" then Ok 0%Z
  else if String.eqb s "" then Err DurInvalid
  else
    d ← parse_terms (String.length s) 0 s;
    if neg : bool then Ok (- d)%Z
    else if (max_int64 <? d)%Z then Err DurInvalid
    else Ok d.

(** ** Results *)

Lemma leading_int_length x s v r :
  leading_int x s = Some (v, r) -> (String.length r <= String.length s)%nat.
Proof.
  revert x. induction s as [|c s IH]; intros x; simpl; [by intros [= _ <-]|].
  destruct (is_digit c); [|intros [= _ <-]; simpl; lia].
  destruct (_ <? _)%Z; [done|]. destruct (_ <? _)%Z; [done|].
  intros H%IH. lia.
Qed.

Lemma leading_int_nonneg x s v r :
  (0 <= x)%Z -> leading_int x s = Some (v, r) -> (0 <= v)%Z.
Proof.
  revert x. induction s as [|c s IH]; intros x Hx; cbn -[Z.mul Z.pow Z.div];
    [by intros [= <- _]|].
  destruct (is_digit c) eqn:Ed; [|by intros [= <- _]].
  destruct (_ <? _)%Z; [done|]. destruct (_ <? _)%Z; [done|].
  apply IH. unfold is_digit in Ed. apply andb_true_iff in Ed as [Ed _].
  apply Nat.leb_le in Ed. unfold digit_val. lia.
Qed.

Lemma leading_fraction_length x sc o s f sc' r :
  leading_fraction x sc o s = (f, sc', r) -> (String.length r <= String.length s)%nat.
Proof.
  revert x sc o. induction s as [|c s IH]; intros x sc o; cbn -[Z.mul Z.pow Z.div].
  { by intros [= _ _ <-]. }
  repeat case_match; try (intros H'%IH; lia).
  all: intros [= _ _ <-]; simpl; lia.
Qed.

Lemma take_unit_length s u r :
  take_unit s = (u, r) -> (String.length u + String.length r = String.length s)%nat.
Proof.
  revert u r. induction s as [|c s IH]; intros u r; simpl; [by intros [= <- <-]|].
  destruct (_ || _); [by intros [= <- <-]|].
  destruct (take_unit s) as [u' r'] eqn:E. intros [= <- <-].
  simpl. by rewrite <- (IH u' r').
Qed.

(** One term is consumed per round, so the length is enough fuel. *)
Lemma parse_terms_fuel fuel d s :
  (String.length s <= fuel)%nat -> parse_terms fuel d s <> Err DurOutOfFuel.
Proof.
  revert d s. induction fuel as [|fuel IH]; intros d [|c s] Hf; try done; [simpl in Hf; lia|].
  cbn -[Z.mul Z.pow Z.div Z.modulo leading_int f64_mul f64_div f64_of_Z uint64_of_f64].
  destruct (negb _); [done|].
  destruct (leading_int 0 (String c s)) as [[v s1]|] eqn:E1; [|done].
  apply leading_int_length in E1.
  destruct (match strip_prefix "." s1 with Some _ => _ | None => _ end)
    as [[[f scale] s2] post] eqn:E2.
  assert (String.length s2 <= String.length s1)%nat as H2.
  { destruct (strip_prefix "." s1) as [s1'|] eqn:E; [|by simplify_eq].
    apply strip_prefix_Some in E as ->.
    destruct (leading_fraction _ _ _ s1') as [[f' sc'] r'] eqn:E'.
    apply leading_fraction_length in E'. simplify_eq. simpl. lia. }
  destruct (negb _ && negb post); [done|].
  destruct (take_unit s2) as [u s3] eqn:E3. apply take_unit_length in E3.
  destruct (String.eqb_spec u ""); [done|].
  assert (0 < String.length u)%nat by (destruct u; [done|simpl; lia]).
  destruct (unit_map u); [|done]. repeat (destruct (_ <? _)%Z; [done|]) || idtac.
  all: repeat case_match; try done; apply IH; simpl in *; lia.
Qed.

Lemma ParseDuration_total s : ParseDuration s <> Err DurOutOfFuel.
Proof.
  unfold ParseDuration.
  destruct (match s with String _ _ => _ | "" => _ end) as [neg s'].
  destruct (String.eqb s' "0"); [done|]. destruct (String.eqb s' ""); [done|].
  pose proof (parse_terms_fuel (String.length s') 0 s' (Nat.le_refl _)).
  destruct (parse_terms _ 0 s') as [d|e]; cbn -[Z.ltb max_int64]; [|congruence].
  destruct neg; [done|]. by destruct (_ <? _)%Z.
Qed.

Lemma parse_terms_range fuel d s d' :
  (0 <= d <= 2 ^ 63)%Z -> parse_terms fuel d s = Ok d' -> (0 <= d' <= 2 ^ 63)%Z.
Proof.
  revert d s. induction fuel as [|fuel IH]; intros d [|c s] Hd; try done;
    try (intros [= <-]; done).
  cbn -[Z.mul Z.pow Z.div Z.modulo leading_int f64_mul f64_div f64_of_Z uint64_of_f64].
  repeat case_match; try done. all: apply IH.
  all: match goal with H : (2 ^ 63 <? ?x mod 2 ^ 64)%Z = false |- _ =>
         apply Z.ltb_ge in H; pose proof (Z.mod_pos_bound x (2 ^ 64) eq_refl) end; lia.
Qed.

(** The parsed duration fits the [int64] it is stored in. *)
Lemma ParseDuration_range s d : ParseDuration s = Ok d -> in_int64 d.
Proof.
  unfold ParseDuration, in_int64, min_int64, max_int64.
  destruct (match s with String _ _ => _ | "" => _ end) as [neg s'].
  destruct (String.eqb s' "0"); [intros [= <-]; lia|].
  destruct (String.eqb s' ""); [done|].
  destruct (parse_terms _ 0 s') as [d'|e] eqn:E; cbn -[Z.ltb Z.sub Z.pow]; [|done].
  apply parse_terms_range in E; [|lia].
  destruct neg; [intros [= <-]; lia|].
  destruct (_ <? _)%Z eqn:El; [done|]. apply Z.ltb_ge in El. intros [= <-]. lia.
Qed.

Example dur1 : ParseDuration "1h15m30.918273645s" = Ok 4530918273645%Z.
Proof. vm_compute. reflexivity. Qed.
Example dur2 : ParseDuration "-1.5ms" = Ok (-1500000)%Z.
Proof. vm_compute. reflexivity. Qed.
Example dur3 : ParseDuration "5" = Err DurMissingUnit.
Proof. vm_compute. reflexivity. Qed.
Example dur4 : ParseDuration "9223372036854775808ns" = Err DurInvalid.
Proof. vm_compute. reflexivity. Qed.
Example dur5 : ParseDuration "0s" = Ok 0%Z.
Proof. vm_compute. reflexivity. Qed.
Example dur6 : ParseDuration "0.830103483285477580700h" = Ok 2988372539827%Z.
Proof. vm_compute. reflexivity. Qed.

(** ** Calendar and RFC 3339 *)

Local Open Scope Z_scope.

(** The proleptic Gregorian date of a day counted from 1970-01-01. *)
Definition civil (days : Z) : Z * Z * Z :=
  let z := days + 719468 in
  let era := z / 146097 in
  let doe := z - era * 146097 in
  let yoe := (doe - doe / 1460 + doe / 36524 - doe / 146096) / 365 in
  let doy := doe - (365 * yoe + yoe / 4 - yoe / 100) in
  let mp := (5 * doy + 2) / 153 in
  let d := doy - (153 * mp + 2) / 5 + 1 in
  let m := if mp <? 10 then mp + 3 else mp - 9 in
  (yoe + era * 400 + (if m <=? 2 then 1 else 0), m, d).

Fixpoint zeros (n : nat) : string := match n with O => "" | S n => String "0" (zeros n) end.

(** [appendInt]: at least [width] digits, the sign in front. *)
Definition append_int (n : Z) (width : nat) : string :=
  let ds := pretty (Z.to_N (Z.abs n)) in
  (if n <? 0 then "-" else "") +:+ zeros (width - String.length ds)%nat +:+ ds.

Fixpoint drop_zeros (r : string) : string :=
  match r with
  | String c r' => if Ascii.eqb c "0" then drop_zeros r' else r
  | "" => ""
  end.

(** A [time.Time] is a number of seconds since the epoch and nanoseconds. *)
Record Time := MkTime { tmSec : Z; tmNsec : Z }.

(** [IsZero]: January 1 of year 1. *)
Definition IsZero (t : Time) : bool := (tmSec t =? -62135596800) && (tmNsec t =? 0).

(** [t.UTC().Format(time.RFC3339Nano)]. *)
Definition FormatRFC3339Nano (t : Time) : string :=
  let '(y, m, d) := civil (tmSec t / 86400) in
  let s := tmSec t mod 86400 in
  append_int y 4 +:+ "-" +:+ append_int m 2 +:+ "-" +:+ append_int d 2 +:+ "T" +:+
  append_int (s / 3600) 2 +:+ ":" +:+ append_int (s mod 3600 / 60) 2 +:+ ":" +:+
  append_int (s mod 60) 2 +:+
  (if tmNsec t =? 0 then ""
   else "." +:+ String.rev (drop_zeros (String.rev (append_int (tmNsec t) 9)))) +:+ "Z".

Example time1 : FormatRFC3339Nano (MkTime 1767225599 120000000) = "2025-12-31T23:59:59.12Z".
Proof. vm_compute. reflexivity. Qed.
Example time2 : FormatRFC3339Nano (MkTime 951782400 0) = "2000-02-29T00:00:00Z".
Proof. vm_compute. reflexivity. Qed.
Example time3 : FormatRFC3339Nano (MkTime (-62135596800) 0) = "0001-01-01T00:00:00Z".
Proof. vm_compute. reflexivity. Qed.
