(* ===== verification/GoJson.v ===== *)
(** * [encoding/json] of the Go standard library

    What the program uses of it: [json.Marshal] of strings and of a
    [map[string]string], and decoding.  Decoding is in two steps, as a parser
    into a syntax tree ([json]; the scanner's grammar, with its nesting limit)
    and typed readers of the tree for the structs the program decodes into.
    An array element keeps its source text, which is what a [json.RawMessage]
    holds.  The parser takes fuel; [decode_fuel] shows that the fuel of
    the entry points is enough.

    Main results: a string in valid UTF-8, and a map of such strings, survive
    encoding and decoding. *)

From S2P Require Import Prelude GoStrings GoPath.
Local Open Scope string_scope.
Local Open Scope list_scope.

(** ** UTF-8 *)

Definition byte (z : Z) : string := String (ascii_of_nat (Z.to_nat z)) "".

(** [utf8.AppendRune]. *)
Definition encode_rune (r : Z) : string :=
  if (r <? 128)%Z then byte r
  else if (r <? 2048)%Z then
    byte (192 + Z.shiftr r 6)%Z +:+ byte (128 + Z.land r 63)%Z
  else if (r <? 65536)%Z then
    byte (224 + Z.shiftr r 12)%Z +:+ byte (128 + Z.land (Z.shiftr r 6) 63)%Z
    +:+ byte (128 + Z.land r 63)%Z
  else
    byte (240 + Z.shiftr r 18)%Z +:+ byte (128 + Z.land (Z.shiftr r 12) 63)%Z
    +:+ byte (128 + Z.land (Z.shiftr r 6) 63)%Z +:+ byte (128 + Z.land r 63)%Z.

Definition replacement : string := bytes [239; 191; 189].

Definition bad_rune (r : Z) (n : nat) : bool := (r =? rune_error)%Z && (n =? 1)%nat.

(** [utf8.ValidString]. *)
Fixpoint valid_utf8_fuel (fuel : nat) (s : string) : bool :=
  match fuel, s with
  | _, "" => true
  | O, _ => false
  | S fuel, _ =>
      let '(r, n) := decode_rune s in
      negb (bad_rune r n) && valid_utf8_fuel fuel (string_drop n s)
  end.
Definition valid_utf8 (s : string) : bool := valid_utf8_fuel (String.length s) s.

(** ** Encoding *)

Definition hex4 (z : Z) : string :=
  let d k := hex_digit (Z.to_nat (Z.land (Z.shiftr z k) 15)) in
  String (d 12%Z) (String (d 8%Z) (String (d 4%Z) (String (d 0%Z) ""))).

Definition unicode_escape (z : Z) : string := "\u" +:+ hex4 z.

(** One step of [appendString] with HTML escaping: what is written for the
    first rune, and the bytes it takes. *)
Definition encode_step (s : string) : string * nat :=
  let '(r, n) := decode_rune s in
  if (r <? 128)%Z then
    (if (r =? 34)%Z || (r =? 92)%Z then "\" +:+ byte r
     else if (r =? 8)%Z then "\b"
     else if (r =? 12)%Z then "\f"
     else if (r =? 10)%Z then "\n"
     else if (r =? 13)%Z then "\r"
     else if (r =? 9)%Z then "\t"
     else if (r <? 32)%Z || (r =? 60)%Z || (r =? 62)%Z || (r =? 38)%Z then unicode_escape r
     else byte r, 1%nat)
  else if bad_rune r n then ("\ufffd", 1%nat)
  else if (r =? 8232)%Z || (r =? 8233)%Z then (unicode_escape r, n)
  else (String.substring 0 n s, n).

Fixpoint encode_body (fuel : nat) (s : string) : string :=
  match fuel, s with
  | S fuel, String _ _ =>
      let '(out, n) := encode_step s in out +:+ encode_body fuel (string_drop n s)
  | _, _ => ""
  end.

Definition quote : string := bytes [34].

Definition marshal_string (s : string) : string :=
  quote +:+ encode_body (String.length s) s +:+ quote.

Definition key_less (a b : string * string) : bool := str_ltb a.1 b.1.

Definition marshal_members (kvs : list (string * string)) : string :=
  join "," (map (fun kv => marshal_string kv.1 +:+ ":" +:+ marshal_string kv.2) kvs).

(** A [map[string]string], keys sorted. *)
Definition marshal_map (m : gmap string string) : string :=
  "{" +:+ marshal_members (go_sort key_less (map_to_list m)) +:+ "}".

(** ** Parsing *)

#[warnings="-register-all"]
Inductive json :=
| JNull
| JBool (b : bool)
| JNum (lit : string)
| JStr (s : string)
| JArr (elems : list (string * json))
| JObj (members : list (string * json)).

Inductive json_error := JSyntax | JFuel.

#[export] Instance json_error_eq_dec : EqDecision json_error.
Proof. solve_decision. Defined.

Definition is_ws (c : ascii) : bool :=
  match nat_of_ascii c with 32 | 9 | 10 | 13 => true | _ => false end%nat.

Fixpoint skip_ws (s : string) : string :=
  match s with
  | "" => ""
  | String c r => if is_ws c then skip_ws r else s
  end.

Definition hex_val (c : ascii) : option Z :=
  let n := Z.of_nat (nat_of_ascii c) in
  if in_range 48 n 57 then Some (n - 48)%Z
  else if in_range 97 n 102 then Some (n - 87)%Z
  else if in_range 65 n 70 then Some (n - 55)%Z
  else None.

(** Four hexadecimal digits. *)
Definition get_hex4 (s : string) : option (Z * string) :=
  match s with
  | String a (String b (String c (String d r))) =>
      a ← hex_val a; b ← hex_val b; c ← hex_val c; d ← hex_val d;
      Some ((((a * 16 + b) * 16 + c) * 16 + d)%Z, r)
  | _ => None
  end.

(** [getu4]: a whole escape. *)
Definition get_u4 (s : string) : option (Z * string) := s' ← strip_prefix "\u" s; get_hex4 s'.

Definition is_surrogate (r : Z) : bool := in_range 55296 r 57343.

(** [utf16.DecodeRune]; [None] for the replacement character. *)
Definition utf16_decode (r1 r2 : Z) : option Z :=
  if in_range 55296 r1 56319 && in_range 56320 r2 57343
  then Some (Z.lor (Z.shiftl (r1 - 55296) 10) (r2 - 56320) + 65536)%Z
  else None.

(** What a [\uXXXX] with value [r] followed by [s] stands for. *)
Definition unescape_u (r : Z) (s : string) : string * string :=
  if is_surrogate r then
    match get_u4 s with
    | Some (r2, s') =>
        match utf16_decode r r2 with
        | Some d => (encode_rune d, s')
        | None => (replacement, s)
        end
    | None => (replacement, s)
    end
  else (encode_rune r, s).

Definition simple_escape (c : ascii) : option string :=
  match nat_of_ascii c with
  | 34 => Some quote | 92 => Some "\" | 47 => Some "/"
  | 98 => Some (bytes [8]) | 102 => Some (bytes [12]) | 110 => Some (bytes [10])
  | 114 => Some (bytes [13]) | 116 => Some (bytes [9])
  | _ => None
  end%nat.

(** One unit of a string literal: the bytes it stands for and the rest. *)
Definition string_unit (s : string) : option (string * string) :=
  match s with
  | "" => None
  | String c r =>
      if Ascii.eqb c "\" then
        match r with
        | "" => None
        | String e r' =>
            if Ascii.eqb e "u" then '(z, r'') ← get_hex4 r'; Some (unescape_u z r'')
            else (fun out => (out, r')) <$> simple_escape e
        end
      else
        let '(z, n) := decode_rune s in
        if (z <? 32)%Z then None
        else if bad_rune z n then Some (replacement, r)
        else Some (String.substring 0 n s, string_drop n s)
  end.

(** A string literal after its opening quote. *)
Fixpoint parse_string (fuel : nat) (s : string) : result json_error (string * string) :=
  match fuel with
  | O => Err JFuel
  | S fuel =>
      match s with
      | String c r =>
          if Ascii.eqb c (ascii_of_nat 34) then Ok ("", r)
          else match string_unit s with
               | None => Err JSyntax
               | Some (out, rest) =>
                   '(body, rest) ← parse_string fuel rest; Ok (out +:+ body, rest)
               end
      | "" => Err JSyntax
      end
  end.

Fixpoint take_digits (s : string) : string * string :=
  match s with
  | String c r => if is_digit c then let '(d, r) := take_digits r in (String c d, r) else ("", s)
  | "" => ("", "")
  end.

(** A number literal: sign, integer part without leading zeros, fraction,
    exponent. *)
Definition parse_number (s : string) : option (string * string) :=
  let '(sign, s) := match strip_prefix "-" s with Some r => ("-", r) | None => ("", s) end in
  '(int, s) ←
    match s with
    | String c r =>
        if Ascii.eqb c "0" then Some ("0", r)
        else if is_digit c then Some (take_digits s) else None
    | "" => None
    end;
  '(frac, s) ←
    match strip_prefix "." s with
    | None => Some ("", s)
    | Some r => let '(d, r) := take_digits r in
                if String.eqb d "" then None else Some ("." +:+ d, r)
    end;
  '(exp, s) ←
    match s with
    | String c r =>
        if Ascii.eqb c "e" || Ascii.eqb c "E" then
          let '(sg, r) :=
            match r with
            | String c' r' => if Ascii.eqb c' "+" || Ascii.eqb c' "-"
                              then (String c' "", r') else ("", r)
            | "" => ("", "")
            end in
          let '(d, r) := take_digits r in
          if String.eqb d "" then None else Some (String c sg +:+ d, r)
        else Some ("", s)
    | "" => Some ("", s)
    end;
  Some (sign +:+ int +:+ frac +:+ exp, s).

(** The text between a position and a later one. *)
Definition text_to (s rest : string) : string :=
  String.substring 0 (String.length s - String.length rest) s.

Definition of_opt {A} (o : option A) : result json_error A :=
  match o with Some a => Ok a | None => Err JSyntax end.

(** [maxNestingDepth]. *)
Definition max_depth : N := 10000.

Fixpoint parse_value (fuel : nat) (depth : N) (s : string) {struct fuel}
    : result json_error (json * string) :=
  match fuel with
  | O => Err JFuel
  | S fuel =>
      match s with
      | "" => Err JSyntax
      | String c r =>
          if Ascii.eqb c "{" then
            if (depth =? 0)%N then Err JSyntax else
            match strip_prefix "}" (skip_ws r) with
            | Some r => Ok (JObj [], r)
            | None =>
                '(kvs, r) ← parse_members fuel (depth - 1) (skip_ws r); Ok (JObj kvs, r)
            end
          else if Ascii.eqb c "[" then
            if (depth =? 0)%N then Err JSyntax else
            match strip_prefix "]" (skip_ws r) with
            | Some r => Ok (JArr [], r)
            | None =>
                '(vs, r) ← parse_elems fuel (depth - 1) (skip_ws r); Ok (JArr vs, r)
            end
          else if Ascii.eqb c (ascii_of_nat 34) then
            '(str, r) ← parse_string (S (String.length r)) r; Ok (JStr str, r)
          else if Ascii.eqb c "t" then
            r ← of_opt (strip_prefix "true" s); Ok (JBool true, r)
          else if Ascii.eqb c "f" then
            r ← of_opt (strip_prefix "false" s); Ok (JBool false, r)
          else if Ascii.eqb c "n" then
            r ← of_opt (strip_prefix "null" s); Ok (JNull, r)
          else
            '(lit, r) ← of_opt (parse_number s); Ok (JNum lit, r)
      end
  end
(** The elements of a non-empty array, from the first one on. *)
with parse_elems (fuel : nat) (depth : N) (s : string) {struct fuel}
    : result json_error (list (string * json) * string) :=
  match fuel with
  | O => Err JFuel
  | S fuel =>
      '(v, r) ← parse_value fuel depth s;
      let raw := text_to s r in
      match skip_ws r with
      | String c r =>
          if Ascii.eqb c "," then
            '(vs, r) ← parse_elems fuel depth (skip_ws r); Ok ((raw, v) :: vs, r)
          else if Ascii.eqb c "]" then Ok ([(raw, v)], r)
          else Err JSyntax
      | "" => Err JSyntax
      end
  end
(** The members of a non-empty object, from the first key on. *)
with parse_members (fuel : nat) (depth : N) (s : string) {struct fuel}
    : result json_error (list (string * json) * string) :=
  match fuel with
  | O => Err JFuel
  | S fuel =>
      match s with
      | String q r =>
          if negb (Ascii.eqb q (ascii_of_nat 34)) then Err JSyntax else
          '(k, r) ← parse_string (S (String.length r)) r;
          r ← of_opt (strip_prefix ":" (skip_ws r));
          '(v, r) ← parse_value fuel depth (skip_ws r);
          match skip_ws r with
          | String c r =>
              if Ascii.eqb c "," then
                '(kvs, r) ← parse_members fuel depth (skip_ws r); Ok ((k, v) :: kvs, r)
              else if Ascii.eqb c "}" then Ok ([(k, v)], r)
              else Err JSyntax
          | "" => Err JSyntax
          end
      | "" => Err JSyntax
      end
  end.

Definition json_fuel (s : string) : nat := (2 * String.length s + 2)%nat.

(** [json.NewDecoder(r).Decode]: the first value of the text. *)
Definition decode_first (s : string) : result json_error json :=
  '(v, _) ← parse_value (json_fuel s) max_depth (skip_ws s); Ok v.

(** [json.Unmarshal]: one value and nothing else. *)
Definition decode_whole (s : string) : result json_error json :=
  '(v, r) ← parse_value (json_fuel s) max_depth (skip_ws s);
  if String.eqb (skip_ws r) "" then Ok v else Err JSyntax.

(** ** Typed readers *)

(** [foldName] on one rune, as far as names in ASCII letters and underscores
    are concerned: the long s and the Kelvin sign fold to ASCII. *)
Fixpoint fold_name_fuel (fuel : nat) (s : string) : string :=
  match fuel, s with
  | S fuel, String c r =>
      let '(z, n) := decode_rune s in
      if (z <? 128)%Z then String (upper_byte c) (fold_name_fuel fuel r)
      else if (z =? 383)%Z then String "S" (fold_name_fuel fuel (string_drop n s))
      else if (z =? 8490)%Z then String "K" (fold_name_fuel fuel (string_drop n s))
      else String.substring 0 n s +:+ fold_name_fuel fuel (string_drop n s)
  | _, _ => ""
  end.
Definition fold_name (s : string) : string := fold_name_fuel (String.length s) s.

(** Does a key select the field of that (lower-case) name? *)
Definition is_field (name key : string) : bool :=
  String.eqb key name || String.eqb (fold_name key) (fold_name name).

(** A reader gives the value of a field after one more occurrence of it;
    [None] records a type error, which fails the decoding as a whole. *)
Definition read_string (old : string) (v : json) : option string :=
  match v with JStr s => Some s | JNull => Some old | _ => None end.

(** [strconv.ParseInt] of a number literal, base ten, 64 bits. *)
Fixpoint digits_Z (acc : Z) (s : string) : option Z :=
  match s with
  | "" => Some acc
  | String c r =>
      if is_digit c then digits_Z (acc * 10 + (Z.of_nat (nat_of_ascii c) - 48))%Z r else None
  end.
Definition parse_int (lit : string) : option Z :=
  let '(neg, ds) := match strip_prefix "-" lit with Some r => (true, r) | None => (false, lit) end in
  if String.eqb ds "" then None else
  z ← digits_Z 0 ds;
  let z := if neg then (- z)%Z else z in
  if bool_decide (in_int64 z) then Some z else None.

Definition read_int (old : Z) (v : json) : option Z :=
  match v with JNum lit => parse_int lit | JNull => Some old | _ => None end.

(** One member of an object read into a [map[string]string]. *)
Definition read_member (acc : option (gmap string string)) (kv : string * json)
    : option (gmap string string) :=
  m ← acc;
  match kv.2 with
  | JStr s => Some (<[kv.1 := s]> m)
  | JNull => Some (<[kv.1 := ""]> m)
  | _ => None
  end.

(** A [map[string]string] field: [None] is the nil map. *)
Definition read_map (old : option (gmap string string)) (v : json)
    : option (option (gmap string string)) :=
  match v with
  | JNull => Some None
  | JObj kvs => Some <$> foldl read_member (Some (default ∅ old)) kvs
  | _ => None
  end.

(** A [[]json.RawMessage] field: the source text of the elements. *)
Definition read_raws (old : list string) (v : json) : option (list string) :=
  match v with JNull => Some [] | JArr vs => Some (map fst vs) | _ => None end.

Example decode1 :
  decode_whole (" {" +:+ quote +:+ "a" +:+ quote +:+ ": [1, -0.5e3 ,true]}")
  = Ok (JObj [("a", JArr [("1", JNum "1"); ("-0.5e3", JNum "-0.5e3"); ("true", JBool true)])]).
Proof. reflexivity. Qed.
Example decode2 : decode_whole "{} x" = Err JSyntax.
Proof. reflexivity. Qed.
Example decode3 : decode_first "{} x" = Ok (JObj []).
Proof. reflexivity. Qed.
Example decode4 : decode_whole (quote +:+ "\ud83d\ude00\u0041\ud800" +:+ quote)
  = Ok (JStr (bytes [240; 159; 152; 128; 65; 239; 191; 189])).
Proof. reflexivity. Qed.
Example decode5 : decode_whole "01" = Err JSyntax.
Proof. reflexivity. Qed.
Example marshal1 : marshal_string ("<" +:+ bytes [9; 226; 128; 168; 255])
  = quote +:+ "\u003c\t\u2028\ufffd" +:+ quote.
Proof. reflexivity. Qed.

(** ** The fuel is enough *)

Lemma strip_prefix_shorter p s r :
  strip_prefix p s = Some r -> String.length s = (String.length p + String.length r)%nat.
Proof. intros ->%strip_prefix_Some. apply length_app_str. Qed.

Lemma skip_ws_length s : (String.length (skip_ws s) <= String.length s)%nat.
Proof. induction s as [|c s IH]; simpl; [done|]. destruct (is_ws c); simpl; lia. Qed.

Lemma get_hex4_length s z r : get_hex4 s = Some (z, r) -> (String.length r < String.length s)%nat.
Proof.
  unfold get_hex4. do 4 (destruct s as [|? s]; [done|]).
  intros H. simplify_option_eq. simpl. lia.
Qed.

Lemma unescape_u_length z s : (String.length (unescape_u z s).2 <= String.length s)%nat.
Proof.
  unfold unescape_u. destruct (is_surrogate z); [|done].
  destruct (get_u4 s) as [[z2 s']|] eqn:E; [|done].
  destruct (utf16_decode z z2); [|done]. simpl.
  unfold get_u4 in E. destruct (strip_prefix "\u" s) as [s''|] eqn:E'; [|done].
  apply strip_prefix_shorter in E'. apply get_hex4_length in E. simpl in *. lia.
Qed.

Lemma string_unit_length s out r :
  string_unit s = Some (out, r) -> (String.length r < String.length s)%nat.
Proof.
  unfold string_unit. destruct s as [|c s]; [done|].
  destruct (Ascii.eqb c "\").
  - destruct s as [|e s]; [done|]. destruct (Ascii.eqb e "u").
    + destruct (get_hex4 s) as [[z r']|] eqn:E; [|done]. apply get_hex4_length in E.
      pose proof (unescape_u_length z r') as Hu. simpl.
      destruct (unescape_u z r') as [o r'']. simpl in *. intros [= _ <-]. lia.
    + destruct (simple_escape e); [|done]. intros [= _ <-]. simpl. lia.
  - pose proof (decode_rune_size (String c s)) as Hn.
    destruct (decode_rune (String c s)) as [z n]. specialize (Hn ltac:(done)).
    destruct (z <? 32)%Z; [done|]. destruct (bad_rune z n).
    + intros [= _ <-]. simpl. lia.
    + intros [= _ <-]. rewrite length_string_drop. simpl in *. lia.
Qed.

Lemma parse_string_length fuel s out r :
  parse_string fuel s = Ok (out, r) -> (String.length r < String.length s)%nat.
Proof.
  revert s out. induction fuel as [|fuel IH]; intros s out; [done|].
  simpl. destruct s as [|c s]; [done|].
  destruct (Ascii.eqb c (ascii_of_nat 34)); [intros [= _ <-]; simpl; lia|].
  destruct (string_unit (String c s)) as [[o rest]|] eqn:E; [|done].
  apply string_unit_length in E. simpl.
  destruct (parse_string fuel rest) as [[b r']|] eqn:E'; [|done]. simpl.
  intros [= _ <-]. apply IH in E'. simpl in *. lia.
Qed.

Lemma parse_string_fuel fuel s :
  (String.length s < fuel)%nat -> parse_string fuel s <> Err JFuel.
Proof.
  revert s. induction fuel as [|fuel IH]; intros s Hf; [lia|].
  simpl. destruct s as [|c s]; [done|].
  destruct (Ascii.eqb c (ascii_of_nat 34)); [done|].
  destruct (string_unit (String c s)) as [[o rest]|] eqn:E; [|done].
  apply string_unit_length in E. specialize (IH rest).
  destruct (parse_string fuel rest) as [[b r']|e]; [done|]. simpl in *.
  intros [= ->]. apply IH; [lia|done].
Qed.

Lemma take_digits_length s : (String.length (take_digits s).2 <= String.length s)%nat.
Proof.
  induction s as [|c s IH]; [done|]. simpl. destruct (is_digit c); [|done].
  destruct (take_digits s). simpl in *. lia.
Qed.

Lemma parse_number_length s lit r :
  parse_number s = Some (lit, r) -> (String.length r < String.length s)%nat.
Proof.
  unfold parse_number.
  set (p := match strip_prefix "-" s with Some r => _ | None => _ end).
  assert (String.length p.2 <= String.length s)%nat as Hp.
  { subst p. destruct (strip_prefix "-" s) eqn:E; [|done].
    apply strip_prefix_shorter in E. simpl in *. lia. }
  destruct p as [sign s0]. simpl in *.
  destruct s0 as [|c s0]; [done|].
  set (o := if Ascii.eqb c "0" then Some ("0", s0) else _).
  assert (forall i x, o = Some (i, x) -> String.length x <= String.length s0)%nat as Ho.
  { subst o. destruct (Ascii.eqb c "0"); [by intros i x [= _ <-]|]. simpl.
    destruct (is_digit c) eqn:Ed; [|done]. pose proof (take_digits_length s0).
    destruct (take_digits s0). intros i x [= _ <-]. done. }
  destruct o as [[i s1]|]; [|done]. specialize (Ho i s1 eq_refl). simpl in *.
  set (o := match strip_prefix "." s1 with None => _ | Some r => _ end).
  assert (forall i x, o = Some (i, x) -> String.length x <= String.length s1)%nat as Ho2.
  { subst o. destruct (strip_prefix "." s1) as [r0|] eqn:E; [|by intros ?? [= _ <-]].
    apply strip_prefix_shorter in E. pose proof (take_digits_length r0).
    destruct (take_digits r0) as [d r1]. destruct (String.eqb d ""); [done|].
    intros ?? [= _ <-]. simpl in *. lia. }
  destruct o as [[f s2]|]; [|done]. specialize (Ho2 f s2 eq_refl). simpl in *.
  destruct s2 as [|e s2]; [intros [= _ <-]; simpl; lia|].
  destruct (_ || _); [|intros [= _ <-]; simpl in *; lia].
  set (q := match s2 with String _ _ => _ | "" => _ end).
  assert (String.length q.2 <= String.length s2)%nat as Hq.
  { subst q. destruct s2 as [|c' s2]; [done|]. destruct (_ || _); simpl; lia. }
  destruct q as [sg r0]. pose proof (take_digits_length r0).
  destruct (take_digits r0) as [d r1]. simpl in *.
  destruct (String.eqb d ""); [done|]. intros [= _ <-]. lia.
Qed.

#[global] Arguments parse_string : simpl never.

Ltac step_result H x E :=
  match type of H with
  | context [mbind _ ?r] => destruct r as [x|?] eqn:E; simpl in H; [|try done]
  end.

Lemma parse_shorter fuel :
  (forall d s v r, parse_value fuel d s = Ok (v, r) -> (String.length r < String.length s)%nat) /\
  (forall d s v r, parse_elems fuel d s = Ok (v, r) -> (String.length r < String.length s)%nat) /\
  (forall d s v r, parse_members fuel d s = Ok (v, r) -> (String.length r < String.length s)%nat).
Proof.
  induction fuel as [|fuel (IHv&IHe&IHm)]; [done|]. split_and!; intros d s v r; simpl.
  - destruct s as [|c s]; [done|].
    pose proof (skip_ws_length s) as Hws.
    destruct (Ascii.eqb c "{"); [destruct (d =? 0)%N; [done|]|].
    { destruct (strip_prefix "}" (skip_ws s)) as [r0|] eqn:E.
      - intros [= _ <-]. apply strip_prefix_shorter in E. simpl in *. lia.
      - intros Hb. step_result Hb p E'. destruct p as [kvs r1]. injection Hb as _ <-.
        apply IHm in E'. simpl. lia. }
    destruct (Ascii.eqb c "["); [destruct (d =? 0)%N; [done|]|].
    { destruct (strip_prefix "]" (skip_ws s)) as [r0|] eqn:E.
      - intros [= _ <-]. apply strip_prefix_shorter in E. simpl in *. lia.
      - intros Hb. step_result Hb p E'. destruct p as [kvs r1]. injection Hb as _ <-.
        apply IHe in E'. simpl. lia. }
    destruct (Ascii.eqb c (ascii_of_nat 34)).
    { intros Hb. step_result Hb p E'. destruct p as [str r1]. injection Hb as _ <-.
      apply parse_string_length in E'. simpl. lia. }
    assert (forall lit w, String.length lit <> 0%nat ->
      (r0 ← of_opt (strip_prefix lit (String c s)); Ok (w, r0)) = Ok (v, r) ->
      (String.length r < S (String.length s))%nat) as Hlit.
    { intros lit w Hne Hb. destruct (strip_prefix lit (String c s)) as [r0|] eqn:E; [|done].
      injection Hb as _ <-. apply strip_prefix_shorter in E. simpl in E. lia. }
    destruct (Ascii.eqb c "t"); [by apply Hlit|].
    destruct (Ascii.eqb c "f"); [by apply Hlit|].
    destruct (Ascii.eqb c "n"); [by apply Hlit|].
    destruct (parse_number (String c s)) as [[lit r0]|] eqn:E; [|done].
    intros [= _ <-]. by apply parse_number_length in E.
  - intros Hb. step_result Hb p E. destruct p as [w r0]. apply IHv in E.
    pose proof (skip_ws_length r0) as Hws.
    destruct (skip_ws r0) as [|c r1]; [done|].
    destruct (Ascii.eqb c ",").
    + step_result Hb p E'. destruct p as [vs r2]. injection Hb as _ <-.
      apply IHe in E'. pose proof (skip_ws_length r1). simpl in *. lia.
    + destruct (Ascii.eqb c "]"); [|done]. injection Hb as _ <-. simpl in *. lia.
  - destruct s as [|q s]; [done|]. destruct (negb _); [done|].
    intros Hb. step_result Hb p E. destruct p as [k r0]. apply parse_string_length in E.
    destruct (strip_prefix ":" (skip_ws r0)) as [r1|] eqn:E1; [|done]. simpl in Hb.
    apply strip_prefix_shorter in E1. pose proof (skip_ws_length r0).
    step_result Hb p E2. destruct p as [w r2]. apply IHv in E2.
    pose proof (skip_ws_length r1). pose proof (skip_ws_length r2).
    destruct (skip_ws r2) as [|c r3]; [done|].
    destruct (Ascii.eqb c ",").
    + step_result Hb p E'. destruct p as [vs r4]. injection Hb as _ <-.
      apply IHm in E'. pose proof (skip_ws_length r3). simpl in *. lia.
    + destruct (Ascii.eqb c "}"); [|done]. injection Hb as _ <-. simpl in *. lia.
Qed.

Lemma of_opt_fuel {A} (o : option A) : of_opt o <> Err JFuel.
Proof. by destruct o. Qed.

Lemma bind_fuel {A B} (r : result json_error A) (k : A -> result json_error B) :
  r <> Err JFuel -> (forall a, r = Ok a -> k a <> Err JFuel) -> r ≫= k <> Err JFuel.
Proof. destruct r as [a|e]; simpl; [auto|]. intros Hne _ [= ->]. done. Qed.

Lemma parse_fuel fuel :
  (forall d s, (2 * String.length s + 1 <= fuel)%nat -> parse_value fuel d s <> Err JFuel) /\
  (forall d s, (2 * String.length s + 2 <= fuel)%nat -> parse_elems fuel d s <> Err JFuel) /\
  (forall d s, (2 * String.length s + 2 <= fuel)%nat -> parse_members fuel d s <> Err JFuel).
Proof.
  induction fuel as [|fuel (IHv&IHe&IHm)]; [split_and!; intros; lia|].
  destruct (parse_shorter fuel) as (Sv&Se&Sm).
  split_and!; intros d s Hf; simpl.
  - destruct s as [|c s]; [done|]. simpl in Hf.
    pose proof (skip_ws_length s) as Hws.
    destruct (Ascii.eqb c "{"); [destruct (d =? 0)%N; [done|]|].
    { destruct (strip_prefix "}" (skip_ws s)); [done|].
      apply bind_fuel; [apply IHm; lia|by intros []]. }
    destruct (Ascii.eqb c "["); [destruct (d =? 0)%N; [done|]|].
    { destruct (strip_prefix "]" (skip_ws s)); [done|].
      apply bind_fuel; [apply IHe; lia|by intros []]. }
    destruct (Ascii.eqb c (ascii_of_nat 34)).
    { apply bind_fuel; [apply parse_string_fuel; lia|by intros []]. }
    repeat (case_match; [apply bind_fuel; [apply of_opt_fuel|done]|]).
    apply bind_fuel; [apply of_opt_fuel|by intros []].
  - apply bind_fuel; [apply IHv; lia|]. intros [w r0] Hv%Sv.
    pose proof (skip_ws_length r0). destruct (skip_ws r0) as [|c r1]; [done|].
    pose proof (skip_ws_length r1). simpl in *. repeat case_match; try done.
    apply bind_fuel; [apply IHe; lia|by intros []].
  - destruct s as [|q s]; [done|]. destruct (negb _); [done|]. simpl in Hf.
    apply bind_fuel; [apply parse_string_fuel; lia|]. intros [k r0] Hk%parse_string_length.
    apply bind_fuel; [apply of_opt_fuel|]. intros r1 Hr1.
    destruct (strip_prefix ":" (skip_ws r0)) eqn:E1; [|done]. injection Hr1 as ->.
    apply strip_prefix_shorter in E1. pose proof (skip_ws_length r0).
    pose proof (skip_ws_length r1). simpl in *.
    apply bind_fuel; [apply IHv; lia|]. intros [w r2] Hv%Sv.
    pose proof (skip_ws_length r2). destruct (skip_ws r2) as [|c r3]; [done|].
    pose proof (skip_ws_length r3). simpl in *. repeat case_match; try done.
    apply bind_fuel; [apply IHm; lia|by intros []].
Qed.

(** The entry points report a syntax error or a value, never lack of fuel. *)
Lemma decode_fuel s : decode_first s <> Err JFuel /\ decode_whole s <> Err JFuel.
Proof.
  assert (parse_value (json_fuel s) max_depth (skip_ws s) <> Err JFuel) as Hp.
  { apply parse_fuel. unfold json_fuel. pose proof (skip_ws_length s). lia. }
  unfold decode_first, decode_whole.
  split; (apply bind_fuel; [done|]); intros [v r] _; [done|by case_match].
Qed.

(** ** UTF-8 lemmas *)

Lemma lor_shift_add a b k : (0 <= k -> 0 <= b < 2 ^ k -> Z.lor (Z.shiftl a k) b = a * 2 ^ k + b)%Z.
Proof.
  intros Hk Hb. rewrite Z.shiftl_mul_pow2 by lia. symmetry. apply Z.add_nocarry_lor.
  apply Z.bits_inj'. intros i Hi. rewrite Z.land_spec, Z.bits_0.
  destruct (Z.ltb_spec i k).
  - by rewrite Z.mul_pow2_bits_low.
  - destruct (Z.eq_dec b 0) as [->|]; [by rewrite Z.bits_0, andb_false_r|].
    rewrite (Z.bits_above_log2 b i), andb_false_r; [done|lia|].
    apply Z.log2_lt_pow2; [lia|]. assert (2 ^ k <= 2 ^ i)%Z by (apply Z.pow_le_mono_r; lia). lia.
Qed.

Lemma land_ones_mod a k m : m = Z.ones k -> (0 <= k)%Z -> Z.land a m = (a mod 2 ^ k)%Z.
Proof. intros ->. apply Z.land_ones. Qed.

Lemma in_range_spec lo x hi : in_range lo x hi = true <-> (lo <= x <= hi)%Z.
Proof. unfold in_range. rewrite andb_true_iff, !Z.leb_le. done. Qed.

Lemma byte_at_range c : (0 <= byte_at c <= 255)%Z.
Proof. unfold byte_at. pose proof (nat_ascii_bounded c). lia. Qed.

Lemma byte_byte_at z c : z = byte_at c -> byte z = String c "".
Proof. intros ->. unfold byte, byte_at. rewrite Nat2Z.id. by rewrite ascii_nat_embedding. Qed.

Lemma substring_0_0 s : String.substring 0 0 s = "".
Proof. by destruct s. Qed.

(** The runes of two, three and four bytes are encoded by the bytes they are made of. *)
Lemma encode_rune_2 c0 c1 :
  (194 <= byte_at c0 <= 223 -> 128 <= byte_at c1 <= 191 ->
   encode_rune (Z.lor (Z.shiftl (Z.land (byte_at c0) 31) 6) (cont (byte_at c1)))
   = String c0 (String c1 ""))%Z.
Proof.
  intros R0 R1. unfold cont. rewrite (land_ones_mod _ 5), (land_ones_mod _ 6) by done.
  rewrite lor_shift_add by (pose proof (Z.mod_pos_bound (byte_at c1) (2 ^ 6)); lia).
  set (r := (_ + _)%Z).
  assert (r = (byte_at c0 - 192) * 64 + (byte_at c1 - 128))%Z as Hr
    by (subst r; Z.to_euclidean_division_equations; lia).
  unfold encode_rune. rewrite (proj2 (Z.ltb_ge r 128)), (proj2 (Z.ltb_lt r 2048)) by lia.
  rewrite Z.shiftr_div_pow2, (land_ones_mod _ 6) by done.
  by rewrite (byte_byte_at _ c0), (byte_byte_at _ c1)
    by (Z.to_euclidean_division_equations; lia).
Qed.

Lemma encode_rune_3 c0 c1 c2 :
  (224 <= byte_at c0 <= 239 -> 128 <= byte_at c1 <= 191 ->
   (byte_at c0 = 224 -> 160 <= byte_at c1) -> 128 <= byte_at c2 <= 191 ->
   encode_rune (Z.lor (Z.shiftl (Z.land (byte_at c0) 15) 12)
     (Z.lor (Z.shiftl (cont (byte_at c1)) 6) (cont (byte_at c2))))
   = String c0 (String c1 (String c2 "")))%Z.
Proof.
  intros R0 R1 R01 R2. unfold cont. rewrite (land_ones_mod _ 4), !(land_ones_mod _ 6) by done.
  pose proof (Z.mod_pos_bound (byte_at c2) (2 ^ 6)).
  pose proof (Z.mod_pos_bound (byte_at c1) (2 ^ 6)).
  rewrite (lor_shift_add _ (byte_at c2 mod 2 ^ 6) 6), (lor_shift_add _ _ 12) by lia.
  set (r := (_ + _)%Z).
  assert (r = (byte_at c0 - 224) * 4096 + (byte_at c1 - 128) * 64 + (byte_at c2 - 128))%Z as Hr
    by (subst r; Z.to_euclidean_division_equations; lia).
  unfold encode_rune. rewrite (proj2 (Z.ltb_ge r 128)), (proj2 (Z.ltb_ge r 2048)),
    (proj2 (Z.ltb_lt r 65536)) by lia.
  rewrite !Z.shiftr_div_pow2, !(land_ones_mod _ 6) by done.
  by rewrite (byte_byte_at _ c0), (byte_byte_at _ c1), (byte_byte_at _ c2)
    by (Z.to_euclidean_division_equations; lia).
Qed.

Lemma encode_rune_4 c0 c1 c2 c3 :
  (240 <= byte_at c0 <= 244 -> 128 <= byte_at c1 <= 191 ->
   (byte_at c0 = 240 -> 144 <= byte_at c1) ->
   128 <= byte_at c2 <= 191 -> 128 <= byte_at c3 <= 191 ->
   encode_rune (Z.lor (Z.shiftl (Z.land (byte_at c0) 7) 18)
     (Z.lor (Z.shiftl (cont (byte_at c1)) 12)
       (Z.lor (Z.shiftl (cont (byte_at c2)) 6) (cont (byte_at c3)))))
   = String c0 (String c1 (String c2 (String c3 ""))))%Z.
Proof.
  intros R0 R1 R01 R2 R3. unfold cont. rewrite (land_ones_mod _ 3), !(land_ones_mod _ 6) by done.
  pose proof (Z.mod_pos_bound (byte_at c3) (2 ^ 6)).
  pose proof (Z.mod_pos_bound (byte_at c2) (2 ^ 6)).
  pose proof (Z.mod_pos_bound (byte_at c1) (2 ^ 6)).
  rewrite (lor_shift_add _ (byte_at c3 mod 2 ^ 6) 6) by lia.
  rewrite (lor_shift_add (byte_at c1 mod 2 ^ 6) _ 12), (lor_shift_add _ _ 18) by lia.
  set (r := (_ + _)%Z).
  assert (r = (byte_at c0 - 240) * 262144 + (byte_at c1 - 128) * 4096
              + (byte_at c2 - 128) * 64 + (byte_at c3 - 128))%Z as Hr
    by (subst r; Z.to_euclidean_division_equations; lia).
  unfold encode_rune. rewrite (proj2 (Z.ltb_ge r 128)), (proj2 (Z.ltb_ge r 2048)),
    (proj2 (Z.ltb_ge r 65536)) by lia.
  rewrite !Z.shiftr_div_pow2, !(land_ones_mod _ 6) by done.
  by rewrite (byte_byte_at _ c0), (byte_byte_at _ c1), (byte_byte_at _ c2), (byte_byte_at _ c3)
    by (Z.to_euclidean_division_equations; lia).
Qed.

(** The encoding of a decoded rune is the bytes it was decoded from. *)
Lemma decode_rune_encode s r n :
  decode_rune s = (r, n) -> s <> "" -> bad_rune r n = false ->
  encode_rune r = String.substring 0 n s.
Proof.
  unfold decode_rune. intros H Hne Hbad.
  assert (forall r n, (rune_error, 1%nat) = (r, n) -> bad_rune r n = false -> False) as Hb
    by (intros ?? [= <- <-]; done).
  destruct s as [|c0 s]; [done|]. destruct (Z.ltb_spec (byte_at c0) 128) as [H0|H0].
  { injection H as <- <-. unfold encode_rune. rewrite (proj2 (Z.ltb_lt _ _) H0).
    rewrite (byte_byte_at _ c0) by done. simpl. by rewrite substring_0_0. }
  destruct s as [|c1 s]; [by destruct (Hb _ _ H)|].
  destruct (in_range 194 (byte_at c0) 223) eqn:E0.
  { destruct (in_range 128 (byte_at c1) 191) eqn:E1; [|by destruct (Hb _ _ H)].
    apply in_range_spec in E0, E1. injection H as <- <-.
    rewrite encode_rune_2 by done. simpl. by rewrite substring_0_0. }
  destruct s as [|c2 s]; [by destruct (Hb _ _ H)|].
  destruct (in_range 224 (byte_at c0) 239) eqn:E3.
  { match type of H with (if ?b then _ else _) = _ => destruct b eqn:E4 end;
      [|by destruct (Hb _ _ H)].
    apply andb_true_iff in E4 as [E4 E5]. apply in_range_spec in E3, E4, E5.
    injection H as <- <-. rewrite encode_rune_3
      by (destruct (Z.eqb_spec (byte_at c0) 224), (Z.eqb_spec (byte_at c0) 237); lia).
    simpl. by rewrite substring_0_0. }
  destruct s as [|c3 s]; [by destruct (Hb _ _ H)|].
  match type of H with (if ?b then _ else _) = _ => destruct b eqn:E4 end;
    [|by destruct (Hb _ _ H)].
  rewrite !andb_true_iff in E4. destruct E4 as [[[E4 E5] E6] E7].
  apply in_range_spec in E4, E5, E6, E7. injection H as <- <-.
  rewrite encode_rune_4
    by (destruct (Z.eqb_spec (byte_at c0) 240), (Z.eqb_spec (byte_at c0) 244); lia).
  simpl. by rewrite substring_0_0.
Qed.

(** What follows a valid rune does not matter. *)
Lemma decode_rune_prefix s r n t :
  decode_rune s = (r, n) -> s <> "" -> bad_rune r n = false ->
  decode_rune (String.substring 0 n s +:+ t) = (r, n) /\
  String.length (String.substring 0 n s) = n.
Proof.
  unfold decode_rune. intros H Hne Hbad.
  assert (forall r n, (rune_error, 1%nat) = (r, n) -> bad_rune r n = false -> False) as Hb
    by (intros ?? [= <- <-]; done).
  destruct s as [|c0 s]; [done|].
  destruct (byte_at c0 <? 128)%Z eqn:E.
  { injection H as <- <-. simpl. rewrite substring_0_0. simpl. by rewrite E. }
  destruct s as [|c1 s]; [by destruct (Hb _ _ H)|].
  destruct (in_range 194 (byte_at c0) 223) eqn:E0.
  { destruct (in_range 128 (byte_at c1) 191) eqn:E1; [|by destruct (Hb _ _ H)].
    injection H as <- <-. simpl. rewrite substring_0_0. simpl. by rewrite E, E0, E1. }
  destruct s as [|c2 s]; [by destruct (Hb _ _ H)|].
  destruct (in_range 224 (byte_at c0) 239) eqn:E3.
  { match type of H with (if ?b then _ else _) = _ => destruct b eqn:E4 end;
      [|by destruct (Hb _ _ H)].
    injection H as <- <-. simpl. rewrite substring_0_0. simpl. by rewrite E, E0, E3, E4. }
  destruct s as [|c3 s]; [by destruct (Hb _ _ H)|].
  match type of H with (if ?b then _ else _) = _ => destruct b eqn:E4 end;
    [|by destruct (Hb _ _ H)].
  injection H as <- <-. simpl. rewrite substring_0_0. simpl. by rewrite E, E0, E3, E4.
Qed.

(** ** Round trips *)

Lemma take_drop_str n s : String.substring 0 n s +:+ string_drop n s = s.
Proof.
  revert n; induction s as [|c s IH]; intros [|n]; simpl; [done..|].
  by rewrite IH.
Qed.

Lemma take_drop_app a t :
  String.substring 0 (String.length a) (a +:+ t) = a /\ string_drop (String.length a) (a +:+ t) = t.
Proof.
  induction a as [|c a [IH1 IH2]]; simpl; [by rewrite substring_0_0|]. by rewrite IH1.
Qed.

(** A string literal unit in the text: not the closing quote, read back as
    [chunk]. *)
Definition reads_as (out chunk t : string) : Prop :=
  string_unit (out +:+ t) = Some (chunk, t) /\
  exists c r, out = String c r /\ c <> ascii_of_nat 34.

Lemma hex_digit_val d : (0 <= d < 16)%Z -> hex_val (hex_digit (Z.to_nat d)) = Some d.
Proof.
  intros Hd. replace d with (Z.of_nat (Z.to_nat d)) at 2 by lia.
  assert (Z.to_nat d < 16)%nat as Hn by lia. clear Hd. revert Hn. generalize (Z.to_nat d).
  intros n Hn. do 16 (destruct n as [|n]; [done|]). lia.
Qed.

Lemma get_hex4_hex4 z t : (0 <= z < 65536)%Z -> get_hex4 (hex4 z +:+ t) = Some (z, t).
Proof.
  intros Hz. unfold hex4. cbn [String.append]. unfold get_hex4.
  rewrite !hex_digit_val by (rewrite (land_ones_mod _ 4) by done; apply Z.mod_pos_bound; lia).
  cbn [mbind option_bind]. do 2 f_equal.
  rewrite !(land_ones_mod _ 4), !Z.shiftr_div_pow2 by done.
  Z.to_euclidean_division_equations; lia.
Qed.

Lemma unicode_escape_unit z t :
  (0 <= z < 55296)%Z -> reads_as (unicode_escape z) (encode_rune z) t.
Proof.
  intros Hz. split; [|by eexists _, _].
  unfold unicode_escape. cbn [String.append]. unfold string_unit.
  change (Ascii.eqb "\" "\") with true. change (Ascii.eqb "u" "u") with true. cbv iota.
  rewrite get_hex4_hex4 by lia. cbn [mbind option_bind]. unfold unescape_u, is_surrogate, in_range.
  by rewrite (proj2 (Z.leb_gt 55296 z)) by lia.
Qed.

Lemma byte_at_inv c k : byte_at c = Z.of_nat k -> c = ascii_of_nat k.
Proof. unfold byte_at. intros H%Nat2Z.inj. by rewrite <- H, ascii_nat_embedding. Qed.

Lemma encode_step_ascii c s t :
  (byte_at c < 128)%Z ->
  (encode_step (String c s)).2 = 1%nat /\ reads_as (encode_step (String c s)).1 (String c "") t.
Proof.
  intros Hc. pose proof (byte_at_range c) as [H0 _].
  assert (encode_rune (byte_at c) = String c "") as Henc.
  { unfold encode_rune. rewrite (proj2 (Z.ltb_lt _ _) Hc). by apply byte_byte_at. }
  unfold encode_step, decode_rune. rewrite !(proj2 (Z.ltb_lt _ _) Hc).
  split; [done|]. cbn [fst].
  assert (forall k out, byte_at c = Z.of_nat k ->
    reads_as out (String (ascii_of_nat k) "") t -> reads_as out (String c "") t) as Hk
    by (by intros k out ->%byte_at_inv).
  destruct (Z.eqb_spec (byte_at c) 34) as [E34|N34].
  { apply (Hk 34%nat); [done|]. rewrite E34. split; [reflexivity|by eexists _, _]. }
  destruct (Z.eqb_spec (byte_at c) 92) as [E92|N92].
  { apply (Hk 92%nat); [done|]. rewrite E92. split; [reflexivity|by eexists _, _]. }
  cbn [orb].
  destruct (Z.eqb_spec (byte_at c) 8) as [E|];
    [apply (Hk 8%nat); [done|]; split; [reflexivity|by eexists _, _]|].
  destruct (Z.eqb_spec (byte_at c) 12) as [E|];
    [apply (Hk 12%nat); [done|]; split; [reflexivity|by eexists _, _]|].
  destruct (Z.eqb_spec (byte_at c) 10) as [E|];
    [apply (Hk 10%nat); [done|]; split; [reflexivity|by eexists _, _]|].
  destruct (Z.eqb_spec (byte_at c) 13) as [E|];
    [apply (Hk 13%nat); [done|]; split; [reflexivity|by eexists _, _]|].
  destruct (Z.eqb_spec (byte_at c) 9) as [E|];
    [apply (Hk 9%nat); [done|]; split; [reflexivity|by eexists _, _]|].
  destruct ((byte_at c <? 32)%Z || _ || _ || _) eqn:E.
  { rewrite <- Henc. apply unicode_escape_unit. lia. }
  rewrite !orb_false_iff, Z.ltb_ge in E. destruct E as [[[E _] _] _].
  rewrite (byte_byte_at _ c) by done. split.
  - cbn [String.append]. unfold string_unit.
    assert (Ascii.eqb c "\" = false) as ->
      by (apply Ascii.eqb_neq; intros ->; by apply N92).
    unfold decode_rune. rewrite (proj2 (Z.ltb_lt _ _) Hc), (proj2 (Z.ltb_ge _ _) E).
    replace (bad_rune (byte_at c) 1) with false; [simpl; by rewrite substring_0_0|].
    unfold bad_rune, rune_error. by rewrite (proj2 (Z.eqb_neq _ _)) by lia.
  - eexists _, _. split; [done|]. intros ->. by apply N34.
Qed.

Lemma encode_step_unit s t r n :
  s <> "" -> decode_rune s = (r, n) -> bad_rune r n = false ->
  (encode_step s).2 = n /\ reads_as (encode_step s).1 (String.substring 0 n s) t.
Proof.
  intros Hne Hd Hbad. destruct s as [|c s]; [done|].
  destruct (Z.ltb_spec (byte_at c) 128) as [Hc|Hc].
  { assert ((r, n) = (byte_at c, 1%nat)) as [= -> ->].
    { rewrite <- Hd. unfold decode_rune. by rewrite (proj2 (Z.ltb_lt _ _) Hc). }
    simpl. rewrite substring_0_0. by apply encode_step_ascii. }
  pose proof (decode_rune_encode _ _ _ Hd Hne Hbad) as Henc.
  destruct (decode_rune_prefix _ _ _ t Hd Hne Hbad) as [Hpre Hlen].
  assert (1 <= n)%nat as Hn by (pose proof (decode_rune_size (String c s) Hne) as Hs; by rewrite Hd in Hs).
  assert (128 <= r)%Z as Hr.
  { destruct (Z.ltb_spec r 128) as [Hr|]; [|done]. unfold encode_rune in Henc.
    rewrite (proj2 (Z.ltb_lt _ _) Hr) in Henc. destruct n as [|n]; [lia|].
    simpl in Henc. injection Henc as Hb _. rewrite <- Hb in Hc. unfold byte_at in Hc.
    assert (Z.of_nat (nat_of_ascii (ascii_of_nat (Z.to_nat r))) < 128)%Z; [|lia].
    destruct (Z.ltb_spec r 0); [replace (Z.to_nat r) with 0%nat by lia; done|].
    rewrite nat_ascii_embedding; lia. }
  unfold encode_step. rewrite Hd, (proj2 (Z.ltb_ge r 128)), Hbad by lia.
  destruct (_ || _) eqn:E.
  { split; [done|]. cbn [fst]. rewrite <- Henc. apply unicode_escape_unit.
    rewrite orb_true_iff, !Z.eqb_eq in E. lia. }
  split; [done|]. cbn [fst].
  destruct (String.substring 0 n (String c s)) as [|d q] eqn:Eq; rewrite ?Eq in Hpre, Hlen;
    [simpl in Hlen; lia|].
  assert (d = c) as -> by (destruct n; [lia|]; by injection Eq as ->).
  assert (forall k, (k < 128)%nat -> c <> ascii_of_nat k) as Hck.
  { intros k Hk ->. unfold byte_at in Hc. rewrite nat_ascii_embedding in Hc; lia. }
  split; [|eexists _, _; split; [done|by apply Hck; lia]].
  unfold string_unit. cbn [String.append] in *.
  assert (Ascii.eqb c "\" = false) as -> by (apply Ascii.eqb_neq, (Hck 92%nat); lia).
  rewrite Hpre, (proj2 (Z.ltb_ge r 32)), Hbad by lia.
  destruct (take_drop_app (String c q) t) as [Ht Hdr]. rewrite Hlen in Ht, Hdr.
  cbn [String.append] in Ht, Hdr. by rewrite Ht, Hdr.
Qed.

Lemma parse_encode_body fe fp s t :
  valid_utf8_fuel fe s = true -> (String.length (encode_body fe s) < fp)%nat ->
  parse_string fp (encode_body fe s +:+ quote +:+ t) = Ok (s, t).
Proof.
  revert fp s. induction fe as [|fe IH]; intros fp s Hv Hf.
  { destruct s; [|done]. destruct fp; [simpl in Hf; lia|done]. }
  destruct s as [|c s]; [destruct fp; [simpl in Hf; lia|done]|].
  destruct fp as [|fp]; [lia|]. cbn [valid_utf8_fuel] in Hv. cbn [encode_body] in *.
  destruct (decode_rune (String c s)) as [r n] eqn:Ed.
  apply andb_true_iff in Hv as [Hb%negb_true_iff Hv].
  set (rest := encode_body fe (string_drop n (String c s)) +:+ quote +:+ t).
  destruct (encode_step_unit (String c s) rest r n ltac:(done) Ed Hb) as (Hn&Hu&(d&o&Ho&Hd)).
  destruct (encode_step (String c s)) as [out n']. simpl in Hn, Hu, Ho. subst n'.
  rewrite <- app_assoc_str. fold rest.
  rewrite length_app_str in Hf. rewrite Ho in *. cbn [String.append] in *.
  unfold parse_string at 1. fold parse_string.
  rewrite (proj2 (Ascii.eqb_neq d (ascii_of_nat 34)) Hd). rewrite Hu.
  unfold rest. rewrite IH; [|done|simpl in Hf; lia].
  cbn [mbind result_bind]. do 2 f_equal. exact (take_drop_str n (String c s)).
Qed.

(** A string in valid UTF-8 survives encoding and decoding. *)
Lemma parse_marshal_string s t :
  valid_utf8 s = true ->
  exists r, marshal_string s +:+ t = String (ascii_of_nat 34) r /\
    parse_string (S (String.length r)) r = Ok (s, t).
Proof.
  intros Hv. exists (encode_body (String.length s) s +:+ quote +:+ t). split.
  - unfold marshal_string. rewrite <- !app_assoc_str. done.
  - apply parse_encode_body; [done|]. rewrite !length_app_str. lia.
Qed.

(** A name of the source, that is, without characters that are escaped. *)
Definition utf8_map (m : gmap string string) : Prop :=
  map_Forall (fun k v => valid_utf8 k = true /\ valid_utf8 v = true) m.

Definition utf8_members (kvs : list (string * string)) : Prop :=
  Forall (fun kv => valid_utf8 kv.1 = true /\ valid_utf8 kv.2 = true) kvs.

Definition str_members (kvs : list (string * string)) : list (string * json) :=
  map (fun kv => (kv.1, JStr kv.2)) kvs.

Lemma skip_ws_quote r : skip_ws (String (ascii_of_nat 34) r) = String (ascii_of_nat 34) r.
Proof. done. Qed.

(** A string value in the text. *)
Lemma parse_value_string fuel d s t :
  valid_utf8 s = true -> (0 < fuel)%nat ->
  parse_value fuel d (marshal_string s +:+ t) = Ok (JStr s, t).
Proof.
  intros Hv Hf. destruct fuel as [|fuel]; [lia|]. destruct (parse_marshal_string s t Hv) as (r&->&Hr).
  cbn [parse_value]. 
  change (Ascii.eqb (ascii_of_nat 34) "{") with false.
  change (Ascii.eqb (ascii_of_nat 34) "[") with false.
  change (Ascii.eqb (ascii_of_nat 34) (ascii_of_nat 34)) with true. cbv iota.
  by rewrite Hr.
Qed.

(** The members of an object of strings, up to the closing brace. *)
Lemma parse_marshal_members kvs fuel d t :
  kvs <> [] -> utf8_members kvs -> (length kvs < fuel)%nat ->
  parse_members fuel d (marshal_members kvs +:+ "}" +:+ t) = Ok (str_members kvs, t).
Proof.
  revert fuel. induction kvs as [|[k v] kvs IH]; intros fuel Hne Hu Hf; [done|].
  apply Forall_cons in Hu as [[Hk Hv] Hu]. simpl in Hk, Hv.
  destruct fuel as [|fuel]; [lia|]. simpl in Hf.
  set (tail := (if decide (kvs = []) then "}" +:+ t
                else "," +:+ marshal_members kvs +:+ "}" +:+ t)).
  assert (marshal_members ((k, v) :: kvs) +:+ "}" +:+ t
          = marshal_string k +:+ ":" +:+ marshal_string v +:+ tail) as ->.
  { unfold tail. destruct kvs as [|kv kvs].
    - unfold marshal_members. cbn [map join fst snd]. rewrite <- !app_assoc_str. done.
    - rewrite decide_False by done.
      change (marshal_members ((k, v) :: kv :: kvs))
        with ((marshal_string k +:+ ":" +:+ marshal_string v) +:+ "," +:+ marshal_members (kv :: kvs)).
      by rewrite <- !app_assoc_str. }
  destruct (parse_marshal_string k (":" +:+ marshal_string v +:+ tail) Hk) as (r&->&Hr).
  cbn [parse_members]. change (Ascii.eqb (ascii_of_nat 34) (ascii_of_nat 34)) with true.
  cbn [negb]. rewrite Hr. cbn [mbind result_bind].
  change (strip_prefix ":" (skip_ws (":" +:+ marshal_string v +:+ tail)))
    with (Some (marshal_string v +:+ tail)). cbn [of_opt mbind result_bind].
  change (skip_ws (marshal_string v +:+ tail)) with (marshal_string v +:+ tail).
  rewrite parse_value_string by (done || lia). cbn [mbind result_bind].
  unfold tail. destruct kvs as [|kv kvs]; [done|].
  rewrite decide_False by done. cbn [String.append skip_ws].
  change (is_ws ",") with false. cbv iota. change (Ascii.eqb "," ",") with true. cbv iota.
  destruct kv as [k' v'].
  assert (skip_ws (marshal_members ((k', v') :: kvs) +:+ "}" +:+ t)
          = marshal_members ((k', v') :: kvs) +:+ "}" +:+ t) as Hws by (by destruct kvs).
  cbn [String.append] in Hws. rewrite Hws.
  specialize (IH fuel). cbn [String.append] in IH.
  rewrite IH; [done|done|done|simpl in *; lia].
Qed.

(** ** Maps of strings *)

#[export] Instance not_less_key_trans : Transitive (not_less key_less).
Proof.
  intros x y z. unfold not_less, key_less. rewrite !str_ltb_not_le.
  intros H1 H2. by trans y.1.
Qed.

Definition insert_member (m : gmap string string) (kv : string * string) : gmap string string :=
  <[kv.1 := kv.2]> m.

Lemma read_members m kvs :
  foldl read_member (Some m) (str_members kvs) = Some (foldl insert_member m kvs).
Proof. revert m. induction kvs as [|[k v] kvs IH]; intros m; simpl; [done|apply IH]. Qed.

Lemma foldl_insert_map (l : list (string * string)) (m : gmap string string) :
  NoDup l.*1 -> (forall k, k ∈ l.*1 -> m !! k = None) ->
  foldl insert_member m l = list_to_map l ∪ m.
Proof.
  revert m. induction l as [|[k v] l IH]; intros m Hnd Hm; simpl; [by rewrite (left_id_L ∅ (∪))|].
  apply NoDup_cons in Hnd as [Hk Hnd]. rewrite IH; [|done|].
  - unfold insert_member. simpl.
    rewrite <- insert_union_r; [|by apply not_elem_of_list_to_map]. by rewrite insert_union_l.
  - intros k' Hk'. unfold insert_member. simpl in *.
    rewrite lookup_insert_ne; [|by intros ->]. apply Hm. by right.
Qed.

(** The members of a marshalled map read back as the map. *)
Lemma read_map_sorted (m : gmap string string) :
  read_map None (JObj (str_members (go_sort key_less (map_to_list m)))) = Some (Some m).
Proof.
  unfold read_map. cbn [default]. rewrite read_members.
  pose proof (go_sort_perm key_less (map_to_list m)) as Hp.
  assert (NoDup (go_sort key_less (map_to_list m)).*1) as Hnd
    by (rewrite Hp; apply NoDup_fst_map_to_list).
  rewrite foldl_insert_map; [|done|intros; apply lookup_empty].
  by rewrite (right_id_L ∅ (∪)), (list_to_map_proper _ _ Hnd Hp), list_to_map_to_list.
Qed.

(** [json.Marshal] of a map, parsed: the object of its members. *)
Lemma parse_marshal_map m fuel d t :
  utf8_map m -> (String.length (marshal_map m) < fuel)%nat -> (0 < d)%N ->
  parse_value fuel d (marshal_map m +:+ t)
  = Ok (JObj (str_members (go_sort key_less (map_to_list m))), t).
Proof.
  intros Hu Hf Hd. unfold marshal_map in *.
  pose proof (go_sort_perm key_less (map_to_list m)) as Hp.
  set (kvs := go_sort key_less (map_to_list m)) in *.
  assert (utf8_members kvs) as Hkvs.
  { unfold utf8_members. rewrite Hp. apply map_Forall_to_list in Hu.
    eapply Forall_impl; [exact Hu|]. by intros []. }
  assert (length kvs <= String.length (marshal_members kvs))%nat as Hl.
  { clear. unfold marshal_members. induction kvs as [|kv kvs IH]; [simpl; lia|].
    destruct kvs as [|kv' kvs]; [simpl; lia|].
    change (join "," (map _ (kv :: kv' :: kvs))) with
      ((marshal_string kv.1 +:+ ":" +:+ marshal_string kv.2) +:+ "," +:+
       join "," (map (fun kv => marshal_string kv.1 +:+ ":" +:+ marshal_string kv.2) (kv' :: kvs))).
    rewrite !length_app_str. simpl in *. lia. }
  destruct fuel as [|fuel]; [lia|].
  cbn [String.append parse_value]. change (Ascii.eqb "{" "{") with true. cbv iota.
  destruct (N.eqb_spec d 0); [lia|].
  destruct kvs as [|[k v] kvs'] eqn:Ek.
  - reflexivity.
  - rewrite <- !app_assoc_str.
    assert (skip_ws (marshal_members ((k, v) :: kvs') +:+ "}" +:+ t)
            = marshal_members ((k, v) :: kvs') +:+ "}" +:+ t) as ->.
    { destruct kvs'; done. }
    assert (strip_prefix "}" (marshal_members ((k, v) :: kvs') +:+ "}" +:+ t) = None) as ->.
    { destruct kvs'; done. }
    rewrite parse_marshal_members; [done|done|done|].
    cbn [String.append String.length] in Hf. rewrite !length_app_str in Hf. simpl in *. lia.
Qed.
