(* ===== verification/CondSet.v ===== *)
(** * Condition sets ([knative.dev/pkg/apis], condition_set.go)

    The condition manager every YipYapSource status goes through.  The
    conditions of a resource are a list; [time.Now()] is the reading
    [clock n] of the [n]-th call, for an arbitrary [clock], with the call
    counter in the state.  A [nil] accessor does not occur: the callers pass
    the address of a status.  The [messageFormat, messageA...] arguments are
    passed formatted.

    Results: a well-formedness invariant that every operation preserves, the
    exact effect of [SetCondition] on lookups, and the refinement of the
    abstract machine [spec_mark]: after any Mark* of a dependent, every
    dependent has the status the abstract machine says and the happy condition
    is the aggregate of the dependents. *)

From S2P Require Import Prelude GoStrings.
Local Open Scope string_scope.
Local Open Scope list_scope.

(** ** Data *)

Definition ConditionType := string.

Definition ConditionReady : ConditionType := "Ready".
Definition ConditionSucceeded : ConditionType := "Succeeded".

(** [corev1.ConditionStatus]. *)
Definition ConditionTrue : string := "True".
Definition ConditionFalse : string := "False".
Definition ConditionUnknown : string := "Unknown".

(** [ConditionSeverity]. *)
Definition ConditionSeverityError : string := "".
Definition ConditionSeverityWarning : string := "Warning".
Definition ConditionSeverityInfo : string := "Info".

(** The zero [VolatileTime]. *)
Definition zero_time : Z := 0.

Record Condition := MkCondition {
  cType : ConditionType;
  cStatus : string;
  cSeverity : string;
  cLastTransitionTime : Z;
  cReason : string;
  cMessage : string
}.

#[export] Instance Condition_eq_dec : EqDecision Condition.
Proof. solve_decision. Defined.

Definition with_time (tm : Z) (c : Condition) : Condition :=
  MkCondition (cType c) (cStatus c) (cSeverity c) tm (cReason c) (cMessage c).

(** [IsTrue], [IsFalse], [IsUnknown] on a condition pointer; [None] is nil. *)
Definition IsTrue (c : option Condition) : bool :=
  match c with None => false | Some c => String.eqb (cStatus c) ConditionTrue end.
Definition IsFalse (c : option Condition) : bool :=
  match c with None => false | Some c => String.eqb (cStatus c) ConditionFalse end.
Definition IsUnknown (c : option Condition) : bool :=
  match c with None => true | Some c => String.eqb (cStatus c) ConditionUnknown end.

Record ConditionSet := MkConditionSet {
  happy : ConditionType;
  dependents : list ConditionType
}.

(** The duplicate-skipping loop of [newConditionSet]. *)
Definition newConditionSet (h : ConditionType) (ds : list ConditionType) : ConditionSet :=
  MkConditionSet h
    (fold_left (fun deps d =>
       if String.eqb d h || bool_decide (d ∈ deps) then deps else deps ++ [d]) ds []).

Definition NewLivingConditionSet (ds : list ConditionType) : ConditionSet :=
  newConditionSet ConditionReady ds.

(** The managed state: the condition list and the number of clock readings. *)
Record cstate := CState { conds : list Condition; ticks : nat }.

(** ** Operations *)

Fixpoint find_cond (t : ConditionType) (l : list Condition) : option Condition :=
  match l with
  | [] => None
  | c :: l => if String.eqb (cType c) t then Some c else find_cond t l
  end.

Definition GetCondition (t : ConditionType) (st : cstate) : option Condition :=
  find_cond t (conds st).

Definition GetTopLevelCondition (r : ConditionSet) (st : cstate) : option Condition :=
  GetCondition (happy r) st.

Definition IsHappy (r : ConditionSet) (st : cstate) : bool :=
  IsTrue (GetTopLevelCondition r st).

(** The loop of [SetCondition]: [None] is the early return when only the
    transition time would change. *)
Fixpoint set_scan (cond : Condition) (l : list Condition) : option (list Condition) :=
  match l with
  | [] => Some []
  | c :: l =>
      if negb (String.eqb (cType c) (cType cond)) then (c ::.) <$> set_scan cond l
      else if bool_decide (with_time (cLastTransitionTime c) cond = c) then None
      else set_scan cond l
  end.

Definition type_less (a b : Condition) : bool := str_ltb (cType a) (cType b).

Definition isTerminal (r : ConditionSet) (t : ConditionType) : bool :=
  bool_decide (t ∈ dependents r) || String.eqb t (happy r).

Definition severity (r : ConditionSet) (t : ConditionType) : string :=
  if isTerminal r t then ConditionSeverityError else ConditionSeverityInfo.

(** [ClearCondition]: [Err] for a terminal condition. *)
Definition ClearCondition (r : ConditionSet) (t : ConditionType) (st : cstate)
    : result unit cstate :=
  if isTerminal r t then Err tt
  else match GetCondition t st with
       | None => Ok st
       | Some _ =>
           Ok (CState (go_sort type_less
                         (filter (fun c => negb (String.eqb (cType c) t)) (conds st)))
                      (ticks st))
       end.

Definition later (a b : Condition) : bool :=
  (cLastTransitionTime b <? cLastTransitionTime a)%Z.

Definition first_such (p : option Condition -> bool) (l : list Condition) : option Condition :=
  head (filter (fun c => p (Some c)) l).

Definition findUnhappyDependent (r : ConditionSet) (st : cstate) : option Condition :=
  if (length (dependents r) =? 0)%nat then None else
  let terminal c :=
    String.eqb (cSeverity c) ConditionSeverityError && negb (String.eqb (cType c) (happy r)) in
  let cs := go_sort later (filter terminal (conds st)) in
  match first_such IsFalse cs with
  | Some c => Some c
  | None =>
      match first_such IsUnknown cs with
      | Some c => Some c
      | None =>
          if (length cs <? length (dependents r))%nat
          then Some (MkCondition "" ConditionUnknown "" zero_time "" "")
          else None
      end
  end.

Section manager.
Context (clock : nat -> Z).

Definition SetCondition (cond : Condition) (st : cstate) : cstate :=
  match set_scan cond (conds st) with
  | None => st
  | Some cs =>
      CState (go_sort type_less (cs ++ [with_time (clock (ticks st)) cond])) (S (ticks st))
  end.

Definition recomputeHappiness (r : ConditionSet) (t : ConditionType) (st : cstate) : cstate :=
  match findUnhappyDependent r st with
  | Some c =>
      SetCondition (MkCondition (happy r) (cStatus c) (severity r (happy r))
                      zero_time (cReason c) (cMessage c)) st
  | None =>
      if negb (String.eqb t (happy r)) then
        SetCondition (MkCondition (happy r) ConditionTrue (severity r (happy r))
                        zero_time "" "") st
      else st
  end.

Definition MarkTrueWithReason (r : ConditionSet) (t : ConditionType) (reason message : string)
    (st : cstate) : cstate :=
  recomputeHappiness r t
    (SetCondition (MkCondition t ConditionTrue (severity r t) zero_time reason message) st).

Definition MarkTrue (r : ConditionSet) (t : ConditionType) (st : cstate) : cstate :=
  recomputeHappiness r t
    (SetCondition (MkCondition t ConditionTrue (severity r t) zero_time "" "") st).

Definition MarkFalse (r : ConditionSet) (t : ConditionType) (reason message : string)
    (st : cstate) : cstate :=
  let types := t :: flat_map (fun cond => if String.eqb cond t then [happy r] else [])
                      (dependents r) in
  fold_left (fun st t =>
    SetCondition (MkCondition t ConditionFalse (severity r t) zero_time reason message) st)
    types st.

(** The loop of [MarkUnknown] over the dependents: the first failed one ends
    the call ([inl]), otherwise whether [t] is a dependent ([inr]). *)
Fixpoint unknown_loop (r : ConditionSet) (t : ConditionType) (reason message : string)
    (ds : list ConditionType) (isDependent : bool) (st : cstate) : cstate + bool :=
  match ds with
  | [] => inr isDependent
  | cond :: ds =>
      if IsFalse (GetCondition cond st) then
        inl (if negb (IsFalse (GetCondition (happy r) st))
             then MarkFalse r (happy r) reason message st else st)
      else unknown_loop r t reason message ds
             (if String.eqb cond t then true else isDependent) st
  end.

Definition MarkUnknown (r : ConditionSet) (t : ConditionType) (reason message : string)
    (st : cstate) : cstate :=
  let st := SetCondition
    (MkCondition t ConditionUnknown (severity r t) zero_time reason message) st in
  match unknown_loop r t reason message (dependents r) false st with
  | inl st' => st'
  | inr true =>
      SetCondition (MkCondition (happy r) ConditionUnknown (severity r (happy r))
                      zero_time reason message) st
  | inr false => st
  end.

Definition initializeTerminalCondition (t : ConditionType) (status : string) (st : cstate)
    : cstate :=
  match GetCondition t st with
  | Some _ => st
  | None => SetCondition (MkCondition t status ConditionSeverityError zero_time "" "") st
  end.

Definition InitializeConditions (r : ConditionSet) (st : cstate) : cstate :=
  let '(h, st) :=
    match GetCondition (happy r) st with
    | Some h => (h, st)
    | None =>
        let h := MkCondition (happy r) ConditionUnknown ConditionSeverityError
                   zero_time "" "" in
        (h, SetCondition h st)
    end in
  let status := if String.eqb (cStatus h) ConditionTrue
                then ConditionTrue else ConditionUnknown in
  fold_left (fun st t => initializeTerminalCondition t status st) (dependents r) st.
End manager.

(** ** Well-formed states *)

(** The condition sets [newConditionSet] builds: no duplicates, the happy
    condition is not among the dependents. *)
Definition ok_set (r : ConditionSet) : Prop :=
  NoDup (dependents r) /\ happy r ∉ dependents r.

Definition tracked (r : ConditionSet) (t : ConditionType) : Prop :=
  t = happy r \/ t ∈ dependents r.

Definition std_status (s : string) : Prop :=
  s = ConditionTrue \/ s = ConditionFalse \/ s = ConditionUnknown.

(** Sorted by type, one condition per type, tracked types only, severity
    error, one of the three statuses. *)
Record wf (r : ConditionSet) (st : cstate) : Prop := {
  wf_nodup : NoDup (cType <$> conds st);
  wf_sorted : StronglySorted (not_less type_less) (conds st);
  wf_tracked : Forall (fun c => tracked r (cType c)) (conds st);
  wf_severity : Forall (fun c => cSeverity c = ConditionSeverityError) (conds st);
  wf_status : Forall (fun c => std_status (cStatus c)) (conds st)
}.

(** Every tracked condition is present: the state after initialization. *)
Definition complete (r : ConditionSet) (st : cstate) : Prop :=
  forall t, tracked r t -> is_Some (GetCondition t st).

Lemma newConditionSet_ok h ds : ok_set (newConditionSet h ds).
Proof.
  unfold newConditionSet, ok_set. simpl.
  assert (forall acc, NoDup acc -> h ∉ acc ->
    let out := fold_left (fun deps d =>
       if String.eqb d h || bool_decide (d ∈ deps) then deps else deps ++ [d]) ds acc in
    NoDup out /\ h ∉ out) as H.
  { induction ds as [|d ds IH]; intros acc Hnd Hh; simpl; [done|].
    destruct (String.eqb_spec d h) as [->|Hne]; simpl; [by apply IH|].
    case_bool_decide as Hin; [by apply IH|]. apply IH.
    - apply NoDup_app. split_and!; [done| |apply NoDup_singleton].
      intros x Hx ->%list_elem_of_singleton. done.
    - set_solver. }
  apply (H []); [constructor|set_solver].
Qed.

(** ** Lookups *)

Lemma type_less_asym x y : type_less x y = true -> type_less y x = false.
Proof. apply str_ltb_asym. Qed.

#[export] Instance not_less_type_trans : Transitive (not_less type_less).
Proof.
  intros x y z. unfold not_less, type_less. rewrite !str_ltb_not_le.
  intros H1 H2. by trans (cType y).
Qed.

Lemma find_cond_Some t l c : find_cond t l = Some c -> c ∈ l /\ cType c = t.
Proof.
  induction l as [|c' l IH]; simpl; [done|].
  destruct (String.eqb_spec (cType c') t) as [<-|Hne]; [intros [= ->]; set_solver|].
  intros [??]%IH. set_solver.
Qed.

Lemma find_cond_None t l : find_cond t l = None <-> t ∉ cType <$> l.
Proof.
  induction l as [|c' l IH]; simpl; [set_solver|].
  destruct (String.eqb_spec (cType c') t) as [<-|Hne]; set_solver.
Qed.

Lemma find_cond_elem l c :
  NoDup (cType <$> l) -> c ∈ l -> find_cond (cType c) l = Some c.
Proof.
  induction l as [|c' l IH]; simpl; [set_solver|].
  intros [Hn Hnd]%NoDup_cons. intros [->|Hc]%elem_of_cons.
  - by rewrite String.eqb_refl.
  - destruct (String.eqb_spec (cType c') (cType c)) as [E|Hne]; [|auto].
    destruct Hn. rewrite E. by apply list_elem_of_fmap_2.
Qed.

Lemma find_cond_perm t l l' :
  NoDup (cType <$> l) -> l ≡ₚ l' -> find_cond t l = find_cond t l'.
Proof.
  intros Hnd Hp. destruct (find_cond t l) as [c|] eqn:E.
  - apply find_cond_Some in E as [Hc <-]. symmetry. apply find_cond_elem.
    + by rewrite <- Hp.
    + by rewrite <- Hp.
  - apply find_cond_None in E. symmetry. apply find_cond_None. by rewrite <- Hp.
Qed.

Lemma set_scan_Some cond l l' :
  set_scan cond l = Some l' -> l' = filter (fun c => cType c <> cType cond) l.
Proof.
  revert l'. induction l as [|c l IH]; intros l'; simpl; [by intros [= <-]|].
  rewrite filter_cons.
  destruct (String.eqb_spec (cType c) (cType cond)) as [E|Hne]; simpl.
  - rewrite decide_False by naive_solver. case_bool_decide; [done|]. apply IH.
  - rewrite decide_True by done. destruct (set_scan cond l) as [l''|]; [|done].
    simpl. intros [= <-]. by rewrite (IH l'').
Qed.

Lemma set_scan_None cond l :
  set_scan cond l = None ->
  exists c, c ∈ l /\ cType c = cType cond /\ with_time (cLastTransitionTime c) cond = c.
Proof.
  induction l as [|c l IH]; simpl; [done|].
  destruct (String.eqb_spec (cType c) (cType cond)) as [E|Hne]; simpl.
  - case_bool_decide; [intros _; exists c; set_solver|]. intros (c'&?&?)%IH. set_solver.
  - destruct (set_scan cond l) as [l''|]; [done|]. intros _.
    destruct IH as (c'&?&?); [done|]. set_solver.
Qed.

(** The no-op: the condition is already there, up to its transition time. *)
Lemma set_scan_present cond l tm :
  find_cond (cType cond) l = Some (with_time tm cond) -> set_scan cond l = None.
Proof.
  induction l as [|c l IH]; simpl; [done|].
  destruct (String.eqb_spec (cType c) (cType cond)) as [E|Hne]; simpl.
  - intros [= ->]. rewrite bool_decide_true; [done|]. done.
  - intros H%IH. by rewrite H.
Qed.

Section manager_lemmas.
Context (clock : nat -> Z).

Lemma SetCondition_noop cond st tm :
  GetCondition (cType cond) st = Some (with_time tm cond) ->
  SetCondition clock cond st = st.
Proof. intros H. unfold SetCondition. by rewrite (set_scan_present _ _ tm). Qed.

(** The list after a [SetCondition] that stores. *)
Lemma SetCondition_conds cond st :
  SetCondition clock cond st = st /\
    (exists tm, with_time tm cond ∈ conds st) \/
  conds (SetCondition clock cond st) ≡ₚ
    with_time (clock (ticks st)) cond :: filter (fun c => cType c <> cType cond) (conds st).
Proof.
  unfold SetCondition. destruct (set_scan cond (conds st)) as [cs|] eqn:E; simpl.
  - right. apply set_scan_Some in E as ->. rewrite go_sort_perm.
    by rewrite Permutation_app_comm.
  - left. split; [done|]. apply set_scan_None in E as (c&Hc&_&Ht).
    exists (cLastTransitionTime c). by rewrite Ht.
Qed.

Lemma NoDup_filter_types P `{!forall x, Decision (P x)} l :
  NoDup (cType <$> l) -> NoDup (cType <$> filter P l).
Proof.
  induction l as [|c l IH]; simpl; [done|]. intros [Hn Hnd]%NoDup_cons.
  rewrite filter_cons. case_decide; [|by apply IH]. simpl. constructor; [|by apply IH].
  intros (x&Hx1&Hx2)%list_elem_of_fmap. apply Hn. rewrite Hx1.
  apply list_elem_of_fmap_2. by apply list_elem_of_filter in Hx2 as [_ ?].
Qed.

Lemma NoDup_set_types cond l tm :
  NoDup (cType <$> l) ->
  NoDup (cType <$> (with_time tm cond :: filter (fun c => cType c <> cType cond) l)).
Proof.
  intros Hnd. simpl. constructor; [|by apply NoDup_filter_types].
  intros (x&Hx1&Hx2)%list_elem_of_fmap. apply list_elem_of_filter in Hx2 as [? _]. congruence.
Qed.

Lemma SetCondition_NoDup cond st :
  NoDup (cType <$> conds st) -> NoDup (cType <$> conds (SetCondition clock cond st)).
Proof.
  intros Hnd. destruct (SetCondition_conds cond st) as [[-> _]|H]; [done|].
  rewrite H. by apply NoDup_set_types.
Qed.

(** [SetCondition] stores its argument, up to the transition time... *)
Lemma get_SetCondition_same cond st :
  NoDup (cType <$> conds st) ->
  exists tm, GetCondition (cType cond) (SetCondition clock cond st) = Some (with_time tm cond).
Proof.
  intros Hnd. unfold GetCondition.
  destruct (SetCondition_conds cond st) as [[-> [tm Htm]]|H].
  - exists tm. by apply (find_cond_elem _ (with_time tm cond)).
  - exists (clock (ticks st)). rewrite <- (find_cond_perm _ _ _ (NoDup_set_types _ _ _ Hnd) (symmetry H)).
    simpl. by rewrite String.eqb_refl.
Qed.

(** ... and changes no other condition. *)
Lemma get_SetCondition_other cond st t :
  NoDup (cType <$> conds st) -> t <> cType cond ->
  GetCondition t (SetCondition clock cond st) = GetCondition t st.
Proof.
  intros Hnd Hne. unfold GetCondition.
  destruct (SetCondition_conds cond st) as [[-> _]|H]; [done|].
  rewrite <- (find_cond_perm _ _ _ (NoDup_set_types _ _ _ Hnd) (symmetry H)). simpl.
  destruct (String.eqb_spec (cType cond) t); [congruence|].
  clear -Hne. induction (conds st) as [|c l IH]; simpl; [done|].
  rewrite filter_cons. destruct (String.eqb_spec (cType c) t) as [<-|].
  - rewrite decide_True by done. simpl. by rewrite String.eqb_refl.
  - case_decide; [|done]. simpl. by destruct (String.eqb_spec (cType c) t).
Qed.

Lemma SetCondition_wf r cond st :
  wf r st -> tracked r (cType cond) -> cSeverity cond = ConditionSeverityError ->
  std_status (cStatus cond) -> wf r (SetCondition clock cond st).
Proof.
  intros Hwf Ht Hsev Hst. pose proof (SetCondition_NoDup cond st (wf_nodup _ _ Hwf)) as Hnd.
  destruct (SetCondition_conds cond st) as [[-> _]|H]; [done|].
  assert (StronglySorted (not_less type_less) (conds (SetCondition clock cond st))) as Hs.
  { unfold SetCondition. destruct (set_scan cond (conds st)); [|apply Hwf].
    apply go_sort_sorted; [apply type_less_asym|apply _]. }
  destruct Hwf. split; [done|done| | |]; rewrite H; (constructor; [done|]);
    by apply Forall_filter.
Qed.
End manager_lemmas.

(** ** The abstract machine

    A view gives the status of each condition type.  A mark of a dependent
    sets that dependent and then the happy condition to the aggregate: False
    when some dependent is False, else Unknown when some dependent is Unknown
    (or absent), else True. *)

Definition view_t : Type := ConditionType -> option string.
Definition view (st : cstate) : view_t := fun t => cStatus <$> GetCondition t st.

Definition aggregate (r : ConditionSet) (v : view_t) : string :=
  if bool_decide (Exists (fun d => v d = Some ConditionFalse) (dependents r)) then ConditionFalse
  else if bool_decide (Exists (fun d => v d = Some ConditionUnknown \/ v d = None) (dependents r))
  then ConditionUnknown
  else ConditionTrue.

Inductive mark :=
| MTrue (t : ConditionType)
| MFalse (t : ConditionType) (reason message : string)
| MUnknown (t : ConditionType) (reason message : string).

Definition mark_type (m : mark) : ConditionType :=
  match m with MTrue t | MFalse t _ _ | MUnknown t _ _ => t end.
Definition mark_status (m : mark) : string :=
  match m with
  | MTrue _ => ConditionTrue
  | MFalse _ _ _ => ConditionFalse
  | MUnknown _ _ _ => ConditionUnknown
  end.

Definition exec_mark (clock : nat -> Z) (r : ConditionSet) (m : mark) (st : cstate) : cstate :=
  match m with
  | MTrue t => MarkTrue clock r t st
  | MFalse t reason message => MarkFalse clock r t reason message st
  | MUnknown t reason message => MarkUnknown clock r t reason message st
  end.

Definition set_view (t : ConditionType) (s : string) (v : view_t) : view_t :=
  fun t' => if String.eqb t' t then Some s else v t'.

Definition spec_mark (r : ConditionSet) (m : mark) (v : view_t) : view_t :=
  let v' := set_view (mark_type m) (mark_status m) v in
  set_view (happy r) (aggregate r v') v'.

Lemma aggregate_ext r v v' :
  (forall d, d ∈ dependents r -> v d = v' d) -> aggregate r v = aggregate r v'.
Proof.
  intros H. unfold aggregate.
  assert (forall P : option string -> Prop,
    Exists (fun d => P (v d)) (dependents r) <-> Exists (fun d => P (v' d)) (dependents r)) as HE.
  { intros P. rewrite !Exists_exists.
    split; intros (d&Hd&Hv); exists d; (split; [done|]).
    - by rewrite <- H.
    - by rewrite H. }
  rewrite (bool_decide_ext _ _ (HE (fun o => o = Some ConditionFalse))).
  by rewrite (bool_decide_ext _ _ (HE (fun o => o = Some ConditionUnknown \/ o = None))).
Qed.

Lemma first_such_Some p l c : first_such p l = Some c -> c ∈ l /\ p (Some c) = true.
Proof.
  unfold first_such. intros H%head_Some_elem_of.
  apply list_elem_of_filter in H as [?%Is_true_true ?]. done.
Qed.

Lemma first_such_None p l : first_such p l = None -> forall c, c ∈ l -> p (Some c) = false.
Proof.
  unfold first_such. intros H%head_None c Hc. destruct (p (Some c)) eqn:E; [|done].
  assert (c ∈ filter (fun c => p (Some c)) l) as Hf
    by (apply list_elem_of_filter; by rewrite E).
  rewrite H in Hf. set_solver.
Qed.

Section refinement.
Context (clock : nat -> Z) (r : ConditionSet) (Hr : ok_set r).

Lemma terminal_severity t : tracked r t -> severity r t = ConditionSeverityError.
Proof.
  intros Ht. unfold severity, isTerminal.
  destruct Ht as [->|Ht]; [by rewrite String.eqb_refl, orb_true_r|].
  by rewrite bool_decide_true.
Qed.

(** One [SetCondition] of a manager operation. *)
Lemma step_wf t status reason message st :
  wf r st -> tracked r t -> std_status status ->
  wf r (SetCondition clock (MkCondition t status (severity r t) zero_time reason message) st).
Proof. intros. apply SetCondition_wf; simpl; auto using terminal_severity. Qed.

Lemma step_view t status sev reason message st :
  wf r st ->
  forall t', view (SetCondition clock (MkCondition t status sev zero_time reason message) st) t'
  = set_view t status (view st) t'.
Proof.
  intros Hwf t'. unfold view, set_view.
  destruct (String.eqb_spec t' t) as [->|Hne].
  - destruct (get_SetCondition_same clock (MkCondition t status sev zero_time reason message) st)
      as [tm Htm]; [apply Hwf|]. simpl in Htm. by rewrite Htm.
  - rewrite get_SetCondition_other; [done|apply Hwf|done].
Qed.

(** The candidates [findUnhappyDependent] looks at are the dependents. *)
Definition dep_conds (st : cstate) : list Condition :=
  go_sort later (filter (fun c =>
    String.eqb (cSeverity c) ConditionSeverityError && negb (String.eqb (cType c) (happy r)))
    (conds st)).

Lemma elem_of_dep_conds st c :
  wf r st -> c ∈ dep_conds st <->
    cType c ∈ dependents r /\ GetCondition (cType c) st = Some c.
Proof.
  intros Hwf. unfold dep_conds. rewrite go_sort_perm, list_elem_of_filter.
  rewrite Is_true_true, andb_true_iff, negb_true_iff, String.eqb_eq, String.eqb_neq.
  split.
  - intros [[_ Hne] Hc]. split.
    + pose proof (wf_tracked _ _ Hwf) as Ht. rewrite Forall_forall in Ht.
      by destruct (Ht c Hc).
    + apply find_cond_elem; [apply Hwf|done].
  - intros [Hd Hg]. apply find_cond_Some in Hg as [Hc _]. split_and!; [| |done].
    + pose proof (wf_severity _ _ Hwf) as Hs. rewrite Forall_forall in Hs. auto.
    + intros E. apply Hr. by rewrite <- E.
Qed.

Lemma dep_conds_length st :
  wf r st -> (length (dep_conds st) < length (dependents r))%nat <->
    Exists (fun d => view st d = None) (dependents r).
Proof.
  intros Hwf.
  assert (NoDup (cType <$> dep_conds st)) as Hnd.
  { unfold dep_conds. rewrite go_sort_perm. apply NoDup_filter_types, Hwf. }
  assert (forall d, d ∈ cType <$> dep_conds st <-> d ∈ dependents r /\ view st d <> None) as Hel.
  { intros d. rewrite list_elem_of_fmap. unfold view. split.
    - intros (c&->&Hc). apply elem_of_dep_conds in Hc as [? ->]; done.
    - intros [Hd Hv]. destruct (GetCondition d st) as [c|] eqn:E; [|done].
      assert (cType c = d) as <- by (by apply find_cond_Some in E as [_ ?]).
      exists c. by rewrite elem_of_dep_conds. }
  rewrite <- (length_fmap cType). split.
  - intros Hlt. apply dec_stable. intros Hn.
    assert (dependents r ⊆+ cType <$> dep_conds st) as Hsub.
    { apply NoDup_submseteq; [apply Hr|]. intros d Hd. apply Hel. split; [done|].
      intros E. apply Hn, Exists_exists. eauto. }
    apply submseteq_length in Hsub. lia.
  - intros (d&Hd&Hv)%Exists_exists.
    assert (d :: (cType <$> dep_conds st) ⊆+ dependents r) as Hsub.
    { apply NoDup_submseteq.
      - constructor; [|done]. rewrite Hel. naive_solver.
      - intros x [->|Hx]%elem_of_cons; [done|]. by apply Hel in Hx as [? _]. }
    apply submseteq_length in Hsub. simpl in Hsub. lia.
Qed.

Lemma dependents_empty st : (length (dependents r) =? 0)%nat = true ->
  aggregate r (view st) = ConditionTrue.
Proof. intros H%Nat.eqb_eq%nil_length_inv. unfold aggregate. by rewrite H. Qed.

(** [findUnhappyDependent] computes the aggregate. *)
Lemma findUnhappyDependent_aggregate st :
  wf r st ->
  match findUnhappyDependent r st with
  | Some c => aggregate r (view st) = cStatus c /\ cStatus c <> ConditionTrue
              /\ std_status (cStatus c)
  | None => aggregate r (view st) = ConditionTrue
  end.
Proof.
  intros Hwf. unfold findUnhappyDependent. fold (dep_conds st).
  destruct (length (dependents r) =? 0)%nat eqn:E0; [by apply dependents_empty|].
  unfold aggregate.
  destruct (first_such IsFalse (dep_conds st)) as [c|] eqn:E1.
  { apply first_such_Some in E1 as [Hc Hf].
    apply elem_of_dep_conds in Hc as [Hd Hg]; [|done].
    simpl in Hf. apply String.eqb_eq in Hf.
    rewrite bool_decide_true; [rewrite Hf; split_and!; [done..|right; by left]|].
    apply Exists_exists. exists (cType c). unfold view. rewrite Hg. simpl. by rewrite Hf. }
  rewrite bool_decide_false.
  2:{ intros (d&Hd&Hv)%Exists_exists. unfold view in Hv.
      destruct (GetCondition d st) as [c|] eqn:E; [|done].
      pose proof (find_cond_Some _ _ _ E) as [_ <-].
      pose proof (first_such_None _ _ E1 c) as Hf.
      rewrite elem_of_dep_conds in Hf by done. simpl in *. simplify_eq.
      rewrite Hv in Hf. specialize (Hf ltac:(done)). done. }
  destruct (first_such IsUnknown (dep_conds st)) as [c|] eqn:E2.
  { apply first_such_Some in E2 as [Hc Hf].
    apply elem_of_dep_conds in Hc as [Hd Hg]; [|done].
    simpl in Hf. apply String.eqb_eq in Hf.
    rewrite bool_decide_true; [rewrite Hf; split_and!; [done..|right; by right]|].
    apply Exists_exists. exists (cType c). unfold view. rewrite Hg. simpl. rewrite Hf. auto. }
  destruct (length (dep_conds st) <? length (dependents r))%nat eqn:E3.
  { apply Nat.ltb_lt, dep_conds_length in E3; [|done]. simpl.
    rewrite bool_decide_true; [split_and!; [done..|right; by right]|].
    eapply Exists_impl; [exact E3|]. auto. }
  rewrite bool_decide_false; [done|].
  intros (d&Hd&[Hv|Hv])%Exists_exists.
  - unfold view in Hv. destruct (GetCondition d st) as [c|] eqn:E; [|done].
    pose proof (find_cond_Some _ _ _ E) as [_ <-].
    pose proof (first_such_None _ _ E2 c) as Hf.
    rewrite elem_of_dep_conds in Hf by done. simpl in *. simplify_eq.
    rewrite Hv in Hf. by specialize (Hf ltac:(done)).
  - apply Nat.ltb_ge in E3. assert (Exists (fun d => view st d = None) (dependents r)) as He
      by (apply Exists_exists; eauto).
    apply dep_conds_length in He; [lia|done].
Qed.

Lemma recompute_refines t st :
  wf r st -> t <> happy r ->
  wf r (recomputeHappiness clock r t st) /\
  forall t', view (recomputeHappiness clock r t st) t'
    = set_view (happy r) (aggregate r (view st)) (view st) t'.
Proof.
  intros Hwf Hne. pose proof (findUnhappyDependent_aggregate st Hwf) as Hf.
  unfold recomputeHappiness.
  destruct (findUnhappyDependent r st) as [c|].
  - destruct Hf as (->&_&Hs). split.
    + apply step_wf; [done|by left|done].
    + intros t'. by apply step_view.
  - rewrite Hf. destruct (String.eqb_spec t (happy r)); [done|]. simpl. split.
    + apply step_wf; [done|by left|by left].
    + intros t'. by apply step_view.
Qed.

Lemma mark_false_types t :
  t ∈ dependents r ->
  flat_map (fun cond => if String.eqb cond t then [happy r] else []) (dependents r) = [happy r].
Proof.
  destruct Hr as [Hnd _]. induction (dependents r) as [|d ds IH]; [set_solver|].
  apply NoDup_cons in Hnd as [Hd Hnd]. simpl. intros Ht.
  destruct (String.eqb_spec d t) as [->|Hne].
  - simpl. f_equal. clear IH Ht Hnd. induction ds as [|e ds IH]; [done|]. simpl.
    destruct (String.eqb_spec e t) as [->|]; [set_solver|]. apply IH. set_solver.
  - apply IH; [done|]. set_solver.
Qed.

Lemma mark_false_happy_types :
  flat_map (fun cond => if String.eqb cond (happy r) then [happy r] else []) (dependents r) = [].
Proof.
  destruct Hr as [_ Hh]. induction (dependents r) as [|d ds IH]; [done|]. simpl.
  destruct (String.eqb_spec d (happy r)) as [->|]; [set_solver|]. apply IH. set_solver.
Qed.

Lemma unknown_loop_spec t reason message ds b st :
  match unknown_loop clock r t reason message ds b st with
  | inl st' =>
      Exists (fun d => view st d = Some ConditionFalse) ds /\
      st' = (if negb (IsFalse (GetCondition (happy r) st))
             then MarkFalse clock r (happy r) reason message st else st)
  | inr b' =>
      ~ Exists (fun d => view st d = Some ConditionFalse) ds /\
      b' = b || bool_decide (t ∈ ds)
  end.
Proof.
  assert (forall d, IsFalse (GetCondition d st) = true <-> view st d = Some ConditionFalse) as HF.
  { intros d. unfold view. destruct (GetCondition d st) as [c|]; simpl; [|done].
    rewrite String.eqb_eq. split; [by intros ->|by intros [= ->]]. }
  revert b. induction ds as [|d ds IH]; intros b; simpl.
  { split; [by intros ?%Exists_nil|]. by rewrite orb_false_r. }
  destruct (IsFalse (GetCondition d st)) eqn:E.
  - split; [|done]. constructor. by apply HF.
  - specialize (IH (if String.eqb d t then true else b)).
    destruct (unknown_loop _ _ _ _ _ ds _ st) as [st'|b'].
    + destruct IH as [? ->]. split; [by constructor 2|done].
    + destruct IH as [Hn ->]. split.
      * intros [H|H]%Exists_cons; [apply HF in H; congruence|done].
      * destruct (String.eqb_spec d t) as [->|Hne]; simpl.
        -- rewrite (bool_decide_true (t ∈ t :: ds)) by set_solver. by rewrite orb_true_r.
        -- f_equal. apply bool_decide_ext. set_solver.
Qed.

Lemma set_view_ext t s v v' t' :
  (forall t, v t = v' t) -> set_view t s v t' = set_view t s v' t'.
Proof. intros H. unfold set_view. by rewrite H. Qed.

Lemma set_view_id t s v t' : v t = Some s -> set_view t s v t' = v t'.
Proof. intros H. unfold set_view. by destruct (String.eqb_spec t' t) as [->|]. Qed.

(** A mark first sets the condition it is about. *)
Lemma set_mark_refines t s reason message st :
  wf r st -> t ∈ dependents r -> std_status s ->
  let st1 := SetCondition clock (MkCondition t s (severity r t) zero_time reason message) st in
  wf r st1 /\ (forall t', view st1 t' = set_view t s (view st) t').
Proof.
  intros Hwf Ht Hs. split; [apply step_wf; [done|by right|done]|by apply step_view].
Qed.

Lemma dependent_not_happy t : t ∈ dependents r -> t <> happy r.
Proof. intros Ht ->. by apply Hr. Qed.

Lemma aggregate_false v :
  Exists (fun d => v d = Some ConditionFalse) (dependents r) -> aggregate r v = ConditionFalse.
Proof. intros Hv. unfold aggregate. by rewrite bool_decide_true. Qed.

Lemma exists_set_view t s v :
  t ∈ dependents r -> Exists (fun d => set_view t s v d = Some s) (dependents r).
Proof.
  intros Ht. apply Exists_exists. exists t. split; [done|].
  unfold set_view. by rewrite String.eqb_refl.
Qed.

Lemma MarkTrue_refines t st :
  wf r st -> t ∈ dependents r ->
  wf r (MarkTrue clock r t st) /\
  forall t', view (MarkTrue clock r t st) t' = spec_mark r (MTrue t) (view st) t'.
Proof.
  intros Hwf Ht.
  destruct (set_mark_refines t ConditionTrue "" "" st Hwf Ht) as [Hwf1 Hv1]; [by left|].
  destruct (recompute_refines t _ Hwf1 (dependent_not_happy _ Ht)) as [Hwf2 Hv2].
  split; [done|]. intros t'. unfold MarkTrue, spec_mark. rewrite Hv2. cbn [mark_type mark_status].
  rewrite (aggregate_ext r _ _ (fun d _ => Hv1 d)). by apply set_view_ext.
Qed.

Lemma MarkFalse_refines t reason message st :
  wf r st -> t ∈ dependents r ->
  wf r (MarkFalse clock r t reason message st) /\
  forall t', view (MarkFalse clock r t reason message st) t'
    = spec_mark r (MFalse t reason message) (view st) t'.
Proof.
  intros Hwf Ht.
  destruct (set_mark_refines t ConditionFalse reason message st Hwf Ht) as [Hwf1 Hv1];
    [by right; left|].
  unfold MarkFalse. rewrite mark_false_types by done. simpl. split.
  - apply step_wf; [done|by left|by right; left].
  - intros t'. rewrite step_view by done. unfold spec_mark. cbn [mark_type mark_status].
    rewrite aggregate_false by by apply exists_set_view. by apply set_view_ext.
Qed.

Lemma MarkUnknown_refines t reason message st :
  wf r st -> t ∈ dependents r ->
  wf r (MarkUnknown clock r t reason message st) /\
  forall t', view (MarkUnknown clock r t reason message st) t'
    = spec_mark r (MUnknown t reason message) (view st) t'.
Proof.
  intros Hwf Ht. destruct (set_mark_refines t ConditionUnknown reason message st Hwf Ht)
    as [Hwf1 Hv1]; [by right; right|].
  unfold MarkUnknown, spec_mark. cbn [mark_type mark_status].
  set (st1 := SetCondition clock _ st) in *.
  rewrite <- (aggregate_ext r _ _ (fun d _ => Hv1 d)).
  pose proof (unknown_loop_spec t reason message (dependents r) false st1) as Hl.
  destruct (unknown_loop _ _ _ _ _ (dependents r) false st1) as [st'|b] eqn:El.
  - destruct Hl as [Hex ->]. rewrite aggregate_false by done.
    destruct (IsFalse (GetCondition (happy r) st1)) eqn:Eh; simpl.
    + split; [done|]. intros t'. rewrite <- (set_view_ext _ _ _ _ _ Hv1), set_view_id; [done|].
      unfold view. destruct (GetCondition (happy r) st1); [|done].
      simpl in *. by apply String.eqb_eq in Eh as ->.
    + unfold MarkFalse. rewrite mark_false_happy_types. simpl. split.
      * apply step_wf; [done|by left|right; by left].
      * intros t'. rewrite step_view by done. by apply set_view_ext.
  - destruct Hl as [Hnex ->]. rewrite bool_decide_true by done. simpl. split.
    + apply step_wf; [done|by left|right; by right].
    + intros t'. rewrite step_view by done.
      replace (aggregate r _) with ConditionUnknown; [by apply set_view_ext|].
      unfold aggregate. rewrite bool_decide_false by done. rewrite bool_decide_true; [done|].
      apply Exists_exists. exists t. split; [done|]. left. rewrite Hv1. unfold set_view.
      by rewrite String.eqb_refl.
Qed.

(** The manager refines the abstract machine: the invariant is kept and the
    statuses are exactly those of [spec_mark]. *)
Lemma exec_mark_refines m st :
  wf r st -> mark_type m ∈ dependents r ->
  wf r (exec_mark clock r m st) /\
  forall t, view (exec_mark clock r m st) t = spec_mark r m (view st) t.
Proof.
  intros Hwf Hm.
  destruct m; [by apply MarkTrue_refines|by apply MarkFalse_refines|by apply MarkUnknown_refines].
Qed.

(** Completeness is kept as well. *)
Lemma complete_view st : complete r st <-> forall t, tracked r t -> view st t <> None.
Proof.
  unfold complete, view. split; intros H t Ht; specialize (H t Ht).
  - destruct (GetCondition t st); [done|by destruct H].
  - destruct (GetCondition t st); [done|done].
Qed.

Lemma exec_mark_complete m st :
  wf r st -> mark_type m ∈ dependents r -> complete r st ->
  complete r (exec_mark clock r m st).
Proof.
  rewrite !complete_view. intros Hwf Hm Hc t Ht.
  rewrite (proj2 (exec_mark_refines m st Hwf Hm)).
  unfold spec_mark, set_view. specialize (Hc t Ht). repeat case_match; done.
Qed.

(** Sequences of marks. *)
Fixpoint exec_marks (ms : list mark) (st : cstate) : cstate :=
  match ms with [] => st | m :: ms => exec_marks ms (exec_mark clock r m st) end.

Lemma exec_marks_wf ms st :
  wf r st -> Forall (fun m => mark_type m ∈ dependents r) ms -> wf r (exec_marks ms st).
Proof.
  intros Hwf Hms. revert st Hwf. induction Hms as [|m ms Hm Hms IH]; intros st Hwf; [done|].
  apply IH. by apply exec_mark_refines.
Qed.

(** ** Initialization *)

Lemma initializeTerminalCondition_spec t status st :
  wf r st -> tracked r t -> std_status status ->
  wf r (initializeTerminalCondition clock t status st) /\
  forall t', view (initializeTerminalCondition clock t status st) t' =
    match view st t' with Some s => Some s
    | None => if String.eqb t' t then Some status else None end.
Proof.
  intros Hwf Ht Hs. unfold initializeTerminalCondition.
  destruct (GetCondition t st) as [c|] eqn:E.
  - split; [done|]. intros t'. destruct (view st t') eqn:Ev; [done|].
    destruct (String.eqb_spec t' t) as [->|]; [|done].
    unfold view in Ev. by rewrite E in Ev.
  - split; [by apply SetCondition_wf|].
    intros t'. rewrite step_view by done. unfold set_view.
    destruct (String.eqb_spec t' t) as [->|]; [|by destruct (view st t')].
    unfold view. by rewrite E.
Qed.

(** [InitializeConditions] keeps what is set and fills the rest: the happy
    condition with Unknown, the dependents with True when the happy
    condition is True and Unknown otherwise. *)
Lemma InitializeConditions_spec st :
  wf r st ->
  let st' := InitializeConditions clock r st in
  wf r st' /\ complete r st' /\
  forall t, view st' t =
    match view st t with
    | Some s => Some s
    | None =>
        if String.eqb t (happy r) then Some ConditionUnknown
        else if bool_decide (t ∈ dependents r) then
          Some (if bool_decide (view st (happy r) = Some ConditionTrue)
                then ConditionTrue else ConditionUnknown)
        else None
    end.
Proof.
  intros Hwf. simpl. unfold InitializeConditions.
  set (h0 := MkCondition (happy r) ConditionUnknown ConditionSeverityError zero_time "" "").
  set (p := match GetCondition (happy r) st with Some h => _ | None => _ end).
  assert (wf r p.2 /\ (forall t, view p.2 t =
      match view st t with Some s => Some s
      | None => if String.eqb t (happy r) then Some ConditionUnknown else None end) /\
    String.eqb (cStatus p.1) ConditionTrue
      = bool_decide (view st (happy r) = Some ConditionTrue)) as (Hwf1&Hv1&Hst).
  { assert (view st (happy r) = cStatus <$> GetCondition (happy r) st) as Hview by done.
    subst p. destruct (GetCondition (happy r) st) as [h|] eqn:E; simpl in *.
    - split_and!; [done| |].
      + intros t. destruct (view st t) eqn:Ev; [done|].
        destruct (String.eqb_spec t (happy r)) as [->|]; [congruence|done].
      + destruct (String.eqb_spec (cStatus h) ConditionTrue) as [Eh|Hne].
        * by rewrite bool_decide_true by congruence.
        * by rewrite bool_decide_false by congruence.
    - split_and!; [| |by rewrite bool_decide_false by congruence].
      + apply SetCondition_wf; [done|by left|done|right; by right].
      + intros t. unfold h0. rewrite step_view by done. unfold set_view.
        destruct (String.eqb_spec t (happy r)) as [->|]; [by rewrite Hview|].
        by destruct (view st t). }
  destruct p as [h st1]. simpl in *. rewrite Hst.
  set (status := if bool_decide (view st (happy r) = _) then _ else _) in *.
  assert (std_status status) as Hstd.
  { subst status. case_bool_decide; unfold std_status; auto. }
  assert (forall ds st1, wf r st1 -> (forall d, d ∈ ds -> d ∈ dependents r) ->
    let st2 := fold_left (fun st t => initializeTerminalCondition clock t status st) ds st1 in
    wf r st2 /\ forall t, view st2 t =
      match view st1 t with Some s => Some s
      | None => if bool_decide (t ∈ ds) then Some status else None end) as Hfold.
  { clear st1 Hwf1 Hv1. induction ds as [|d ds IH]; intros st1 Hwf1 Hds; simpl.
    - split; [done|]. intros t. by destruct (view st1 t).
    - destruct (initializeTerminalCondition_spec d status st1 Hwf1) as [Hwf2 Hv2];
        [right; set_solver|done|].
      destruct (IH _ Hwf2) as [Hwf3 Hv3]; [set_solver|]. split; [done|].
      intros t. rewrite Hv3, Hv2. destruct (view st1 t); [done|].
      destruct (String.eqb_spec t d) as [->|]; [by rewrite bool_decide_true by set_solver|].
      rewrite (bool_decide_ext (t ∈ d :: ds) (t ∈ ds)) by set_solver. done. }
  destruct (Hfold (dependents r) st1 Hwf1 ltac:(done)) as [Hwf2 Hv2].
  split_and!; [done| |].
  - apply complete_view. intros t [->|Ht].
    + rewrite Hv2, Hv1. rewrite String.eqb_refl. by destruct (view st _).
    + rewrite Hv2. rewrite (bool_decide_true (t ∈ dependents r)) by done.
      by destruct (view st1 t).
  - intros t. rewrite Hv2, Hv1. destruct (view st t); [done|].
    by destruct (String.eqb t (happy r)).
Qed.

(** Nothing to fill, nothing done. *)
Lemma InitializeConditions_complete_noop st :
  complete r st -> InitializeConditions clock r st = st.
Proof.
  intros Hc. unfold InitializeConditions.
  destruct (Hc (happy r) (or_introl eq_refl)) as [h ->].
  assert (forall status ds, (forall d, d ∈ ds -> d ∈ dependents r) ->
    fold_left (fun st t => initializeTerminalCondition clock t status st) ds st = st) as Hf.
  { intros status ds. induction ds as [|d ds IH]; intros Hds; simpl; [done|].
    unfold initializeTerminalCondition at 2.
    destruct (Hc d) as [c ->]; [right; set_solver|]. apply IH. set_solver. }
  by apply Hf.
Qed.
End refinement.

Create HintDb conds.
#[export] Hint Resolve exec_marks_wf newConditionSet_ok step_wf : conds.
