(* ===== verification/FieldError.v ===== *)
(** * Field errors ([knative.dev/pkg/apis], field_error.go)

    The diagnostics a validation webhook returns.  A [*FieldError] is an
    [option FieldError], [None] being nil.  The development shows that the
    combinators act on the flattened list of diagnostics ([normalized]) as
    concatenation ([Also]) and as a map over the paths ([ViaField]). *)

From S2P Require Import Prelude GoStrings.
Local Open Scope string_scope.
Local Open Scope list_scope.

(** ** Data *)

Definition CurrentField : string := "".

Definition ErrorLevel : Z := 0.
Definition WarningLevel : Z := 1.

Definition level_string (l : Z) : string :=
  if (l =? ErrorLevel)%Z then "Error"
  else if (l =? WarningLevel)%Z then "Warning"
  else "<UNKNOWN: " +:+ pretty l +:+ ">".

Inductive FieldError := MkFieldError {
  feMessage : string;
  fePaths : list string;
  feLevel : Z;
  feDetails : string;
  feErrors : list FieldError
}.

Definition mk_err (message : string) (paths : list string) (details : string) : FieldError :=
  MkFieldError message paths ErrorLevel details [].

(** ** Operations *)

Definition isEmpty (fe : option FieldError) : bool :=
  match fe with
  | None => true
  | Some fe =>
      String.eqb (feMessage fe) "" && String.eqb (feDetails fe) ""
      && (length (feErrors fe) =? 0)%nat && (length (fePaths fe) =? 0)%nat
  end.

Definition add_error (fe : FieldError) (e : option FieldError) : FieldError :=
  match e with
  | Some e' =>
      if isEmpty e then fe
      else MkFieldError (feMessage fe) (fePaths fe) (feLevel fe) (feDetails fe)
             (feErrors fe ++ [e'])
  | None => fe
  end.

Definition Also (fe : option FieldError) (errs : list (option FieldError))
    : option FieldError :=
  match errs with
  | [] => fe
  | _ =>
      if (length errs =? 1)%nat && forallb isEmpty errs then fe
      else
        let newErr :=
          match fe with
          | Some f => if isEmpty fe then mk_err "" [] "" else f
          | None => mk_err "" [] ""
          end in
        let newErr := fold_left add_error errs newErr in
        if isEmpty (Some newErr) then None else Some newErr
  end.

Definition asIndex (index : nat) : string := "[" +:+ itoa index +:+ "]".
Definition asKey (key : string) : string := "[" +:+ key +:+ "]".
Definition isIndex (part : string) : bool := has_prefix part "[" && has_suffix part "]".

(** [newPath[len(newPath)-1] += p]; the path is kept in reverse. *)
Definition flatten_step (newPath : list string) (p : string) : list string :=
  if String.eqb p CurrentField then newPath
  else match newPath with
       | last :: rest => if isIndex p then (last +:+ p) :: rest else p :: newPath
       | [] => [p]
       end.

Definition flatten (path : list string) : string :=
  join "." (reverse (fold_left flatten_step (flat_map (split ".") path) [])).

Fixpoint ViaField_val (prefix : list string) (fe : FieldError) : option FieldError :=
  match fe with
  | MkFieldError message paths level details errors =>
      fold_left (fun newErr e => Also newErr [ViaField_val prefix e]) errors
        (Some (MkFieldError message (map (fun oldPath => flatten (prefix ++ [oldPath])) paths)
                 level details []))
  end.

Definition ViaField (fe : option FieldError) (prefix : list string) : option FieldError :=
  match fe with None => None | Some fe => ViaField_val prefix fe end.

Definition ViaIndex (fe : option FieldError) (index : nat) : option FieldError :=
  ViaField fe [asIndex index].
Definition ViaFieldIndex (fe : option FieldError) (field : string) (index : nat)
    : option FieldError := ViaField (ViaIndex fe index) [field].
Definition ViaKey (fe : option FieldError) (key : string) : option FieldError :=
  ViaField fe [asKey key].
Definition ViaFieldKey (fe : option FieldError) (field key : string) : option FieldError :=
  ViaField (ViaKey fe key) [field].

Fixpoint At_val (l : Z) (fe : FieldError) : option FieldError :=
  match fe with
  | MkFieldError message paths _ details errors =>
      fold_left (fun newErr e => Also newErr [At_val l e]) errors
        (Some (MkFieldError message paths l details []))
  end.

Definition At (fe : option FieldError) (l : Z) : option FieldError :=
  match fe with None => None | Some fe => At_val l fe end.

Fixpoint Filter_val (l : Z) (fe : FieldError) : option FieldError :=
  match fe with
  | MkFieldError message paths level details errors =>
      let newErr :=
        fold_left (fun newErr e => Also newErr [Filter_val l e]) errors
          (if (l =? level)%Z then Some (MkFieldError message paths level details []) else None) in
      if isEmpty newErr then None else newErr
  end.

Definition Filter (fe : option FieldError) (l : Z) : option FieldError :=
  match fe with None => None | Some fe => Filter_val l fe end.

Fixpoint normalized_val (fe : FieldError) : list FieldError :=
  match fe with
  | MkFieldError message paths level details errors =>
      (if String.eqb message "" then [] else [MkFieldError message paths level details []])
      ++ flat_map normalized_val errors
  end.

Definition normalized (fe : option FieldError) : list FieldError :=
  match fe with None => [] | Some fe => normalized_val fe end.

Definition err_key (e : FieldError) : string :=
  level_string (feLevel e) +:+ "-" +:+ feMessage e +:+ "-" +:+ feDetails e.

Definition mergePaths (a b : list string) : list string :=
  fold_left (fun newPaths bi => if bool_decide (bi ∈ newPaths) then newPaths else newPaths ++ [bi])
    b a.

Definition with_paths (e : FieldError) (ps : list string) : FieldError :=
  MkFieldError (feMessage e) ps (feLevel e) (feDetails e) (feErrors e).

(** The map of [merge], as the association list of its entries. *)
Fixpoint merge_one (e : FieldError) (m : list (string * FieldError)) : list (string * FieldError) :=
  match m with
  | [] => [(err_key e, e)]
  | (k, v) :: m =>
      if String.eqb k (err_key e) then (k, with_paths v (mergePaths (fePaths v) (fePaths e))) :: m
      else (k, v) :: merge_one e m
  end.

Definition err_less (a b : FieldError) : bool :=
  if String.eqb (feMessage a) (feMessage b) then
    if String.eqb (feDetails a) (feDetails b) then (feLevel a <? feLevel b)%Z
    else str_ltb (feDetails a) (feDetails b)
  else str_ltb (feMessage a) (feMessage b).

Definition merge (errs : list FieldError) : list FieldError :=
  let m := fold_left (fun m e => merge_one e m) errs [] in
  go_sort err_less (map (fun kv => with_paths kv.2 (go_sort str_ltb (fePaths kv.2))) m).

Definition WrappedErrors (fe : option FieldError) : list FieldError := merge (normalized fe).

Definition Error (fe : option FieldError) : string :=
  join (bytes [10]) (map (fun e =>
    let head := feMessage e +:+ ": " +:+ join ", " (fePaths e) in
    if String.eqb (feDetails e) "" then head else head +:+ bytes [10] +:+ feDetails e)
    (WrappedErrors fe)).

(** ** Public helpers *)

Definition ErrMissingField (fieldPaths : list string) : option FieldError :=
  Some (mk_err "missing field(s)" fieldPaths "").
Definition ErrDisallowedFields (fieldPaths : list string) : option FieldError :=
  Some (mk_err "must not set the field(s)" fieldPaths "").
Definition ErrInvalidValue (value fieldPath : string) : option FieldError :=
  Some (mk_err ("invalid value: " +:+ value) [fieldPath] "").
Definition ErrGeneric (diagnostic : string) (fieldPaths : list string) : option FieldError :=
  Some (mk_err diagnostic fieldPaths "").

(** ** Induction over the nested errors *)

Lemma FieldError_rect' (P : FieldError -> Prop)
  (H : forall m ps l d es, Forall P es -> P (MkFieldError m ps l d es)) :
  forall fe, P fe.
Proof.
  fix IH 1. intros [m ps l d es]. apply H.
  induction es as [|e es IHes]; constructor; [apply IH|exact IHes].
Qed.

(** ** Lemmas *)

#[global] Arguments isEmpty : simpl never.
#[global] Arguments Also : simpl never.
#[global] Arguments ViaField : simpl never.

Lemma isEmpty_normalized fe : isEmpty fe = true -> normalized fe = [].
Proof.
  destruct fe as [[m ps l d es]|]; [|done]. unfold isEmpty. simpl.
  rewrite !andb_true_iff. intros [[[->%String.eqb_eq _] He] _].
  apply Nat.eqb_eq, nil_length_inv in He as ->. done.
Qed.

Lemma normalized_add_error f e :
  normalized_val (add_error f e) = normalized_val f ++ normalized e.
Proof.
  unfold add_error. destruct e as [e|]; [|by rewrite app_nil_r].
  destruct (isEmpty (Some e)) eqn:Ee.
  - by rewrite (isEmpty_normalized _ Ee), app_nil_r.
  - destruct f as [m ps l d es]. simpl. rewrite flat_map_app. simpl.
    by rewrite app_nil_r, app_assoc.
Qed.

(** [Also] concatenates the diagnostics. *)
Lemma normalized_Also fe e : normalized (Also fe [e]) = normalized fe ++ normalized e.
Proof.
  unfold Also. simpl. rewrite andb_true_r. destruct (isEmpty e) eqn:Ee.
  { by rewrite (isEmpty_normalized _ Ee), app_nil_r. }
  set (f := match fe with Some f => _ | None => _ end).
  assert (normalized_val f = normalized fe) as Hf.
  { subst f. destruct fe as [f|]; [|done].
    destruct (isEmpty (Some f)) eqn:Ef; [|done]. by rewrite (isEmpty_normalized _ Ef). }
  assert (normalized_val (add_error f e) = normalized fe ++ normalized e) as Ha
    by (by rewrite normalized_add_error, Hf).
  destruct (isEmpty (Some (add_error f e))) eqn:Ea; [|exact Ha].
  rewrite <- Ha. symmetry. exact (isEmpty_normalized _ Ea).
Qed.

(** [Also] is nil exactly when nothing was collected. *)
Lemma Also_None fe e : Also fe [e] = None <-> fe = None /\ isEmpty e = true.
Proof.
  unfold Also. simpl. rewrite andb_true_r. destruct (isEmpty e) eqn:Ee; [naive_solver|].
  split; [|naive_solver]. intros H. exfalso.
  set (f := match fe with Some f => _ | None => _ end) in H.
  assert (isEmpty (Some (add_error f e)) = false) as Hne.
  { unfold add_error. destruct e as [e|]; [|done]. rewrite Ee. unfold isEmpty. simpl.
    rewrite !andb_false_iff. left. right. rewrite length_app. simpl.
    apply Nat.eqb_neq. lia. }
  by rewrite Hne in H.
Qed.

Definition prefix_paths (prefix : list string) (e : FieldError) : FieldError :=
  with_paths e (map (fun p => flatten (prefix ++ [p])) (fePaths e)).

Lemma normalized_fold_Also {A} (g : A -> option FieldError) es acc :
  normalized (fold_left (fun newErr e => Also newErr [g e]) es acc)
  = normalized acc ++ flat_map (fun e => normalized (g e)) es.
Proof.
  revert acc. induction es as [|e es IH]; intros acc; simpl; [by rewrite app_nil_r|].
  by rewrite IH, normalized_Also, app_assoc.
Qed.

(** [ViaField] rewrites the paths of the diagnostics and nothing else. *)
Lemma normalized_ViaField fe prefix :
  normalized (ViaField fe prefix) = map (prefix_paths prefix) (normalized fe).
Proof.
  destruct fe as [fe|]; [|done]. change (ViaField (Some fe) prefix) with (ViaField_val prefix fe).
  simpl. induction fe as [m ps l d es IH] using FieldError_rect'. simpl.
  rewrite normalized_fold_Also, map_app. f_equal.
  - simpl. by destruct (String.eqb m "").
  - induction IH as [|e es He Hes IHes]; simpl; [done|].
    by rewrite map_app, He, IHes.
Qed.

Lemma fold_Also_Some {A} (g : A -> option FieldError) es f :
  fold_left (fun newErr e => Also newErr [g e]) es (Some f) <> None.
Proof.
  revert f. induction es as [|e es IH]; intros f; cbn [fold_left]; [done|].
  destruct (Also (Some f) [g e]) eqn:E; [apply IH|]. apply Also_None in E as [? _]. done.
Qed.

Lemma ViaField_None fe prefix : ViaField fe prefix = None <-> fe = None.
Proof.
  destruct fe as [[m ps l d es]|]; [|done].
  split; [|done]. intros H. by apply fold_Also_Some in H.
Qed.

(** An error that reports something. *)
Definition reports (fe : option FieldError) : Prop := fe = None \/ normalized fe <> [].

Lemma reports_isEmpty fe : reports fe -> isEmpty fe = true <-> fe = None.
Proof.
  intros [->|H]; [done|]. split; [|by intros ->].
  intros He. by destruct H; apply isEmpty_normalized.
Qed.

Lemma reports_Also fe e : reports fe -> reports e -> reports (Also fe [e]).
Proof.
  intros Hf He. destruct (Also fe [e]) as [x|] eqn:E; [|by left]. right. rewrite <- E.
  rewrite normalized_Also. intros [H1 H2]%app_nil.
  assert (Also fe [e] = None); [|congruence]. apply Also_None.
  split; [by destruct Hf|]. destruct He as [->|]; done.
Qed.

Lemma reports_ViaField fe prefix : reports fe -> reports (ViaField fe prefix).
Proof.
  intros [->|H]; [by left|]. right. rewrite normalized_ViaField.
  by destruct (normalized fe).
Qed.

Lemma reports_mk message paths details :
  message <> "" -> reports (Some (mk_err message paths details)).
Proof. intros H. right. simpl. by destruct (String.eqb_spec message ""). Qed.

Lemma reports_None : reports None.
Proof. by left. Qed.

Lemma reports_Also_None fe e : reports e -> Also fe [e] = None <-> fe = None /\ e = None.
Proof. intros He. rewrite Also_None. by rewrite (reports_isEmpty _ He). Qed.

Lemma reports_ErrMissingField ps : reports (ErrMissingField ps).
Proof. by apply reports_mk. Qed.
Lemma reports_ErrDisallowedFields ps : reports (ErrDisallowedFields ps).
Proof. by apply reports_mk. Qed.
Lemma reports_ErrInvalidValue v p : reports (ErrInvalidValue v p).
Proof. by apply reports_mk. Qed.

Create HintDb fielderr.
#[export] Hint Resolve reports_Also reports_ViaField reports_mk reports_None
  reports_ErrMissingField reports_ErrDisallowedFields reports_ErrInvalidValue : fielderr.

(** ** Levels *)

Lemma normalized_Filter fe l :
  normalized (Filter fe l) = filter (fun e => feLevel e = l) (normalized fe).
Proof.
  destruct fe as [fe|]; [|done]. change (Filter (Some fe) l) with (Filter_val l fe).
  simpl. induction fe as [m ps lv d es IH] using FieldError_rect'. simpl.
  set (r := fold_left _ es _).
  assert (normalized r = filter (fun e => feLevel e = l)
    ((if String.eqb m "" then [] else [MkFieldError m ps lv d []]) ++ flat_map normalized_val es))
    as Hr.
  { subst r. rewrite normalized_fold_Also, filter_app. f_equal.
    - destruct (Z.eqb_spec l lv) as [->|Hl]; simpl; destruct (String.eqb m "");
        rewrite ?filter_cons; simpl; [done|by rewrite decide_True|done|by rewrite decide_False by congruence].
    - induction IH as [|e es He Hes IHes]; simpl; [done|]. by rewrite filter_app, He, IHes. }
  destruct (isEmpty r) eqn:E; [|done]. rewrite <- Hr. symmetry. by apply isEmpty_normalized.
Qed.

(** Every node of the error has the level of errors. *)
Fixpoint all_errors_val (fe : FieldError) : bool :=
  match fe with
  | MkFieldError _ _ level _ errors => (level =? ErrorLevel)%Z && forallb all_errors_val errors
  end.

Definition all_errors (fe : option FieldError) : bool :=
  match fe with None => true | Some fe => all_errors_val fe end.

Lemma all_errors_Also fe e :
  all_errors fe = true -> all_errors e = true -> all_errors (Also fe [e]) = true.
Proof.
  intros Hf He. unfold Also. simpl. rewrite andb_true_r.
  destruct (isEmpty e) eqn:Ee; [done|].
  set (f := match fe with Some f => _ | None => _ end).
  assert (all_errors_val f = true) as Hf'
    by (subst f; destruct fe as [f|]; [by destruct (isEmpty (Some f))|done]).
  assert (all_errors_val (add_error f e) = true) as Ha.
  { unfold add_error. destruct e as [e|]; [|done]. rewrite Ee.
    destruct f as [m ps l d es]. simpl in *. rewrite forallb_app. simpl.
    apply andb_true_iff in Hf' as [-> ->]. simpl in He. by rewrite He. }
  by destruct (isEmpty (Some (add_error f e))).
Qed.

Lemma all_errors_fold_Also {A} (g : A -> option FieldError) es acc :
  all_errors acc = true -> (forall e, In e es -> all_errors (g e) = true) ->
  all_errors (fold_left (fun newErr e => Also newErr [g e]) es acc) = true.
Proof.
  revert acc. induction es as [|e es IH]; intros acc Ha Hg; [done|]. cbn [fold_left].
  apply IH; [|by intros; apply Hg; right].
  apply all_errors_Also; [done|]. by apply Hg; left.
Qed.

Lemma all_errors_ViaField fe prefix :
  all_errors fe = true -> all_errors (ViaField fe prefix) = true.
Proof.
  destruct fe as [fe|]; [|done]. change (ViaField (Some fe) prefix) with (ViaField_val prefix fe).
  simpl. induction fe as [m ps l d es IH] using FieldError_rect'. simpl.
  intros [Hl Hes]%andb_true_iff. apply all_errors_fold_Also; [simpl; by rewrite Hl|].
  rewrite Forall_forall in IH. rewrite forallb_forall in Hes. intros e He.
  apply IH; [by apply list_elem_of_In|]. by apply Hes.
Qed.

Lemma all_errors_no_warnings fe : all_errors fe = true -> Filter fe WarningLevel = None.
Proof.
  destruct fe as [fe|]; [|done]. change (Filter (Some fe) WarningLevel) with (Filter_val WarningLevel fe).
  simpl. induction fe as [m ps l d es IH] using FieldError_rect'. simpl.
  intros [->%Z.eqb_eq Hes]%andb_true_iff. simpl.
  assert (fold_left (fun newErr e => Also newErr [Filter_val WarningLevel e]) es None = None) as ->;
    [|done].
  induction IH as [|e es He _ IHes]; [done|]. simpl in Hes.
  apply andb_true_iff in Hes as [H1 H2]. cbn [fold_left]. rewrite (He H1). by apply IHes.
Qed.

(** Errors of the level of errors stay errors in the partition of a webhook. *)
Lemma all_errors_Filter_None fe :
  all_errors fe = true -> reports fe -> Filter fe ErrorLevel = None <-> fe = None.
Proof.
  intros Ha Hr. split; [|by intros ->]. intros Hn. destruct Hr as [?|Hr]; [done|].
  destruct Hr. pose proof (normalized_Filter fe ErrorLevel) as Hf. rewrite Hn in Hf. simpl in Hf.
  assert (Forall (fun e => feLevel e = ErrorLevel) (normalized fe)) as Hall.
  { destruct fe as [fe|]; [|constructor]. simpl in *. clear Hf Hn. revert Ha.
    induction fe as [m ps l d es IH] using FieldError_rect'. simpl.
    intros [->%Z.eqb_eq Hes]%andb_true_iff. apply Forall_app. split.
    - destruct (String.eqb m ""); repeat constructor.
    - induction IH as [|e es He _ IHes]; [constructor|]. simpl in *.
      apply andb_true_iff in Hes as [H1 H2]. apply Forall_app. auto. }
  destruct (normalized fe) as [|e l]; [done|]. apply Forall_cons in Hall as [He _].
  rewrite filter_cons, decide_True in Hf by done. done.
Qed.

#[export] Hint Resolve all_errors_Also all_errors_ViaField : fielderr.

Example flatten1 : flatten ["foo"; "[0]"; "bar"] = "foo[0].bar".
Proof. reflexivity. Qed.
Example flatten2 : flatten ["[0]"; "foo"; "bar"] = "[0].foo.bar".
Proof. reflexivity. Qed.
Example error1 :
  Error (ViaField (Also (ErrMissingField ["b"]) [ErrMissingField ["a"]]) ["spec"])
  = "missing field(s): spec.a, spec.b".
Proof. vm_compute. reflexivity. Qed.
