(* ===== verification/Types.v ===== *)
(** * The YipYapSource resource (pkg/apis/sources/v1alpha1)

    The Go structs as records, with the pieces of the Knative duck types they
    embed: destinations and references, URLs, the source status.  Pointers are
    options; a Go map is a [gmap]. *)

From S2P Require Import Prelude GoStrings CondSet.
Local Open Scope string_scope.
Local Open Scope list_scope.

(** ** URLs

    [apis.URL] is [net/url.URL].  Parsing and printing are [net/url]'s, which
    the development takes through the interface [UrlLib]; the program itself
    reads the fields below. *)

Record URL := MkURL {
  uScheme : string;
  uOpaque : string;
  uUser : option string;
  uHost : string;
  uPath : string;
  uRawPath : string;
  uOmitHost : bool;
  uForceQuery : bool;
  uRawQuery : string;
  uFragment : string;
  uRawFragment : string
}.

#[export] Instance URL_eq_dec : EqDecision URL.
Proof. solve_decision. Defined.

Class UrlLib := {
  url_Parse : string -> result string URL;
  url_String : URL -> string
}.

(** [String] of a URL pointer: empty for nil. *)
Definition URL_String `{UrlLib} (u : option URL) : string :=
  match u with None => "" | Some u => url_String u end.

(** A concrete instance, for the examples: [scheme://host/path] and relative
    paths. *)
Fixpoint span_char (c : ascii) (s : string) : string * string :=
  match s with
  | "" => ("", "")
  | String d r =>
      if Ascii.eqb d c then ("", s)
      else let '(a, b) := span_char c r in (String d a, b)
  end.

Definition mk_url (scheme host path : string) : URL :=
  MkURL scheme "" None host path "" false false "" "" "".

Definition plain_url_lib : UrlLib := {|
  url_Parse s :=
    let '(scheme, rest) := span_char ":" s in
    match strip_prefix "://" rest with
    | Some r => let '(host, path) := span_char "/" r in Ok (mk_url scheme host path)
    | None => if String.eqb rest "" then Ok (mk_url "" "" s)
              else Err "missing protocol scheme"
    end;
  url_String u :=
    if String.eqb (uScheme u) "" then uPath u
    else uScheme u +:+ "://" +:+ uHost u +:+ uPath u
|}.

Example plain_url_roundtrip :
  url_String (UrlLib := plain_url_lib) <$>
    (match url_Parse (UrlLib := plain_url_lib) "http://sink.default.svc/in" with
     | Ok u => Some u | Err _ => None end)
  = Some "http://sink.default.svc/in".
Proof. reflexivity. Qed.

Definition IsAbs (u : URL) : bool := negb (String.eqb (uScheme u) "").

(** ** Destinations *)

Record KReference := MkKReference {
  krKind : string;
  krNamespace : string;
  krName : string;
  krAPIVersion : string;
  krGroup : string;
  krAddress : option string
}.

#[export] Instance KReference_eq_dec : EqDecision KReference.
Proof. solve_decision. Defined.

Record Destination := MkDestination {
  dRef : option KReference;
  dURI : option URL;
  dCACerts : option string;
  dAudience : option string
}.

#[export] Instance Destination_eq_dec : EqDecision Destination.
Proof. solve_decision. Defined.

(** ** Spec *)

Definition YipYapSourceModeAuto : string := "auto".
Definition YipYapSourceModePoll : string := "poll".
Definition YipYapSourceModeStream : string := "stream".

Record APIKeyReference := MkAPIKeyReference { akName : string; akKey : string }.

Record YipYapSourceFilter := MkFilter {
  fTypes : list string;
  fMonitorIDs : list string;
  fSeverities : list string
}.

(** [Sink] and [CloudEventOverrides] come from the embedded [duckv1.SourceSpec];
    the overrides are the [Extensions] map ([None] for a nil pointer). *)
Record YipYapSourceSpec := MkSpec {
  spSink : Destination;
  spCloudEventOverrides : option (gmap string string);
  spAPIKeyRef : APIKeyReference;
  spBaseURL : string;
  spFilter : option YipYapSourceFilter;
  spMode : string;
  spServiceAccountName : string
}.

#[export] Instance YipYapSourceSpec_eq_dec : EqDecision YipYapSourceSpec.
Proof.
  assert (EqDecision APIKeyReference) by solve_decision.
  assert (EqDecision YipYapSourceFilter) by solve_decision.
  solve_decision.
Defined.

(** ** Status *)

(** [duckv1.CloudEventAttributes]. *)
Record CloudEventAttributes := MkCEAttributes { ceaType : string; ceaSource : string }.

(** [duckv1.AuthStatus]. *)
Record AuthStatus := MkAuthStatus {
  auServiceAccountName : option string;
  auServiceAccountNames : list string
}.

Record YipYapSourceStatus := MkStatus {
  stObservedGeneration : Z;
  stConditions : list Condition;
  stAnnotations : gmap string string;
  stSinkURI : option URL;
  stCloudEventAttributes : list CloudEventAttributes;
  stSinkCACerts : option string;
  stSinkAudience : option string;
  stAuth : option AuthStatus;
  stDeploymentName : string;
  stLastEventTime : option Z;
  stEventCount : Z
}.

#[export] Instance CloudEventAttributes_eq_dec : EqDecision CloudEventAttributes.
Proof. solve_decision. Defined.
#[export] Instance AuthStatus_eq_dec : EqDecision AuthStatus.
Proof. solve_decision. Defined.
#[export] Instance YipYapSourceStatus_eq_dec : EqDecision YipYapSourceStatus.
Proof. solve_decision. Defined.

Definition empty_status : YipYapSourceStatus :=
  MkStatus 0 [] ∅ None [] None None None "" None 0.

Definition set_conditions (cs : list Condition) (s : YipYapSourceStatus) : YipYapSourceStatus :=
  MkStatus (stObservedGeneration s) cs (stAnnotations s) (stSinkURI s)
    (stCloudEventAttributes s) (stSinkCACerts s) (stSinkAudience s) (stAuth s)
    (stDeploymentName s) (stLastEventTime s) (stEventCount s).
Definition set_sink_uri (u : option URL) (s : YipYapSourceStatus) : YipYapSourceStatus :=
  MkStatus (stObservedGeneration s) (stConditions s) (stAnnotations s) u
    (stCloudEventAttributes s) (stSinkCACerts s) (stSinkAudience s) (stAuth s)
    (stDeploymentName s) (stLastEventTime s) (stEventCount s).
Definition set_observed_generation (g : Z) (s : YipYapSourceStatus) : YipYapSourceStatus :=
  MkStatus g (stConditions s) (stAnnotations s) (stSinkURI s)
    (stCloudEventAttributes s) (stSinkCACerts s) (stSinkAudience s) (stAuth s)
    (stDeploymentName s) (stLastEventTime s) (stEventCount s).
Definition set_ce_attributes (l : list CloudEventAttributes) (s : YipYapSourceStatus)
    : YipYapSourceStatus :=
  MkStatus (stObservedGeneration s) (stConditions s) (stAnnotations s) (stSinkURI s)
    l (stSinkCACerts s) (stSinkAudience s) (stAuth s)
    (stDeploymentName s) (stLastEventTime s) (stEventCount s).
Definition set_deployment_name (n : string) (s : YipYapSourceStatus) : YipYapSourceStatus :=
  MkStatus (stObservedGeneration s) (stConditions s) (stAnnotations s) (stSinkURI s)
    (stCloudEventAttributes s) (stSinkCACerts s) (stSinkAudience s) (stAuth s)
    n (stLastEventTime s) (stEventCount s).

(** ** The resource *)

(** [metav1.OwnerReference]. *)
Record OwnerReference := MkOwnerReference {
  orAPIVersion : string;
  orKind : string;
  orName : string;
  orUID : string;
  orController : option bool;
  orBlockOwnerDeletion : option bool
}.

#[export] Instance OwnerReference_eq_dec : EqDecision OwnerReference.
Proof. solve_decision. Defined.

(** [metav1.ManagedFieldsEntry], with the raw bytes of its [FieldsV1]. *)
Record ManagedFieldsEntry := MkManagedFields {
  mfManager : string;
  mfOperation : string;
  mfAPIVersion : string;
  mfTime : option Z;
  mfFieldsType : string;
  mfFieldsV1 : option (list ascii);
  mfSubresource : string
}.

#[export] Instance ManagedFieldsEntry_eq_dec : EqDecision ManagedFieldsEntry.
Proof. solve_decision. Defined.

(** The fields of [metav1.ObjectMeta] of a source that the program copies, and
    otherwise neither reads nor writes. *)
Record ObjectMetaRest := MkObjectMetaRest {
  omGenerateName : string;
  omSelfLink : string;
  omCreationTimestamp : Z;
  omDeletionGracePeriodSeconds : option Z;
  omLabels : gmap string string;
  omAnnotations : gmap string string;
  omOwnerReferences : list OwnerReference;
  omManagedFields : list ManagedFieldsEntry
}.

#[export] Instance ObjectMetaRest_eq_dec : EqDecision ObjectMetaRest.
Proof. solve_decision. Defined.

(** All of them zero; the zero time is the first of January of the year 1. *)
Definition no_rest : ObjectMetaRest := MkObjectMetaRest "" "" (-62135596800) None ∅ ∅ [] [].

(** The others, and those. *)
Record ObjectMeta := MkObjectMeta {
  omName : string;
  omNamespace : string;
  omUID : string;
  omGeneration : Z;
  omResourceVersion : string;
  omDeletionTimestamp : option Z;
  omFinalizers : list string;
  omRest : ObjectMetaRest
}.

Record YipYapSource := MkYipYapSource {
  yMeta : ObjectMeta;
  ySpec : YipYapSourceSpec;
  yStatus : YipYapSourceStatus
}.

#[export] Instance ObjectMeta_eq_dec : EqDecision ObjectMeta.
Proof. solve_decision. Defined.
#[export] Instance YipYapSource_eq_dec : EqDecision YipYapSource.
Proof. solve_decision. Defined.

Definition with_spec (y : YipYapSource) (s : YipYapSourceSpec) : YipYapSource :=
  MkYipYapSource (yMeta y) s (yStatus y).
Definition with_status (y : YipYapSource) (s : YipYapSourceStatus) : YipYapSource :=
  MkYipYapSource (yMeta y) (ySpec y) s.

(** ** Group, version, kind (register.go) *)

Definition GroupName : string := "sources.yipyap.run".

Record GroupVersion := MkGroupVersion { gvGroup : string; gvVersion : string }.
Record GroupVersionKind := MkGVK { gvkGroup : string; gvkVersion : string; gvkKind : string }.
Record GroupResource := MkGroupResource { grGroup : string; grResource : string }.

Definition SchemeGroupVersion : GroupVersion := MkGroupVersion GroupName "v1alpha1".

Definition Kind (kind : string) : GroupResource := MkGroupResource (gvGroup SchemeGroupVersion) kind.
Definition Resource (resource : string) : GroupResource :=
  MkGroupResource (gvGroup SchemeGroupVersion) resource.

Definition GetGroupVersionKind : GroupVersionKind :=
  MkGVK (gvGroup SchemeGroupVersion) (gvVersion SchemeGroupVersion) "YipYapSource".

(** [schema.GroupVersion.String]. *)
Definition GroupVersion_String (gv : GroupVersion) : string :=
  if String.eqb (gvGroup gv) "" then gvVersion gv
  else gvGroup gv +:+ "/" +:+ gvVersion gv.

(** ** The values of a webhook context the API code reads *)

Record Ctx := MkCtx {
  ctxParentNamespace : string;
  ctxDifferentNamespaceAllowed : bool;
  ctxKReferenceGroupAllowed : bool
}.

Definition background : Ctx := MkCtx "" false false.

(** [apis.WithinParent]. *)
Definition WithinParent (ctx : Ctx) (om : ObjectMeta) : Ctx :=
  MkCtx (omNamespace om) (ctxDifferentNamespaceAllowed ctx) (ctxKReferenceGroupAllowed ctx).

(** ** A sample source, for the examples and witnesses *)

Definition sample_meta : ObjectMeta :=
  MkObjectMeta "demo" "default" "123e4567-e89b-12d3-a456-426614174000" 3 "17" None [] no_rest.

Definition sample_ref : KReference :=
  MkKReference "Broker" "" "default" "eventing.knative.dev/v1" "" None.

Definition sample_spec : YipYapSourceSpec :=
  MkSpec (MkDestination (Some sample_ref) None None None)
    (Some {[ "environment" := "prod" ]})
    (MkAPIKeyReference "yipyap-key" "api-key") "https://console.yipyap.run"
    (Some (MkFilter ["run.yipyap.alert.*"; "run.yipyap.monitor.down.v1"] ["m1"] ["critical"]))
    "poll" "".

Definition sample_source : YipYapSource := MkYipYapSource sample_meta sample_spec empty_status.

Definition sample_url : URL := mk_url "http" "broker-ingress.knative-eventing.svc" "/default/default".
