(* ===== verification/Api.v ===== *)
(** * Defaulting and validation (pkg/apis/sources/v1alpha1)

    [SetDefaults] and [Validate] of the YipYapSource API, with the [Destination]
    and [KReference] code of the duck types they call.  PEM decoding and X.509
    parsing are the interface [CertLib].

    Results: defaulting only fills empty fields, is idempotent and leaves
    validity unchanged; a spec is accepted exactly when it satisfies a
    declarative predicate. *)

From S2P Require Import Prelude GoStrings GoPath CondSet FieldError Types.
Local Open Scope string_scope.
Local Open Scope list_scope.

(** ** Defaults (yipyapsource_defaults.go) *)

Definition DefaultAPIKeySecretKey : string := "api-key".
Definition DefaultBaseURL : string := "https://console.yipyap.run".

(** [v] unless it is the zero string. *)
Definition default_str (v def : string) : string := if String.eqb v "" then def else v.

Definition Destination_SetDefaults (ctx : Ctx) (d : Destination) : Destination :=
  match dRef d with
  | Some r =>
      if String.eqb (krNamespace r) "" then
        MkDestination
          (Some (MkKReference (krKind r) (ctxParentNamespace ctx) (krName r) (krAPIVersion r)
                   (krGroup r) (krAddress r)))
          (dURI d) (dCACerts d) (dAudience d)
      else d
  | None => d
  end.

Definition Spec_SetDefaults (ctx : Ctx) (s : YipYapSourceSpec) : YipYapSourceSpec :=
  MkSpec
    (Destination_SetDefaults ctx (spSink s))
    (spCloudEventOverrides s)
    (MkAPIKeyReference (akName (spAPIKeyRef s))
       (if String.eqb (akKey (spAPIKeyRef s)) "" then DefaultAPIKeySecretKey
        else akKey (spAPIKeyRef s)))
    (if String.eqb (spBaseURL s) "" then DefaultBaseURL else spBaseURL s)
    (spFilter s)
    (if String.eqb (spMode s) "" then YipYapSourceModeAuto else spMode s)
    (spServiceAccountName s).

(** A nil receiver is left alone. *)
Definition SetDefaults (ctx : Ctx) (y : option YipYapSource) : option YipYapSource :=
  match y with
  | None => None
  | Some y => Some (with_spec y (Spec_SetDefaults (WithinParent ctx (yMeta y)) (ySpec y)))
  end.

(** ** Validation of the duck types *)

Class CertLib := {
  (** Block type and block bytes of [pem.Decode], [None] for a nil block. *)
  pem_Decode : string -> option (string * string);
  x509_ok : string -> bool
}.

Definition KReference_Validate (ctx : Ctx) (kr : option KReference) : option FieldError :=
  match kr with
  | None =>
      Also (Also (Also None [ErrMissingField ["name"]]) [ErrMissingField ["apiVersion"]])
        [ErrMissingField ["kind"]]
  | Some kr =>
      let errs : option FieldError := None in
      let errs := if String.eqb (krName kr) "" then Also errs [ErrMissingField ["name"]] else errs in
      let errs :=
        if ctxKReferenceGroupAllowed ctx then
          let errs :=
            if String.eqb (krAPIVersion kr) "" && String.eqb (krGroup kr) "" then
              Also (Also errs [ErrMissingField ["apiVersion"]]) [ErrMissingField ["group"]]
            else errs in
          if negb (String.eqb (krAPIVersion kr) "") && negb (String.eqb (krGroup kr) "")
             && negb (has_prefix (krAPIVersion kr) (krGroup kr)) then
            Also errs [Some (mk_err
              "both apiVersion and group are specified and they refer to different API groups"
              ["apiVersion"; "group"] "Only one of them must be specified")]
          else errs
        else
          let errs :=
            if negb (String.eqb (krGroup kr) "") then Also errs [ErrDisallowedFields ["group"]]
            else errs in
          if String.eqb (krAPIVersion kr) "" then Also errs [ErrMissingField ["apiVersion"]]
          else errs in
      let errs := if String.eqb (krKind kr) "" then Also errs [ErrMissingField ["kind"]] else errs in
      if negb (String.eqb (krNamespace kr) "") && negb (ctxDifferentNamespaceAllowed ctx)
         && negb (String.eqb (ctxParentNamespace ctx) "")
         && negb (String.eqb (krNamespace kr) (ctxParentNamespace ctx)) then
        Also errs [Some (mk_err "mismatched namespaces" ["namespace"]
          ("parent namespace: " +:+ go_quote (ctxParentNamespace ctx) +:+ " does not match ref: "
           +:+ go_quote (krNamespace kr)))]
      else errs
  end.

Section validation.
Context `{CertLib}.

Definition validateCACerts (caCert : string) : option FieldError :=
  match pem_Decode caCert with
  | None => Also None [ErrInvalidValue "CA Cert provided is invalid" "caCert"]
  | Some (block_type, block_bytes) =>
      if negb (String.eqb block_type "CERTIFICATE") then
        Also None [ErrInvalidValue "CA Cert provided is not a certificate" "caCert"]
      else if negb (x509_ok block_bytes) then
        Also None [ErrInvalidValue "CA Cert provided is invalid" "caCert"]
      else None
  end.

Definition ValidateDestination (ctx : Ctx) (dest : Destination) : option FieldError :=
  match dRef dest, dURI dest with
  | None, None => ErrGeneric "expected at least one, got none" ["ref"; "uri"]
  | ref, uri =>
      if match ref, uri with Some _, Some u => IsAbs u | _, _ => false end then
        ErrGeneric
          "Absolute URI is not allowed when Ref or [apiVersion, kind, name] is present"
          ["[apiVersion, kind, name]"; "ref"; "uri"]
      else if match ref, uri with
              | None, Some u => negb (IsAbs u) || String.eqb (uHost u) ""
              | _, _ => false
              end then
        ErrInvalidValue
          "Relative URI is not allowed when Ref and [apiVersion, kind, name] is absent" "uri"
      else match ref, uri with
           | Some r, None => ViaField (KReference_Validate ctx (Some r)) ["ref"]
           | _, _ =>
               match dCACerts dest with
               | Some c => validateCACerts c
               | None => None
               end
           end
  end.

Definition Destination_Validate (ctx : Ctx) (d : Destination) : option FieldError :=
  ViaField (ValidateDestination ctx d) [CurrentField].

(** ** Validation of the source (yipyapsource_validation.go) *)

Definition validSeverities : gset string := {["info"; "warning"; "critical"]}.

Definition glob_error_string (e : glob_error) : string :=
  match e with ErrBadPattern => "syntax error in pattern" | OutOfFuel => "" end.

Definition index_path (field : string) (i : nat) : string := field +:+ "[" +:+ itoa i +:+ "]".

(** The two loops of [Validate] over the filter, from index [i] on. *)
Fixpoint validate_types (i : nat) (types : list string) (errs : option FieldError)
    : option FieldError :=
  match types with
  | [] => errs
  | pat :: types =>
      validate_types (S i) types
        match path_Match pat "" with
        | Err err =>
            Also errs [Some (mk_err ("invalid glob: " +:+ glob_error_string err)
                               [index_path "types" i] "")]
        | Ok _ => errs
        end
  end.

Fixpoint validate_severities (i : nat) (sevs : list string) (errs : option FieldError)
    : option FieldError :=
  match sevs with
  | [] => errs
  | sev :: sevs =>
      validate_severities (S i) sevs
        (if bool_decide (sev ∈ validSeverities) then errs
         else Also errs [ErrInvalidValue sev (index_path "severities" i)])
  end.

Definition Filter_Validate (f : YipYapSourceFilter) : option FieldError :=
  validate_severities 0 (fSeverities f) (validate_types 0 (fTypes f) None).

Definition Spec_Validate (ctx : Ctx) (s : YipYapSourceSpec) : option FieldError :=
  let errs : option FieldError := None in
  let errs :=
    if String.eqb (akName (spAPIKeyRef s)) ""
    then Also errs [ErrMissingField ["apiKeyRef.name"]] else errs in
  let errs :=
    if bool_decide (spMode s ∈ [""; YipYapSourceModeAuto; YipYapSourceModePoll;
                                YipYapSourceModeStream]) then errs
    else Also errs [ErrInvalidValue (spMode s) "mode"] in
  let errs :=
    match spFilter s with
    | Some f => Also errs [ViaField (Filter_Validate f) ["filter"]]
    | None => errs
    end in
  Also errs [ViaField (Destination_Validate ctx (spSink s)) ["sink"]].

Definition Validate (ctx : Ctx) (y : YipYapSource) : option FieldError :=
  ViaField (Spec_Validate ctx (ySpec y)) ["spec"].
End validation.

(** ** What validity means *)

Definition globs_ok (types : list string) : Prop :=
  Forall (fun pat => forall name, is_ok (path_Match pat name) = true) types.

Definition kref_valid (ctx : Ctx) (kr : KReference) : Prop :=
  krName kr <> "" /\ krKind kr <> "" /\
  (if ctxKReferenceGroupAllowed ctx then
     (krAPIVersion kr <> "" \/ krGroup kr <> "") /\
     (krAPIVersion kr <> "" -> krGroup kr <> "" ->
      has_prefix (krAPIVersion kr) (krGroup kr) = true)
   else krGroup kr = "" /\ krAPIVersion kr <> "") /\
  (krNamespace kr = "" \/ ctxDifferentNamespaceAllowed ctx = true \/
   ctxParentNamespace ctx = "" \/ krNamespace kr = ctxParentNamespace ctx).

Section validity.
Context `{CertLib}.

Definition ca_valid (ca : option string) : Prop :=
  match ca with
  | None => True
  | Some c => exists b, pem_Decode c = Some ("CERTIFICATE", b) /\ x509_ok b = true
  end.

Definition destination_valid (ctx : Ctx) (d : Destination) : Prop :=
  match dRef d, dURI d with
  | None, None => False
  | None, Some u => uScheme u <> "" /\ uHost u <> "" /\ ca_valid (dCACerts d)
  | Some r, None => kref_valid ctx r
  | Some r, Some u => uScheme u = "" /\ ca_valid (dCACerts d)
  end.

Definition filter_valid (f : YipYapSourceFilter) : Prop :=
  globs_ok (fTypes f) /\
  Forall (fun s => s = "info" \/ s = "warning" \/ s = "critical") (fSeverities f).

Record spec_valid (ctx : Ctx) (s : YipYapSourceSpec) : Prop := {
  valid_key : akName (spAPIKeyRef s) <> "";
  valid_mode : spMode s ∈ [""; YipYapSourceModeAuto; YipYapSourceModePoll;
                           YipYapSourceModeStream];
  valid_filter : match spFilter s with Some f => filter_valid f | None => True end;
  valid_sink : destination_valid ctx (spSink s)
}.

(** ** Nil results *)

(** One conditional [errs = errs.Also(...)] of a validation. *)
Lemma cond_Also_None (b : bool) errs e :
  reports e -> e <> None ->
  (if b then Also errs [e] else errs) = None <-> errs = None /\ b = false.
Proof. intros He Hne. destruct b; [rewrite reports_Also_None by done|]; prop_solver. Qed.

Lemma cond_Also_None_r (b : bool) errs e :
  reports e -> e <> None ->
  (if b then errs else Also errs [e]) = None <-> errs = None /\ b = true.
Proof. intros He Hne. destruct b; [|rewrite reports_Also_None by done]; prop_solver. Qed.

Lemma KReference_Validate_nil ctx kr :
  KReference_Validate ctx (Some kr) = None <-> kref_valid ctx kr.
Proof.
  unfold KReference_Validate, kref_valid.
  rewrite cond_Also_None by (done || auto with fielderr).
  rewrite cond_Also_None by (done || auto with fielderr).
  rewrite !andb_false_iff, !negb_false_iff, !String.eqb_eq, !String.eqb_neq.
  destruct (ctxKReferenceGroupAllowed ctx).
  - rewrite cond_Also_None by (done || auto with fielderr).
    rewrite !andb_false_iff, !negb_false_iff, !String.eqb_eq.
    assert ((if String.eqb (krAPIVersion kr) "" && String.eqb (krGroup kr) ""
      then Also (Also (if String.eqb (krName kr) "" then Also None [ErrMissingField ["name"]] else None)
             [ErrMissingField ["apiVersion"]]) [ErrMissingField ["group"]]
      else if String.eqb (krName kr) "" then Also None [ErrMissingField ["name"]] else None) = None
      <-> krName kr <> "" /\ (krAPIVersion kr <> "" \/ krGroup kr <> "")) as ->.
    { destruct (String.eqb_spec (krAPIVersion kr) ""), (String.eqb_spec (krGroup kr) "");
        simpl; rewrite ?reports_Also_None, ?cond_Also_None, ?String.eqb_neq
          by (done || auto with fielderr); unfold ErrMissingField; prop_solver. }
    destruct (decide (krAPIVersion kr = "")), (decide (krGroup kr = "")); prop_solver.
  - rewrite !cond_Also_None by (done || auto with fielderr).
    rewrite negb_false_iff, String.eqb_eq, !String.eqb_neq. prop_solver.
Qed.

Lemma reports_validateCACerts c : reports (validateCACerts c).
Proof. unfold validateCACerts. repeat case_match; auto with fielderr. Qed.

Lemma validateCACerts_nil c : validateCACerts c = None <-> ca_valid (Some c).
Proof.
  unfold validateCACerts, ca_valid, ErrInvalidValue.
  destruct (pem_Decode c) as [[ty b]|].
  - destruct (String.eqb_spec ty "CERTIFICATE") as [->|]; simpl.
    + destruct (x509_ok b) eqn:E; simpl; rewrite ?reports_Also_None by (by apply reports_mk).
      * split; [by exists b|done].
      * split; [by intros [_ ?]|]. intros (b'&[= <-]&?). congruence.
    + rewrite reports_Also_None by (by apply reports_mk).
      split; [by intros [_ ?]|]. intros (b'&[= ? <-]&?). congruence.
  - rewrite reports_Also_None by (by apply reports_mk).
    split; [by intros [_ ?]|]. by intros (b'&?&?).
Qed.

Lemma reports_KReference_Validate ctx kr : reports (KReference_Validate ctx kr).
Proof.
  unfold KReference_Validate. destruct kr as [kr|]; [|auto with fielderr].
  repeat match goal with
         | |- reports (if ?b then _ else _) => destruct b
         end; auto 10 with fielderr.
  all: repeat case_match; repeat apply reports_Also; auto with fielderr.
Qed.

Lemma reports_ValidateDestination ctx d : reports (ValidateDestination ctx d).
Proof.
  unfold ValidateDestination.
  repeat case_match; first [by apply reports_mk | apply reports_validateCACerts
    | apply reports_ViaField, reports_KReference_Validate | auto with fielderr].
Qed.

Lemma Destination_Validate_nil ctx d :
  Destination_Validate ctx d = None <-> destination_valid ctx d.
Proof.
  unfold Destination_Validate. rewrite ViaField_None.
  unfold ValidateDestination, destination_valid, IsAbs, ErrGeneric, ErrInvalidValue.
  destruct (dRef d) as [r|], (dURI d) as [u|]; [| | |done].
  - destruct (String.eqb_spec (uScheme u) ""); simpl; [|prop_solver].
    destruct (dCACerts d); [rewrite validateCACerts_nil|]; prop_solver.
  - simpl. rewrite ViaField_None. apply KReference_Validate_nil.
  - destruct (String.eqb_spec (uScheme u) ""), (String.eqb_spec (uHost u) "");
      simpl; try prop_solver.
    destruct (dCACerts d); [rewrite validateCACerts_nil|]; prop_solver.
Qed.

Lemma bad_glob_reports pat i :
  match path_Match pat "" with
  | Err err => reports (Some (mk_err ("invalid glob: " +:+ glob_error_string err)
                                [index_path "types" i] ""))
  | Ok _ => True
  end.
Proof. destruct (path_Match pat ""); [done|]. by apply reports_mk. Qed.

Lemma glob_ok_iff pat :
  (forall name, is_ok (path_Match pat name) = true) <-> is_ok (path_Match pat "") = true.
Proof.
  split; [done|]. intros H0 name.
  pose proof (path_Match_error_name_irrelevant pat "" name).
  by destruct (path_Match pat ""), (path_Match pat name).
Qed.

Lemma validate_types_nil i types errs :
  validate_types i types errs = None <-> errs = None /\ globs_ok types.
Proof.
  unfold globs_ok. revert i errs. induction types as [|pat types IH]; intros i errs; simpl.
  { rewrite Forall_nil. tauto. }
  rewrite IH, Forall_cons, glob_ok_iff.
  pose proof (bad_glob_reports pat i) as Hr.
  destruct (path_Match pat "") as [b|err]; simpl; [tauto|].
  rewrite reports_Also_None by done. split; [by intros [[_ ?] _]|]. by intros (_&?&_).
Qed.

Lemma validate_severities_nil i sevs errs :
  validate_severities i sevs errs = None <->
  errs = None /\ Forall (fun s => s = "info" \/ s = "warning" \/ s = "critical") sevs.
Proof.
  revert i errs. induction sevs as [|sev sevs IH]; intros i errs; simpl.
  { rewrite Forall_nil. tauto. }
  rewrite IH, Forall_cons, cond_Also_None_r by (done || auto with fielderr).
  rewrite bool_decide_eq_true. unfold validSeverities.
  rewrite !elem_of_union, !elem_of_singleton. tauto.
Qed.

Lemma Filter_Validate_nil f : Filter_Validate f = None <-> filter_valid f.
Proof.
  unfold Filter_Validate, filter_valid.
  rewrite validate_severities_nil, validate_types_nil. tauto.
Qed.

Lemma reports_validate_types i types errs :
  reports errs -> reports (validate_types i types errs).
Proof.
  revert i errs. induction types as [|pat types IH]; intros i errs He; simpl; [done|].
  apply IH. pose proof (bad_glob_reports pat i). case_match; auto with fielderr.
Qed.

Lemma reports_validate_severities i sevs errs :
  reports errs -> reports (validate_severities i sevs errs).
Proof.
  revert i errs. induction sevs as [|sev sevs IH]; intros i errs He; simpl; [done|].
  apply IH. case_bool_decide; auto with fielderr.
Qed.

Lemma reports_Filter_Validate f : reports (Filter_Validate f).
Proof.
  apply reports_validate_severities, reports_validate_types, reports_None.
Qed.

Lemma Spec_Validate_nil ctx s : Spec_Validate ctx s = None <-> spec_valid ctx s.
Proof.
  unfold Spec_Validate.
  assert (reports (Destination_Validate ctx (spSink s))) as Hd
    by (apply reports_ViaField, reports_ValidateDestination).
  rewrite reports_Also_None by auto with fielderr.
  rewrite ViaField_None, Destination_Validate_nil.
  assert (forall errs, match spFilter s with
      | Some f => Also errs [ViaField (Filter_Validate f) ["filter"]]
      | None => errs end = None <->
    errs = None /\ match spFilter s with Some f => filter_valid f | None => True end) as ->.
  { intros errs. destruct (spFilter s) as [f|]; [|tauto].
    rewrite reports_Also_None by (apply reports_ViaField, reports_Filter_Validate).
    by rewrite ViaField_None, Filter_Validate_nil. }
  rewrite cond_Also_None_r by (done || auto with fielderr).
  rewrite cond_Also_None by (done || auto with fielderr).
  rewrite String.eqb_neq, bool_decide_eq_true.
  split; [intros [[[[_ ?] ?] ?] ?]; by split|intros []; done].
Qed.

(** Every diagnostic of the validation has the level of errors. *)
Lemma all_errors_KReference_Validate ctx kr : all_errors (KReference_Validate ctx kr) = true.
Proof.
  unfold KReference_Validate. destruct kr as [kr|]; [|auto 10 with fielderr].
  repeat case_match; repeat apply all_errors_Also; done.
Qed.

Lemma all_errors_ValidateDestination ctx d : all_errors (ValidateDestination ctx d) = true.
Proof.
  unfold ValidateDestination, validateCACerts.
  repeat case_match; try done; auto using all_errors_KReference_Validate with fielderr.
Qed.

Lemma all_errors_validate_types i types errs :
  all_errors errs = true -> all_errors (validate_types i types errs) = true.
Proof.
  revert i errs. induction types as [|pat types IH]; intros i errs He; [done|]. simpl.
  apply IH. destruct (path_Match pat ""); [done|by apply all_errors_Also].
Qed.

Lemma all_errors_validate_severities i sevs errs :
  all_errors errs = true -> all_errors (validate_severities i sevs errs) = true.
Proof.
  revert i errs. induction sevs as [|sev sevs IH]; intros i errs He; [done|]. simpl.
  apply IH. case_bool_decide; [done|by apply all_errors_Also].
Qed.

Lemma Validate_all_errors ctx y : all_errors (Validate ctx y) = true.
Proof.
  unfold Validate, Spec_Validate. apply all_errors_ViaField, all_errors_Also.
  - repeat case_match; repeat apply all_errors_Also; try done;
      by apply all_errors_ViaField, all_errors_validate_severities, all_errors_validate_types.
  - by apply all_errors_ViaField, all_errors_ViaField, all_errors_ValidateDestination.
Qed.

Lemma reports_Validate ctx y : reports (Validate ctx y).
Proof.
  unfold Validate, Spec_Validate. apply reports_ViaField, reports_Also.
  - repeat case_match; repeat apply reports_Also;
      auto using reports_Filter_Validate with fielderr.
  - by apply reports_ViaField, reports_ViaField, reports_ValidateDestination.
Qed.
End validity.

(** ** Diagnostics and their paths *)

Lemma split_index_path field i :
  string_contains "." field = false ->
  split "." (index_path field i) = [index_path field i].
Proof.
  intros Hf. apply split_whole. unfold index_path.
  rewrite !string_contains_app, Hf. simpl.
  rewrite (digits_no_char "." (itoa i)); [done|done|apply itoa_digits].
Qed.

Lemma flatten_filter_path field i :
  string_contains "." field = false -> has_prefix field "[" = false -> field <> "" ->
  flatten (["spec"] ++ [flatten (["filter"] ++ [index_path field i])])
  = "spec.filter." +:+ index_path field i.
Proof.
  intros Hdot Hidx Hne.
  assert (isIndex (index_path field i) = false) as Hi.
  { unfold isIndex, index_path. destruct field as [|c field]; [done|].
    unfold has_prefix in *. simpl in *. unfold strip_prefix in *.
    by destruct (Ascii.eqb "[" c). }
  assert (String.eqb (index_path field i) CurrentField = false) as Hcur.
  { unfold index_path. destruct field; done. }
  assert (flatten (["filter"] ++ [index_path field i]) = "filter." +:+ index_path field i) as ->.
  { unfold flatten. simpl. rewrite split_index_path by done. simpl.
    unfold flatten_step at 1. rewrite Hcur. simpl. by rewrite Hi. }
  unfold flatten. cbn [app flat_map]. rewrite app_nil_r.
  change (split "." "spec") with ["spec"].
  etransitivity;
    [do 4 f_equal; exact (split_app_sep "." "filter" (index_path field i) eq_refl)|].
  simpl. rewrite split_index_path by done. simpl.
  unfold flatten_step at 1. rewrite Hcur. simpl. by rewrite Hi.
Qed.

Section diagnostics.
Context `{CertLib}.

Lemma validate_types_keeps i types errs d :
  d ∈ normalized errs -> d ∈ normalized (validate_types i types errs).
Proof.
  revert i errs. induction types as [|pat types IH]; intros i errs Hd; simpl; [done|].
  apply IH. case_match; [done|]. rewrite normalized_Also. set_solver.
Qed.

Lemma validate_severities_keeps i sevs errs d :
  d ∈ normalized errs -> d ∈ normalized (validate_severities i sevs errs).
Proof.
  revert i errs. induction sevs as [|sev sevs IH]; intros i errs Hd; simpl; [done|].
  apply IH. case_bool_decide; [done|]. rewrite normalized_Also. set_solver.
Qed.

Lemma validate_types_reports i k types errs pat :
  types !! k = Some pat -> is_ok (path_Match pat "") = false ->
  mk_err "invalid glob: syntax error in pattern" [index_path "types" (i + k)] ""
    ∈ normalized (validate_types i types errs).
Proof.
  revert i k errs. induction types as [|p types IH]; intros i k errs Hk Hbad; [done|].
  destruct k as [|k]; simpl in *.
  - injection Hk as ->. apply validate_types_keeps.
    pose proof (path_Match_fuel pat "") as Hf.
    destruct (path_Match pat "") as [b|[]]; [done| |done].
    rewrite normalized_Also. apply elem_of_app. right. simpl.
    rewrite Nat.add_0_r. left.
  - replace (i + S k)%nat with (S i + k)%nat by lia. by apply IH.
Qed.

Lemma validate_severities_reports i k sevs errs sev :
  sevs !! k = Some sev -> sev ∉ validSeverities ->
  mk_err ("invalid value: " +:+ sev) [index_path "severities" (i + k)] ""
    ∈ normalized (validate_severities i sevs errs).
Proof.
  revert i k errs. induction sevs as [|s sevs IH]; intros i k errs Hk Hbad; [done|].
  destruct k as [|k]; simpl in *.
  - injection Hk as ->. apply validate_severities_keeps.
    rewrite bool_decide_false by done.
    rewrite normalized_Also. apply elem_of_app. right. simpl.
    rewrite Nat.add_0_r. left.
  - replace (i + S k)%nat with (S i + k)%nat by lia. by apply IH.
Qed.

Lemma Validate_filter_reports ctx y f d :
  spFilter (ySpec y) = Some f -> d ∈ normalized (Filter_Validate f) ->
  prefix_paths ["spec"] (prefix_paths ["filter"] d) ∈ normalized (Validate ctx y).
Proof.
  intros Hf Hd. unfold Validate. rewrite normalized_ViaField.
  apply list_elem_of_fmap_2. unfold Spec_Validate. rewrite Hf.
  rewrite normalized_Also, normalized_Also, normalized_ViaField.
  apply elem_of_app. left. apply elem_of_app. right. by apply list_elem_of_fmap_2.
Qed.
End diagnostics.

Lemma Spec_SetDefaults_idempotent ctx s :
  Spec_SetDefaults ctx (Spec_SetDefaults ctx s) = Spec_SetDefaults ctx s.
Proof.
  destruct s as [[r u c a] ov [an ak] b f m sa]. unfold Spec_SetDefaults. cbn.
  f_equal.
  - unfold Destination_SetDefaults. destruct r as [[k n nm av g ad]|]; [|done]. cbn.
    destruct (String.eqb_spec n "") as [->|Hn]; cbn.
    + destruct (String.eqb_spec (ctxParentNamespace ctx) "") as [->|]; done.
    + by rewrite (proj2 (String.eqb_neq n "") Hn).
  - by destruct (String.eqb ak "") eqn:E; [|rewrite E].
  - by destruct (String.eqb b "") eqn:E; [|rewrite E].
  - by destruct (String.eqb m "") eqn:E; [|rewrite E].
Qed.

(** ** Theorems *)

(** C34. Acceptance: the webhook's [Validate] returns nil exactly for the specs
    that name an API key secret, use one of the four modes, list only type
    globs that match any name without a syntax error and only known severities,
    and have a well-formed sink. *)
Theorem Validate_accepts_iff `{CertLib} ctx y :
  Validate ctx y = None <-> spec_valid ctx (ySpec y).
Proof. unfold Validate. rewrite ViaField_None. apply Spec_Validate_nil. Qed.

(** Every malformed type glob and every unknown severity of the filter is
    reported, under its own path spec.filter.types[i] or
    spec.filter.severities[i]. *)
Theorem Validate_reports_each_filter_entry `{CertLib} ctx y f :
  spFilter (ySpec y) = Some f ->
  (forall i pat, fTypes f !! i = Some pat -> is_ok (path_Match pat "") = false ->
     mk_err "invalid glob: syntax error in pattern"
       ["spec.filter.types[" +:+ itoa i +:+ "]"] "" ∈ normalized (Validate ctx y)) /\
  (forall i sev, fSeverities f !! i = Some sev -> sev ∉ validSeverities ->
     mk_err ("invalid value: " +:+ sev)
       ["spec.filter.severities[" +:+ itoa i +:+ "]"] "" ∈ normalized (Validate ctx y)).
Proof.
  intros Hf. split.
  - intros i pat Hi Hbad.
    pose proof (Validate_filter_reports ctx y f _ Hf
      (validate_severities_keeps 0 (fSeverities f) _ _
        (validate_types_reports 0 i (fTypes f) None pat Hi Hbad))) as Hd.
    unfold prefix_paths, with_paths in Hd. cbn [map fePaths feMessage feLevel feDetails mk_err] in Hd.
    by rewrite flatten_filter_path in Hd.
  - intros i sev Hi Hbad.
    pose proof (Validate_filter_reports ctx y f _ Hf
      (validate_severities_reports 0 i (fSeverities f) (validate_types 0 (fTypes f) None)
        sev Hi Hbad)) as Hd.
    unfold prefix_paths, with_paths in Hd. cbn [map fePaths feMessage feLevel feDetails mk_err] in Hd.
    by rewrite flatten_filter_path in Hd.
Qed.

(** Defaulting fills exactly the empty fields: the secret key, the base
    URL, the mode and the namespace of the sink reference keep a non-empty
    value and otherwise get the documented default; nothing else changes; a
    second defaulting changes nothing. *)
Theorem SetDefaults_fills_and_is_idempotent ctx y :
  let s := ySpec y in
  let s' := Spec_SetDefaults (WithinParent ctx (yMeta y)) s in
  SetDefaults ctx (Some y) = Some (with_spec y s') /\
  SetDefaults ctx (SetDefaults ctx (Some y)) = SetDefaults ctx (Some y) /\
  akKey (spAPIKeyRef s') = default_str (akKey (spAPIKeyRef s)) "api-key" /\
  spBaseURL s' = default_str (spBaseURL s) "https://console.yipyap.run" /\
  spMode s' = default_str (spMode s) "auto" /\
  (krNamespace <$> dRef (spSink s'))
    = (fun r => default_str (krNamespace r) (omNamespace (yMeta y))) <$> dRef (spSink s) /\
  (akName (spAPIKeyRef s'), spFilter s', spCloudEventOverrides s', spServiceAccountName s',
   dURI (spSink s'), krName <$> dRef (spSink s'))
    = (akName (spAPIKeyRef s), spFilter s, spCloudEventOverrides s, spServiceAccountName s,
       dURI (spSink s), krName <$> dRef (spSink s)).
Proof.
  destruct y as [om s st]; destruct s as [[[r|] u c a] ov [an ak] b f m sa]; simpl.
  - unfold Spec_SetDefaults, Destination_SetDefaults, default_str, with_spec; simpl.
    destruct r as [k n nm av g ad]; simpl.
    destruct (String.eqb_spec n ""); subst; simpl;
      destruct (String.eqb_spec ak ""), (String.eqb_spec b ""), (String.eqb_spec m "");
      subst; simpl; rewrite ?String.eqb_refl; simpl;
      repeat match goal with
             | H : ?x <> "" |- _ => rewrite (proj2 (String.eqb_neq x "") H); clear H
             end;
      (destruct (String.eqb_spec (omNamespace om) "") as [E|]; [rewrite ?E|]); done.
  - unfold Spec_SetDefaults, Destination_SetDefaults, default_str, with_spec; simpl.
    destruct (String.eqb_spec ak ""), (String.eqb_spec b ""), (String.eqb_spec m "");
      subst; simpl;
      repeat match goal with
             | H : ?x <> "" |- _ => rewrite (proj2 (String.eqb_neq x "") H); clear H
             end; done.
Qed.

(** Defaulting and validation agree: an object is accepted after
    defaulting exactly when it was accepted before, for a validation context
    with no parent namespace or with the object's own. *)
Theorem SetDefaults_preserves_validity `{CertLib} ctx y y' :
  ctxParentNamespace ctx = "" \/ ctxParentNamespace ctx = omNamespace (yMeta y) ->
  SetDefaults ctx (Some y) = Some y' ->
  Validate ctx y' = None <-> Validate ctx y = None.
Proof.
  intros Hns [= <-]. unfold Validate. rewrite !ViaField_None, !Spec_Validate_nil.
  destruct y as [om s st]; simpl in *.
  assert (destination_valid ctx (Destination_SetDefaults (WithinParent ctx om) (spSink s))
          <-> destination_valid ctx (spSink s)) as Hd.
  { unfold Destination_SetDefaults. destruct (spSink s) as [[r|] u c a]; simpl; [|done].
    destruct (String.eqb_spec (krNamespace r) "") as [E|]; [|done].
    unfold destination_valid; simpl. destruct u; [done|].
    unfold kref_valid; simpl. rewrite E.
    assert (omNamespace om = ctxParentNamespace ctx \/ ctxParentNamespace ctx = "")
      as Hp by (destruct Hns; auto).
    tauto. }
  split; intros [H1 H2 H3 H4]; split; simpl in *; try done; try (by apply Hd).
  - by destruct (String.eqb_spec (spMode s) "") as [->|]; [left|].
  - destruct (String.eqb_spec (spMode s) ""); [|done]. right; left.
Qed.

(** ** Witnesses *)

(** No certificate parses. *)
Definition no_cert_lib : CertLib := {| pem_Decode := fun _ => None; x509_ok := fun _ => false |}.

Definition bad_filter : YipYapSourceFilter := MkFilter ["a.*"; "[x"] [] ["critical"; "fatal"].

Definition bad_source : YipYapSource :=
  with_spec sample_source
    (MkSpec (spSink sample_spec) None (spAPIKeyRef sample_spec) "" (Some bad_filter) "" "").

Lemma Validate_reports_each_filter_entry_witness :
  mk_err "invalid glob: syntax error in pattern" ["spec.filter.types[1]"] ""
    ∈ normalized (Validate (H := no_cert_lib) background bad_source) /\
  mk_err "invalid value: fatal" ["spec.filter.severities[1]"] ""
    ∈ normalized (Validate (H := no_cert_lib) background bad_source).
Proof.
  destruct (Validate_reports_each_filter_entry (H := no_cert_lib) background bad_source
    bad_filter eq_refl) as [Ht Hs].
  split.
  - apply (Ht 1%nat "[x"); reflexivity.
  - apply (Hs 1%nat "fatal"); [reflexivity|].
    unfold validSeverities. vm_compute. intros Hin. inversion Hin.
Defined.

Lemma SetDefaults_preserves_validity_witness :
  exists y', SetDefaults background (Some sample_source) = Some y' /\
    (Validate (H := no_cert_lib) background y' = None <->
     Validate (H := no_cert_lib) background sample_source = None).
Proof.
  eexists. split; [reflexivity|].
  apply (SetDefaults_preserves_validity (H := no_cert_lib) background sample_source);
    [left; reflexivity|reflexivity].
Defined.
