(* ===== verification/Admission.v ===== *)
(** * Admission (webhook/resourcesemantics of knative.dev/pkg)

    The defaulting and the validation controller the webhook process is made
    of: [mutate] and [Admit] of defaulting.go, [Admit], the decoding,
    [validate] and [callback] of validation_admit.go, over a map of handlers.
    The reflective JSON codec of a resource and JSON patches are the interface
    [ObjectCodec], with what is relied on in [CodecLaws].

    Not here: callbacks of the defaulting controller (the program gives none),
    the user annotations (a YipYapSource has no [GetUntypedSpec], so they are
    never set), and the old object, the user and the dry-run flag in the
    context, which neither [SetDefaults] nor [Validate] of the source reads. *)

From S2P Require Import Prelude GoStrings GoPath CondSet FieldError Types Api.
Local Open Scope string_scope.
Local Open Scope list_scope.

(** ** Documents *)

Class ObjectCodec (op : Type) := {
  (** [json.Decode] of webhook/json, into the given object; the flag
      disallows unknown fields. *)
  Decode : bool -> string -> YipYapSource -> result string YipYapSource;
  Marshal : YipYapSource -> result string string;
  (** [jsonpatch.CreatePatch] on two documents. *)
  CreatePatch : string -> string -> result string (list op);
  (** The error of [json.Unmarshal] into an unstructured object. *)
  Unmarshal_unstructured : string -> option string;
  (** What the API server makes of a patch. *)
  apply_patch : list op -> string -> option string
}.

(** Two results with the same value, whatever the error. *)
Definition agree {A} (r r' : result string A) : Prop := forall x, r = Ok x <-> r' = Ok x.

(** Documents are compared as JSON values. *)
Class CodecLaws (op : Type) `{ObjectCodec op} := {
  same_doc : relation string;
  same_doc_equivalence :: Equivalence same_doc;
  (** The text of some JSON value. *)
  json_text : string -> Prop;
  json_text_nonempty : ~ json_text "";
  Decode_proper :: Proper (eq ==> same_doc ==> eq ==> agree) Decode;
  apply_proper :: Proper (eq ==> same_doc ==> option_Forall2 same_doc) apply_patch;
  Decode_json_text : forall strict a y0 y, Decode strict a y0 = Ok y -> json_text a;
  Marshal_json_text : forall y a, Marshal y = Ok a -> json_text a;
  (** What was read from a document can be written. *)
  Marshal_decoded : forall strict a y0 y, Decode strict a y0 = Ok y -> exists d, Marshal y = Ok d;
  CreatePatch_total : forall a b, json_text a -> json_text b -> exists p, CreatePatch a b = Ok p;
  (** RFC 6902: the patch from [a] to [b] turns [a] into [b], and operations
      apply in order. *)
  CreatePatch_applies : forall a b p, CreatePatch a b = Ok p ->
    option_Forall2 same_doc (apply_patch p a) (Some b);
  apply_patch_app : forall p q a, apply_patch (p ++ q) a = apply_patch p a ≫= apply_patch q
}.

(** ** Requests and responses (k8s.io/api/admission/v1) *)

Definition Create : string := "CREATE".
Definition Update : string := "UPDATE".
Definition Delete : string := "DELETE".

Record AdmissionRequest := MkAdmissionRequest {
  rqUID : string;
  rqKind : GroupVersionKind;
  rqSubResource : string;
  rqOperation : string;
  (** The raw documents, empty when absent. *)
  rqObject : string;
  rqOldObject : string
}.

Definition with_object (o : string) (r : AdmissionRequest) : AdmissionRequest :=
  MkAdmissionRequest (rqUID r) (rqKind r) (rqSubResource r) (rqOperation r) o (rqOldObject r).

(** A result is the message of a [BadRequest] status. *)
Record AdmissionResponse (op : Type) := MkAdmissionResponse {
  arUID : string;
  arAllowed : bool;
  arResult : option string;
  arPatch : option (list op);
  arWarnings : option (list string)
}.
Arguments MkAdmissionResponse {op} _ _ _ _ _.
Arguments arUID {op} _.
Arguments arAllowed {op} _.
Arguments arResult {op} _.
Arguments arPatch {op} _.
Arguments arWarnings {op} _.

#[export] Instance GroupVersionKind_eq_dec : EqDecision GroupVersionKind.
Proof. solve_decision. Defined.
#[export] Program Instance GroupVersionKind_countable : Countable GroupVersionKind :=
  inj_countable' (fun g => (gvkGroup g, gvkVersion g, gvkKind g))
    (fun t => MkGVK t.1.1 t.1.2 t.2) _.
Next Obligation. by intros []. Qed.

Definition gvk_String (g : GroupVersionKind) : string :=
  gvkGroup g +:+ "/" +:+ gvkVersion g +:+ ", Kind=" +:+ gvkKind g.

Definition WithKind (gv : GroupVersion) (kind : string) : GroupVersionKind :=
  MkGVK (gvGroup gv) (gvVersion gv) kind.

(** A validating callback: its function on the raw object, and its verbs. *)
Record Callback := MkCallback {
  cbFunction : Ctx -> string -> option string;
  cbSupportedVerbs : list string
}.

(** The fields of the two reconcilers that [Admit] reads. *)
Record resource_admission := MkResourceAdmission {
  raName : string;
  raPath : string;
  raHandlers : gmap GroupVersionKind YipYapSource;
  raWithContext : option (Ctx -> Ctx);
  raDisallowUnknownFields : bool;
  raCallbacks : gmap GroupVersionKind Callback
}.

Definition with_context (ac : resource_admission) (ctx : Ctx) : Ctx :=
  match raWithContext ac with Some f => f ctx | None => ctx end.

Section admission.
Context {op : Type} `{ObjectCodec op}.

Definition allow (patch : option (list op)) : AdmissionResponse op :=
  MkAdmissionResponse "" true None patch None.

Definition MakeErrorStatus (reason : string) : AdmissionResponse op :=
  MkAdmissionResponse "" false (Some reason) None None.

Definition with_warnings (ws : list string) (r : AdmissionResponse op) : AdmissionResponse op :=
  MkAdmissionResponse (arUID r) (arAllowed r) (arResult r) (arPatch r) (Some ws).

Definition errMissingNewObject : string := "the new object may not be nil".

(** The decoding both controllers do, into a copy of the handler. *)
Definition decode_object (ac : resource_admission) (handler : YipYapSource) (which raw : string)
    : result string (option YipYapSource) :=
  if String.eqb raw "" then Ok None
  else match Decode (raDisallowUnknownFields ac) raw handler with
       | Ok y => Ok (Some y)
       | Err e => Err ("cannot decode incoming " +:+ which +:+ " object: " +:+ e)
       end.

(** ** Defaulting (defaulting.go) *)

(** How a handler ends without a patch. *)
Inductive failure := Failed (msg : string) | Panicked.

Definition roundTripPatch (raw : string) (unmarshalled : option YipYapSource)
    : result string (list op) :=
  match unmarshalled with
  | None => Ok []
  | Some y =>
      match Marshal y with
      | Ok d => CreatePatch raw d
      | Err e => Err ("cannot marshal interface: " +:+ e)
      end
  end.

(** [duck.CreatePatch]. *)
Definition object_patch (before after : YipYapSource) : result string (list op) :=
  rawBefore ← Marshal before; rawAfter ← Marshal after; CreatePatch rawBefore rawAfter.

(** A copy of a nil object is a nil dereference. *)
Definition setDefaults (ctx : Ctx) (patches : list op) (crd : option YipYapSource)
    : result failure (list op * option YipYapSource) :=
  match crd, SetDefaults ctx crd with
  | Some before, Some after =>
      patch ← map_err Failed (object_patch before after);
      mret (patches ++ patch, Some after)
  | _, _ => Err Panicked
  end.

Definition mutate (ac : resource_admission) (ctx : Ctx) (req : AdmissionRequest)
    : result failure (list op) :=
  match raHandlers ac !! rqKind req with
  | None => Err (Failed ("unhandled kind: " +:+ gvk_String (rqKind req)))
  | Some handler =>
      newObj ← map_err Failed (decode_object ac handler "new" (rqObject req));
      _ ← map_err Failed (decode_object ac handler "old" (rqOldObject req));
      rtp ← map_err (fun e => Failed ("cannot create patch for round tripped newBytes: " +:+ e))
              (roundTripPatch (rqObject req) newObj);
      defaulted ← setDefaults ctx rtp newObj;
      match defaulted.2 with
      | None => Err (Failed errMissingNewObject)
      | Some _ => mret defaulted.1
      end
  end.

(** [Admit] of the defaulting controller; [None] is a panic. *)
Definition Admit_defaulting (ac : resource_admission) (ctx : Ctx) (req : AdmissionRequest)
    : option (AdmissionResponse op) :=
  let ctx := with_context ac ctx in
  if bool_decide (rqOperation req ∈ [Create; Update]) then
    match mutate ac ctx req with
    | Err Panicked => None
    | Err (Failed e) => Some (MakeErrorStatus ("mutation failed: " +:+ e))
    | Ok patches => Some (allow (Some patches))
    end
  else Some (allow None).

(** ** Validation (validation_admit.go) *)

(** The object the operation is about: the old one for a deletion. *)
Definition decodeRequestAndPrepareContext (ac : resource_admission) (req : AdmissionRequest)
    : result string (option YipYapSource) :=
  match raHandlers ac !! rqKind req with
  | None => Err ("unhandled kind: " +:+ gvk_String (rqKind req))
  | Some handler =>
      newObj ← decode_object ac handler "new" (rqObject req);
      oldObj ← decode_object ac handler "old" (rqOldObject req);
      mret (if String.eqb (rqOperation req) Delete then oldObj else newObj)
  end.

Context `{CertLib}.

(** The error and the warnings. *)
Definition validate (ctx : Ctx) (resource : option YipYapSource) (req : AdmissionRequest)
    : option string * option (list string) :=
  if bool_decide (rqOperation req ∈ [Create; Update]) then
    match resource with
    | None => (Some errMissingNewObject, None)
    | Some y =>
        let result := Validate ctx y in
        (Error ∘ Some <$> Filter result ErrorLevel,
         (fun w => map (Error ∘ Some) (WrappedErrors (Some w))) <$> Filter result WarningLevel)
    end
  else (None, None).

Definition callback (ac : resource_admission) (ctx : Ctx) (req : AdmissionRequest)
    : option string :=
  let toDecode := if String.eqb (rqOperation req) Delete then rqOldObject req else rqObject req in
  if String.eqb toDecode "" then None
  else match raCallbacks ac !! rqKind req with
       | Some c =>
           if bool_decide (rqOperation req ∈ cbSupportedVerbs c) then
             match Unmarshal_unstructured toDecode with
             | Some e => Some ("cannot decode incoming new object: " +:+ e)
             | None => cbFunction c ctx toDecode
             end
           else None
       | None => None
       end.

Definition Admit_validation (ac : resource_admission) (ctx : Ctx) (req : AdmissionRequest)
    : AdmissionResponse op :=
  let ctx := with_context ac ctx in
  match decodeRequestAndPrepareContext ac req with
  | Err e => MakeErrorStatus ("decoding request failed: " +:+ e)
  | Ok resource =>
      let '(error, warnings) := validate ctx resource req in
      let resp :=
        match error with
        | Some e => MakeErrorStatus ("validation failed: " +:+ e)
        | None =>
            match callback ac ctx req with
            | Some e => MakeErrorStatus ("validation callback failed: " +:+ e)
            | None => allow None
            end
        end in
      match warnings with Some ws => with_warnings ws resp | None => resp end
  end.
End admission.

(** ** The API server

    A write passes the mutating webhook, whose patch is applied, and then the
    validating one, on the patched object (failure policy [Fail]). *)

Section api_server.
Context {op : Type} `{ObjectCodec op, CertLib}.

Definition admit_write (mutating validating : resource_admission) (ctx : Ctx)
    (req : AdmissionRequest) : result string string :=
  match Admit_defaulting mutating ctx req with
  | None => Err "no response"
  | Some r =>
      if arAllowed r then
        match arPatch r with
        | None => Ok (rqObject req)
        | Some p => match apply_patch p (rqObject req) with Some o => Ok o | None => Err "bad patch" end
        end ≫= fun object =>
        let r := Admit_validation (op:=op) validating ctx (with_object object req) in
        if arAllowed r then Ok object else Err (default "" (arResult r))
      else Err (default "" (arResult r))
  end.
End api_server.

(** ** Lemmas *)

(** What defaulting makes of a source. *)
Definition defaulted (ctx : Ctx) (y : YipYapSource) : YipYapSource :=
  with_spec y (Spec_SetDefaults (WithinParent ctx (yMeta y)) (ySpec y)).

Section lemmas.
Context {op : Type} `{CodecLaws op, CertLib}.

(** An object that survives being written and read. *)
Definition representable (y : YipYapSource) (handler : YipYapSource) (strict : bool) : Prop :=
  exists d, Marshal y = Ok d /\ Decode strict d handler = Ok y.

(** The old object of a request can be read, or there is none. *)
Definition old_decodes (ac : resource_admission) (handler : YipYapSource)
    (req : AdmissionRequest) : Prop :=
  rqOldObject req = "" \/
  exists old, Decode (raDisallowUnknownFields ac) (rqOldObject req) handler = Ok old.

Lemma decode_object_ok ac handler which raw o :
  decode_object ac handler which raw = Ok o <->
  (raw = "" /\ o = None) \/
  (raw <> "" /\ exists y, o = Some y /\ Decode (raDisallowUnknownFields ac) raw handler = Ok y).
Proof.
  unfold decode_object. destruct (String.eqb_spec raw "") as [->|Hne].
  - split; [intros [= <-]; by left|]. by intros [[_ ->]|[? _]].
  - destruct (Decode _ _ _) as [y|e]; split.
    + intros [= <-]. right. split; [done|]. by exists y.
    + by intros [[? _]|(_&y'&->&[= ->])].
    + done.
    + by intros [[? _]|(_&y'&_&?)].
Qed.

Lemma old_decodes_iff ac handler req which :
  old_decodes ac handler req <-> exists o, decode_object ac handler which (rqOldObject req) = Ok o.
Proof.
  unfold old_decodes. setoid_rewrite decode_object_ok. split.
  - destruct (decide (rqOldObject req = "")) as [Hn|Hn]; [intros _; exists None; by left|].
    intros [?|[old Ho]]; [done|]. exists (Some old). right. split; [done|]. by exists old.
  - intros (o&[[? _]|(_&y&_&?)]); [by left|right; by exists y].
Qed.

Lemma object_patch_applies before after p :
  object_patch before after = Ok p -> exists a b, Marshal before = Ok a /\ Marshal after = Ok b /\
    option_Forall2 same_doc (apply_patch p a) (Some b).
Proof.
  unfold object_patch. destruct (Marshal before) as [a|]; [|done].
  destruct (Marshal after) as [b|]; [|done]. cbn. intros Hp. exists a, b.
  split; [done|]. split; [done|]. by apply CreatePatch_applies.
Qed.

(** The two patches of [mutate], one after the other. *)
Lemma patches_compose raw a b p q :
  CreatePatch raw a = Ok p -> option_Forall2 same_doc (apply_patch q a) (Some b) ->
  exists doc, apply_patch (p ++ q) raw = Some doc /\ same_doc doc b.
Proof.
  intros Hp Hq. pose proof (CreatePatch_applies _ _ _ Hp) as Ha. inversion Ha as [c ? Hc Ec|].
  subst. rewrite apply_patch_app, <- Ec. cbn.
  pose proof (apply_proper q q eq_refl c a Hc) as Hca.
  inversion Hq as [d ? Hd Ed|]; subst. rewrite <- Ed in Hca. inversion Hca as [e ? He Ee|]; subst.
  exists e. split; [done|]. by transitivity d.
Qed.

Context (ac : resource_admission) (handler : YipYapSource) (req : AdmissionRequest)
  (Hhandler : raHandlers ac !! rqKind req = Some handler).

(** The patch exists and makes the object the defaulted one. *)
Lemma mutate_ok ctx y :
  rqObject req <> "" -> Decode (raDisallowUnknownFields ac) (rqObject req) handler = Ok y ->
  old_decodes ac handler req ->
  representable (defaulted ctx y) handler (raDisallowUnknownFields ac) ->
  exists p doc, mutate ac ctx req = Ok p /\ apply_patch p (rqObject req) = Some doc /\
    Decode (raDisallowUnknownFields ac) doc handler = Ok (defaulted ctx y).
Proof.
  intros Hne Hy Hold (b&Hb&Hdec).
  destruct (Marshal_decoded _ _ _ _ Hy) as [a Ha].
  destruct (CreatePatch_total (rqObject req) a) as [p Hp];
    [by eapply Decode_json_text|by eapply Marshal_json_text|].
  destruct (CreatePatch_total a b) as [q Hq]; [by eapply Marshal_json_text..|].
  destruct (patches_compose _ _ b _ q Hp) as (doc&Hdoc&Hsame); [by apply CreatePatch_applies|].
  exists (p ++ q), doc. split; [|split; [done|by apply (Decode_proper _ _ eq_refl _ _ Hsame _ _ eq_refl)]].
  apply (old_decodes_iff _ _ _ "old") in Hold as [o Ho].
  assert (decode_object ac handler "new" (rqObject req) = Ok (Some y)) as Hn
    by (apply decode_object_ok; right; split; [done|by exists y]).
  unfold mutate. rewrite Hhandler, Hn, Ho. cbn. rewrite Ha, Hp. cbn.
  unfold setDefaults, object_patch. cbn. rewrite Ha. cbn.
  unfold defaulted in Hb. cbn in Hb. rewrite Hb. cbn. by rewrite Hq.
Qed.

Lemma mutate_inv ctx p :
  mutate ac ctx req = Ok p -> rqObject req <> "" /\ old_decodes ac handler req /\
  exists y, Decode (raDisallowUnknownFields ac) (rqObject req) handler = Ok y.
Proof.
  unfold mutate. rewrite Hhandler.
  destruct (decode_object ac handler "new" (rqObject req)) as [new|] eqn:En; [|done]. cbn.
  destruct (decode_object ac handler "old" (rqOldObject req)) as [old|] eqn:Eo; [|done]. cbn.
  destruct (roundTripPatch _ _) as [rtp|]; [|done]. cbn.
  intros Hp. split_and!.
  - apply decode_object_ok in En as [[-> ->]|[? _]]; [by cbn in Hp|done].
  - apply (old_decodes_iff _ _ _ "old"). by exists old.
  - apply decode_object_ok in En as [[-> ->]|(_&y&->&?)]; [by cbn in Hp|by exists y].
Qed.

Context (Hcallbacks : raCallbacks ac = ∅).

Lemma Admit_validation_allowed ctx :
  rqOperation req ∈ [Create; Update] ->
  arAllowed (Admit_validation (op:=op) ac ctx req) = true <->
  rqObject req <> "" /\ old_decodes ac handler req /\
  exists y, Decode (raDisallowUnknownFields ac) (rqObject req) handler = Ok y /\
    spec_valid (with_context ac ctx) (ySpec y).
Proof.
  intros Hop. unfold Admit_validation, decodeRequestAndPrepareContext. rewrite Hhandler.
  destruct (decode_object ac handler "new" (rqObject req)) as [new|] eqn:En; cbn; last first.
  { split; [done|]. intros (Hne&_&y&Hy&_).
    assert (decode_object ac handler "new" (rqObject req) = Ok (Some y)); [|congruence].
    apply decode_object_ok. right. split; [done|]. by exists y. }
  destruct (decode_object ac handler "old" (rqOldObject req)) as [old|] eqn:Eo; cbn; last first.
  { split; [done|]. intros (_&[o Ho]%(old_decodes_iff _ _ _ "old")&_). congruence. }
  assert (old_decodes ac handler req) by (apply (old_decodes_iff _ _ _ "old"); by exists old).
  assert (String.eqb (rqOperation req) Delete = false) as ->
    by (apply String.eqb_neq; intros E; rewrite E in Hop;
        exact (bool_decide_pack _ Hop)).
  unfold validate, callback. rewrite bool_decide_true, Hcallbacks, lookup_empty by done.
  apply decode_object_ok in En as [[-> ->]|(Hne&y&->&Hy)].
  { cbn. split; [done|]. by intros [? _]. }
  rewrite all_errors_no_warnings by apply Validate_all_errors. cbn.
  destruct (Filter (Validate (with_context ac ctx) y) ErrorLevel) as [e|] eqn:Ef; cbn.
  - split; [done|]. intros (_&_&y'&Hy'&Hv).
    assert (y' = y) as -> by congruence.
    assert (Validate (with_context ac ctx) y = None) as Hn
      by (unfold Validate; by rewrite ViaField_None, Spec_Validate_nil).
    by rewrite Hn in Ef.
  - rewrite all_errors_Filter_None in Ef by (apply Validate_all_errors || apply reports_Validate).
    unfold Validate in Ef. rewrite ViaField_None, Spec_Validate_nil in Ef.
    repeat case_match; split; try done; intros _; split_and!; try done; by exists y.
Qed.
End lemmas.

Section chain.
Context {op : Type} `{CodecLaws op, CertLib}.
Context (mutating validating : resource_admission) (handler : YipYapSource)
  (req : AdmissionRequest).
Context (Hm : raHandlers mutating !! rqKind req = Some handler)
  (Hv : raHandlers validating !! rqKind req = Some handler)
  (Hcallbacks : raCallbacks validating = ∅)
  (Hstrict : raDisallowUnknownFields validating = raDisallowUnknownFields mutating)
  (Hop : rqOperation req ∈ [Create; Update]).

(** The conditions under which a write is stored, and what is stored. *)
Record write_ok (ctx : Ctx) (y : YipYapSource) : Prop := {
  wo_object : rqObject req <> "";
  wo_decodes : Decode (raDisallowUnknownFields mutating) (rqObject req) handler = Ok y;
  wo_old : old_decodes mutating handler req;
  wo_valid : spec_valid (with_context validating ctx)
    (ySpec (defaulted (with_context mutating ctx) y))
}.

Lemma admit_write_iff ctx :
  (forall y, Decode (raDisallowUnknownFields mutating) (rqObject req) handler = Ok y ->
     representable (defaulted (with_context mutating ctx) y) handler
       (raDisallowUnknownFields mutating)) ->
  (forall doc, admit_write (op:=op) mutating validating ctx req = Ok doc -> exists y,
     write_ok ctx y /\ Decode (raDisallowUnknownFields mutating) doc handler
       = Ok (defaulted (with_context mutating ctx) y)) /\
  (forall y, write_ok ctx y -> exists doc, admit_write (op:=op) mutating validating ctx req = Ok doc).
Proof.
  intros Hrep. unfold admit_write, Admit_defaulting. rewrite bool_decide_true by done.
  set (mctx := with_context mutating ctx) in *.
  assert (forall y, rqObject req <> "" -> old_decodes mutating handler req ->
    Decode (raDisallowUnknownFields mutating) (rqObject req) handler = Ok y ->
    exists p doc, mutate mutating mctx req = Ok p /\ apply_patch p (rqObject req) = Some doc /\
      Decode (raDisallowUnknownFields mutating) doc handler = Ok (defaulted mctx y) /\
      (arAllowed (Admit_validation (op:=op) validating ctx (with_object doc req)) = true <->
       spec_valid (with_context validating ctx) (ySpec (defaulted mctx y)))) as Hchain.
  { intros y Hne Hold Hy.
    destruct (mutate_ok mutating handler req Hm mctx y Hne Hy Hold (Hrep _ Hy))
      as (p&doc&Hp&Hdoc&Hdec).
    exists p, doc. split; [done|]. split; [done|]. split; [done|].
    rewrite (Admit_validation_allowed validating handler (with_object doc req) Hv Hcallbacks)
      by done.
    cbn [rqObject with_object]. unfold old_decodes in *. cbn [rqOldObject with_object].
    rewrite Hstrict. split.
    - intros (_&_&y'&Hy'&?). assert (y' = defaulted mctx y) as <- by congruence. done.
    - intros ?. split; [intros ->; by apply json_text_nonempty; eapply Decode_json_text|]. split; [done|]. by eexists. }
  split.
  - intros doc. destruct (mutate mutating mctx req) as [p|[]] eqn:Ep; [|done..].
    destruct (mutate_inv mutating handler req Hm mctx p Ep) as (Hne&Hold&y&Hy).
    destruct (Hchain y Hne Hold Hy) as (p'&doc'&Hp'&Hdoc'&Hdec&Hvalid).
    assert (p' = p) as -> by congruence. cbn [arAllowed allow arPatch]. rewrite Hdoc'. cbn [mbind result_bind].
    destruct (arAllowed _) eqn:Ea; [|done]. intros [= <-]. exists y.
    split; [|done]. split; try done. by apply Hvalid.
  - intros y [Hne Hy Hold Hval].
    destruct (Hchain y Hne Hold Hy) as (p&doc&->&Hdoc&Hdec&Hvalid).
    cbn [arAllowed allow arPatch]. rewrite Hdoc. cbn [mbind result_bind].
    rewrite (proj2 Hvalid Hval). by exists doc.
Qed.
End chain.
