(* ===== verification/Scheme.v ===== *)
(** * The schemes (register.go of v1alpha1 and of the clientsets)

    The registry of types behind the clients (k8s.io/apimachinery/pkg/runtime):
    which Go type stands for which group, version and kind, what [addKnownTypes]
    of v1alpha1 adds to it, and the two schemes the generated clientsets keep.
    A Go type is its package and name; an operation that panics gives [None].
    Conversion and defaulting functions, of which the API of this program
    registers none of its own, are left out. *)

From S2P Require Import Prelude GoStrings Types Api Admission.
Local Open Scope string_scope.
Local Open Scope list_scope.

(** ** Types of Go *)

Record go_type := MkGoType { pkgPath : string; typeName : string }.

#[export] Instance go_type_eq_dec : EqDecision go_type.
Proof. solve_decision. Defined.
#[export] Program Instance go_type_countable : Countable go_type :=
  inj_countable' (fun t => (pkgPath t, typeName t)) (fun '(p, n) => MkGoType p n) _.
Next Obligation. by intros []. Qed.

#[export] Instance GroupVersion_eq_dec : EqDecision GroupVersion.
Proof. solve_decision. Defined.

(** ** The registry (scheme.go) *)

Record Scheme := MkScheme {
  gvkToType : gmap GroupVersionKind go_type;
  typeToGVK : gmap go_type (list GroupVersionKind);
  unversionedTypes : gmap go_type GroupVersionKind;
  unversionedKinds : gmap string go_type;
  observedVersions : list GroupVersion
}.

Definition NewScheme : Scheme := MkScheme ∅ ∅ ∅ ∅ [].

Definition APIVersionInternal : string := "__internal".

Definition addObservedVersion (gv : GroupVersion) (s : Scheme) : Scheme :=
  if String.eqb (gvVersion gv) "" || String.eqb (gvVersion gv) APIVersionInternal then s
  else if bool_decide (gv ∈ observedVersions s) then s
  else MkScheme (gvkToType s) (typeToGVK s) (unversionedTypes s) (unversionedKinds s)
         (observedVersions s ++ [gv]).

Definition AddKnownTypeWithName (gvk : GroupVersionKind) (t : go_type) (s : Scheme) : option Scheme :=
  let s := addObservedVersion (MkGroupVersion (gvkGroup gvk) (gvkVersion gvk)) s in
  if String.eqb (gvkVersion gvk) "" then None
  else if match gvkToType s !! gvk with Some old => bool_decide (old <> t) | None => false end then None
  else
    let kinds := default [] (typeToGVK s !! t) in
    Some (MkScheme (<[gvk := t]> (gvkToType s))
            (if bool_decide (gvk ∈ kinds) then typeToGVK s else <[t := kinds ++ [gvk]]> (typeToGVK s))
            (unversionedTypes s) (unversionedKinds s) (observedVersions s)).

(** Over a list, up to the first panic. *)
Fixpoint add_all {A} (add : A -> Scheme -> option Scheme) (l : list A) (s : Scheme) : option Scheme :=
  match l with
  | [] => Some s
  | a :: l => s ← add a s; add_all add l s
  end.

Definition AddKnownTypes (gv : GroupVersion) (types : list go_type) (s : Scheme) : option Scheme :=
  add_all (fun t => AddKnownTypeWithName (WithKind gv (typeName t)) t) types (addObservedVersion gv s).

Definition add_unversioned (gv : GroupVersion) (t : go_type) (s : Scheme) : option Scheme :=
  let kinds := <[t := WithKind gv (typeName t)]> (unversionedTypes s) in
  if match unversionedKinds s !! typeName t with Some old => bool_decide (t <> old) | None => false end
  then None
  else Some (MkScheme (gvkToType s) (typeToGVK s) kinds (<[typeName t := t]> (unversionedKinds s))
               (observedVersions s)).

Definition AddUnversionedTypes (gv : GroupVersion) (types : list go_type) (s : Scheme) : option Scheme :=
  s ← AddKnownTypes gv types (addObservedVersion gv s);
  add_all (add_unversioned gv) types s.

(** [ObjectKinds], [Recognizes] and [New] of an object of a Go type. *)
Definition ObjectKinds (s : Scheme) (t : go_type) : option (list GroupVersionKind * bool) :=
  gvks ← typeToGVK s !! t;
  Some (gvks, bool_decide (is_Some (unversionedTypes s !! t))).

Definition Recognizes (s : Scheme) (gvk : GroupVersionKind) : bool :=
  bool_decide (is_Some (gvkToType s !! gvk)).

Definition NewObject (s : Scheme) (gvk : GroupVersionKind) : option go_type :=
  match gvkToType s !! gvk with
  | Some t => Some t
  | None => unversionedKinds s !! gvkKind gvk
  end.

(** ** The common types (apis/meta/v1/register.go) *)

Definition meta_type (name : string) : go_type :=
  MkGoType "k8s.io/apimachinery/pkg/apis/meta/v1" name.

Definition Unversioned : GroupVersion := MkGroupVersion "" "v1".
Definition WatchEventKind : string := "WatchEvent".

Definition optionsTypes : list go_type :=
  map meta_type ["ListOptions"; "GetOptions"; "DeleteOptions"; "CreateOptions"; "UpdateOptions"; "PatchOptions"].
Definition unversioned_types : list go_type :=
  map meta_type ["Status"; "APIVersions"; "APIGroupList"; "APIGroup"; "APIResourceList"].

Definition AddToGroupVersion (gv : GroupVersion) (s : Scheme) : option Scheme :=
  s ← AddKnownTypeWithName (WithKind gv WatchEventKind) (meta_type "WatchEvent") s;
  s ← AddKnownTypeWithName (WithKind (MkGroupVersion (gvGroup gv) APIVersionInternal) WatchEventKind)
        (meta_type "InternalEvent") s;
  s ← AddKnownTypes gv optionsTypes s;
  AddUnversionedTypes Unversioned unversioned_types s.

(** ** v1alpha1 (register.go) *)

Definition source_object (name : string) : go_type :=
  MkGoType "github.com/YipYap-run/knative-source/pkg/apis/sources/v1alpha1" name.

Definition addKnownTypes (s : Scheme) : option Scheme :=
  s ← AddKnownTypes SchemeGroupVersion [source_object "YipYapSource"; source_object "YipYapSourceList"] s;
  AddToGroupVersion SchemeGroupVersion s.

(** A [SchemeBuilder], and the one of v1alpha1. *)
Definition scheme_builder : Type := list (Scheme -> option Scheme).
Definition builder_AddToScheme (sb : scheme_builder) : Scheme -> option Scheme :=
  add_all (fun f => f) sb.

Definition v1alpha1_SchemeBuilder : scheme_builder := [addKnownTypes].
Definition v1alpha1_AddToScheme : Scheme -> option Scheme := builder_AddToScheme v1alpha1_SchemeBuilder.

(** ** The clientsets (scheme/register.go, fake/register.go) *)

Definition localSchemeBuilder : scheme_builder := [v1alpha1_AddToScheme].
Definition clientset_AddToScheme : Scheme -> option Scheme := builder_AddToScheme localSchemeBuilder.

(** The [init] of each package, and its scheme afterwards. *)
Definition clientset_init (s : Scheme) : option Scheme :=
  s ← AddToGroupVersion (MkGroupVersion "" "v1") s; clientset_AddToScheme s.
Definition clientset_Scheme : option Scheme := clientset_init NewScheme.

Definition fake_localSchemeBuilder : scheme_builder := [v1alpha1_AddToScheme].
Definition fake_AddToScheme : Scheme -> option Scheme := builder_AddToScheme fake_localSchemeBuilder.
Definition fake_init (s : Scheme) : option Scheme :=
  s ← AddToGroupVersion (MkGroupVersion "" "v1") s; fake_AddToScheme s.
Definition fake_scheme : option Scheme := fake_init NewScheme.

(** ** What the registry keeps *)

Definition gvk_version (gvk : GroupVersionKind) : GroupVersion :=
  MkGroupVersion (gvkGroup gvk) (gvkVersion gvk).

(** The two tables say the same, a type is listed once under each of its kinds,
    each kind has a version, which was observed unless it is the internal one,
    and unversioned types are those of v1. *)
Record scheme_ok (s : Scheme) : Prop := {
  sc_agree : forall gvk t, gvkToType s !! gvk = Some t <->
    exists gvks, typeToGVK s !! t = Some gvks /\ gvk ∈ gvks;
  sc_nodup : forall t gvks, typeToGVK s !! t = Some gvks -> NoDup gvks /\ gvks <> [];
  sc_version : forall gvk, is_Some (gvkToType s !! gvk) -> gvkVersion gvk <> "" /\
    (gvkVersion gvk = APIVersionInternal \/ gvk_version gvk ∈ observedVersions s);
  sc_unversioned : forall t gvk, unversionedTypes s !! t = Some gvk ->
    gvk = WithKind Unversioned (typeName t)
}.

(** A scheme with more in it. *)
Record extends (s s' : Scheme) : Prop := {
  ex_types : gvkToType s ⊆ gvkToType s';
  ex_unversioned : unversionedTypes s ⊆ unversionedTypes s';
  ex_kinds : unversionedKinds s ⊆ unversionedKinds s';
  ex_versions : observedVersions s ⊆ observedVersions s'
}.

#[export] Instance extends_preorder : PreOrder extends.
Proof.
  split; [by split|]. intros s1 s2 s3 [] []. split; by etransitivity.
Qed.

(** A function that registers: it keeps the invariant and what is there, and in
    any scheme that has what it added it changes nothing. *)
Definition registers (f : Scheme -> option Scheme) : Prop :=
  forall s s', scheme_ok s -> f s = Some s' ->
    scheme_ok s' /\ extends s s' /\ forall s2, scheme_ok s2 -> extends s' s2 -> f s2 = Some s2.

Lemma registers_bind f g : registers f -> registers g -> registers (fun s => s ← f s; g s).
Proof.
  intros Hf Hg s s' Hs E. destruct (f s) as [s1|] eqn:Ef; [|done]. cbn in E.
  destruct (Hf _ _ Hs Ef) as (H1&He1&Hi1). destruct (Hg _ _ H1 E) as (H2&He2&Hi2).
  split; [done|]. split; [by etransitivity|]. intros s2 Hs2 He. cbn.
  rewrite Hi1 by (done || by etransitivity). cbn. by apply Hi2.
Qed.

Lemma registers_all {A} (add : A -> Scheme -> option Scheme) l :
  (forall a, a ∈ l -> registers (add a)) -> registers (add_all add l).
Proof.
  induction l as [|a l IH]; intros Hadd.
  - intros s s' Hs [= <-]. split_and!; [done..|]. done.
  - apply (registers_bind (add a) (add_all add l)); [apply Hadd; left|].
    apply IH. intros b Hb. apply Hadd. by right.
Qed.

Lemma NewScheme_ok : scheme_ok NewScheme.
Proof.
  split; cbn.
  - intros gvk t. rewrite lookup_empty. split; [done|]. intros (g&Hg&_). by rewrite lookup_empty in Hg.
  - intros t g. by rewrite lookup_empty.
  - intros gvk. rewrite lookup_empty. by intros [? ?].
  - intros t gvk. by rewrite lookup_empty.
Qed.

(** *** Versions *)

Lemma addObservedVersion_spec gv s :
  let s' := addObservedVersion gv s in
  gvkToType s' = gvkToType s /\ typeToGVK s' = typeToGVK s /\
  unversionedTypes s' = unversionedTypes s /\ unversionedKinds s' = unversionedKinds s /\
  observedVersions s ⊆ observedVersions s' /\
  (gvVersion gv = "" \/ gvVersion gv = APIVersionInternal \/ gv ∈ observedVersions s').
Proof.
  unfold addObservedVersion.
  destruct (String.eqb_spec (gvVersion gv) ""); [by split_and!; auto|].
  destruct (String.eqb_spec (gvVersion gv) APIVersionInternal); [by split_and!; auto|]. cbn [orb].
  case_bool_decide; cbn; split_and!; auto; set_solver.
Qed.

Lemma addObservedVersion_again gv s :
  gvVersion gv = "" \/ gvVersion gv = APIVersionInternal \/ gv ∈ observedVersions s ->
  addObservedVersion gv s = s.
Proof.
  unfold addObservedVersion. intros Hgv. destruct (String.eqb_spec (gvVersion gv) ""); [done|].
  destruct (String.eqb_spec (gvVersion gv) APIVersionInternal); [done|]. cbn [orb].
  rewrite bool_decide_true; [done|]. naive_solver.
Qed.

Lemma registers_version gv : registers (fun s => Some (addObservedVersion gv s)).
Proof.
  intros s s' Hs [= <-]. destruct (addObservedVersion_spec gv s) as (E1&E2&E3&E4&E5&E6).
  split_and!.
  - destruct Hs as [Ha Hn Hv Hu]. split; rewrite ?E1, ?E2, ?E3; try done.
    intros gvk Hg. destruct (Hv gvk Hg) as [? [?|?]]; auto.
  - split; rewrite ?E1, ?E3, ?E4; done.
  - intros s2 _ [_ _ _ Hv]. f_equal. apply addObservedVersion_again. naive_solver.
Qed.

(** *** One type *)

(** The kinds of a type with one more. *)
Definition with_kind (gvk : GroupVersionKind) (t : go_type) (m : gmap go_type (list GroupVersionKind))
    : gmap go_type (list GroupVersionKind) :=
  let kinds := default [] (m !! t) in
  if bool_decide (gvk ∈ kinds) then m else <[t := kinds ++ [gvk]]> m.

Lemma with_kind_spec gvk t m :
  (forall gvks, m !! t = Some gvks -> NoDup gvks) ->
  exists gvks, with_kind gvk t m = <[t := gvks]> m /\ NoDup gvks /\
    forall g, g ∈ gvks <-> g = gvk \/ g ∈ default [] (m !! t).
Proof.
  intros Hn. unfold with_kind. destruct (m !! t) as [ks|] eqn:E; cbn [default].
  - specialize (Hn _ eq_refl). case_bool_decide as Hk.
    + exists ks. split; [by rewrite insert_id|]. split; [done|]. set_solver.
    + exists (ks ++ [gvk]). split; [done|]. split; [|set_solver].
      apply NoDup_app. split; [done|]. split; [set_solver|apply NoDup_singleton].
  - rewrite bool_decide_false by set_solver. exists [gvk]. split; [done|].
    split; [apply NoDup_singleton|set_solver].
Qed.

(** It panics without a version, and when the kind is another type's. *)
Lemma AddKnownTypeWithName_eq gvk t s s' :
  AddKnownTypeWithName gvk t s = Some s' <->
  gvkVersion gvk <> "" /\ (forall old, gvkToType s !! gvk = Some old -> old = t) /\
  s' = MkScheme (<[gvk := t]> (gvkToType s)) (with_kind gvk t (typeToGVK s)) (unversionedTypes s)
         (unversionedKinds s) (observedVersions (addObservedVersion (gvk_version gvk) s)).
Proof.
  unfold AddKnownTypeWithName, with_kind. fold (gvk_version gvk).
  destruct (addObservedVersion_spec (gvk_version gvk) s) as (E1&E2&E3&E4&_).
  cbv zeta. rewrite E1, E2, E3, E4. destruct (String.eqb_spec (gvkVersion gvk) ""); [naive_solver|].
  destruct (gvkToType s !! gvk) as [old|] eqn:E; [|naive_solver].
  destruct (decide (old = t)) as [->|Hne].
  - rewrite (bool_decide_false (t <> t)) by (intros []; done). naive_solver.
  - rewrite (bool_decide_true (old <> t)) by done. naive_solver.
Qed.

Lemma AddKnownTypeWithName_ok gvk t s s' :
  scheme_ok s -> AddKnownTypeWithName gvk t s = Some s' -> scheme_ok s'.
Proof.
  intros [Ha Hn Hver Hun] (Hv&Hsame&->)%AddKnownTypeWithName_eq.
  destruct (addObservedVersion_spec (gvk_version gvk) s) as (_&_&_&_&Hobs&Hin).
  destruct (with_kind_spec gvk t (typeToGVK s)) as (gvks&E&Hnd&Hgvks); [intros ks; apply Hn|].
  split; cbn [gvkToType typeToGVK unversionedTypes observedVersions]; rewrite ?E.
  - intros g u. destruct (decide (u = t)) as [->|Hu].
    + rewrite lookup_insert_eq. destruct (decide (g = gvk)) as [->|Hg].
      * rewrite lookup_insert_eq. split; [|done]. intros _. exists gvks. split; [done|]. apply Hgvks. by left.
      * rewrite lookup_insert_ne, Ha by done. split.
        -- intros (ks&Ek&?). exists gvks. split; [done|]. apply Hgvks. right. by rewrite Ek.
        -- intros (ks&[= <-]&[?|Hk]%Hgvks); [done|]. destruct (typeToGVK s !! t); [eauto|set_solver].
    + rewrite (lookup_insert_ne _ t u) by done. destruct (decide (g = gvk)) as [->|Hg].
      * rewrite lookup_insert_eq. split; [by intros [= ->]|]. intros Hk%Ha. by apply Hsame in Hk.
      * by rewrite lookup_insert_ne.
  - intros u ks. destruct (decide (u = t)) as [->|]; [|rewrite lookup_insert_ne by done; apply Hn].
    rewrite lookup_insert_eq. intros [= <-]. split; [done|]. intros ->.
    destruct (Hgvks gvk) as [_ Hnil]. apply (not_elem_of_nil gvk), Hnil. by left.
  - intros g. destruct (decide (g = gvk)) as [->|].
    + intros _. split; [done|]. cbn in Hin. tauto.
    + rewrite lookup_insert_ne by done. intros Hg. destruct (Hver g Hg) as [? [?|?]]; auto.
  - done.
Qed.

Lemma registers_type gvk t : registers (AddKnownTypeWithName gvk t).
Proof.
  intros s s' Hs E. split; [by eapply AddKnownTypeWithName_ok|].
  apply AddKnownTypeWithName_eq in E as (Hv&Hsame&->).
  destruct (addObservedVersion_spec (gvk_version gvk) s) as (_&_&_&_&Hobs&Hin). split.
  - split; cbn; [|done..]. apply map_subseteq_spec. intros g u Hg.
    destruct (decide (g = gvk)) as [->|Hne]; [|by rewrite lookup_insert_ne].
    rewrite lookup_insert_eq. by rewrite (Hsame u).
  - intros s2 Hs2 [Ht Hu Hk Hobs2]. cbn in Ht, Hu, Hk, Hobs2.
    assert (gvkToType s2 !! gvk = Some t) as Ht2
      by (eapply lookup_weaken; [apply lookup_insert_eq|exact Ht]).
    apply AddKnownTypeWithName_eq. split; [done|]. split; [by rewrite Ht2; intros old [= ->]|].
    rewrite insert_id by done.
    assert (with_kind gvk t (typeToGVK s2) = typeToGVK s2) as ->.
    { apply (sc_agree _ Hs2) in Ht2 as (ks&Ek&Hin2). unfold with_kind. rewrite Ek. cbn.
      by rewrite bool_decide_true. }
    rewrite addObservedVersion_again by (cbn in *; naive_solver). by destruct s2.
Qed.

Lemma registers_types gv types : registers (AddKnownTypes gv types).
Proof.
  intros s s'. unfold AddKnownTypes.
  apply (registers_bind (fun s => Some (addObservedVersion gv s))
    (add_all (fun t => AddKnownTypeWithName (WithKind gv (typeName t)) t) types)).
  - apply registers_version.
  - apply registers_all. intros t _. apply registers_type.
Qed.

(** *** Unversioned types *)

Lemma registers_unversioned t : registers (add_unversioned Unversioned t).
Proof.
  intros s s' Hs E. unfold add_unversioned in *.
  assert ((forall old, unversionedKinds s !! typeName t = Some old -> t = old) /\
    s' = MkScheme (gvkToType s) (typeToGVK s)
      (<[t := WithKind Unversioned (typeName t)]> (unversionedTypes s))
      (<[typeName t := t]> (unversionedKinds s)) (observedVersions s)) as [Hold ->].
  { destruct (unversionedKinds s !! typeName t) as [old|]; [|by injection E as <-].
    destruct (decide (t = old)) as [<-|Hne].
    - rewrite bool_decide_false in E by (intros []; done). injection E as <-.
      split; [by intros ? [= ->]|done].
    - by rewrite bool_decide_true in E. }
  split_and!.
  - destruct Hs as [Ha Hn Hv Hu]. split; cbn; [done..|]. intros u gvk.
    destruct (decide (u = t)) as [->|]; [rewrite lookup_insert_eq; by intros [= <-]|].
    rewrite lookup_insert_ne by done. apply Hu.
  - split; cbn; [done| | |done]; apply map_subseteq_spec; intros k v Hk.
    + destruct (decide (k = t)) as [->|]; [|by rewrite lookup_insert_ne].
      rewrite lookup_insert_eq. by rewrite (sc_unversioned _ Hs _ _ Hk).
    + destruct (decide (k = typeName t)) as [->|]; [|by rewrite lookup_insert_ne].
      rewrite lookup_insert_eq. by rewrite (Hold v).
  - intros s2 _ [_ Ht Hk _]. cbn in Ht, Hk.
    assert (unversionedTypes s2 !! t = Some (WithKind Unversioned (typeName t))) as Et
      by (eapply lookup_weaken; [apply lookup_insert_eq|exact Ht]).
    assert (unversionedKinds s2 !! typeName t = Some t) as Ek
      by (eapply lookup_weaken; [apply lookup_insert_eq|exact Hk]).
    rewrite Ek, bool_decide_false by (intros []; done). rewrite !insert_id by done. by destruct s2.
Qed.

(** *** A group and version *)

Lemma registers_AddUnversionedTypes types : registers (AddUnversionedTypes Unversioned types).
Proof.
  unfold AddUnversionedTypes.
  apply (registers_bind (fun s => AddKnownTypes Unversioned types (addObservedVersion Unversioned s))
    (add_all _ _)).
  - apply (registers_bind (fun s => Some (addObservedVersion Unversioned s))
      (AddKnownTypes Unversioned types)); [apply registers_version|apply registers_types].
  - apply registers_all. intros t _. apply registers_unversioned.
Qed.

Lemma registers_AddToGroupVersion gv : registers (AddToGroupVersion gv).
Proof.
  unfold AddToGroupVersion.
  apply (registers_bind _ (fun s => s ← _; s ← _; _)); [apply registers_type|].
  apply (registers_bind _ (fun s => s ← _; _)); [apply registers_type|].
  apply (registers_bind _ (AddUnversionedTypes Unversioned unversioned_types));
    [apply registers_types|apply registers_AddUnversionedTypes].
Qed.

Lemma registers_v1alpha1 : registers v1alpha1_AddToScheme.
Proof.
  unfold v1alpha1_AddToScheme, builder_AddToScheme. apply registers_all.
  intros f ->%list_elem_of_singleton. unfold addKnownTypes.
  apply (registers_bind _ (AddToGroupVersion SchemeGroupVersion));
    [apply registers_types|apply registers_AddToGroupVersion].
Qed.

(** *** What a registration adds is the same everywhere *)

(** The kinds [f] adds to one scheme are there after it ran on another. *)
Definition adds_alike (f : Scheme -> option Scheme) : Prop :=
  forall s s' s0 s0' gvk t, scheme_ok s0 -> f s = Some s' -> f s0 = Some s0' ->
  gvkToType s' !! gvk = Some t -> gvkToType s !! gvk = Some t \/ gvkToType s0' !! gvk = Some t.

Lemma adds_alike_bind f g :
  adds_alike f -> adds_alike g -> registers f -> registers g -> adds_alike (fun s => s ← f s; g s).
Proof.
  intros Hf Hg Rf Rg s s' s0 s0' gvk t Hs0 E E0 Ht.
  destruct (f s) as [s1|] eqn:E1; [|done]. destruct (f s0) as [s01|] eqn:E01; [|done].
  cbn in E, E0. destruct (Rf s0 s01 Hs0 E01) as (Hs01&_). destruct (Rg s01 s0' Hs01 E0) as (_&[Hsub _ _ _]&_).
  destruct (Hg s1 s' s01 s0' gvk t Hs01 E E0 Ht) as [Hin|]; [|by right].
  destruct (Hf s s1 s0 s01 gvk t Hs0 E1 E01 Hin) as [|Hin']; [by left|right].
  by eapply lookup_weaken.
Qed.

Lemma adds_alike_all {A} (add : A -> Scheme -> option Scheme) l :
  (forall a, a ∈ l -> adds_alike (add a)) -> (forall a, a ∈ l -> registers (add a)) ->
  adds_alike (add_all add l).
Proof.
  induction l as [|a l IH]; intros Hadd Hreg.
  - intros s s' s0 s0' gvk t _ [= <-] _ Ht. by left.
  - apply (adds_alike_bind (add a) (add_all add l)); [apply Hadd; left| |apply Hreg; left|].
    + apply IH; intros b Hb; [apply Hadd|apply Hreg]; by right.
    + apply registers_all. intros b Hb. apply Hreg. by right.
Qed.

Lemma adds_alike_none f : (forall s s', f s = Some s' -> gvkToType s' = gvkToType s) -> adds_alike f.
Proof. intros Hf s s' s0 s0' gvk t _ E _. rewrite (Hf s s' E). by left. Qed.

Lemma adds_alike_version gv : adds_alike (fun s => Some (addObservedVersion gv s)).
Proof. apply adds_alike_none. intros s s' [= <-]. apply (addObservedVersion_spec gv s). Qed.

Lemma adds_alike_unversioned gv t : adds_alike (add_unversioned gv t).
Proof.
  apply adds_alike_none. intros s s'. unfold add_unversioned.
  destruct (match unversionedKinds s !! _ with Some _ => _ | None => _ end); [done|].
  by intros [= <-].
Qed.

Lemma adds_alike_type gvk t : adds_alike (AddKnownTypeWithName gvk t).
Proof.
  intros s s' s0 s0' gvk' t' _ (_&_&->)%AddKnownTypeWithName_eq (_&_&->)%AddKnownTypeWithName_eq.
  cbn. destruct (decide (gvk' = gvk)) as [->|].
  - rewrite !lookup_insert_eq. by right.
  - rewrite lookup_insert_ne by done. by left.
Qed.

Lemma adds_alike_types gv types : adds_alike (AddKnownTypes gv types).
Proof.
  apply (adds_alike_bind (fun s => Some (addObservedVersion gv s))
    (add_all (fun t => AddKnownTypeWithName (WithKind gv (typeName t)) t) types)).
  - apply adds_alike_version.
  - apply adds_alike_all; intros t _; [apply adds_alike_type|apply registers_type].
  - apply registers_version.
  - apply registers_all. intros t _. apply registers_type.
Qed.

Lemma adds_alike_v1alpha1 : adds_alike v1alpha1_AddToScheme.
Proof.
  assert (adds_alike (AddUnversionedTypes Unversioned unversioned_types)) as Hu.
  { unfold AddUnversionedTypes.
    apply (adds_alike_bind (fun s => AddKnownTypes Unversioned unversioned_types
      (addObservedVersion Unversioned s)) (add_all _ _)).
    - apply (adds_alike_bind (fun s => Some (addObservedVersion Unversioned s))
        (AddKnownTypes Unversioned unversioned_types));
        [apply adds_alike_version|apply adds_alike_types|apply registers_version|apply registers_types].
    - apply adds_alike_all; intros t _; [apply adds_alike_unversioned|apply registers_unversioned].
    - apply (registers_bind (fun s => Some (addObservedVersion Unversioned s))
        (AddKnownTypes Unversioned unversioned_types)); [apply registers_version|apply registers_types].
    - apply registers_all. intros t _. apply registers_unversioned. }
  assert (adds_alike (AddToGroupVersion SchemeGroupVersion)) as Hgv.
  { unfold AddToGroupVersion.
    apply (adds_alike_bind _ (fun s => s ← _; s ← _; _)); [apply adds_alike_type| |apply registers_type|].
    - apply (adds_alike_bind _ (fun s => s ← _; _)); [apply adds_alike_type| |apply registers_type|].
      + apply (adds_alike_bind _ (AddUnversionedTypes Unversioned unversioned_types));
          [apply adds_alike_types|done|apply registers_types|apply registers_AddUnversionedTypes].
      + apply (registers_bind _ (AddUnversionedTypes Unversioned unversioned_types));
          [apply registers_types|apply registers_AddUnversionedTypes].
    - apply (registers_bind _ (fun s => s ← _; _)); [apply registers_type|].
      apply (registers_bind _ (AddUnversionedTypes Unversioned unversioned_types));
        [apply registers_types|apply registers_AddUnversionedTypes]. }
  unfold v1alpha1_AddToScheme, builder_AddToScheme.
  apply adds_alike_all; intros f ->%list_elem_of_singleton; unfold addKnownTypes.
  - apply (adds_alike_bind _ (AddToGroupVersion SchemeGroupVersion));
      [apply adds_alike_types|done|apply registers_types|apply registers_AddToGroupVersion].
  - apply (registers_bind _ (AddToGroupVersion SchemeGroupVersion));
      [apply registers_types|apply registers_AddToGroupVersion].
Qed.

(** *** What is registered *)

Lemma AddKnownTypes_kinds gv types s s' t :
  scheme_ok s -> AddKnownTypes gv types s = Some s' -> t ∈ types ->
  gvkToType s' !! WithKind gv (typeName t) = Some t.
Proof.
  intros Hs E Ht. unfold AddKnownTypes in E.
  destruct (registers_version gv s _ Hs eq_refl) as (Hs1&_&_). revert Hs1 E.
  generalize (addObservedVersion gv s). induction types as [|u types IH]; intros s1 Hs1 E; [set_solver|].
  cbn [add_all] in E. destruct (AddKnownTypeWithName _ u s1) as [s2|] eqn:E2; [|done]. cbn in E.
  destruct (registers_type _ _ _ _ Hs1 E2) as (Hs2&_&_).
  apply elem_of_cons in Ht as [->|Ht]; [|by apply (IH Ht s2)].
  destruct (registers_all (fun t => AddKnownTypeWithName (WithKind gv (typeName t)) t) types
    (fun t _ => registers_type _ t) s2 s' Hs2 E) as (_&[Hsub _ _ _]&_).
  apply AddKnownTypeWithName_eq in E2 as (_&_&->). eapply lookup_weaken; [|exact Hsub].
  apply lookup_insert_eq.
Qed.

Lemma v1alpha1_kinds s s' t :
  scheme_ok s -> v1alpha1_AddToScheme s = Some s' ->
  t ∈ [source_object "YipYapSource"; source_object "YipYapSourceList"] ++ optionsTypes ->
  gvkToType s' !! WithKind SchemeGroupVersion (typeName t) = Some t.
Proof.
  intros Hs E Ht. unfold v1alpha1_AddToScheme, builder_AddToScheme, v1alpha1_SchemeBuilder in E.
  cbn [add_all] in E. unfold addKnownTypes in E.
  destruct (AddKnownTypes _ _ s) as [s1|] eqn:E1; [|done]. cbn [mbind option_bind] in E.
  destruct (AddToGroupVersion _ s1) as [s2|] eqn:E2; [|done]. injection E as <-.
  destruct (registers_types _ _ _ _ Hs E1) as (Hs1&_&_).
  destruct (registers_AddToGroupVersion _ _ _ Hs1 E2) as (_&[Hsub _ _ _]&_).
  apply elem_of_app in Ht as [Ht|Ht].
  { eapply lookup_weaken; [exact (AddKnownTypes_kinds _ _ s s1 t Hs E1 Ht)|done]. }
  unfold AddToGroupVersion in E2.
  destruct (AddKnownTypeWithName _ _ s1) as [s3|] eqn:E3; [|done]. cbn [mbind option_bind] in E2.
  destruct (AddKnownTypeWithName _ _ s3) as [s4|] eqn:E4; [|done]. cbn [mbind option_bind] in E2.
  destruct (AddKnownTypes _ optionsTypes s4) as [s5|] eqn:E5; [|done]. cbn [mbind option_bind] in E2.
  destruct (registers_type _ _ _ _ Hs1 E3) as (Hs3&_&_).
  destruct (registers_type _ _ _ _ Hs3 E4) as (Hs4&_&_).
  destruct (registers_types _ _ _ _ Hs4 E5) as (Hs5&_&_).
  destruct (registers_AddUnversionedTypes unversioned_types s5 s2 Hs5 E2) as (_&[Hsub5 _ _ _]&_).
  eapply lookup_weaken; [exact (AddKnownTypes_kinds _ _ s4 s5 t Hs4 E5 Ht)|done].
Qed.

(** The scheme of the clientset, which never panics. *)
Lemma clientset_Scheme_ok :
  exists c, clientset_Scheme = Some c /\ scheme_ok c /\ v1alpha1_AddToScheme c = Some c.
Proof.
  assert (registers (fun s => s ← AddToGroupVersion (MkGroupVersion "" "v1") s; clientset_AddToScheme s))
    as Hreg.
  { apply registers_bind; [apply registers_AddToGroupVersion|]. unfold clientset_AddToScheme.
    apply registers_all. intros f ->%list_elem_of_singleton. apply registers_v1alpha1. }
  destruct (present_Some clientset_Scheme) as [c Ec]; [vm_compute; reflexivity|].
  exists c. split; [done|]. destruct (Hreg NewScheme c NewScheme_ok Ec) as (Hc&_&_). split; [done|].
  unfold clientset_Scheme, clientset_init in Ec. destruct (AddToGroupVersion _ NewScheme) as [s|] eqn:Es; [|done].
  cbn [mbind option_bind] in Ec.
  destruct (registers_AddToGroupVersion _ _ _ NewScheme_ok Es) as (Hs&_&_).
  unfold clientset_AddToScheme, builder_AddToScheme, localSchemeBuilder in Ec. cbn [add_all] in Ec.
  destruct (v1alpha1_AddToScheme s) as [s1|] eqn:E1; [|done]. injection Ec as ->.
  by apply (registers_v1alpha1 s c Hs E1).
Qed.

(** ** Theorem *)

(** C38. [AddToScheme] of v1alpha1, applied to a scheme as the API machinery builds
    them, keeps it coherent and all that is registered in it; applied again, or to
    any scheme that extends the result, it changes nothing.  Afterwards a type's
    kinds lead back to the type, and the source, its list and the options of each
    request are registered under the version of the API.  So are they in the
    schemes of the two clientsets, which are the same, and in which a source and
    its list have no other kind. *)
Theorem AddToScheme_registers s s' :
  scheme_ok s -> v1alpha1_AddToScheme s = Some s' ->
  scheme_ok s' /\ extends s s' /\
  (forall s2, scheme_ok s2 -> extends s' s2 -> v1alpha1_AddToScheme s2 = Some s2) /\
  (forall t gvks b gvk, ObjectKinds s' t = Some (gvks, b) -> gvk ∈ gvks -> NewObject s' gvk = Some t) /\
  (forall t, t ∈ [source_object "YipYapSource"; source_object "YipYapSourceList"] ++ optionsTypes ->
     exists gvks b, ObjectKinds s' t = Some (gvks, b) /\
       WithKind SchemeGroupVersion (typeName t) ∈ gvks) /\
  (exists c, clientset_Scheme = Some c /\ fake_scheme = Some c /\ scheme_ok c /\
     v1alpha1_AddToScheme c = Some c /\
     forall t, t ∈ [source_object "YipYapSource"; source_object "YipYapSourceList"] ->
       ObjectKinds c t = Some ([WithKind SchemeGroupVersion (typeName t)], false)).
Proof.
  intros Hs E. destruct (registers_v1alpha1 s s' Hs E) as (Hs'&Hex&Hagain).
  split_and!; [done..| | |].
  - intros t gvks b gvk. unfold ObjectKinds. destruct (typeToGVK s' !! t) as [ks|] eqn:Ek; [|done].
    intros [= <- _] Hin. unfold NewObject. by rewrite (proj2 (sc_agree _ Hs' gvk t)) by eauto.
  - intros t Ht. apply (v1alpha1_kinds s s' t Hs E), (sc_agree _ Hs') in Ht as (ks&Ek&Hin).
    unfold ObjectKinds. rewrite Ek. cbn. eauto.
  - destruct clientset_Scheme_ok as (c&Ec&Hc&Hsame). exists c. split_and!; [done|exact Ec|done..|].
    assert (forall t, (c ← clientset_Scheme; ObjectKinds c t) = ObjectKinds c t) as Hk
      by (intros t; by rewrite Ec).
    intros t Ht. rewrite <- Hk. rewrite !elem_of_cons, elem_of_nil in Ht.
    destruct Ht as [->|[->|[]]]; vm_compute; reflexivity.
Qed.

(** ** Witness *)

(** A scheme with a type of its own. *)
Definition deployment_scheme : option Scheme :=
  AddKnownTypeWithName (MkGVK "apps" "v1" "Deployment") (MkGoType "k8s.io/api/apps/v1" "Deployment") NewScheme.

Lemma AddToScheme_registers_witness :
  exists s s', deployment_scheme = Some s /\ v1alpha1_AddToScheme s = Some s' /\
    v1alpha1_AddToScheme s' = Some s'.
Proof.
  destruct (present_Some (s ← deployment_scheme; v1alpha1_AddToScheme s)) as [s' E];
    [vm_compute; reflexivity|].
  destruct deployment_scheme as [s|] eqn:Es; [|discriminate E]. cbn [mbind option_bind] in E.
  pose proof (AddKnownTypeWithName_ok _ _ _ _ NewScheme_ok Es) as Hs.
  destruct (AddToScheme_registers s s' Hs E) as (Hs'&_&Hagain&_).
  exists s, s'. split; [reflexivity|]. split; [exact E|]. apply Hagain; [exact Hs'|reflexivity].
Defined.
