(* ===== verification/Lifecycle.v ===== *)
(** * Status of a source (yipyapsource_lifecycle.go)

    The seven methods of [YipYapSourceStatus], each a call of the condition
    manager of CondSet.v on the list inside the status.  A status travels with
    the number of clock readings made so far ([tstatus]). *)

From S2P Require Import Prelude GoStrings CondSet Types.
Local Open Scope string_scope.
Local Open Scope list_scope.

Definition YipYapSourceConditionReady : ConditionType := ConditionReady.
Definition YipYapSourceConditionSinkProvided : ConditionType := "SinkProvided".
Definition YipYapSourceConditionDeployed : ConditionType := "Deployed".

Definition yipyapSourceCondSet : ConditionSet :=
  NewLivingConditionSet [YipYapSourceConditionSinkProvided; YipYapSourceConditionDeployed].

Record tstatus := TStatus { tsStatus : YipYapSourceStatus; tsTicks : nat }.

(** [yipyapSourceCondSet.Manage(s)] gives the manager the condition list of the
    status; what the manager stores is stored in the status. *)
Definition managed (s : tstatus) : cstate :=
  CState (stConditions (tsStatus s)) (tsTicks s).
Definition manage (f : cstate -> cstate) (s : tstatus) : tstatus :=
  let st := f (managed s) in
  TStatus (set_conditions (conds st) (tsStatus s)) (ticks st).

Definition with_tstatus (f : YipYapSourceStatus -> YipYapSourceStatus) (s : tstatus) : tstatus :=
  TStatus (f (tsStatus s)) (tsTicks s).

Definition Status_GetCondition (t : ConditionType) (s : tstatus) : option Condition :=
  GetCondition t (managed s).

Definition IsReady (s : tstatus) : bool := IsHappy yipyapSourceCondSet (managed s).

Section lifecycle.
Context `{UrlLib} (clock : nat -> Z).

Definition Status_InitializeConditions : tstatus -> tstatus :=
  manage (InitializeConditions clock yipyapSourceCondSet).

(** [uri != nil && uri.String() != ""]. *)
Definition uri_given (uri : option URL) : bool :=
  match uri with
  | Some u => negb (String.eqb (url_String u) "")
  | None => false
  end.

Definition MarkSink (uri : option URL) (s : tstatus) : tstatus :=
  let s := with_tstatus (set_sink_uri uri) s in
  if uri_given uri then
    manage (MarkTrue clock yipyapSourceCondSet YipYapSourceConditionSinkProvided) s
  else
    manage (MarkUnknown clock yipyapSourceCondSet YipYapSourceConditionSinkProvided
              "SinkEmpty" "Sink has no URI") s.

Definition MarkNoSink (reason message : string) : tstatus -> tstatus :=
  manage (MarkFalse clock yipyapSourceCondSet YipYapSourceConditionSinkProvided reason message).

Definition MarkDeployed : tstatus -> tstatus :=
  manage (MarkTrue clock yipyapSourceCondSet YipYapSourceConditionDeployed).

Definition MarkNotDeployed (reason message : string) : tstatus -> tstatus :=
  manage (MarkFalse clock yipyapSourceCondSet YipYapSourceConditionDeployed reason message).

Definition MarkDeploying (reason message : string) : tstatus -> tstatus :=
  manage (MarkUnknown clock yipyapSourceCondSet YipYapSourceConditionDeployed reason message).
End lifecycle.

(** ** The two dependents *)

Definition sview (s : tstatus) : view_t := view (managed s).

Lemma set_ok : ok_set yipyapSourceCondSet.
Proof. apply newConditionSet_ok. Qed.

Lemma set_dependents :
  dependents yipyapSourceCondSet
  = [YipYapSourceConditionSinkProvided; YipYapSourceConditionDeployed].
Proof. reflexivity. Qed.

Lemma sink_dependent : YipYapSourceConditionSinkProvided ∈ dependents yipyapSourceCondSet.
Proof. rewrite set_dependents. left. Qed.

Lemma deployed_dependent : YipYapSourceConditionDeployed ∈ dependents yipyapSourceCondSet.
Proof. rewrite set_dependents. right; left. Qed.

#[export] Hint Resolve set_ok sink_dependent deployed_dependent : conds.

(** Ready as the code means it: False as soon as the sink or the deployment is
    False, else Unknown as soon as one of them is unknown or not yet there,
    else True. *)
Definition ready_of (sink deployed : option string) : string :=
  if bool_decide (sink = Some ConditionFalse \/ deployed = Some ConditionFalse)
  then ConditionFalse
  else if bool_decide ((sink = Some ConditionUnknown \/ sink = None) \/
                       (deployed = Some ConditionUnknown \/ deployed = None))
  then ConditionUnknown
  else ConditionTrue.

Lemma aggregate_ready_of v :
  aggregate yipyapSourceCondSet v
  = ready_of (v YipYapSourceConditionSinkProvided) (v YipYapSourceConditionDeployed).
Proof.
  unfold aggregate, ready_of. rewrite set_dependents.
  assert (forall P : option string -> Prop,
    Exists (fun d => P (v d)) [YipYapSourceConditionSinkProvided; YipYapSourceConditionDeployed]
    <-> P (v YipYapSourceConditionSinkProvided) \/ P (v YipYapSourceConditionDeployed)) as HE.
  { intros P. rewrite !Exists_cons, Exists_nil. tauto. }
  rewrite (bool_decide_ext _ _ (HE (fun o => o = Some ConditionFalse))).
  by rewrite (bool_decide_ext _ _ (HE (fun o => o = Some ConditionUnknown \/ o = None))).
Qed.

(** Filling a missing dependent the way [InitializeConditions] does keeps it. *)
Lemma ready_of_fill a b :
  let d := if bool_decide (Some (ready_of a b) = Some ConditionTrue)
           then ConditionTrue else ConditionUnknown in
  ready_of (Some (default d a)) (Some (default d b)) = ready_of a b.
Proof.
  assert (ConditionUnknown <> ConditionFalse) by done.
  assert (ConditionUnknown <> ConditionTrue) by done.
  assert (ConditionFalse <> ConditionTrue) by done.
  unfold ready_of.
  generalize dependent ConditionUnknown. generalize dependent ConditionFalse.
  generalize dependent ConditionTrue. clear. intros T F Hft U Huf Hut.
  destruct a as [a|], b as [b|]; simpl; repeat (case_bool_decide; simpl); naive_solver.
Qed.

(** ** The reachable statuses

    One call of one of the methods, in any order and with any arguments. *)

Inductive status_call `{UrlLib} (clock : nat -> Z) (s : tstatus) : tstatus -> Prop :=
| call_init : status_call clock s (Status_InitializeConditions clock s)
| call_sink uri : status_call clock s (MarkSink clock uri s)
| call_no_sink reason message : status_call clock s (MarkNoSink clock reason message s)
| call_deployed : status_call clock s (MarkDeployed clock s)
| call_not_deployed reason message : status_call clock s (MarkNotDeployed clock reason message s)
| call_deploying reason message : status_call clock s (MarkDeploying clock reason message s)
| call_generation g : status_call clock s (with_tstatus (set_observed_generation g) s)
| call_attributes l : status_call clock s (with_tstatus (set_ce_attributes l) s)
| call_deployment_name n : status_call clock s (with_tstatus (set_deployment_name n) s).

(** Well-formed, with Ready the aggregate unless nothing was ever set. *)
Record coherent (s : tstatus) : Prop := {
  coherent_wf : wf yipyapSourceCondSet (managed s);
  coherent_ready : stConditions (tsStatus s) = [] \/
    sview s YipYapSourceConditionReady
    = Some (ready_of (sview s YipYapSourceConditionSinkProvided)
                     (sview s YipYapSourceConditionDeployed))
}.

Definition ready_status (s : tstatus) : Prop :=
  sview s YipYapSourceConditionReady
  = Some (ready_of (sview s YipYapSourceConditionSinkProvided)
                   (sview s YipYapSourceConditionDeployed)).

Section reachable.
Context `{UrlLib} (clock : nat -> Z).

(** A mark of one of the two dependents, seen through the status. *)
Lemma manage_mark m s :
  wf yipyapSourceCondSet (managed s) -> mark_type m ∈ dependents yipyapSourceCondSet ->
  let s' := manage (exec_mark clock yipyapSourceCondSet m) s in
  wf yipyapSourceCondSet (managed s') /\ ready_status s' /\
  (forall t, t <> YipYapSourceConditionReady ->
     sview s' t = set_view (mark_type m) (mark_status m) (sview s) t).
Proof.
  intros Hwf Hm. destruct (exec_mark_refines clock _ set_ok m (managed s) Hwf Hm) as [Hwf' Hv].
  assert (managed (manage (exec_mark clock yipyapSourceCondSet m) s)
          = exec_mark clock yipyapSourceCondSet m (managed s)) as Hman
    by (unfold managed, manage; simpl; by destruct (exec_mark _ _ _ _)).
  unfold ready_status, sview. rewrite Hman. split_and!; [done| |].
  - rewrite (Hv YipYapSourceConditionReady), <- aggregate_ready_of.
    transitivity (Some (aggregate yipyapSourceCondSet
      (set_view (mark_type m) (mark_status m) (view (managed s))))); [reflexivity|].
    f_equal. apply aggregate_ext. intros d Hd. rewrite Hv. unfold spec_mark. unfold set_view at 2.
    destruct (String.eqb_spec d (happy yipyapSourceCondSet)) as [->|]; [|done].
    by destruct set_ok.
  - intros t Ht. rewrite Hv. unfold spec_mark, set_view at 1.
    by destruct (String.eqb_spec t (happy yipyapSourceCondSet)) as [->|].
Qed.

Lemma manage_init s :
  coherent s -> coherent (Status_InitializeConditions clock s) /\
  ready_status (Status_InitializeConditions clock s) /\
  complete yipyapSourceCondSet (managed (Status_InitializeConditions clock s)).
Proof.
  intros [Hwf Hr].
  destruct (InitializeConditions_spec clock _ set_ok (managed s) Hwf) as (Hwf'&Hc&Hv).
  assert (managed (Status_InitializeConditions clock s)
          = InitializeConditions clock yipyapSourceCondSet (managed s)) as Hman
    by (unfold managed, Status_InitializeConditions, manage; simpl;
        by destruct (InitializeConditions _ _ _)).
  enough (ready_status (Status_InitializeConditions clock s)) as Hready.
  { split_and!; [|done|by rewrite Hman]. split; [by rewrite Hman|by right]. }
  unfold ready_status, sview in *. rewrite Hman. rewrite !Hv.
  change (String.eqb YipYapSourceConditionReady (happy yipyapSourceCondSet)) with true.
  change (String.eqb YipYapSourceConditionSinkProvided (happy yipyapSourceCondSet)) with false.
  change (String.eqb YipYapSourceConditionDeployed (happy yipyapSourceCondSet)) with false.
  change (happy yipyapSourceCondSet) with YipYapSourceConditionReady.
  rewrite (bool_decide_true _ sink_dependent), (bool_decide_true _ deployed_dependent).
  cbv iota.
  destruct Hr as [Hnil|Hr].
  - unfold view, GetCondition, managed. rewrite Hnil. reflexivity.
  - rewrite Hr. transitivity (Some (ready_of (view (managed s) YipYapSourceConditionSinkProvided)
      (view (managed s) YipYapSourceConditionDeployed))).
    + done.
    + f_equal. etransitivity; [symmetry; apply ready_of_fill|].
      by destruct (view (managed s) YipYapSourceConditionSinkProvided),
        (view (managed s) YipYapSourceConditionDeployed).
Qed.

Lemma manage_mark_coherent m s :
  coherent s -> mark_type m ∈ dependents yipyapSourceCondSet ->
  coherent (manage (exec_mark clock yipyapSourceCondSet m) s).
Proof.
  intros [Hwf _] Hm. destruct (manage_mark m s Hwf Hm) as (?&?&_). split; [done|by right].
Qed.

(** Updates of the other fields of the status. *)
Lemma with_tstatus_coherent f s :
  (forall st, stConditions (f st) = stConditions st) -> coherent s -> coherent (with_tstatus f s).
Proof.
  intros Hf [Hwf Hr]. unfold with_tstatus.
  assert (managed (TStatus (f (tsStatus s)) (tsTicks s)) = managed s) as E
    by (unfold managed; simpl; by rewrite Hf).
  split; unfold sview in *; rewrite ?E; simpl; rewrite ?Hf; done.
Qed.

Lemma MarkSink_mark uri s :
  MarkSink clock uri s =
  manage (exec_mark clock yipyapSourceCondSet
    (if uri_given uri then MTrue YipYapSourceConditionSinkProvided
     else MUnknown YipYapSourceConditionSinkProvided "SinkEmpty" "Sink has no URI"))
    (with_tstatus (set_sink_uri uri) s).
Proof. unfold MarkSink. by destruct (uri_given uri). Qed.

Lemma status_call_coherent s s' : coherent s -> status_call clock s s' -> coherent s'.
Proof.
  intros Hs. destruct 1.
  - by apply manage_init.
  - rewrite MarkSink_mark. apply manage_mark_coherent; [by apply with_tstatus_coherent|].
    case_match; auto with conds.
  - by apply (manage_mark_coherent (MFalse _ _ _)); auto with conds.
  - by apply (manage_mark_coherent (MTrue _)); auto with conds.
  - by apply (manage_mark_coherent (MFalse _ _ _)); auto with conds.
  - by apply (manage_mark_coherent (MUnknown _ _ _)); auto with conds.
  - by apply with_tstatus_coherent.
  - by apply with_tstatus_coherent.
  - by apply with_tstatus_coherent.
Qed.

Lemma empty_coherent n : coherent (TStatus empty_status n).
Proof. split; [split; constructor|by left]. Qed.

(** The number of clock readings does not matter. *)
Lemma coherent_ticks s n : coherent s -> coherent (TStatus (tsStatus s) n).
Proof. intros [[] Hr]. by split. Qed.

Lemma reachable_coherent n s :
  rtc (status_call clock) (TStatus empty_status n) s -> coherent s.
Proof.
  intros Hrtc. remember (TStatus empty_status n) as s0 eqn:E.
  assert (coherent s0) as H0 by (subst; apply empty_coherent). clear E.
  induction Hrtc as [|s0 s1 s2 H01 _ IH]; [done|].
  apply IH. by apply (status_call_coherent s0).
Qed.

Lemma IsReady_view s : IsReady s = true <-> sview s YipYapSourceConditionReady = Some ConditionTrue.
Proof.
  unfold IsReady, IsHappy, sview, view, GetTopLevelCondition.
  change (happy yipyapSourceCondSet) with YipYapSourceConditionReady.
  destruct (GetCondition _ _) as [c|]; [|done]. cbn [IsTrue fmap option_fmap option_map].
  rewrite String.eqb_eq. split; [congruence|by intros [= ->]].
Qed.

Lemma ready_of_True a b :
  ready_of a b = ConditionTrue <->
  (a <> Some ConditionFalse /\ b <> Some ConditionFalse) /\
  (a <> Some ConditionUnknown /\ a <> None) /\ (b <> Some ConditionUnknown /\ b <> None).
Proof. unfold ready_of. repeat case_bool_decide; split; try done; tauto. Qed.

Lemma std_view r st t s : wf r st -> view st t = Some s -> std_status s.
Proof.
  intros Hwf. unfold view, GetCondition.
  destruct (find_cond t (conds st)) as [c|] eqn:Hc; [|done]. intros [= <-].
  apply find_cond_Some in Hc as [Hc _].
  pose proof (wf_status _ _ Hwf) as Hs. rewrite Forall_forall in Hs. auto.
Qed.

Lemma coherent_IsReady s :
  coherent s -> IsReady s = true <->
  sview s YipYapSourceConditionSinkProvided = Some ConditionTrue /\
  sview s YipYapSourceConditionDeployed = Some ConditionTrue.
Proof.
  intros [Hwf Hr]. rewrite IsReady_view. destruct Hr as [Hnil|Hr].
  { unfold sview, view, GetCondition, managed. cbn [conds]. rewrite Hnil. simpl.
    split; [done|by intros []]. }
  rewrite Hr. split.
  - intros [= Ht%ready_of_True]. unfold sview in *.
    destruct (view _ YipYapSourceConditionSinkProvided) as [a|] eqn:Ea; [|tauto].
    destruct (view _ YipYapSourceConditionDeployed) as [b|] eqn:Eb; [|tauto].
    apply (std_view _ _ _ _ Hwf) in Ea, Eb.
    destruct Ea as [->|[->| ->]], Eb as [->|[->| ->]]; tauto.
  - intros [-> ->]. done.
Qed.
End reachable.

(** ** Theorems *)

(** C13. Whatever methods are called, in whatever order and with whatever
    arguments, the status conditions stay sorted, without duplicates and
    within the three types of the source, and the source is ready exactly when
    both the sink is provided and the adapter is deployed. *)
Theorem reachable_status_ready `{UrlLib} clock n s :
  rtc (status_call clock) (TStatus empty_status n) s ->
  wf yipyapSourceCondSet (managed s) /\
  (IsReady s = true <->
   sview s YipYapSourceConditionSinkProvided = Some ConditionTrue /\
   sview s YipYapSourceConditionDeployed = Some ConditionTrue).
Proof. intros Hs%reachable_coherent. split; [apply Hs|by apply coherent_IsReady]. Qed.

(** The exact effect of the five Mark methods on a coherent status: each
    sets its own condition to its own status, leaves the other dependent
    alone, recomputes Ready from the two, and keeps every other field of the
    status; [MarkSink] also stores the URI, and reports an absent or empty URI
    as Unknown. *)
Theorem marks_refine `{UrlLib} clock s :
  coherent s ->
  let sink s := sview s YipYapSourceConditionSinkProvided in
  let dep s := sview s YipYapSourceConditionDeployed in
  let effect s' sk dp st :=
    coherent s' /\ ready_status s' /\ sink s' = sk /\ dep s' = dp /\
    set_conditions [] (tsStatus s') = set_conditions [] st in
  let st := tsStatus s in
  (forall uri, effect (MarkSink clock uri s)
     (Some (if uri_given uri then ConditionTrue else ConditionUnknown)) (dep s)
     (set_sink_uri uri st)) /\
  (forall reason message, effect (MarkNoSink clock reason message s)
     (Some ConditionFalse) (dep s) st) /\
  effect (MarkDeployed clock s) (sink s) (Some ConditionTrue) st /\
  (forall reason message, effect (MarkNotDeployed clock reason message s)
     (sink s) (Some ConditionFalse) st) /\
  (forall reason message, effect (MarkDeploying clock reason message s)
     (sink s) (Some ConditionUnknown) st).
Proof.
  intros Hs. cbv zeta.
  assert (forall m s, coherent s -> mark_type m ∈ dependents yipyapSourceCondSet ->
    let s' := manage (exec_mark clock yipyapSourceCondSet m) s in
    coherent s' /\ ready_status s' /\
    sview s' YipYapSourceConditionSinkProvided
      = set_view (mark_type m) (mark_status m) (sview s) YipYapSourceConditionSinkProvided /\
    sview s' YipYapSourceConditionDeployed
      = set_view (mark_type m) (mark_status m) (sview s) YipYapSourceConditionDeployed /\
    set_conditions [] (tsStatus s') = set_conditions [] (tsStatus s)) as Hm.
  { intros m s0 Hs0 Hm. destruct (manage_mark clock m s0 (coherent_wf _ Hs0) Hm) as (?&?&Hv).
    split_and!; [by apply manage_mark_coherent|done|by apply Hv|by apply Hv|].
    by destruct s0 as [[] ?]. }
  refine (conj _ (conj _ (conj _ (conj _ _)))).
  - intros uri. rewrite MarkSink_mark.
    destruct (Hm (if uri_given uri then MTrue YipYapSourceConditionSinkProvided
       else MUnknown YipYapSourceConditionSinkProvided "SinkEmpty" "Sink has no URI")
       (with_tstatus (set_sink_uri uri) s)) as (?&?&Hk&Hd&He);
      [by apply with_tstatus_coherent|case_match; auto with conds|].
    rewrite Hk, Hd, He. split_and!; try done; by destruct (uri_given uri).
  - intros reason message. apply (Hm (MFalse YipYapSourceConditionSinkProvided reason message) s);
      auto with conds.
  - apply (Hm (MTrue YipYapSourceConditionDeployed) s); auto with conds.
  - intros reason message. apply (Hm (MFalse YipYapSourceConditionDeployed reason message) s);
      auto with conds.
  - intros reason message. apply (Hm (MUnknown YipYapSourceConditionDeployed reason message) s);
      auto with conds.
Qed.

(** ** Witnesses *)

Definition sink_url : URL := mk_url "http" "sink.default.svc" "/in".

Lemma reachable_status_ready_witness :
  let call := status_call (H := plain_url_lib) Z.of_nat in
  let s := MarkDeployed Z.of_nat (MarkSink (H := plain_url_lib) Z.of_nat (Some sink_url)
             (Status_InitializeConditions Z.of_nat (TStatus empty_status 0))) in
  rtc call (TStatus empty_status 0) s /\ IsReady s = true /\
  sview s YipYapSourceConditionSinkProvided = Some ConditionTrue.
Proof.
  cbv zeta.
  assert (rtc (status_call (H := plain_url_lib) Z.of_nat) (TStatus empty_status 0)
    (MarkDeployed Z.of_nat (MarkSink (H := plain_url_lib) Z.of_nat (Some sink_url)
             (Status_InitializeConditions Z.of_nat (TStatus empty_status 0))))) as Hrtc.
  { eapply rtc_l; [apply (@call_init plain_url_lib)|].
    eapply rtc_l; [apply call_sink|]. eapply rtc_l; [apply (@call_deployed plain_url_lib)|].
    apply rtc_refl. }
  destruct (reachable_status_ready _ _ _ Hrtc) as [_ Hready].
  assert (IsReady (MarkDeployed Z.of_nat (MarkSink (H := plain_url_lib) Z.of_nat (Some sink_url)
             (Status_InitializeConditions Z.of_nat (TStatus empty_status 0)))) = true) as E
    by (vm_compute; reflexivity).
  split; [exact Hrtc|]. split; [exact E|]. apply Hready, E.
Defined.

Lemma marks_refine_witness :
  let s := Status_InitializeConditions Z.of_nat (TStatus empty_status 0) in
  coherent s /\
  ready_status (MarkNotDeployed Z.of_nat "MinimumReplicasUnavailable" "down" s) /\
  sview (MarkNotDeployed Z.of_nat "MinimumReplicasUnavailable" "down" s)
    YipYapSourceConditionReady = Some ConditionFalse.
Proof.
  cbv zeta.
  assert (coherent (Status_InitializeConditions Z.of_nat (TStatus empty_status 0))) as Hc
    by (apply manage_init, empty_coherent).
  split; [exact Hc|].
  destruct (marks_refine (H := plain_url_lib) Z.of_nat _ Hc) as (_&_&_&Hn&_).
  destruct (Hn "MinimumReplicasUnavailable" "down") as (_&Hr&_).
  split; [exact Hr|vm_compute; reflexivity].
Defined.
