(* ===== verification/Names.v ===== *)
(** * Child names ([knative.dev/pkg/kmeta], names.go)

    [ChildName] fits a parent name and a suffix into the 63 bytes of a
    Kubernetes name, hashing what does not fit.  Slicing a string is partial
    ([slice_to], [None] for the run-time panic), as is the byte access of
    [makeValidName]; [ChildName_total] shows that neither ever panics.  MD5 is
    RFC 1321 on bytes as integers, executable. *)

From S2P Require Import Prelude GoStrings.
Local Open Scope string_scope.
Local Open Scope list_scope.
Local Open Scope Z_scope.

(** ** MD5 *)

Definition word32 (z : Z) : Z := Z.land z 4294967295.
Definition rotl32 (x n : Z) : Z :=
  Z.lor (word32 (Z.shiftl x n)) (Z.shiftr x (32 - n)).

Definition md5_K : list Z :=
  [3614090360; 3905402710; 606105819; 3250441966; 4118548399; 1200080426; 2821735955;
    4249261313; 1770035416; 2336552879; 4294925233; 2304563134; 1804603682; 4254626195;
    2792965006; 1236535329; 4129170786; 3225465664; 643717713; 3921069994; 3593408605;
    38016083; 3634488961; 3889429448; 568446438; 3275163606; 4107603335; 1163531501;
    2850285829; 4243563512; 1735328473; 2368359562; 4294588738; 2272392833; 1839030562;
    4259657740; 2763975236; 1272893353; 4139469664; 3200236656; 681279174; 3936430074;
    3572445317; 76029189; 3654602809; 3873151461; 530742520; 3299628645; 4096336452;
    1126891415; 2878612391; 4237533241; 1700485571; 2399980690; 4293915773; 2240044497;
    1873313359; 4264355552; 2734768916; 1309151649; 4149444226; 3174756917; 718787259;
    3951481745].

Definition md5_shift (i : nat) : Z :=
  let row := nth (i / 16) [[7; 12; 17; 22]; [5; 9; 14; 20]; [4; 11; 16; 23]; [6; 10; 15; 21]] [] in
  nth (i mod 4) row 0.

(** The round function and the word it mixes in. *)
Definition md5_round (i : nat) (b c d : Z) : Z * nat :=
  match (i / 16)%nat with
  | 0%nat => (Z.lor (Z.land b c) (Z.land (Z.lxor b 4294967295) d), i)
  | 1%nat => (Z.lor (Z.land d b) (Z.land (Z.lxor d 4294967295) c), ((5 * i + 1) mod 16)%nat)
  | 2%nat => (Z.lxor b (Z.lxor c d), ((3 * i + 5) mod 16)%nat)
  | _ => (Z.lxor c (Z.lor b (Z.lxor d 4294967295)), ((7 * i) mod 16)%nat)
  end.

Definition md5_step (m : list Z) (st : Z * Z * Z * Z) (i : nat) : Z * Z * Z * Z :=
  let '(a, b, c, d) := st in
  let '(f, g) := md5_round i b c d in
  let f := word32 (f + a + nth i md5_K 0 + nth g m 0) in
  (d, word32 (b + rotl32 f (md5_shift i)), b, c).

Definition md5_block (st : Z * Z * Z * Z) (m : list Z) : Z * Z * Z * Z :=
  let '(a0, b0, c0, d0) := st in
  let '(a, b, c, d) := fold_left (md5_step m) (seq 0 64) st in
  (word32 (a0 + a), word32 (b0 + b), word32 (c0 + c), word32 (d0 + d)).

Definition le_bytes (n : nat) (z : Z) : list Z :=
  map (fun i => Z.land (Z.shiftr z (8 * Z.of_nat i)) 255) (seq 0 n).

Fixpoint le_words (fuel : nat) (l : list Z) : list Z :=
  match fuel, l with
  | S fuel, b0 :: b1 :: b2 :: b3 :: r => (b0 + 256 * b1 + 65536 * b2 + 16777216 * b3) :: le_words fuel r
  | _, _ => []
  end.

Fixpoint blocks (fuel : nat) (ws : list Z) : list (list Z) :=
  match fuel, ws with
  | S fuel, _ :: _ => firstn 16 ws :: blocks fuel (skipn 16 ws)
  | _, _ => []
  end.

Definition md5_pad (l : list Z) : list Z :=
  let n := length l in
  l ++ 128 :: repeat 0 ((119 - n mod 64) mod 64)%nat ++ le_bytes 8 (8 * Z.of_nat n).

Definition md5_Sum (s : string) : list Z :=
  let padded := md5_pad (map (fun c => Z.of_nat (nat_of_ascii c)) (String.list_ascii_of_string s)) in
  let ws := le_words (length padded) padded in
  let '(a, b, c, d) :=
    fold_left md5_block (blocks (length ws) ws) (1732584193, 4023233417, 2562383102, 271733878) in
  le_bytes 4 a ++ le_bytes 4 b ++ le_bytes 4 c ++ le_bytes 4 d.

(** [hex.EncodeToString], also what the percent-x format prints for a byte array. *)
Definition hex_of (l : list Z) : string :=
  String.string_of_list_ascii (flat_map (fun b =>
    [hex_digit (Z.to_nat (Z.shiftr b 4)); hex_digit (Z.to_nat (Z.land b 15))]) l).

Example md5_empty : hex_of (md5_Sum "") = "d41d8cd98f00b204e9800998ecf8427e".
Proof. vm_compute. reflexivity. Qed.
Example md5_fox : hex_of (md5_Sum "The quick brown fox jumps over the lazy dog")
  = "9e107d9d372bb6826bd81d3542a419d6".
Proof. vm_compute. reflexivity. Qed.
Example md5_long : hex_of (md5_Sum
  "12345678901234567890123456789012345678901234567890123456789012345678901234567890")
  = "57edf4a22be3c955ac49da2e2107b67a".
Proof. vm_compute. reflexivity. Qed.

(** ** Names *)

Definition longest : Z := 63.
Definition md5Len : Z := 32.
Definition head : Z := longest - md5Len.

Definition len (s : string) : Z := Z.of_nat (String.length s).

(** [s[:n]]. *)
Definition slice_to (s : string) (n : Z) : option string :=
  if (0 <=? n) && (n <=? len s) then Some (String.substring 0 (Z.to_nat n) s) else None.

(** The loop of [makeValidName], on the reversed name; [None] is the access
    [n[-1]]. *)
Fixpoint drop_invalid (r : string) : option string :=
  match r with
  | "" => None
  | String c r' => if is_alnum c then Some r else drop_invalid r'
  end.

Definition makeValidName (n : string) : option string :=
  String.rev <$> drop_invalid (String.rev n).

Definition ChildName (parent suffix : string) : option string :=
  if (longest - len suffix <? len parent) then
    if (head - len suffix <=? 0) then
      let h := md5_Sum (parent +:+ suffix) in
      parent ← (if head <? len parent then slice_to parent head else Some parent);
      let ret := parent +:+ hex_of h in
      let d := longest - len ret in
      ret ← (if 0 <? d then (fun x => ret +:+ x) <$> slice_to suffix d else Some ret);
      makeValidName ret
    else
      p ← slice_to parent (head - len suffix);
      Some ((p +:+ hex_of (md5_Sum parent)) +:+ suffix)
  else Some (parent +:+ suffix).

(** ** Lemmas *)

Lemma length_substring_0 n s :
  (n <= String.length s)%nat -> String.length (String.substring 0 n s) = n.
Proof. revert n; induction s as [|c s IH]; intros [|n] H; simpl in *; try lia. rewrite IH; lia. Qed.

Lemma slice_to_Some s n :
  0 <= n <= len s -> exists p, slice_to s n = Some p /\ len p = n.
Proof.
  intros Hn. unfold slice_to. rewrite (proj2 (Z.leb_le 0 n)), (proj2 (Z.leb_le n (len s))) by lia.
  eexists. split; [done|]. unfold len in *. rewrite length_substring_0; lia.
Qed.

Lemma len_app a b : len (a +:+ b) = len a + len b.
Proof. unfold len. rewrite length_app_str. lia. Qed.

Lemma hex_of_length l : String.length (hex_of l) = (2 * length l)%nat.
Proof.
  unfold hex_of. induction l as [|b l IH]; [done|].
  cbn [flat_map app String.string_of_list_ascii String.length length]. rewrite IH. lia.
Qed.

Lemma md5_Sum_length s : length (md5_Sum s) = 16%nat.
Proof. unfold md5_Sum. by destruct (fold_left md5_block _ _) as [[[a b] c] d]. Qed.

Lemma md5_hex_len s : len (hex_of (md5_Sum s)) = md5Len.
Proof. unfold len. by rewrite hex_of_length, md5_Sum_length. Qed.

Lemma hex_digit_alnum z : is_alnum (hex_digit (Z.to_nat (Z.land z 15))) = true.
Proof.
  assert (Z.to_nat (Z.land z 15) < 16)%nat as Hlt.
  { change 15 with (Z.ones 4). rewrite Z.land_ones by lia.
    pose proof (Z.mod_pos_bound z (2 ^ 4)). lia. }
  revert Hlt. generalize (Z.to_nat (Z.land z 15)). intros n Hn.
  do 16 (destruct n as [|n]; [done|]). lia.
Qed.

(** The last digit of a digest stops the trimming. *)
Lemma hex_of_last l : l <> [] -> exists h c, hex_of l = h +:+ String c "" /\ is_alnum c = true.
Proof.
  intros Hl. destruct (exists_last Hl) as (l'&b&->).
  unfold hex_of. rewrite flat_map_app. cbn [flat_map app].
  exists (String.string_of_list_ascii (flat_map (fun b =>
    [hex_digit (Z.to_nat (Z.shiftr b 4)); hex_digit (Z.to_nat (Z.land b 15))]) l' ++
    [hex_digit (Z.to_nat (Z.shiftr b 4))])), (hex_digit (Z.to_nat (Z.land b 15))).
  split; [|apply hex_digit_alnum].
  induction (flat_map _ l') as [|x xs IH]; [done|]. simpl. by rewrite IH.
Qed.

Lemma drop_invalid_Some r c r' :
  is_alnum c = true ->
  exists s c' s', drop_invalid (r +:+ String c r') = Some s /\ s = String c' s' /\
    is_alnum c' = true /\ (String.length s <= String.length (r +:+ String c r'))%nat.
Proof.
  intros Hc. induction r as [|d r IH]; simpl.
  - rewrite Hc. eauto 10.
  - destruct (is_alnum d) eqn:E; [eauto 10|].
    destruct IH as (s&c'&s'&->&->&?&?). eexists _, _, _. split_and!; [done..|lia].
Qed.

Lemma makeValidName_ok a h b :
  (exists x c, h = x +:+ String c "" /\ is_alnum c = true) ->
  exists n s c, makeValidName (a +:+ h +:+ b) = Some n /\ n = s +:+ String c "" /\
    is_alnum c = true /\ (String.length n <= String.length (a +:+ h +:+ b))%nat.
Proof.
  intros (x&c&->&Hc). unfold makeValidName.
  assert (String.rev (a +:+ (x +:+ String c "") +:+ b)
          = String.rev b +:+ String c (String.rev (a +:+ x))) as E.
  { rewrite !rev_append_str. rewrite rev_cons_str. simpl.
    rewrite <- !app_assoc_str. simpl. done. }
  rewrite <- (length_rev_str (a +:+ _)). rewrite E.
  destruct (drop_invalid_Some (String.rev b) c (String.rev (a +:+ x)) Hc)
    as (s&c'&s'&->&->&Hc'&Hl).
  exists (String.rev (String c' s')), (String.rev s'), c'. split_and!; [done| |done|].
  - by rewrite rev_cons_str.
  - by rewrite length_rev_str.
Qed.

(** What [ChildName] returns, in its three cases. *)
Lemma ChildName_spec parent suffix :
  exists n, ChildName parent suffix = Some n /\ len n <= 63 /\
    (len parent + len suffix <= 63 -> n = parent +:+ suffix) /\
    (len parent + len suffix > 63 -> len suffix <= 30 ->
       len n = 63 /\ has_suffix n suffix = true) /\
    (len parent + len suffix > 63 -> len suffix > 30 ->
       exists s c, n = s +:+ String c "" /\ is_alnum c = true).
Proof.
  unfold ChildName. pose proof (md5_hex_len (parent +:+ suffix)) as Hh.
  pose proof (md5_hex_len parent) as Hp. unfold md5Len in *.
  assert (forall s, 0 <= len s) as Hnn by (intros; unfold len; lia).
  pose proof (Hnn parent). pose proof (Hnn suffix).
  unfold longest, head, longest, md5Len.
  destruct (Z.ltb_spec (63 - len suffix) (len parent)) as [Hlt|Hge].
  2:{ eexists. split; [done|]. rewrite len_app. split_and!; intros; try done; lia. }
  destruct (Z.leb_spec (63 - 32 - len suffix) 0) as [Hlong|Hshort].
  - assert (exists p, (if 63 - 32 <? len parent then slice_to parent (63 - 32) else Some parent)
        = Some p /\ len p <= 31) as (p&->&Hlp).
    { destruct (Z.ltb_spec (63 - 32) (len parent)).
      - destruct (slice_to_Some parent 31) as (p&Hp'&?); [lia|]. exists p. split; [done|lia].
      - eexists. split; [done|]. lia. }
    cbn [mbind option_bind].
    set (h := hex_of (md5_Sum (parent +:+ suffix))) in *.
    assert (exists b, (if 0 <? 63 - len (p +:+ h)
        then (fun x => (p +:+ h) +:+ x) <$> slice_to suffix (63 - len (p +:+ h))
        else Some (p +:+ h)) = Some (p +:+ h +:+ b) /\ len (p +:+ h +:+ b) <= 63)
      as (b&->&Hlb).
    { rewrite len_app, Hh. destruct (Z.ltb_spec 0 (63 - (len p + 32))).
      - 
        destruct (slice_to_Some suffix (63 - (len p + 32))) as (b&->&Hb); [pose proof (Hnn p); lia|].
        exists b. simpl. rewrite <- app_assoc_str, !len_app, Hh. split; [done|lia].
      - exists "". simpl. rewrite app_nil_r_str, len_app, Hh. split; [done|lia]. }
    cbn [mbind option_bind].
    destruct (makeValidName_ok p h b) as (n&s&c&->&->&Hc&Hln).
    { apply hex_of_last. intros E. pose proof (md5_Sum_length (parent +:+ suffix)) as Hl.
      by rewrite E in Hl. }
    eexists. split; [done|]. split_and!; [unfold len in *; lia|lia|lia|eauto].
  - destruct (slice_to_Some parent (63 - 32 - len suffix)) as (p&->&Hlp); [lia|].
    cbn [mbind option_bind]. eexists. split; [done|].
    rewrite !len_app, Hp, Hlp. split_and!; [lia|lia| |lia].
    intros _ _. split; [lia|]. apply has_suffix_spec. eauto.
Qed.

(** The parts of it that the rendering uses. *)
Lemma ChildName_bounded parent suffix :
  exists n, ChildName parent suffix = Some n /\ len n <= 63.
Proof. destruct (ChildName_spec parent suffix) as (n&?&?&_). eauto. Qed.

Lemma ChildName_fits parent suffix :
  len parent + len suffix <= 63 ->
  ChildName parent suffix = Some (parent +:+ suffix) /\ len (parent +:+ suffix) <= 63.
Proof.
  intros H. destruct (ChildName_spec parent suffix) as (n&->&?&Hn&_). by rewrite <- Hn.
Qed.

Lemma app_inj_len a b c d :
  String.length b = String.length d -> a +:+ b = c +:+ d -> a = c /\ b = d.
Proof.
  intros Hl. revert c. induction a as [|x a IH]; intros [|y c] E; simpl in *; [done| | |].
  - subst b. simpl in Hl. rewrite length_app_str in Hl. lia.
  - subst d. simpl in Hl. rewrite length_app_str in Hl. lia.
  - injection E as -> E. by destruct (IH c E) as [-> ->].
Qed.

(** ** Theorem *)

(** [ChildName] never panics and always fits a Kubernetes name: it is the
    concatenation when that fits, it keeps a suffix of at most 30 bytes whole
    and then fills the 63 bytes exactly, and with a longer suffix (the 36
    bytes of a UID) it ends in a letter or a digit. *)
Theorem ChildName_total parent suffix :
  exists n, ChildName parent suffix = Some n /\ len n <= 63 /\
    (len parent + len suffix <= 63 -> n = parent +:+ suffix) /\
    (len parent + len suffix > 63 -> len suffix <= 30 ->
       len n = 63 /\ has_suffix n suffix = true) /\
    (len parent + len suffix > 63 -> len suffix > 30 ->
       exists s c, n = s +:+ String c "" /\ is_alnum c = true).
Proof. apply ChildName_spec. Qed.

Example ChildName_short : ChildName "src-source-" "uid" = Some "src-source-uid".
Proof. vm_compute. reflexivity. Qed.
(** A source of 20 bytes and a UID of 36: the digest replaces the UID. *)
Example ChildName_uid :
  ChildName "abcdefghijklmnopqrst-source-" "123e4567-e89b-12d3-a456-426614174000"
  = Some "abcdefghijklmnopqrst-source-6de5686c7d37baf3c9ab3b0dd5eb4306123".
Proof. vm_compute. reflexivity. Qed.
