(* ===== verification/Deployment.v ===== *)
(** * The adapter Deployment (pkg/reconciler/yipyapsource/resources)

    The fields of the Kubernetes structs the rendering sets or the reconciler
    reads, as records; a field the rendering leaves alone and the API server
    fills in is there with its zero value.  [MakeAdapterDeployment] is partial
    only through the slicing of [ChildName], and never fails. *)

From S2P Require Import Prelude GoStrings GoJson CondSet Types Names.
Local Open Scope string_scope.
Local Open Scope list_scope.
Local Open Scope Z_scope.

(** ** Kubernetes data *)

Record SecretKeySelector := MkSecretKeySelector { sksName : string; sksKey : string }.

Record EnvVar := MkEnvVar {
  evName : string;
  evValue : string;
  evValueFrom : option SecretKeySelector
}.

Record HTTPGetAction := MkHTTPGetAction { hgPath : string; hgPort : Z; hgScheme : string }.

Record ContainerPort := MkContainerPort {
  cpName : string;
  cpContainerPort : Z;
  cpProtocol : string
}.

Record VolumeMount := MkVolumeMount { vmName : string; vmMountPath : string }.

(** A volume whose source is an empty directory. *)
Record Volume := MkVolume { volName : string; volEmptyDir : bool }.

Record Container := MkContainer {
  ctName : string;
  ctImage : string;
  ctPorts : list ContainerPort;
  ctEnv : list EnvVar;
  ctVolumeMounts : list VolumeMount;
  ctLivenessProbe : option HTTPGetAction;
  ctReadinessProbe : option HTTPGetAction;
  ctTerminationMessagePath : string;
  ctImagePullPolicy : string
}.

Record PodSpec := MkPodSpec {
  psContainers : list Container;
  psVolumes : list Volume;
  psServiceAccountName : string;
  psRestartPolicy : string;
  psDNSPolicy : string
}.

Record PodTemplateSpec := MkPodTemplateSpec {
  ptLabels : gmap string string;
  ptSpec : PodSpec
}.

#[export] Instance PodTemplateSpec_eq_dec : EqDecision PodTemplateSpec.
Proof.
  assert (EqDecision SecretKeySelector) by solve_decision.
  assert (EqDecision EnvVar) by solve_decision.
  assert (EqDecision HTTPGetAction) by solve_decision.
  assert (EqDecision ContainerPort) by solve_decision.
  assert (EqDecision VolumeMount) by solve_decision.
  assert (EqDecision Volume) by solve_decision.
  assert (EqDecision Container) by solve_decision.
  assert (EqDecision PodSpec) by solve_decision.
  solve_decision.
Defined.

Record DeploymentCondition := MkDeploymentCondition {
  dcType : string;
  dcStatus : string;
  dcReason : string;
  dcMessage : string
}.

Record Deployment := MkDeployment {
  dpNamespace : string;
  dpName : string;
  dpLabels : gmap string string;
  dpOwnerReferences : list OwnerReference;
  dpReplicas : option Z;
  dpSelector : gmap string string;
  dpTemplate : PodTemplateSpec;
  dpConditions : list DeploymentCondition
}.

(** [updated.Spec.Template = ...; updated.Spec.Replicas = ...]. *)
Definition with_template (tpl : PodTemplateSpec) (replicas : option Z) (d : Deployment)
    : Deployment :=
  MkDeployment (dpNamespace d) (dpName d) (dpLabels d) (dpOwnerReferences d)
    replicas (dpSelector d) tpl (dpConditions d).

(** ** Rendering (deployment.go) *)

Definition SourceLabelKey : string := "sources.yipyap.run/source".
Definition ContainerName : string := "source".
Definition CursorVolumeName : string := "cursor".
Definition CursorMountPath : string := "/var/run/yipyap".
Definition AdapterHTTPPort : Z := 8080.

Definition Labels (src : YipYapSource) : gmap string string :=
  {[ SourceLabelKey := omName (yMeta src) ]}.

(** [kmeta.NewControllerRef]. *)
Definition NewControllerRef (src : YipYapSource) : OwnerReference :=
  MkOwnerReference
    (GroupVersion_String
       (MkGroupVersion (gvkGroup GetGroupVersionKind) (gvkVersion GetGroupVersionKind)))
    (gvkKind GetGroupVersionKind) (omName (yMeta src)) (omUID (yMeta src))
    (Some true) (Some true).

Definition env_value (name value : string) : EnvVar := MkEnvVar name value None.

(** [json.Marshal] of the anonymous struct around the extensions. *)
Definition marshal_overrides (exts : gmap string string) : string :=
  "{" +:+ marshal_string "extensions" +:+ ":" +:+ marshal_map exts +:+ "}".

Section render.
Context `{UrlLib}.

Definition adapter_env (src : YipYapSource) (sink : option URL) : list EnvVar :=
  let spec := ySpec src in
  let env :=
    [env_value "K_SINK" (URL_String sink);
     env_value "YIPYAP_BASE_URL" (spBaseURL spec);
     MkEnvVar "YIPYAP_API_KEY" ""
       (Some (MkSecretKeySelector (akName (spAPIKeyRef spec)) (akKey (spAPIKeyRef spec))));
     env_value "YIPYAP_MODE" (spMode spec)] in
  let env :=
    match spFilter spec with
    | Some f =>
        if (0 <? length (fTypes f))%nat
        then env ++ [env_value "YIPYAP_EVENT_FILTER" (join "," (fTypes f))]
        else env
    | None => env
    end in
  match spCloudEventOverrides spec with
  | Some exts =>
      if (0 <? size exts)%nat
      then env ++ [env_value "K_CE_OVERRIDES" (marshal_overrides exts)]
      else env
  | None => env
  end.

Definition adapter_pod_spec (src : YipYapSource) (sink : option URL) (image : string) : PodSpec :=
  let probe path := Some (MkHTTPGetAction path AdapterHTTPPort "HTTP") in
  MkPodSpec
    [MkContainer ContainerName image
       [MkContainerPort "http" AdapterHTTPPort "TCP"]
       (adapter_env src sink)
       [MkVolumeMount CursorVolumeName CursorMountPath]
       (probe "/healthz") (probe "/readyz") "" ""]
    [MkVolume CursorVolumeName true]
    (if negb (String.eqb (spServiceAccountName (ySpec src)) "")
     then spServiceAccountName (ySpec src) else "")
    "" "".

Definition MakeAdapterDeployment (src : YipYapSource) (sink : option URL) (image : string)
    : option Deployment :=
  let labels := Labels src in
  name ← ChildName (omName (yMeta src) +:+ "-source-") (omUID (yMeta src));
  Some (MkDeployment (omNamespace (yMeta src)) name labels [NewControllerRef src]
          (Some 1) labels
          (MkPodTemplateSpec labels (adapter_pod_spec src sink image)) []).
End render.

(** ** What the rendering promises *)

(** The value of a variable in a rendered environment: the last entry wins, as
    in the kubelet; [secret] gives the value of a key of a secret. *)
Definition env_lookup (secret : string -> string -> string) (env : list EnvVar) (name : string)
    : string :=
  foldl (fun v e =>
    if String.eqb (evName e) name then
      match evValueFrom e with
      | Some sel => secret (sksName sel) (sksKey sel)
      | None => evValue e
      end
    else v) "" env.

(** The filter and the overrides the environment carries. *)
Definition filter_types (s : YipYapSourceSpec) : list string :=
  match spFilter s with Some f => fTypes f | None => [] end.
Definition override_map (s : YipYapSourceSpec) : gmap string string :=
  default ∅ (spCloudEventOverrides s).

Lemma env_lookup_snoc secret env e name :
  env_lookup secret (env ++ [e]) name =
    if String.eqb (evName e) name then
      match evValueFrom e with
      | Some sel => secret (sksName sel) (sksKey sel)
      | None => evValue e
      end
    else env_lookup secret env name.
Proof. unfold env_lookup. by rewrite foldl_app. Qed.

(** An entry that is there unless [b]. *)
Lemma env_lookup_unless secret env (b : bool) n v name :
  env_lookup secret (env ++ (if b then [] else [env_value n v])) name =
    if String.eqb n name && negb b then v else env_lookup secret env name.
Proof.
  destruct b; [by rewrite app_nil_r, andb_false_r|].
  rewrite env_lookup_snoc, andb_true_r. done.
Qed.

Section render_lemmas.
Context `{UrlLib}.

(** The environment, in normal form. *)
Lemma adapter_env_shape src sink :
  adapter_env src sink =
    [env_value "K_SINK" (URL_String sink);
     env_value "YIPYAP_BASE_URL" (spBaseURL (ySpec src));
     MkEnvVar "YIPYAP_API_KEY" ""
       (Some (MkSecretKeySelector (akName (spAPIKeyRef (ySpec src)))
                                  (akKey (spAPIKeyRef (ySpec src)))));
     env_value "YIPYAP_MODE" (spMode (ySpec src))] ++
    (if bool_decide (filter_types (ySpec src) = []) then []
     else [env_value "YIPYAP_EVENT_FILTER" (join "," (filter_types (ySpec src)))]) ++
    (if bool_decide (override_map (ySpec src) = ∅) then []
     else [env_value "K_CE_OVERRIDES" (marshal_overrides (override_map (ySpec src)))]).
Proof.
  unfold adapter_env, filter_types, override_map.
  assert (forall m : gmap string string, (0 <? size m)%nat = negb (bool_decide (m = ∅))) as Hsize.
  { intros m. case_bool_decide as Hm; [by subst|]. apply Nat.ltb_lt.
    assert (size m <> 0%nat) by (by rewrite map_size_non_empty_iff). lia. }
  destruct (spFilter (ySpec src)) as [[[|t ts] ids sevs]|], (spCloudEventOverrides (ySpec src)) as [m|];
    simpl; rewrite ?Hsize; try (case_bool_decide; simpl); done.
Qed.

(** Every lookup in it. *)
Lemma env_lookup_spec secret src sink name :
  env_lookup secret (adapter_env src sink) name =
    let spec := ySpec src in
    if String.eqb "K_CE_OVERRIDES" name then
      (if bool_decide (override_map spec = ∅) then "" else marshal_overrides (override_map spec))
    else if String.eqb "YIPYAP_EVENT_FILTER" name then join "," (filter_types spec)
    else if String.eqb "YIPYAP_MODE" name then spMode spec
    else if String.eqb "YIPYAP_API_KEY" name then
      secret (akName (spAPIKeyRef spec)) (akKey (spAPIKeyRef spec))
    else if String.eqb "YIPYAP_BASE_URL" name then spBaseURL spec
    else if String.eqb "K_SINK" name then URL_String sink else "".
Proof.
  rewrite adapter_env_shape, app_assoc, !env_lookup_unless. cbv zeta.
  destruct (String.eqb_spec "K_CE_OVERRIDES" name) as [<-|]; cbn [andb].
  { case_bool_decide; reflexivity. }
  destruct (String.eqb_spec "YIPYAP_EVENT_FILTER" name) as [<-|]; cbn [andb]; [|reflexivity].
  case_bool_decide as E; [|reflexivity]. rewrite E. reflexivity.
Qed.
End render_lemmas.

(** ** Theorems *)

(** Rendering never fails, and gives one replica of one container running
    the image, probed on the adapter's port with the cursor volume mounted,
    under a name of at most 63 bytes, in the source's namespace, owned by the
    source as controller, with a selector that selects its own pods and no
    other source's. *)
Theorem rendered_deployment_shape `{UrlLib} src sink image :
  exists d c, MakeAdapterDeployment src sink image = Some d /\
    len (dpName d) <= 63 /\ dpNamespace d = omNamespace (yMeta src) /\
    (exists o, dpOwnerReferences d = [o] /\ orUID o = omUID (yMeta src) /\
       orName o = omName (yMeta src) /\ orController o = Some true /\
       orAPIVersion o = "sources.yipyap.run/v1alpha1" /\ orKind o = "YipYapSource") /\
    dpReplicas d = Some 1 /\
    dpSelector d = ptLabels (dpTemplate d) /\
    (forall src', dpSelector d = Labels src' <-> omName (yMeta src') = omName (yMeta src)) /\
    psContainers (ptSpec (dpTemplate d)) = [c] /\ ctImage c = image /\
    ctEnv c = adapter_env src sink /\
    (forall p, p ∈ [ctLivenessProbe c; ctReadinessProbe c] ->
       hgPort <$> p = Some AdapterHTTPPort) /\
    cpContainerPort <$> ctPorts c = [AdapterHTTPPort] /\
    (forall m, m ∈ ctVolumeMounts c ->
       Exists (fun v => volName v = vmName m) (psVolumes (ptSpec (dpTemplate d)))) /\
    psServiceAccountName (ptSpec (dpTemplate d)) = spServiceAccountName (ySpec src).
Proof.
  unfold MakeAdapterDeployment.
  destruct (ChildName_bounded (omName (yMeta src) +:+ "-source-") (omUID (yMeta src)))
    as (n&->&Hn).
  eexists _, _. split; [done|]. simpl.
  split_and!; try done.
  - eexists. split_and!; done.
  - intros src'. unfold Labels. split; [|by intros ->].
    intros Hl%(f_equal (.!! SourceLabelKey)). rewrite !lookup_singleton_eq in Hl. congruence.
  - intros p Hp. apply elem_of_cons in Hp as [->|Hp]; [done|].
    by apply list_elem_of_singleton in Hp as ->.
  - intros m ->%list_elem_of_singleton. by constructor.
  - destruct (String.eqb_spec (spServiceAccountName (ySpec src)) ""); by simpl.
Qed.

(** The environment hands over the sink, the base URL, the API key (read
    from the named key of the named secret), the mode verbatim, the type globs
    joined by commas when there are any, and the overrides as JSON when there
    are any; and nothing under any other name. *)
Theorem rendered_env_values `{UrlLib} src sink secret :
  let spec := ySpec src in
  let v := env_lookup secret (adapter_env src sink) in
  v "K_SINK" = URL_String sink /\
  v "YIPYAP_BASE_URL" = spBaseURL spec /\
  v "YIPYAP_API_KEY" = secret (akName (spAPIKeyRef spec)) (akKey (spAPIKeyRef spec)) /\
  v "YIPYAP_MODE" = spMode spec /\
  v "YIPYAP_EVENT_FILTER" = join "," (filter_types spec) /\
  v "K_CE_OVERRIDES"
    = (if bool_decide (override_map spec = ∅) then ""
       else marshal_overrides (override_map spec)) /\
  (forall name, name ∉ ["K_SINK"; "YIPYAP_BASE_URL"; "YIPYAP_API_KEY"; "YIPYAP_MODE";
                        "YIPYAP_EVENT_FILTER"; "K_CE_OVERRIDES"] -> v name = "").
Proof.
  cbv zeta. split_and!; rewrite ?env_lookup_spec; try reflexivity.
  intros name Hname. rewrite !not_elem_of_cons in Hname. rewrite env_lookup_spec.
  repeat match goal with |- context [String.eqb ?a name] =>
    rewrite (proj2 (String.eqb_neq a name)) by (intros <-; tauto) end.
  done.
Qed.

(** What the user asked for under monitorIds and severities, the status
    and the name's generation do not reach the adapter: two sources that agree
    on the other fields render the same Deployment. *)
Theorem monitor_and_severity_filters_not_rendered `{UrlLib} src sink image f ids sevs st :
  spFilter (ySpec src) = Some f ->
  let s := ySpec src in
  MakeAdapterDeployment
    (MkYipYapSource (yMeta src)
       (MkSpec (spSink s) (spCloudEventOverrides s) (spAPIKeyRef s) (spBaseURL s)
          (Some (MkFilter (fTypes f) ids sevs)) (spMode s) (spServiceAccountName s)) st)
    sink image
  = MakeAdapterDeployment src sink image.
Proof.
  intros Hf. unfold MakeAdapterDeployment, adapter_pod_spec, adapter_env, Labels, NewControllerRef.
  simpl. by rewrite Hf.
Qed.

(** Two sources with short names (at most 19 bytes) and UIDs of the usual
    36 bytes never share a Deployment name unless they are the same source. *)
Theorem short_names_do_not_collide `{UrlLib} src src' sink sink' image d d' :
  len (omName (yMeta src)) <= 19 -> len (omName (yMeta src')) <= 19 ->
  len (omUID (yMeta src)) = 36 -> len (omUID (yMeta src')) = 36 ->
  MakeAdapterDeployment src sink image = Some d ->
  MakeAdapterDeployment src' sink' image = Some d' ->
  dpName d = dpName d' ->
  omUID (yMeta src) = omUID (yMeta src') /\ omName (yMeta src) = omName (yMeta src').
Proof.
  intros Hn Hn' Hu Hu'. unfold MakeAdapterDeployment.
  destruct (ChildName_fits (omName (yMeta src) +:+ "-source-") (omUID (yMeta src))) as [-> _];
    [rewrite len_app; change (len "-source-") with 8; lia|].
  destruct (ChildName_fits (omName (yMeta src') +:+ "-source-") (omUID (yMeta src'))) as [-> _];
    [rewrite len_app; change (len "-source-") with 8; lia|].
  intros [= <-] [= <-]. simpl. intros E.
  apply app_inj_len in E as [E1 E2]; [|unfold len in *; lia].
  split; [done|]. by apply app_inj_len in E1 as [? _].
Qed.

(** ** Witnesses *)

Definition sample_image : string := "ghcr.io/yipyap-run/source:v1".

Definition empty_template : PodTemplateSpec := MkPodTemplateSpec ∅ (MkPodSpec [] [] "" "" "").

Definition sample_deployment : Deployment :=
  default (MkDeployment "" "" ∅ [] None ∅ empty_template [])
    (MakeAdapterDeployment (H := plain_url_lib) sample_source (Some sample_url) sample_image).

Lemma monitor_and_severity_filters_not_rendered_witness :
  let s := sample_spec in
  MakeAdapterDeployment (H := plain_url_lib)
    (MkYipYapSource sample_meta
       (MkSpec (spSink s) (spCloudEventOverrides s) (spAPIKeyRef s) (spBaseURL s)
          (Some (MkFilter ["run.yipyap.alert.*"; "run.yipyap.monitor.down.v1"] [] []))
          (spMode s) (spServiceAccountName s)) empty_status)
    (Some sample_url) sample_image
  = Some sample_deployment.
Proof.
  etransitivity;
    [exact (monitor_and_severity_filters_not_rendered (H := plain_url_lib) sample_source
       (Some sample_url) sample_image _ [] [] empty_status eq_refl)|].
  vm_compute. reflexivity.
Defined.

Lemma short_names_do_not_collide_witness :
  dpName sample_deployment = "demo-source-123e4567-e89b-12d3-a456-426614174000" /\
  omUID (yMeta sample_source) = omUID (yMeta sample_source) /\
  omName (yMeta sample_source) = omName (yMeta sample_source).
Proof.
  split; [vm_compute; reflexivity|].
  apply (short_names_do_not_collide (H := plain_url_lib) sample_source sample_source
    (Some sample_url) (Some sample_url) sample_image sample_deployment sample_deployment);
    solve [vm_compute; reflexivity | vm_compute; discriminate].
Defined.
