(* ===== verification/Reconcile.v ===== *)
(** * The reconciler (pkg/reconciler/yipyapsource/yipyapsource.go)

    [ReconcileKind] as a function of the source, of its status and of the
    cluster around it ([Kube]: the informer cache, the two writes of the
    Deployments client, the sink resolver), returning the error, the new
    status and the writes it issued, in order. *)

From S2P Require Import Prelude GoStrings CondSet Types Lifecycle Names Deployment.
Local Open Scope string_scope.
Local Open Scope list_scope.

(** ** The cluster *)

Inductive get_error := NotFound | GetFailed (msg : string).

Inductive write :=
| WCreate (ns : string) (d : Deployment)
| WUpdate (ns : string) (d : Deployment).

(** What the reconciler calls.  The writes answer with the object the API
    server stored. *)
Class Kube := {
  lister_get : string -> string -> result get_error Deployment;
  kube_write : write -> result string Deployment;
  URIFromDestinationV1 : Destination -> YipYapSource -> result string URL
}.

Inductive reconcile_error :=
| ResolveSink (msg : string)
| CreateDeployment (msg : string)
| UpdateDeployment (msg : string)
| GetDeployment (msg : string)
| Panicked.

Record outcome := MkOutcome {
  oError : option reconcile_error;
  oStatus : tstatus;
  oWrites : list write
}.

(** ** Operations *)

Definition event_types : list string :=
  ["run.yipyap.alert.fired.v1"; "run.yipyap.alert.acknowledged.v1";
   "run.yipyap.alert.resolved.v1"; "run.yipyap.alert.escalated.v1";
   "run.yipyap.monitor.up.v1"; "run.yipyap.monitor.down.v1";
   "run.yipyap.monitor.degraded.v1"; "run.yipyap.monitor.heartbeat_missed.v1";
   "run.yipyap.maintenance.started.v1"; "run.yipyap.maintenance.ended.v1"].

Definition knownCloudEventAttributes : list CloudEventAttributes :=
  map (fun t => MkCEAttributes t "") event_types.

(** [dest := src.Spec.Sink.DeepCopy()] with the namespace of the source for a
    reference that has none. *)
Definition sink_destination (src : YipYapSource) : Destination :=
  let d := spSink (ySpec src) in
  match dRef d with
  | Some r =>
      if String.eqb (krNamespace r) "" then
        MkDestination
          (Some (MkKReference (krKind r) (omNamespace (yMeta src)) (krName r)
                   (krAPIVersion r) (krGroup r) (krAddress r)))
          (dURI d) (dCACerts d) (dAudience d)
      else d
  | None => d
  end.

Definition DeploymentAvailable : string := "Available".

Section reconcile.
Context `{UrlLib, Kube} (clock : nat -> Z).

Fixpoint propagate_conditions (cs : list DeploymentCondition) (s : tstatus) : tstatus :=
  match cs with
  | [] => s
  | c :: cs =>
      if negb (String.eqb (dcType c) DeploymentAvailable) then propagate_conditions cs s
      else if String.eqb (dcStatus c) ConditionTrue then MarkDeployed clock s
      else if String.eqb (dcStatus c) ConditionFalse then
        MarkNotDeployed clock (dcReason c) (dcMessage c) s
      else if String.eqb (dcStatus c) ConditionUnknown then
        MarkDeploying clock (dcReason c) (dcMessage c) s
      else s
  end.

Definition propagateDeploymentAvailability (s : tstatus) (dep : Deployment) : tstatus :=
  propagate_conditions (dpConditions dep) s.

(** [equality.Semantic.DeepEqual] on the two fields compared: structural, with
    an absent and an empty collection alike, as they are here. *)
Definition drifted (expected current : Deployment) : bool :=
  negb (bool_decide (dpTemplate expected = dpTemplate current)) ||
  negb (bool_decide (dpReplicas expected = dpReplicas current)).

(** From the Deployment on: the current object, or the error with the status
    it leaves; and the writes. *)
Definition reconcile_deployment (ns : string) (expected : Deployment) (s : tstatus)
    : result (reconcile_error * tstatus) Deployment * list write :=
  match lister_get ns (dpName expected) with
  | Err NotFound =>
      let w := WCreate ns expected in
      (map_err (fun e => (CreateDeployment e, MarkNotDeployed clock "CreateFailed" e s))
         (kube_write w), [w])
  | Err (GetFailed e) => (Err (GetDeployment e, s), [])
  | Ok current =>
      if drifted expected current then
        let w := WUpdate ns (with_template (dpTemplate expected) (dpReplicas expected) current) in
        (map_err (fun e => (UpdateDeployment e, MarkNotDeployed clock "UpdateFailed" e s))
           (kube_write w), [w])
      else (Ok current, [])
  end.

Definition ReconcileKind (image : string) (src : YipYapSource) (ticks : nat) : outcome :=
  let s := Status_InitializeConditions clock (TStatus (yStatus src) ticks) in
  let s := with_tstatus (set_observed_generation (omGeneration (yMeta src))) s in
  let s := with_tstatus (set_ce_attributes knownCloudEventAttributes) s in
  match URIFromDestinationV1 (sink_destination src) src with
  | Err e =>
      MkOutcome (Some (ResolveSink e)) (MarkNoSink clock "NotFound" e s) []
  | Ok uri =>
      let s := MarkSink clock (Some uri) s in
      match MakeAdapterDeployment src (Some uri) image with
      | None => MkOutcome (Some Panicked) s []
      | Some expected =>
          match reconcile_deployment (omNamespace (yMeta src)) expected s with
          | (Err (e, s), writes) => MkOutcome (Some e) s writes
          | (Ok current, writes) =>
              let s := with_tstatus (set_deployment_name (dpName current)) s in
              MkOutcome None (propagateDeploymentAvailability s current) writes
          end
      end
  end.
End reconcile.

(** ** Lemmas *)

(** What the conditions of the Deployment make of the Deployed condition: the
    first Available condition decides, and without one it stays. *)
Fixpoint deployed_after (cs : list DeploymentCondition) (old : option string) : option string :=
  match cs with
  | [] => old
  | c :: cs =>
      if String.eqb (dcType c) DeploymentAvailable then
        if bool_decide (dcStatus c ∈ [ConditionTrue; ConditionFalse; ConditionUnknown])
        then Some (dcStatus c) else old
      else deployed_after cs old
  end.

(** Everything of a status but its conditions. *)
Definition rest (s : tstatus) : YipYapSourceStatus := set_conditions [] (tsStatus s).

Section reconcile_lemmas.
Context `{UrlLib} (clock : nat -> Z).

Lemma manage_mark_effect m s :
  coherent s -> mark_type m ∈ dependents yipyapSourceCondSet ->
  let s' := manage (exec_mark clock yipyapSourceCondSet m) s in
  coherent s' /\ rest s' = rest s /\
  (forall t, t <> YipYapSourceConditionReady ->
     sview s' t = set_view (mark_type m) (mark_status m) (sview s) t).
Proof.
  intros Hs Hm. destruct (manage_mark clock m s (coherent_wf _ Hs) Hm) as (_&_&Hv).
  split_and!; [by apply manage_mark_coherent| |done]. by destruct s as [[] ?].
Qed.

Lemma propagate_effect cs s :
  coherent s ->
  let s' := propagate_conditions clock cs s in
  coherent s' /\ rest s' = rest s /\
  sview s' YipYapSourceConditionSinkProvided = sview s YipYapSourceConditionSinkProvided /\
  sview s' YipYapSourceConditionDeployed
    = deployed_after cs (sview s YipYapSourceConditionDeployed).
Proof.
  intros Hs. induction cs as [|c cs IH]; [done|].
  cbn [propagate_conditions deployed_after]. cbv zeta in *.
  destruct (String.eqb (dcType c) DeploymentAvailable); [|exact IH]. cbn [negb].
  assert (forall m, mark_type m = YipYapSourceConditionDeployed ->
    let s' := manage (exec_mark clock yipyapSourceCondSet m) s in
    coherent s' /\ rest s' = rest s /\
    sview s' YipYapSourceConditionSinkProvided = sview s YipYapSourceConditionSinkProvided /\
    sview s' YipYapSourceConditionDeployed = Some (mark_status m)) as Hm.
  { intros m Et. destruct (manage_mark_effect m s Hs) as (?&?&Hv);
      [rewrite Et; auto with conds|].
    split_and!; [done|done|rewrite Hv by done; by rewrite Et|rewrite Hv by done].
    by rewrite Et. }
  destruct (String.eqb_spec (dcStatus c) ConditionTrue) as [->|Ht].
  { apply (Hm (MTrue YipYapSourceConditionDeployed) eq_refl). }
  destruct (String.eqb_spec (dcStatus c) ConditionFalse) as [->|Hf].
  { apply (Hm (MFalse YipYapSourceConditionDeployed (dcReason c) (dcMessage c)) eq_refl). }
  destruct (String.eqb_spec (dcStatus c) ConditionUnknown) as [->|Hu].
  { apply (Hm (MUnknown YipYapSourceConditionDeployed (dcReason c) (dcMessage c)) eq_refl). }
  rewrite bool_decide_false; [done|].
  rewrite !elem_of_cons, elem_of_nil. tauto.
Qed.

(** The status the reconciler starts from. *)
Definition started (src : YipYapSource) (ticks : nat) : tstatus :=
  with_tstatus (set_ce_attributes knownCloudEventAttributes)
    (with_tstatus (set_observed_generation (omGeneration (yMeta src)))
       (Status_InitializeConditions clock (TStatus (yStatus src) ticks))).

Lemma started_coherent src ticks :
  coherent (TStatus (yStatus src) ticks) -> coherent (started src ticks).
Proof.
  intros Hs. unfold started. apply with_tstatus_coherent; [done|].
  apply with_tstatus_coherent; [done|]. by apply manage_init.
Qed.

Lemma MarkSink_effect uri s :
  coherent s ->
  let s' := MarkSink clock uri s in
  coherent s' /\ rest s' = set_sink_uri uri (rest s) /\
  sview s' YipYapSourceConditionSinkProvided
    = Some (if uri_given uri then ConditionTrue else ConditionUnknown) /\
  sview s' YipYapSourceConditionDeployed = sview s YipYapSourceConditionDeployed.
Proof.
  intros Hs. cbv zeta. rewrite MarkSink_mark.
  set (m := if uri_given uri then _ else _).
  assert (mark_type m = YipYapSourceConditionSinkProvided) as Et by (unfold m; by destruct (uri_given uri)).
  destruct (manage_mark_effect m (with_tstatus (set_sink_uri uri) s)) as (?&Hr&Hv);
    [by apply with_tstatus_coherent|rewrite Et; auto with conds|].
  split_and!; [done|by rewrite Hr| |]; rewrite Hv by done; rewrite Et.
  - unfold m. by destruct (uri_given uri).
  - done.
Qed.
End reconcile_lemmas.

Section outcomes.
Context `{UrlLib, Kube} (clock : nat -> Z) (image : string).

(** Where the current Deployment of a successful reconciliation comes from. *)
Definition current_of (src : YipYapSource) (o : outcome) (cur : Deployment) : Prop :=
  (exists name, oWrites o = [] /\ lister_get (omNamespace (yMeta src)) name = Ok cur) \/
  (exists w, oWrites o = [w] /\ kube_write w = Ok cur).

Lemma reconcile_deployment_cases ns expected s :
  match reconcile_deployment clock ns expected s with
  | (Ok cur, ws) =>
      (ws = [] /\ lister_get ns (dpName expected) = Ok cur) \/
      (exists w, ws = [w] /\ kube_write w = Ok cur)
  | (Err (e, s'), ws) =>
      (exists m, e = GetDeployment m /\ s' = s /\ ws = [] /\
         lister_get ns (dpName expected) = Err (GetFailed m)) \/
      (exists m w, (e = CreateDeployment m \/ e = UpdateDeployment m) /\ ws = [w] /\
         kube_write w = Err m /\
         exists reason, s' = MarkNotDeployed clock reason m s)
  end.
Proof.
  unfold reconcile_deployment.
  destruct (lister_get ns (dpName expected)) as [cur|[|m]] eqn:El.
  - destruct (drifted expected cur); [|by left].
    destruct (kube_write _) as [cur'|m] eqn:Ew; simpl; [right; eauto|].
    right. eexists _, _. split; [by right|]. eauto.
  - destruct (kube_write _) as [cur'|m] eqn:Ew; simpl; [right; eauto|].
    right. eexists _, _. split; [by left|]. eauto.
  - left. eauto.
Qed.

(** A reconciliation, told by its outcome. *)
Lemma ReconcileKind_cases src ticks :
  let o := ReconcileKind clock image src ticks in
  let s0 := started clock src ticks in
  match URIFromDestinationV1 (sink_destination src) src with
  | Err m =>
      o = MkOutcome (Some (ResolveSink m)) (MarkNoSink clock "NotFound" m s0) []
  | Ok uri =>
      let s1 := MarkSink clock (Some uri) s0 in
      (exists cur, oError o = None /\ current_of src o cur /\
         oStatus o = propagateDeploymentAvailability clock
           (with_tstatus (set_deployment_name (dpName cur)) s1) cur) \/
      (exists m name, o = MkOutcome (Some (GetDeployment m)) s1 [] /\
         lister_get (omNamespace (yMeta src)) name = Err (GetFailed m)) \/
      (exists m w reason, (oError o = Some (CreateDeployment m) \/
                           oError o = Some (UpdateDeployment m)) /\
         oWrites o = [w] /\ kube_write w = Err m /\
         oStatus o = MarkNotDeployed clock reason m s1)
  end.
Proof.
  cbv zeta. unfold ReconcileKind. fold (started clock src ticks).
  destruct (URIFromDestinationV1 _ _) as [uri|m]; [|done].
  unfold MakeAdapterDeployment.
  destruct (ChildName_bounded (omName (yMeta src) +:+ "-source-") (omUID (yMeta src)))
    as (n&->&_). cbn [mbind option_bind].
  set (expected := MkDeployment _ _ _ _ _ _ _ _).
  set (s1 := MarkSink clock (Some uri) (started clock src ticks)).
  pose proof (reconcile_deployment_cases (omNamespace (yMeta src)) expected s1) as Hc.
  destruct (reconcile_deployment _ _ _ _) as [[cur|[e s']] ws].
  - left. exists cur. split_and!; [done| |done].
    destruct Hc as [[-> ?]|(w&->&?)]; [left|right]; eauto.
  - right. destruct Hc as [(m&->&->&->&?)|(m&w&He&->&?&reason&->)]; [left; eauto|right].
    exists m, w, reason. split_and!; try done. by destruct He as [-> | ->]; [left|right].
Qed.
End outcomes.

(** ** An API server

    The cluster as a map of Deployments by namespace and name.  [store] is what
    the server does to an object it stores: it fills in what is left out
    ([defaulting]); the informer cache is up to date. *)

Abbreviation cluster := (gmap (string * string) Deployment).

Section cluster.
Context `{UrlLib} (clock : nat -> Z).
Context (store : Deployment -> Deployment).
Context (resolve : Destination -> result string URL).

Definition write_target (w : write) : string * string :=
  match w with WCreate ns d | WUpdate ns d => (ns, dpName d) end.

Definition cluster_write (c : cluster) (w : write) : result string Deployment :=
  match w, c !! write_target w with
  | WCreate _ d, None => Ok (store d)
  | WCreate _ _, Some _ => Err "already exists"
  | WUpdate _ d, Some _ => Ok (store d)
  | WUpdate _ _, None => Err "not found"
  end.

Definition cluster_apply (c : cluster) (w : write) : cluster :=
  match cluster_write c w with
  | Ok d => <[write_target w := d]> c
  | Err _ => c
  end.

Definition cluster_kube (c : cluster) : Kube := {|
  lister_get ns name := match c !! (ns, name) with Some d => Ok d | None => Err NotFound end;
  kube_write := cluster_write c;
  URIFromDestinationV1 dest _ := resolve dest
|}.

(** What runs in a container. *)
Definition same_run (a b : Container) : Prop :=
  ctName a = ctName b /\ ctImage a = ctImage b /\ ctEnv a = ctEnv b.

(** The documented behaviour of the server's defaulting: it keeps the names, and
    what the containers run; and to send once more a template and replicas it has
    filled in before, over what it then stored, changes nothing. *)
Record defaulting : Prop := {
  df_name : forall d, dpName (store d) = dpName d;
  df_containers : forall d,
    Forall2 same_run (psContainers (ptSpec (dpTemplate (store d))))
      (psContainers (ptSpec (dpTemplate d)));
  df_again : forall d cur, drifted (store d) cur = false ->
    store (with_template (dpTemplate d) (dpReplicas d) cur) = cur
}.

(** Every Deployment is stored under its own name. *)
Definition well_named (c : cluster) : Prop := map_Forall (fun k d => dpName d = k.2) c.

(** One reconciliation of the source with a given status, against a cluster. *)
Definition reconcile_in (image : string) (src : YipYapSource) (c : cluster) (s : tstatus)
    : outcome * cluster :=
  let o := ReconcileKind (H0 := cluster_kube c) clock image (with_status src (tsStatus s))
             (tsTicks s) in
  (o, foldl cluster_apply c (oWrites o)).

(** The Deployment wanted for a source and its key. *)
Definition wanted (image : string) (src : YipYapSource) (uri : URL) (d : Deployment) : Prop :=
  MakeAdapterDeployment src (Some uri) image = Some d.
Definition wanted_key (src : YipYapSource) (d : Deployment) : string * string :=
  (omNamespace (yMeta src), dpName d).

Context (image : string) (src : YipYapSource) (uri : URL) (d : Deployment).
Context (Hresolve : resolve (sink_destination src) = Ok uri).
Context (Hd : wanted image src uri d).
Context (Hname : forall d, dpName (store d) = dpName d).

(** The Deployment has the wanted template and replicas, or what the server makes
    of them. *)
Definition settled (c : cluster) : Prop :=
  exists cur, c !! wanted_key src d = Some cur /\
    (drifted d cur = false \/
     exists d', drifted d d' = false /\ drifted (store d') cur = false).

Lemma drifted_spec e cur :
  drifted e cur = false <-> dpTemplate cur = dpTemplate e /\ dpReplicas cur = dpReplicas e.
Proof.
  unfold drifted. rewrite orb_false_iff, !negb_false_iff, !bool_decide_eq_true.
  split; intros []; done.
Qed.

(** What one reconciliation writes. *)
Lemma reconcile_in_writes c s :
  well_named c ->
  let o := (reconcile_in image src c s).1 in
  oError o = None /\
  oWrites o =
    match c !! wanted_key src d with
    | None => [WCreate (omNamespace (yMeta src)) d]
    | Some cur =>
        if drifted d cur
        then [WUpdate (omNamespace (yMeta src))
                (with_template (dpTemplate d) (dpReplicas d) cur)] else []
    end.
Proof.
  intros Hc. unfold reconcile_in, ReconcileKind, wanted in *. cbn [fst].
  change (sink_destination (with_status src (tsStatus s))) with (sink_destination src).
  cbn [URIFromDestinationV1 cluster_kube]. rewrite Hresolve.
  change (MakeAdapterDeployment (with_status src (tsStatus s)) (Some uri) image)
    with (MakeAdapterDeployment src (Some uri) image). rewrite Hd.
  change (omNamespace (yMeta (with_status src (tsStatus s)))) with (omNamespace (yMeta src)).
  unfold reconcile_deployment. cbn [lister_get kube_write cluster_kube].
  unfold wanted_key.
  destruct (c !! (omNamespace (yMeta src), dpName d)) as [cur|] eqn:E.
  - apply Hc in E as En. simpl in En.
    destruct (drifted d cur); [|done]. unfold cluster_write. cbn [write_target with_template dpName].
    rewrite En, E. done.
  - unfold cluster_write. cbn [write_target]. rewrite E. done.
Qed.

(** What it makes of the cluster. *)
Lemma reconcile_in_cluster c s :
  well_named c ->
  let c' := (reconcile_in image src c s).2 in
  well_named c' /\
  c' =
    match c !! wanted_key src d with
    | None => <[wanted_key src d := store d]> c
    | Some cur =>
        if drifted d cur
        then <[wanted_key src d := store (with_template (dpTemplate d) (dpReplicas d) cur)]> c
        else c
    end.
Proof.
  intros Hc. destruct (reconcile_in_writes c s Hc) as [_ Hw]. cbv zeta in *.
  unfold reconcile_in in *. cbn [fst snd] in *. rewrite Hw.
  assert (forall d', dpName d' = dpName d -> well_named (<[wanted_key src d:=store d']> c)) as Hwn.
  { intros d' Hd'. apply map_Forall_insert_2; [|done]. by rewrite Hname. }
  unfold wanted_key in *.
  destruct (c !! (omNamespace (yMeta src), dpName d)) as [cur|] eqn:E.
  - apply Hc in E as En. simpl in En.
    destruct (drifted d cur); [|done].
    cbn [foldl]. unfold cluster_apply, cluster_write. cbn [write_target with_template dpName].
    rewrite En, E. split; [by apply Hwn|done].
  - cbn [foldl]. unfold cluster_apply, cluster_write. cbn [write_target]. rewrite E.
    split; [by apply Hwn|done].
Qed.

Lemma drifted_refl e : drifted e e = false.
Proof. by apply drifted_spec. Qed.

Lemma same_run_refl cts : Forall2 same_run cts cts.
Proof. induction cts; constructor; done. Qed.

(** The containers of a settled Deployment run what is wanted. *)
Lemma settled_runs c :
  defaulting -> settled c ->
  exists cur, c !! wanted_key src d = Some cur /\
    Forall2 same_run (psContainers (ptSpec (dpTemplate cur))) (psContainers (ptSpec (dpTemplate d))).
Proof.
  intros Hdf (cur&Hcur&Hs). exists cur. split; [done|].
  destruct Hs as [[-> _]%drifted_spec|(d'&[Ht _]%drifted_spec&[Ht' _]%drifted_spec)];
    [apply same_run_refl|].
  rewrite Ht', <- Ht. apply (df_containers Hdf).
Qed.

(** One reconciliation settles the Deployment. *)
Lemma reconcile_in_settles c s :
  defaulting -> well_named c ->
  let r := reconcile_in image src c s in
  oError r.1 = None /\ settled r.2 /\ (forall k, k <> wanted_key src d -> r.2 !! k = c !! k).
Proof.
  intros Hdf Hc. cbv zeta. destruct (reconcile_in_writes c s Hc) as [He _].
  destruct (reconcile_in_cluster c s Hc) as [_ ->]. unfold settled. split_and!; [done| |].
  - destruct (c !! wanted_key src d) as [cur|] eqn:E.
    + destruct (drifted d cur) eqn:Edr; [|exists cur; rewrite E; auto].
      eexists. split; [apply lookup_insert_eq|]. right.
      exists (with_template (dpTemplate d) (dpReplicas d) cur).
      split; [by apply drifted_spec|apply drifted_refl].
    + eexists. split; [apply lookup_insert_eq|]. right. exists d. split; apply drifted_refl.
  - intros k Hk. repeat case_match; try done; by apply lookup_insert_ne.
Qed.

(** A further one changes nothing, and writes only when the server has filled in
    something of the Deployment. *)
Lemma reconcile_in_again c s :
  defaulting -> well_named c -> settled c ->
  let r := reconcile_in image src c s in
  oError r.1 = None /\ r.2 = c /\
  (oWrites r.1 = [] <->
     exists cur, c !! wanted_key src d = Some cur /\
       dpTemplate cur = dpTemplate d /\ dpReplicas cur = dpReplicas d) /\
  (oWrites r.1 = [] \/ exists cur, oWrites r.1 = [WUpdate (omNamespace (yMeta src)) cur]).
Proof.
  intros Hdf Hc (cur&Hcur&Hs). cbv zeta. destruct (reconcile_in_writes c s Hc) as [He Hw].
  destruct (reconcile_in_cluster c s Hc) as [_ Ec]. rewrite Hcur in Hw, Ec.
  split; [done|]. rewrite Hw, Ec. destruct (drifted d cur) eqn:Edr.
  - destruct Hs as [?|(d'&Hd'&Hs)]; [done|]. apply drifted_spec in Hd' as [Ht Hn].
    apply (df_again Hdf) in Hs. rewrite Ht, Hn in Hs. rewrite Hs, insert_id by done.
    split_and!; [done|split; [done|]|eauto].
    intros (cur'&E&Hsame). apply drifted_spec in Hsame. congruence.
  - split_and!; [done|split; [intros _|done]|by left].
    exists cur. split; [done|]. by apply drifted_spec.
Qed.
End cluster.

(** The template of a rendered Deployment: one container, with the environment
    of the adapter. *)
Lemma wanted_container `{UrlLib} image src uri d :
  wanted image src uri d ->
  exists ct, psContainers (ptSpec (dpTemplate d)) = [ct] /\ ctImage ct = image /\
    ctEnv ct = adapter_env src (Some uri).
Proof.
  destruct (rendered_deployment_shape src (Some uri) image)
    as (d'&ct&Hd'&_&_&_&_&_&_&Hct&Hi&He&_).
  unfold wanted. rewrite Hd'. intros [= <-]. eauto.
Qed.

Lemma wanted_exists `{UrlLib} image src uri : exists d, wanted image src uri d.
Proof.
  destruct (rendered_deployment_shape src (Some uri) image) as (d&_&Hd&_). by exists d.
Qed.

(** The containers of its settled Deployment. *)
Lemma settled_container `{UrlLib} store image src uri d c :
  wanted image src uri d -> defaulting store -> settled store src d c ->
  exists cur ct, c !! wanted_key src d = Some cur /\
    psContainers (ptSpec (dpTemplate cur)) = [ct] /\ ctImage ct = image /\
    ctEnv ct = adapter_env src (Some uri).
Proof.
  intros Hd Hdf Hs. destruct (settled_runs store src d c Hdf Hs) as (cur&Hcur&Hf).
  destruct (wanted_container image src uri d Hd) as (ct&Hct&<-&<-). rewrite Hct in Hf.
  apply Forall2_cons_inv_r in Hf as (ct'&rest&(_&Hi&He)&Hrest&E).
  apply Forall2_nil_inv_r in Hrest as ->. by exists cur, ct'.
Qed.

(** ** Theorems *)

(** C7. Convergence: with an API server that fills in defaults, one reconciliation of a
    source whose sink resolves succeeds, leaves its Deployment with the wanted
    template and replicas, or what the server makes of them, so that its containers run
    what is wanted, and touches no other Deployment.  A further one leaves the
    cluster as it is: it writes nothing exactly when the server has filled in nothing of
    what the drift detection compares, and otherwise sends the same Update again. *)
Theorem reconcile_converges `{UrlLib} clock store resolve image src uri d c s s' :
  resolve (sink_destination src) = Ok uri -> wanted image src uri d -> well_named c ->
  defaulting store ->
  let (o1, c1) := reconcile_in clock store resolve image src c s in
  let (o2, c2) := reconcile_in clock store resolve image src c1 s' in
  oError o1 = None /\ settled store src d c1 /\
  (exists cur, c1 !! wanted_key src d = Some cur /\
     Forall2 same_run (psContainers (ptSpec (dpTemplate cur)))
       (psContainers (ptSpec (dpTemplate d)))) /\
  (forall k, k <> wanted_key src d -> c1 !! k = c !! k) /\
  oError o2 = None /\ c2 = c1 /\
  (oWrites o2 = [] <->
     exists cur, c1 !! wanted_key src d = Some cur /\
       dpTemplate cur = dpTemplate d /\ dpReplicas cur = dpReplicas d) /\
  (oWrites o2 = [] \/ exists cur, oWrites o2 = [WUpdate (omNamespace (yMeta src)) cur]).
Proof.
  intros Hr Hd Hc Hdf. pose proof (df_name store Hdf) as Hname.
  pose proof (reconcile_in_settles clock store resolve image src uri d Hr Hd Hname c s Hdf Hc)
    as (He1&Hs1&Ho1).
  pose proof (reconcile_in_cluster clock store resolve image src uri d Hr Hd Hname c s Hc) as [Hc1 _].
  destruct (reconcile_in clock store resolve image src c s) as [o1 c1]. cbn [fst snd] in *.
  pose proof (reconcile_in_again clock store resolve image src uri d Hr Hd Hname c1 s' Hdf Hc1 Hs1)
    as (He2&Hc2&Hw2&Hu2).
  destruct (reconcile_in clock store resolve image src c1 s') as [o2 c2]. cbn [fst snd] in *.
  split_and!; try done. by eapply settled_runs.
Qed.

(** Drift detection compares the rendered template with the stored one, so
    an API server that fills in some of the template is never seen as settled: once the
    Deployment is stored, every reconciliation issues one Update, although it
    leaves the cluster as it was. *)
Theorem defaulting_server_never_settles `{UrlLib} clock store resolve image src uri d d' cur c s :
  resolve (sink_destination src) = Ok uri -> wanted image src uri d -> well_named c ->
  defaulting store ->
  c !! wanted_key src d = Some cur -> drifted d d' = false -> drifted (store d') cur = false ->
  dpTemplate (store d') <> dpTemplate d ->
  let (o, c') := reconcile_in clock store resolve image src c s in
  (exists upd, oWrites o = [WUpdate (omNamespace (yMeta src)) upd]) /\ oError o = None /\ c' = c.
Proof.
  intros Hr Hd Hc Hdf Hcur Hd' Hst Hne.
  pose proof (reconcile_in_again clock store resolve image src uri d Hr Hd (df_name store Hdf) c s Hdf Hc
    (ex_intro _ cur (conj Hcur (or_intror (ex_intro _ d' (conj Hd' Hst)))))) as (He&Ec&Hw&Hu).
  destruct (reconcile_in clock store resolve image src c s) as [o c']. cbn [fst snd] in *.
  split_and!; [|done|done]. destruct Hu as [Hn|?]; [|done].
  apply Hw in Hn as (cur'&Hcur'&Ht&_). apply drifted_spec in Hst as [Ht' _]. congruence.
Qed.

(** The status after a successful reconciliation: the observed generation
    is the source's, the sink URI and the Deployment name are recorded, the
    conditions stay coherent, the sink is provided exactly when the resolved
    URI is not empty, the Deployed condition follows the Deployment's first
    Available condition, and the source is ready exactly when both hold. *)
Theorem reconcile_success_status `{UrlLib, Kube} clock image src ticks :
  coherent (TStatus (yStatus src) ticks) ->
  let o := ReconcileKind clock image src ticks in
  oError o = None ->
  exists uri cur,
    URIFromDestinationV1 (sink_destination src) src = Ok uri /\ current_of src o cur /\
    let s := oStatus o in
    let deployed := deployed_after (dpConditions cur)
                      (sview (started clock src ticks) YipYapSourceConditionDeployed) in
    coherent s /\
    rest s = set_deployment_name (dpName cur) (set_sink_uri (Some uri)
               (set_ce_attributes knownCloudEventAttributes
                  (set_observed_generation (omGeneration (yMeta src))
                     (set_conditions [] (yStatus src))))) /\
    sview s YipYapSourceConditionSinkProvided
      = Some (if uri_given (Some uri) then ConditionTrue else ConditionUnknown) /\
    sview s YipYapSourceConditionDeployed = deployed /\
    (IsReady s = true <-> uri_given (Some uri) = true /\ deployed = Some ConditionTrue).
Proof.
  intros Hs o He. subst o. pose proof (ReconcileKind_cases clock image src ticks) as Hc.
  cbv zeta in Hc. destruct (URIFromDestinationV1 _ _) as [uri|m]; [|by rewrite Hc in He].
  destruct Hc as [(cur&_&Hcur&Est)|[(m&name&Eo&Hl)|(m&w&reason&[E|E]&_)]]; [|by rewrite Eo in He|congruence..].
  exists uri, cur. split; [done|]. split; [done|]. cbv zeta.
  pose proof (started_coherent clock src ticks Hs) as Hst.
  destruct (MarkSink_effect clock (Some uri) _ Hst) as (H1&Hr1&Hk1&Hd1).
  set (s1 := MarkSink clock (Some uri) (started clock src ticks)) in *.
  assert (coherent (with_tstatus (set_deployment_name (dpName cur)) s1)) as H2
    by (by apply with_tstatus_coherent).
  destruct (propagate_effect clock (dpConditions cur) _ H2) as (H3&Hr3&Hk3&Hd3).
  rewrite Est. unfold propagateDeploymentAvailability.
  assert (sview (with_tstatus (set_deployment_name (dpName cur)) s1) = sview s1) as Esv by done.
  rewrite Esv in *. rewrite Hk1 in Hk3. rewrite Hd1 in Hd3.
  split_and!; [done| |done|done|].
  - rewrite Hr3. change (rest (with_tstatus (set_deployment_name (dpName cur)) s1))
      with (set_deployment_name (dpName cur) (rest s1)).
    rewrite Hr1. unfold rest, started. simpl. done.
  - rewrite coherent_IsReady by done. rewrite Hk3, Hd3.
    destruct (uri_given (Some uri)); (split; intros [? ?]; split; try done).
Qed.

(** The status after a failed reconciliation: it never panics, the
    conditions stay coherent, and the failure shows in the condition it is
    about: an unresolved sink (nothing written) makes SinkProvided False, a
    failed write makes Deployed False, so the source is not ready; when the
    cache cannot be read nothing is written and Deployed keeps its status. *)
Theorem reconcile_failure_status `{UrlLib, Kube} clock image src ticks e :
  coherent (TStatus (yStatus src) ticks) ->
  let o := ReconcileKind clock image src ticks in
  oError o = Some e ->
  let s := oStatus o in
  coherent s /\
  match e with
  | ResolveSink _ =>
      sview s YipYapSourceConditionSinkProvided = Some ConditionFalse /\ IsReady s = false /\
      oWrites o = []
  | CreateDeployment _ | UpdateDeployment _ =>
      sview s YipYapSourceConditionDeployed = Some ConditionFalse /\ IsReady s = false
  | GetDeployment _ =>
      sview s YipYapSourceConditionDeployed
        = sview (started clock src ticks) YipYapSourceConditionDeployed /\ oWrites o = []
  | Panicked => False
  end.
Proof.
  intros Hs o He. subst o. pose proof (ReconcileKind_cases clock image src ticks) as Hc.
  cbv zeta in *. pose proof (started_coherent clock src ticks Hs) as Hst.
  assert (forall s, coherent s -> sview s YipYapSourceConditionSinkProvided = Some ConditionFalse \/
    sview s YipYapSourceConditionDeployed = Some ConditionFalse -> IsReady s = false) as Hnot.
  { intros s Hco Hf. apply not_true_is_false. intros [E1 E2]%coherent_IsReady; [|done].
    destruct Hf as [Hf|Hf]; [by rewrite E1 in Hf|by rewrite E2 in Hf]. }
  destruct (URIFromDestinationV1 _ _) as [uri|m].
  2:{ rewrite Hc in *. injection He as <-. simpl.
      destruct (manage_mark_effect clock
        (MFalse YipYapSourceConditionSinkProvided "NotFound" m) _ Hst) as (H1&_&Hv);
        [auto with conds|].
      assert (sview (MarkNoSink clock "NotFound" m (started clock src ticks))
        YipYapSourceConditionSinkProvided = Some ConditionFalse) as Hk by (by apply Hv).
      split_and!; auto. }
  destruct (MarkSink_effect clock (Some uri) _ Hst) as (H1&Hr1&Hk1&Hd1).
  destruct Hc as [(cur&E&_)|[(m&name&Eo&Hl)|(m&w&reason&HE&_&_&Est)]]; [congruence| |].
  - rewrite Eo in *. injection He as <-. simpl. done.
  - rewrite Est.
    destruct (manage_mark_effect clock (MFalse YipYapSourceConditionDeployed reason m) _ H1)
      as (H2&_&Hv); [auto with conds|].
    assert (sview (MarkNotDeployed clock reason m (MarkSink clock (Some uri)
      (started clock src ticks))) YipYapSourceConditionDeployed = Some ConditionFalse) as Hk
      by (by apply Hv).
    destruct HE as [HE|HE]; rewrite HE in He; injection He as <-; split_and!; auto.
Qed.

(** A Deployed condition that was True stays True when the Deployment has
    no Available condition (one that was just recreated, say): the source
    remains ready, where the comment on the propagation promises a fall back
    to Unknown. *)
Theorem stale_deployed_survives `{UrlLib, Kube} clock image src ticks uri :
  coherent (TStatus (yStatus src) ticks) ->
  sview (started clock src ticks) YipYapSourceConditionDeployed = Some ConditionTrue ->
  URIFromDestinationV1 (sink_destination src) src = Ok uri -> uri_given (Some uri) = true ->
  (forall ns name, lister_get ns name = Err NotFound) ->
  (forall w, exists cur, kube_write w = Ok cur /\ dpConditions cur = []) ->
  let o := ReconcileKind clock image src ticks in
  oError o = None /\ IsReady (oStatus o) = true.
Proof.
  intros Hs Hdep Huri Hg Hget Hwrite. cbv zeta.
  pose proof (ReconcileKind_cases clock image src ticks) as Hc. cbv zeta in Hc.
  rewrite Huri in Hc. destruct Hc as [(cur&He&Hcur&Est)|[(m&name&Eo&Hl)|(m&w&reason&_&_&Ew&_)]].
  - split; [done|].
    assert (dpConditions cur = []) as Hnil.
    { destruct Hcur as [(nm&_&Hl)|(w&_&Hw)]; [by rewrite Hget in Hl|].
      destruct (Hwrite w) as (cur'&Hw'&?). congruence. }
    rewrite Est. unfold propagateDeploymentAvailability. rewrite Hnil. cbn [propagate_conditions].
    pose proof (started_coherent clock src ticks Hs) as H1.
    destruct (MarkSink_effect clock (Some uri) _ H1) as (H2&_&Hk&Hd).
    rewrite coherent_IsReady by (by apply with_tstatus_coherent).
    change (sview (with_tstatus (set_deployment_name (dpName cur))
      (MarkSink clock (Some uri) (started clock src ticks))))
      with (sview (MarkSink clock (Some uri) (started clock src ticks))).
    rewrite Hk, Hd, Hg. done.
  - by rewrite Hget in Hl.
  - destruct (Hwrite w) as (cur&Hw&_). congruence.
Qed.

(** ** Witnesses *)

Definition sample_resolve (d : Destination) : result string URL :=
  match dRef d with
  | Some r => if String.eqb (krNamespace r) "default" then Ok sample_url else Err "not found"
  | None => Err "no ref"
  end.

(** What an API server fills in when it stores a Deployment. *)
Definition default_container (c : Container) : Container :=
  MkContainer (ctName c) (ctImage c) (ctPorts c) (ctEnv c) (ctVolumeMounts c)
    (ctLivenessProbe c) (ctReadinessProbe c) "/dev/termination-log" "IfNotPresent".
Definition default_deployment (d : Deployment) : Deployment :=
  let p := ptSpec (dpTemplate d) in
  with_template
    (MkPodTemplateSpec (ptLabels (dpTemplate d))
       (MkPodSpec (map default_container (psContainers p)) (psVolumes p)
          (psServiceAccountName p) "Always" "ClusterFirst"))
    (dpReplicas d) d.

Definition start : tstatus := TStatus empty_status 0.

Lemma sample_wanted : wanted (H := plain_url_lib) sample_image sample_source sample_url sample_deployment.
Proof. vm_compute. reflexivity. Qed.

Lemma default_deployment_defaulting : defaulting default_deployment.
Proof.
  split.
  - done.
  - intros d. cbn [default_deployment dpTemplate with_template ptSpec psContainers].
    induction (psContainers (ptSpec (dpTemplate d))); constructor; done.
  - intros d cur [Ht Hn]%drifted_spec. unfold default_deployment. cbn [dpTemplate dpReplicas with_template].
    unfold default_deployment in Ht, Hn. cbn [dpTemplate dpReplicas with_template] in Ht, Hn.
    rewrite <- Ht, <- Hn. by destruct cur.
Qed.

Lemma reconcile_converges_witness :
  let r := reconcile_in (H := plain_url_lib) Z.of_nat default_deployment sample_resolve sample_image
             sample_source ∅ start in
  let r' := reconcile_in (H := plain_url_lib) Z.of_nat default_deployment sample_resolve sample_image
             sample_source r.2 (oStatus r.1) in
  settled default_deployment sample_source sample_deployment r.2 /\ length (oWrites r.1) = 1%nat /\
  r'.2 = r.2.
Proof.
  pose proof (reconcile_converges (H := plain_url_lib) Z.of_nat default_deployment sample_resolve
    sample_image sample_source sample_url sample_deployment ∅ start
    (oStatus (reconcile_in (H := plain_url_lib) Z.of_nat default_deployment sample_resolve
             sample_image sample_source ∅ start).1) eq_refl sample_wanted (map_Forall_empty _)
    default_deployment_defaulting) as Hc.
  cbv zeta.
  destruct (reconcile_in (H := plain_url_lib) Z.of_nat default_deployment sample_resolve sample_image
    sample_source ∅ start) as [o1 c1] eqn:E1.
  cbn [fst snd] in *.
  destruct (reconcile_in (H := plain_url_lib) Z.of_nat default_deployment sample_resolve sample_image
    sample_source c1 (oStatus o1)) as [o2 c2].
  destruct Hc as (_&Hs&_&_&_&Hc2&_). split; [exact Hs|]. split; [|exact Hc2].
  change o1 with (o1, c1).1. rewrite <- E1. vm_compute. reflexivity.
Defined.

Lemma defaulting_server_never_settles_witness :
  let d := default_deployment sample_deployment in
  let c : cluster := {[ ("default", dpName d) := d ]} in
  let r := reconcile_in (H := plain_url_lib) Z.of_nat default_deployment sample_resolve sample_image
             sample_source c start in
  r.2 = c /\ exists cur, oWrites r.1 = [WUpdate "default" cur].
Proof.
  cbv zeta.
  pose proof (defaulting_server_never_settles (H := plain_url_lib) Z.of_nat default_deployment
    sample_resolve sample_image sample_source sample_url sample_deployment sample_deployment
    (default_deployment sample_deployment)
    {[ ("default", dpName (default_deployment sample_deployment))
       := default_deployment sample_deployment ]} start eq_refl sample_wanted) as Hd.
  destruct (reconcile_in (H := plain_url_lib) _ _ _ _ _ _ _) as [o c'].
  destruct Hd as (Hw&_&Hc).
  - apply map_Forall_singleton. reflexivity.
  - exact default_deployment_defaulting.
  - vm_compute. reflexivity.
  - apply drifted_refl.
  - apply drifted_refl.
  - intros E. vm_compute in E. discriminate E.
  - split; [exact Hc|exact Hw].
Defined.

(** A cluster whose Deployment is available, or that has none. *)
Definition kube_of (cs : list DeploymentCondition) (resolved : bool) : Kube := {|
  lister_get _ _ := Err NotFound;
  kube_write w := match w with
    | WCreate _ d | WUpdate _ d =>
        Ok (MkDeployment (dpNamespace d) (dpName d) (dpLabels d) (dpOwnerReferences d)
              (dpReplicas d) (dpSelector d) (dpTemplate d) cs)
    end;
  URIFromDestinationV1 _ _ := if resolved then Ok sample_url else Err "not found"
|}.

Lemma reconcile_success_status_witness :
  let o := ReconcileKind (H := plain_url_lib)
             (H0 := kube_of [MkDeploymentCondition "Progressing" "True" "" "";
                             MkDeploymentCondition "Available" "True" "" ""] true)
             Z.of_nat sample_image sample_source 0 in
  oError o = None /\ stDeploymentName (rest (oStatus o)) = dpName sample_deployment /\
  IsReady (oStatus o) = true.
Proof.
  cbv zeta. split; [vm_compute; reflexivity|].
  destruct (reconcile_success_status (H := plain_url_lib)
    (H0 := kube_of [MkDeploymentCondition "Progressing" "True" "" "";
                    MkDeploymentCondition "Available" "True" "" ""] true)
    Z.of_nat sample_image sample_source 0 (empty_coherent 0) ltac:(vm_compute; reflexivity))
    as (uri&cur&Huri&Hcur&_&Hrest&_&_&Hready).
  split.
  - rewrite Hrest. destruct Hcur as [(name&_&Hl)|(w&Hw&Hk)]; [discriminate Hl|].
    vm_compute in Hw. injection Hw as <-. vm_compute in Hk. injection Hk as <-.
    vm_compute. reflexivity.
  - apply Hready. destruct Hcur as [(name&_&Hl)|(w&Hw&Hk)]; [discriminate Hl|].
    vm_compute in Hw. injection Hw as <-. vm_compute in Hk. injection Hk as <-.
    injection Huri as <-. split; vm_compute; reflexivity.
Defined.

Lemma reconcile_failure_status_witness :
  let o := ReconcileKind (H := plain_url_lib) (H0 := kube_of [] false)
             Z.of_nat sample_image sample_source 0 in
  oError o = Some (ResolveSink "not found") /\ IsReady (oStatus o) = false /\ oWrites o = [].
Proof.
  cbv zeta. split; [vm_compute; reflexivity|].
  destruct (reconcile_failure_status (H := plain_url_lib) (H0 := kube_of [] false)
    Z.of_nat sample_image sample_source 0 (ResolveSink "not found") (empty_coherent 0)
    ltac:(vm_compute; reflexivity)) as (_&_&Hr&Hw).
  split; [exact Hr|exact Hw].
Defined.

(** The source was ready, its Deployment was deleted and is recreated. *)
Definition was_ready : YipYapSource :=
  with_status sample_source
    (tsStatus (MarkDeployed Z.of_nat (MarkSink (H := plain_url_lib) Z.of_nat (Some sample_url) start))).

Lemma stale_deployed_survives_witness :
  let o := ReconcileKind (H := plain_url_lib) (H0 := kube_of [] true)
             Z.of_nat sample_image was_ready 9 in
  oWrites o = [WCreate "default" sample_deployment] /\
  oError o = None /\ IsReady (oStatus o) = true.
Proof.
  cbv zeta. split; [vm_compute; reflexivity|].
  apply (stale_deployed_survives (H := plain_url_lib) (H0 := kube_of [] true)
    Z.of_nat sample_image was_ready 9 sample_url).
  - change (TStatus (yStatus was_ready) 9) with (TStatus (tsStatus
      (MarkDeployed Z.of_nat (MarkSink (H := plain_url_lib) Z.of_nat (Some sample_url) start))) 9).
    apply coherent_ticks. apply (status_call_coherent (H := plain_url_lib) Z.of_nat
      (MarkSink (H := plain_url_lib) Z.of_nat (Some sample_url) start)).
    + apply (status_call_coherent (H := plain_url_lib) Z.of_nat start); [apply empty_coherent|].
      apply call_sink.
    + apply (@call_deployed plain_url_lib).
  - vm_compute. reflexivity.
  - reflexivity.
  - vm_compute. reflexivity.
  - reflexivity.
  - intros [ns d|ns d]; eexists; split; reflexivity.
Defined.
