(* ===== verification/KindReconciler.v ===== *)
(** * The generated reconciler (pkg/client/injection/reconciler/.../yipyapsource)

    The code around [ReconcileKind]: the work queue key, leadership, the copy
    of the cached resource, finalizers, the processing before and after
    (reconciler/reconcile_common.go of knative.dev/pkg), the write-back of the
    status with its retries (retry.go), the events.

    The code acts on a world: the API server behind the client, the cluster
    the hooks act on, the clock, the recorded events.  An action is a function
    of the world to a value and the next world ([M]).  The type of the API
    server is a parameter. *)

From S2P Require Import Prelude GoStrings CondSet Types Api Lifecycle.
Local Open Scope string_scope.
Local Open Scope list_scope.

(** ** Errors and events *)

(** An error of a request: an answer of the server by its reason, or one that
    wraps [context.Canceled] or [context.DeadlineExceeded]. *)
Inductive api_error :=
| ApiNotFound
| ApiConflict (msg : string)
| ApiInterrupted (msg : string)
| ApiOther (msg : string).

Record ReconcilerEvent := MkReconcilerEvent {
  reEventType : string;
  reReason : string;
  reMessage : string
}.

Definition EventTypeNormal : string := "Normal".
Definition EventTypeWarning : string := "Warning".

(** An error and the chain it wraps.  The arguments of an event wrap nothing. *)
Inductive go_error :=
| EEvent (e : ReconcilerEvent)
| ESkipKey (key : string)
| ERequeueKey (d : Z)
| EApi (e : api_error)
| EText (msg : string)
| EPermanent (inner : go_error)
| EWrap (msg : string) (inner : go_error).

(** The first error of the chain that is not a wrapper. *)
Fixpoint root (e : go_error) : go_error :=
  match e with EPermanent e | EWrap _ e => root e | _ => e end.

Definition EventAs (e : go_error) : option ReconcilerEvent :=
  match root e with EEvent ev => Some ev | _ => None end.
Definition IsSkipKey (e : go_error) : bool :=
  match root e with ESkipKey _ => true | _ => false end.
Definition IsRequeueKey (e : go_error) : bool :=
  match root e with ERequeueKey _ => true | _ => false end.
Definition IsConflict (e : go_error) : bool :=
  match root e with EApi (ApiConflict _) => true | _ => false end.
Fixpoint IsPermanentError (e : go_error) : bool :=
  match e with EPermanent _ => true | EWrap _ e => IsPermanentError e | _ => false end.
(** [wait.Interrupted]. *)
Definition Interrupted (e : go_error) : bool :=
  match root e with EApi (ApiInterrupted _) => true | _ => false end.

Definition api_message (e : api_error) : string :=
  match e with ApiNotFound => "not found" | ApiConflict m | ApiInterrupted m | ApiOther m => m end.
(** The duration of a requeue is not printed: no message shows one. *)
Fixpoint error_message (e : go_error) : string :=
  match e with
  | EEvent ev => reMessage ev
  | ESkipKey key => "skipped key: " +:+ go_quote key
  | ERequeueKey _ => "requeue after"
  | EApi e => api_message e
  | EText msg => msg
  | EPermanent e => error_message e
  | EWrap msg e => msg +:+ ": " +:+ error_message e
  end.

(** ** The world *)

Record world (S : Type) := MkWorld {
  wApi : S;
  wTicks : nat;
  wEvents : list ReconcilerEvent
}.
Arguments MkWorld {S} _ _ _.
Arguments wApi {S} _.
Arguments wTicks {S} _.
Arguments wEvents {S} _.

Definition M (S A : Type) : Type := world S -> A * world S.

#[export] Instance M_ret S : MRet (M S) := fun _ a w => (a, w).
#[export] Instance M_bind S : MBind (M S) := fun _ _ k m w =>
  let '(a, w) := m w in k a w.

(** An action of the API server. *)
Definition api {S A} (f : S -> A * S) : M S A := fun w =>
  let '(a, s) := f (wApi w) in (a, MkWorld s (wTicks w) (wEvents w)).

(** [Recorder.Event]. *)
Definition record_event {S} (etype reason message : string) : M S unit := fun w =>
  (tt, MkWorld (wApi w) (wTicks w) (wEvents w ++ [MkReconcilerEvent etype reason message])).

(** [time.Now]. *)
Definition now {S} (clock : nat -> Z) : M S Z := fun w =>
  (clock (wTicks w), MkWorld (wApi w) (Datatypes.S (wTicks w)) (wEvents w)).

(** A method of the status, which may read the clock. *)
Definition on_status {S} (f : tstatus -> tstatus) (r : YipYapSource) : M S YipYapSource := fun w =>
  let t := f (TStatus (yStatus r) (wTicks w)) in
  (with_status r (tsStatus t), MkWorld (wApi w) (tsTicks t) (wEvents w)).

(** ** The client *)

Inductive patch :=
| MergePatch (finalizers : list string) (resourceVersion : string)
| ApplyPatch (gvk : GroupVersionKind) (uid : string) (finalizers : list string)
    (fieldManager : string) (force : bool).

(** [Client.SourcesV1alpha1().YipYapSources(ns)]. *)
Record client (S : Type) := MkClient {
  cl_Get : string -> string -> S -> result api_error YipYapSource * S;
  cl_UpdateStatus : YipYapSource -> S -> result api_error YipYapSource * S;
  cl_Patch : string -> string -> patch -> S -> result api_error YipYapSource * S
}.
Arguments MkClient {S} _ _ _.
Arguments cl_Get {S} _.
Arguments cl_UpdateStatus {S} _.
Arguments cl_Patch {S} _.

(** A hook may change the resource it is given. *)
Definition hook (S : Type) : Type := YipYapSource -> M S (option go_error * YipYapSource).

Record reconcilerImpl (S : Type) := MkReconcilerImpl {
  Client : client S;
  Lister : string -> string -> S -> result api_error YipYapSource;
  ReconcileKind : hook S;
  Finalizer : option (hook S);
  ReadOnlyInterface : option (hook S);
  OnDeletionInterface : option (string -> string -> M S (option go_error));
  IsLeaderFor : string -> string -> bool;
  finalizerName : string;
  useServerSideApplyForFinalizers : bool;
  finalizerFieldManager : string;
  forceApplyFinalizers : bool;
  skipStatusUpdates : bool
}.
Arguments MkReconcilerImpl {S} _ _ _ _ _ _ _ _ _ _ _ _.
Arguments Client {S} _.
Arguments Lister {S} _.
Arguments ReconcileKind {S} _.
Arguments Finalizer {S} _.
Arguments ReadOnlyInterface {S} _.
Arguments OnDeletionInterface {S} _.
Arguments IsLeaderFor {S} _.
Arguments finalizerName {S} _.
Arguments useServerSideApplyForFinalizers {S} _.
Arguments finalizerFieldManager {S} _.
Arguments forceApplyFinalizers {S} _.
Arguments skipStatusUpdates {S} _.

(** ** The state of a run (state.go) *)

Record state := MkState {
  ssNamespace : string;
  ssName : string;
  ssIsROI : bool;
  ssIsLeader : bool
}.

(** [cache.SplitMetaNamespaceKey]. *)
Definition SplitMetaNamespaceKey (key : string) : option (string * string) :=
  match split "/" key with
  | [name] => Some ("", name)
  | [ns; name] => Some (ns, name)
  | _ => None
  end.

Definition newState {S} (key : string) (r : reconcilerImpl S) : option state :=
  '(ns, name) ← SplitMetaNamespaceKey key;
  Some (MkState ns name (bool_decide (is_Some (ReadOnlyInterface r))) (IsLeaderFor r ns name)).

Definition isNotLeaderNorObserver (s : state) : bool := negb (ssIsLeader s) && negb (ssIsROI s).

Inductive do_method := DoReconcileKind | DoFinalizeKind | DoObserveKind | DoUnknown.

Definition reconcileMethodFor {S} (s : state) (r : reconcilerImpl S) (o : YipYapSource)
    : do_method :=
  match omDeletionTimestamp (yMeta o) with
  | None =>
      if ssIsLeader s then DoReconcileKind
      else if ssIsROI s then DoObserveKind else DoUnknown
  | Some _ =>
      match Finalizer r with
      | Some _ => if ssIsLeader s then DoFinalizeKind else DoUnknown
      | None => DoUnknown
      end
  end.

(** ** Before and after a reconciliation (reconcile_common.go) *)

Definition failedGenerationBump : string := "NewObservedGenFailure".

Section process.
Context {S : Type} `{UrlLib} (clock : nat -> Z).

Definition PreProcessReconcile (resource : YipYapSource) : M S YipYapSource :=
  let resource := with_spec resource
    (Spec_SetDefaults (WithinParent background (yMeta resource)) (ySpec resource)) in
  resource ← on_status (Status_InitializeConditions clock) resource;
  if negb (stObservedGeneration (yStatus resource) =? omGeneration (yMeta resource))%Z then
    on_status (manage (MarkUnknown clock yipyapSourceCondSet (happy yipyapSourceCondSet)
      failedGenerationBump "unsuccessfully observed a new generation")) resource
  else mret resource.

(** The time of each condition: the old one if nothing else changed. *)
Definition groom (tm : Z) (old : list Condition) (c : Condition) : Condition :=
  match find_cond (cType c) old with
  | Some o =>
      if bool_decide (with_time (cLastTransitionTime o) c = o)
      then with_time (cLastTransitionTime o) c else with_time tm c
  | None => with_time tm c
  end.

Definition groomConditionsTransitionTime (resource oldResource : YipYapSource)
    : M S YipYapSource :=
  tm ← now clock;
  mret (with_status resource
    (set_conditions
       (map (groom tm (stConditions (yStatus oldResource))) (stConditions (yStatus resource)))
       (yStatus resource))).

Definition PostProcessReconcile (resource oldResource : YipYapSource) : M S YipYapSource :=
  let resource := with_status resource
    (set_observed_generation (omGeneration (yMeta resource)) (yStatus resource)) in
  groomConditionsTransitionTime resource oldResource.
End process.

(** ** Retries (retry.go) *)

(** [RetryUpdateConflicts] with the five steps of [retry.DefaultRetry].
    [retry.OnError] replaces the error of an interrupted request by the last
    conflict, if any. *)
Fixpoint retry_conflicts {S} (steps : nat) (attempts : nat) (lastErr : option go_error)
    (updater : nat -> M S (option go_error)) : M S (option go_error) :=
  match steps with
  | O => mret lastErr
  | Datatypes.S steps =>
      err ← updater attempts;
      match err with
      | None => mret None
      | Some e =>
          if IsConflict e then retry_conflicts steps (Datatypes.S attempts) (Some e) updater
          else mret (if Interrupted e then lastErr else Some e)
      end
  end.

Definition RetryUpdateConflicts {S} : (nat -> M S (option go_error)) -> M S (option go_error) :=
  retry_conflicts 5 0 None.

Section reconcile.
Context {S : Type} `{UrlLib} (clock : nat -> Z) (r : reconcilerImpl S).

Definition lift_err {A} (res : result api_error A) : result go_error A := map_err EApi res.

(** ** The status write-back *)

(** One attempt.  [existing] is the cached resource at first, then the one the
    server returns. *)
Definition update_attempt (existing desired : YipYapSource) (attempts : nat)
    : M S (option go_error) :=
  got ← (if (0 <? attempts)%nat
         then api (cl_Get (Client r) (omNamespace (yMeta desired)) (omName (yMeta desired)))
         else mret (Ok existing));
  match got with
  | Err e => mret (Some (EApi e))
  | Ok existing =>
      if bool_decide (yStatus existing = yStatus desired) then mret None
      else
        res ← api (cl_UpdateStatus (Client r) (with_status existing (yStatus desired)));
        mret (match res with Ok _ => None | Err e => Some (EApi e) end)
  end.

Definition updateStatus (existing desired : YipYapSource) : M S (option go_error) :=
  RetryUpdateConflicts (update_attempt existing desired).

(** ** Finalizers *)

(** What to set the finalizers to, or nothing to do. *)
Definition wanted_finalizers (merge : bool) (existing desired : list string) : option (list string) :=
  if bool_decide (finalizerName r ∈ desired) then
    if bool_decide (finalizerName r ∈ existing) then None
    else Some (if merge then existing ++ [finalizerName r] else [finalizerName r])
  else if bool_decide (finalizerName r ∈ existing) then
    Some (if merge
          then go_sort str_ltb (remove_dups (filter (fun f => f <> finalizerName r) existing))
          else [])
  else None.

Definition patched (resource : YipYapSource) (ok_message fail_message : string)
    (res : result api_error YipYapSource) : M S (result go_error YipYapSource) :=
  match res with
  | Err e =>
      _ ← (match e with
           | ApiConflict _ => mret tt
           | _ => record_event EventTypeWarning "FinalizerUpdateFailed"
                    (fail_message +:+ api_message e)
           end);
      mret (Err (EApi e))
  | Ok updated =>
      _ ← record_event EventTypeNormal "FinalizerUpdate" ok_message;
      mret (Ok updated)
  end.

Definition updateFinalizersFilteredServerSideApply (resource : YipYapSource)
    (desired : list string) : M S (result go_error YipYapSource) :=
  match wanted_finalizers false (omFinalizers (yMeta resource)) desired with
  | None => mret (Ok resource)
  | Some finalizers =>
      let name := omName (yMeta resource) in
      res ← api (cl_Patch (Client r) (omNamespace (yMeta resource)) name
        (ApplyPatch GetGroupVersionKind (omUID (yMeta resource)) finalizers
           (finalizerFieldManager r) (forceApplyFinalizers r)));
      patched resource
        ("Updated finalizers for " +:+ go_quote name +:+ " via server-side apply")
        ("Failed to update finalizers for " +:+ go_quote name +:+ " via server-side apply: ") res
  end.

Definition updateFinalizersFilteredMergePatch (resource : YipYapSource)
    (desired : list string) : M S (result go_error YipYapSource) :=
  match wanted_finalizers true (omFinalizers (yMeta resource)) desired with
  | None => mret (Ok resource)
  | Some finalizers =>
      let name := omName (yMeta resource) in
      res ← api (cl_Patch (Client r) (omNamespace (yMeta resource)) name
        (MergePatch finalizers (omResourceVersion (yMeta resource))));
      patched resource ("Updated " +:+ go_quote name +:+ " finalizers")
        ("Failed to update finalizers for " +:+ go_quote name +:+ ": ") res
  end.

Definition updateFinalizersFiltered (resource : YipYapSource) (desired : list string)
    : M S (result go_error YipYapSource) :=
  if useServerSideApplyForFinalizers r
  then updateFinalizersFilteredServerSideApply resource desired
  else updateFinalizersFilteredMergePatch resource desired.

Definition setFinalizerIfFinalizer (resource : YipYapSource) : M S (result go_error YipYapSource) :=
  match Finalizer r with
  | None => mret (Ok resource)
  | Some _ =>
      let finalizers := omFinalizers (yMeta resource) in
      updateFinalizersFiltered resource
        (match omDeletionTimestamp (yMeta resource) with
         | None => finalizers ++ [finalizerName r]
         | Some _ => finalizers
         end)
  end.

Definition clearFinalizer (resource : YipYapSource) (reconcileEvent : option go_error)
    : M S (result go_error YipYapSource) :=
  match Finalizer r, omDeletionTimestamp (yMeta resource) with
  | Some _, Some _ =>
      let finalizers := omFinalizers (yMeta resource) in
      let without := filter (fun f => f <> finalizerName r) finalizers in
      let desired :=
        match reconcileEvent with
        | None => without
        | Some e =>
            match EventAs e with
            | Some ev => if String.eqb (reEventType ev) EventTypeNormal then without else finalizers
            | None => finalizers
            end
        end in
      updated ← updateFinalizersFiltered resource desired;
      match updated with
      | Ok _ => mret updated
      | Err _ =>
          got ← api (cl_Get (Client r) (omNamespace (yMeta resource)) (omName (yMeta resource)));
          mret (match got with Err ApiNotFound => Ok resource | _ => updated end)
      end
  | _, _ => mret (Ok resource)
  end.

(** ** Reconcile *)

(** The method chosen, on the copy of the resource: the event and the resource,
    or the error that ends the run. *)
Definition run_method (s : state) (original : YipYapSource)
    : M S (result go_error (option go_error * YipYapSource)) :=
  match reconcileMethodFor s r original with
  | DoReconcileKind =>
      set ← setFinalizerIfFinalizer original;
      match set with
      | Err e => mret (Err (EWrap "failed to set finalizers" e))
      | Ok resource =>
          resource ← (if skipStatusUpdates r then mret resource
                      else PreProcessReconcile clock resource);
          '(event, resource) ← ReconcileKind r resource;
          resource ← (if skipStatusUpdates r then mret resource
                      else PostProcessReconcile clock resource original);
          mret (Ok (event, resource))
      end
  | DoFinalizeKind =>
      '(event, resource) ←
        (match Finalizer r with Some fin => fin original | None => mret (None, original) end);
      cleared ← clearFinalizer resource event;
      mret (match cleared with
            | Err e => Err (EWrap "failed to clear finalizers" e)
            | Ok resource => Ok (event, resource)
            end)
  | DoObserveKind =>
      res ← (match ReadOnlyInterface r with Some obs => obs original | None => mret (None, original) end);
      mret (Ok res)
  | DoUnknown => mret (Ok (None, original))
  end.

(** The write-back of the status: [Some] ends the run with an error. *)
Definition sync_status (s : state) (original resource : YipYapSource) : M S (option go_error) :=
  if skipStatusUpdates r then mret None
  else if bool_decide (yStatus original = yStatus resource) then mret None
  else if negb (ssIsLeader s) then mret None
  else
    err ← updateStatus original resource;
    match err with
    | None => mret None
    | Some e =>
        _ ← record_event EventTypeWarning "UpdateFailed"
              ("Failed to update status for " +:+ go_quote (omName (yMeta resource)) +:+ ": " +:+
               error_message e);
        mret (Some e)
    end.

Definition report (reconcileEvent : option go_error) : M S (option go_error) :=
  match reconcileEvent with
  | None => mret None
  | Some e =>
      match EventAs e with
      | Some ev =>
          _ ← record_event (reEventType ev) (reReason ev) (reMessage ev);
          mret (match e with EEvent _ => None | _ => Some e end)
      | None =>
          _ ← (if IsSkipKey e || IsRequeueKey e || IsConflict e then mret tt
               else record_event EventTypeWarning "InternalError" (error_message e));
          mret (Some e)
      end
  end.

Definition Reconcile (key : string) : M S (option go_error) :=
  match newState key r with
  | None => mret None
  | Some s =>
      if isNotLeaderNorObserver s then mret (Some (ESkipKey key))
      else
        got ← api (fun w => (Lister r (ssNamespace s) (ssName s) w, w));
        match got with
        | Err ApiNotFound =>
            match OnDeletionInterface r with
            | Some del => del (ssNamespace s) (ssName s)
            | None => mret None
            end
        | Err e => mret (Some (EApi e))
        | Ok original =>
            done ← run_method s original;
            match done with
            | Err e => mret (Some e)
            | Ok (event, resource) =>
                failed ← sync_status s original resource;
                match failed with
                | Some e => mret (Some e)
                | None => report event
                end
            end
        end
  end.
End reconcile.

(** ** An API server with optimistic concurrency

    The stored resources, the counter of resource versions, and what other
    writers do: before each request the next of their actions takes place.
    An update with another resource version than the stored one is a
    conflict. *)

Inductive env_action :=
| Idle
| EditSpec (key : string * string) (spec : YipYapSourceSpec) (generation : Z).

Record server := MkServer {
  svStore : gmap (string * string) YipYapSource;
  svNext : N;
  svEnv : list env_action
}.

Definition key_of (y : YipYapSource) : string * string :=
  (omNamespace (yMeta y), omName (yMeta y)).

Definition with_version (rv : string) (generation : Z) (m : ObjectMeta) : ObjectMeta :=
  MkObjectMeta (omName m) (omNamespace m) (omUID m) generation rv
    (omDeletionTimestamp m) (omFinalizers m) (omRest m).

(** Store a resource under a new version. *)
Definition put (key : string * string) (y : YipYapSource) (generation : Z) (sv : server) : server :=
  MkServer
    (<[key := MkYipYapSource (with_version (pretty (svNext sv)) generation (yMeta y)) (ySpec y)
                (yStatus y)]> (svStore sv))
    (svNext sv + 1) (svEnv sv).

Definition env_act (a : env_action) (sv : server) : server :=
  match a with
  | Idle => sv
  | EditSpec key spec generation =>
      match svStore sv !! key with
      | Some y => put key (with_spec y spec) generation sv
      | None => sv
      end
  end.

(** The next action of the other writers. *)
Definition env_step (sv : server) : server :=
  match svEnv sv with
  | [] => sv
  | a :: rest => env_act a (MkServer (svStore sv) (svNext sv) rest)
  end.

Definition server_Get (ns name : string) (sv : server) : result api_error YipYapSource * server :=
  let sv := env_step sv in
  (match svStore sv !! (ns, name) with Some y => Ok y | None => Err ApiNotFound end, sv).

Definition server_UpdateStatus (y : YipYapSource) (sv : server)
    : result api_error YipYapSource * server :=
  let sv := env_step sv in
  match svStore sv !! key_of y with
  | None => (Err ApiNotFound, sv)
  | Some cur =>
      if negb (String.eqb (omResourceVersion (yMeta cur)) (omResourceVersion (yMeta y)))
      then (Err (ApiConflict "the object has been modified"), sv)
      else
        let cur := with_status cur (yStatus y) in
        (Ok cur, put (key_of y) cur (omGeneration (yMeta cur)) sv)
  end.

Definition server_client : client server :=
  MkClient server_Get server_UpdateStatus
    (fun _ _ _ sv => (Err (ApiOther "no patches"), sv)).

(** ** Lemmas on the write-back *)

(** Resources are stored under their key, with a version the counter gave. *)
Definition versions_ok (sv : server) : Prop :=
  map_Forall (fun k y => key_of y = k /\
    exists m, omResourceVersion (yMeta y) = pretty m /\ (m < svNext sv)%N) (svStore sv).

Definition is_edit (a : env_action) : bool := match a with Idle => false | _ => true end.
Definition edits (l : list env_action) : nat := length (filter (fun a => is_edit a = true) l).

(** The spec of a resource after some actions of the others. *)
Definition spec_after (key : string * string) (l : list env_action) (s : YipYapSourceSpec)
    : YipYapSourceSpec :=
  foldl (fun s a => match a with
                    | EditSpec k spec _ => if decide (k = key) then spec else s
                    | Idle => s
                    end) s l.

Section optimistic.
Context (key : string * string).

(** What a request leaves of the resource [key]: the spec the others gave it. *)
Record evolves (sv sv' : server) (y y' : YipYapSource) : Prop := {
  ev_versions : versions_ok sv';
  ev_lookup : svStore sv' !! key = Some y';
  ev_spec : exists consumed, svEnv sv = consumed ++ svEnv sv' /\
              ySpec y' = spec_after key consumed (ySpec y);
  ev_edits : (edits (svEnv sv') <= edits (svEnv sv))%nat
}.

Lemma put_versions k y g sv :
  versions_ok sv -> key_of y = k -> versions_ok (put k y g sv).
Proof.
  intros Hv Hk. unfold versions_ok, put. cbn [svStore svNext].
  apply map_Forall_insert_2; [split; [done|exists (svNext sv); split; [done|lia]]|].
  eapply map_Forall_impl; [exact Hv|]. intros k' y' (?&m&?&?). split; [done|].
  exists m. split; [done|lia].
Qed.

(** One action of the others: the resource stays, and its version tells
    whether it was edited. *)
Lemma env_step_evolves sv y :
  versions_ok sv -> svStore sv !! key = Some y ->
  exists y', evolves sv (env_step sv) y y' /\ yStatus y' = yStatus y /\
    (y' = y \/ omResourceVersion (yMeta y') <> omResourceVersion (yMeta y) /\
               (edits (svEnv (env_step sv)) < edits (svEnv sv))%nat).
Proof.
  intros Hv Hk. unfold env_step. destruct (svEnv sv) as [|a rest] eqn:Ee.
  { exists y. split; [|auto]. split; [done|done| |done]. exists []. by rewrite Ee. }
  destruct a as [|k spec g]; cbn [env_act].
  { exists y. split; [|auto]. split; [done|done| |].
    - exists [Idle]. split; [by rewrite Ee|done].
    - rewrite Ee. done. }
  cbn [svStore].
  assert (edits rest < edits (EditSpec k spec g :: rest))%nat as Hlt
    by (unfold edits; rewrite filter_cons_True by done; simpl; lia).
  assert (forall sv', svEnv sv' = rest -> exists consumed, svEnv sv = consumed ++ svEnv sv' /\
    consumed = [EditSpec k spec g]) as Hcons.
  { intros sv' E. exists [EditSpec k spec g]. by rewrite Ee, E. }
  destruct (decide (k = key)) as [->|Hne].
  - rewrite Hk.
    exists (MkYipYapSource (with_version (pretty (svNext sv)) g (yMeta y)) spec (yStatus y)).
    split; [split|split; [done|]].
    + apply put_versions; [done|]. apply (Hv _ _ Hk).
    + unfold put. cbn [svStore]. rewrite lookup_insert_eq. done.
    + exists [EditSpec key spec g]. split; [by rewrite Ee|]. simpl. by rewrite decide_True.
    + cbn [put svEnv]. rewrite Ee. lia.
    + right. split; [|cbn [put svEnv]; lia].
      destruct (Hv _ _ Hk) as (_&m&->&Hm). cbn [with_version omResourceVersion yMeta].
      intros E%(inj pretty). lia.
  - exists y. split; [split|auto].
    + destruct (svStore sv !! k) as [z|] eqn:Ez; [|done]. apply put_versions; [done|].
      apply (Hv _ _ Ez).
    + destruct (svStore sv !! k); [|done]. unfold put. cbn [svStore].
      by rewrite lookup_insert_ne.
    + exists [EditSpec k spec g]. split; [|simpl; by rewrite decide_False].
      destruct (svStore sv !! k); by rewrite Ee.
    + destruct (svStore sv !! k); cbn [put svEnv]; rewrite Ee; lia.
Qed.

Lemma spec_after_app l l' s : spec_after key (l ++ l') s = spec_after key l' (spec_after key l s).
Proof. unfold spec_after. by rewrite foldl_app. Qed.

Lemma evolves_trans sv1 sv2 sv3 y1 y2 y3 :
  evolves sv1 sv2 y1 y2 -> evolves sv2 sv3 y2 y3 -> evolves sv1 sv3 y1 y3.
Proof.
  intros [_ _ (c&Hc&Hs) He] [Hv Hl (c'&Hc'&Hs') He']. split; [done|done| |lia].
  exists (c ++ c'). split; [by rewrite Hc, Hc', app_assoc|].
  by rewrite Hs', Hs, spec_after_app.
Qed.

(** An update of the status is stored, or meets a conflict: after an edit, or
    because the resource sent was stale. *)
Lemma update_evolves sv y e :
  versions_ok sv -> svStore sv !! key = Some y -> key_of e = key ->
  exists res sv' y', server_UpdateStatus e sv = (res, sv') /\ evolves sv sv' y y' /\
    (is_ok res = true /\ yStatus y' = yStatus e \/
     (exists m, res = Err (ApiConflict m)) /\ yStatus y' = yStatus y /\
     (omResourceVersion (yMeta e) = omResourceVersion (yMeta y) ->
      (edits (svEnv sv') < edits (svEnv sv))%nat)).
Proof.
  intros Hv Hk He. destruct (env_step_evolves sv y Hv Hk) as (y1&Hev&Hst&Hrv).
  unfold server_UpdateStatus. rewrite He, (ev_lookup _ _ _ _ Hev).
  destruct (String.eqb_spec (omResourceVersion (yMeta y1)) (omResourceVersion (yMeta e)))
    as [E|E]; cbn [negb].
  - eexists _, _, (MkYipYapSource
      (with_version (pretty (svNext (env_step sv))) (omGeneration (yMeta y1)) (yMeta y1))
      (ySpec y1) (yStatus e)). split; [done|]. split; [|by left].
    destruct Hev as [Hv1 Hl1 Hs1 Hd1]. split; [apply put_versions; [done|apply (Hv1 _ _ Hl1)]| |exact Hs1|exact Hd1].
    unfold put. cbn [svStore]. by rewrite lookup_insert_eq.
  - eexists _, _, y1. split; [done|]. split; [done|]. right. split_and!; [eauto|done|].
    intros Erv. destruct Hrv as [->|[_ ?]]; [|done]. by rewrite Erv in E.
Qed.

(** An update against this server, and an attempt that first reads. *)
Definition put_status (e : YipYapSource) (w : world server) : option go_error * world server :=
  let '(res, sv) := server_UpdateStatus e (wApi w) in
  (match res with Ok _ => None | Err e => Some (EApi e) end, MkWorld sv (wTicks w) (wEvents w)).

Lemma update_attempt_first `{UrlLib} (r : reconcilerImpl server) existing desired w :
  Client r = server_client -> yStatus existing <> yStatus desired ->
  update_attempt r existing desired 0 w = put_status (with_status existing (yStatus desired)) w.
Proof.
  intros Hc Hne. unfold update_attempt, mbind, M_bind, mret, M_ret, api, put_status. rewrite Hc.
  cbn [Nat.ltb Nat.leb]. rewrite bool_decide_false by done. cbn [server_client cl_UpdateStatus].
  by destruct (server_UpdateStatus _ _).
Qed.

Lemma update_attempt_reads `{UrlLib} (r : reconcilerImpl server) existing desired attempts w y :
  Client r = server_client -> svStore (env_step (wApi w)) !! key_of desired = Some y ->
  update_attempt r existing desired (Datatypes.S attempts) w =
    let w := MkWorld (env_step (wApi w)) (wTicks w) (wEvents w) in
    if bool_decide (yStatus y = yStatus desired) then (None, w)
    else put_status (with_status y (yStatus desired)) w.
Proof.
  intros Hc Hy. unfold update_attempt, mbind, M_bind, mret, M_ret, api, put_status. rewrite Hc.
  cbn [Nat.ltb Nat.leb server_client cl_Get cl_UpdateStatus]. unfold server_Get.
  change (omNamespace (yMeta desired), omName (yMeta desired)) with (key_of desired). rewrite Hy.
  cbv zeta. case_bool_decide; [done|]. cbn [wApi wTicks wEvents].
  by destruct (server_UpdateStatus _ _).
Qed.

(** Attempts that first read the resource: each conflict takes an edit. *)
Lemma retry_reads `{UrlLib} (r : reconcilerImpl server) existing desired steps attempts last w y :
  Client r = server_client -> key_of desired = key ->
  versions_ok (wApi w) -> svStore (wApi w) !! key = Some y ->
  (edits (svEnv (wApi w)) < steps)%nat ->
  exists w' y',
    retry_conflicts steps (Datatypes.S attempts) last (update_attempt r existing desired) w
      = (None, w') /\
    evolves (wApi w) (wApi w') y y' /\ yStatus y' = yStatus desired /\
    wEvents w' = wEvents w.
Proof.
  intros Hc Hd. revert attempts last w y.
  induction steps as [|steps IH]; intros attempts last w y Hv Hk Hs; [lia|].
  destruct (env_step_evolves (wApi w) y Hv Hk) as (y1&Hev1&Hst1&_).
  cbn [retry_conflicts]. unfold mbind, M_bind.
  rewrite (update_attempt_reads r existing desired attempts w y1) by
    (first [done | rewrite Hd; apply Hev1]).
  cbv zeta. case_bool_decide as Heq.
  { eexists _, y1. split; [done|]. cbn [wApi wEvents]. done. }
  unfold put_status. cbn [wApi wTicks wEvents].
  destruct (update_evolves (env_step (wApi w)) y1 (with_status y1 (yStatus desired)))
    as (res&sv'&y'&->&Hev&Hres); [apply Hev1|apply Hev1| |].
  { apply (ev_versions _ _ _ _ Hev1 _ _ (ev_lookup _ _ _ _ Hev1)). }
  pose proof (evolves_trans _ _ _ _ _ _ Hev1 Hev) as Hall. cbv beta iota zeta.
  destruct Hres as [[Hok Hst]|((m&->)&_&Hlt)].
  - destruct res as [z|]; [|done]. eexists _, y'. split; [done|]. cbn [wApi wEvents]. done.
  - change (IsConflict (EApi (ApiConflict m))) with true. cbv iota.
    destruct (IH (Datatypes.S attempts) (Some (EApi (ApiConflict m)))
      (MkWorld sv' (wTicks w) (wEvents w)) y') as (w'&y2&Er&Hev2&Hst2&Hevts);
      [apply Hall|apply Hall| |].
    { cbn [wApi]. specialize (Hlt eq_refl). pose proof (ev_edits _ _ _ _ Hev1). lia. }
    cbn [wApi] in *.
    exists w', y2. split_and!; [exact Er|by eapply evolves_trans|done|done].
Qed.
End optimistic.

(** ** Attempts *)

(** The first [k] attempts when all of them are conflicts: the last error and
    the world. *)
Fixpoint after_conflicts {S} (updater : nat -> M S (option go_error)) (k : nat) (w : world S)
    : option (option go_error * world S) :=
  match k with
  | O => Some (None, w)
  | Datatypes.S k =>
      '(_, w) ← after_conflicts updater k w;
      match updater k w with
      | (Some e, w) => if IsConflict e then Some (Some e, w) else None
      | (None, _) => None
      end
  end.

Lemma retry_conflicts_attempts {S} (updater : nat -> M S (option go_error)) w0 steps k last w :
  after_conflicts updater k w0 = Some (last, w) -> (0 < steps)%nat ->
  exists k' last' w1 e w2,
    (k <= k' < k + steps)%nat /\ after_conflicts updater k' w0 = Some (last', w1) /\
    updater k' w1 = (e, w2) /\
    retry_conflicts steps k last updater w
    = (match e with
       | Some err => if Interrupted err then last' else Some err
       | None => None
       end, w2) /\
    (forall err, e = Some err -> IsConflict err = true -> k' = k + steps - 1)%nat.
Proof.
  revert k last w. induction steps as [|steps IH]; intros k last w Hk Hs; [lia|].
  cbn [retry_conflicts]. unfold mbind, M_bind, mret, M_ret.
  destruct (updater k w) as [e w2] eqn:Eu.
  destruct e as [err|]; [|exists k, last, w, None, w2; split_and!; try done; lia].
  destruct (IsConflict err) eqn:Ec.
  2:{ exists k, last, w, (Some err), w2. split_and!; [lia|lia|done|done|done|].
      intros err' [= <-] E'. by rewrite E' in Ec. }
  assert (Interrupted err = false) as Hni.
  { unfold IsConflict, Interrupted in *. by destruct (root err) as [| | |[]| | |]. }
  destruct steps as [|steps].
  { exists k, last, w, (Some err), w2. rewrite Hni. split_and!; try done; lia. }
  destruct (IH (Datatypes.S k) (Some err) w2) as (k'&last'&w1&e&w3&Hk'&Ha&Hu&Hr&Hc).
  - cbn [after_conflicts]. rewrite Hk. cbn [mbind option_bind]. by rewrite Eu, Ec.
  - lia.
  - exists k', last', w1, e, w3. split_and!; [lia|lia|done|done|exact Hr|].
    intros err' He Hc'. rewrite (Hc err' He Hc'). lia.
Qed.

(** ** Leadership *)

Definition with_client {S} (c : client S) (r : reconcilerImpl S) : reconcilerImpl S :=
  MkReconcilerImpl c (Lister r) (ReconcileKind r) (Finalizer r) (ReadOnlyInterface r)
    (OnDeletionInterface r) (IsLeaderFor r) (finalizerName r) (useServerSideApplyForFinalizers r)
    (finalizerFieldManager r) (forceApplyFinalizers r) (skipStatusUpdates r).

(** A method other than an observer's needs the leader. *)
Lemma method_not_leader {S} s (r : reconcilerImpl S) o :
  ssIsLeader s = false ->
  reconcileMethodFor s r o = DoObserveKind \/ reconcileMethodFor s r o = DoUnknown.
Proof.
  intros Hl. unfold reconcileMethodFor. rewrite Hl.
  destruct (omDeletionTimestamp _); [destruct (Finalizer r)|destruct (ssIsROI s)]; auto.
Qed.

Lemma run_method_no_client {S} `{UrlLib} clock c (r : reconcilerImpl S) s o w :
  ssIsLeader s = false \/ Finalizer r = None ->
  run_method clock (with_client c r) s o w = run_method clock r s o w.
Proof.
  intros Hs. unfold run_method.
  change (reconcileMethodFor s (with_client c r) o) with (reconcileMethodFor s r o).
  destruct Hs as [Hl|Hf].
  - by destruct (method_not_leader s r o Hl) as [-> | ->].
  - unfold reconcileMethodFor. rewrite Hf. unfold setFinalizerIfFinalizer, clearFinalizer.
    change (Finalizer (with_client c r)) with (Finalizer r). rewrite Hf.
    by destruct (omDeletionTimestamp _), (ssIsLeader s), (ssIsROI s).
Qed.

(** ** Theorems *)

(** C10. The status is written whatever the others do to the spec: with at most
    three concurrent edits the write-back succeeds, from a cached copy however
    stale; the stored status is then the one wanted, and the stored spec is the
    last one the others wrote, never the cached one. *)
Theorem status_write_survives_conflicts `{UrlLib} r original desired w o :
  Client r = server_client -> key_of original = key_of desired ->
  versions_ok (wApi w) -> svStore (wApi w) !! key_of desired = Some o ->
  yStatus original <> yStatus desired -> (edits (svEnv (wApi w)) <= 3)%nat ->
  exists w' y consumed,
    updateStatus r original desired w = (None, w') /\
    svStore (wApi w') !! key_of desired = Some y /\ yStatus y = yStatus desired /\
    svEnv (wApi w) = consumed ++ svEnv (wApi w') /\
    ySpec y = spec_after (key_of desired) consumed (ySpec o) /\
    wEvents w' = wEvents w.
Proof.
  intros Hc Hk Hv Ho Hne He.
  enough (exists w' y, updateStatus r original desired w = (None, w') /\
    evolves (key_of desired) (wApi w) (wApi w') o y /\ yStatus y = yStatus desired /\
    wEvents w' = wEvents w) as (w'&y&E&[_ Hl (c&Hcon&Hs) _]&Hst&Hev).
  { exists w', y, c. done. }
  unfold updateStatus, RetryUpdateConflicts. cbn [retry_conflicts]. unfold mbind, M_bind.
  rewrite (update_attempt_first r original desired w Hc Hne). unfold put_status.
  destruct (update_evolves (key_of desired) (wApi w) o (with_status original (yStatus desired)))
    as (res&sv'&y'&->&Hev&Hres); [done|done|done|].
  destruct Hres as [[Hok Hst]|((m&->)&_&_)].
  - destruct res as [z|]; [|done]. eexists _, y'. split; [done|]. done.
  - change (IsConflict (EApi (ApiConflict m))) with true. cbv beta iota zeta.
    destruct (retry_reads (key_of desired) r original desired 4 0
      (Some (EApi (ApiConflict m))) (MkWorld sv' (wTicks w) (wEvents w)) y') as (w'&y2&Er&Hev2&?&?);
      [done|done|apply Hev|apply Hev| |].
    { cbn [wApi]. pose proof (ev_edits _ _ _ _ _ Hev). lia. }
    exists w', y2. split_and!; [exact Er|by eapply evolves_trans|done|done].
Qed.

(** C23. Only the leader writes: without leadership of the key a run does not
    depend on the API client at all, and without an observer either it leaves
    the world alone and skips the key. *)
Theorem only_the_leader_writes {S} `{UrlLib} clock (r : reconcilerImpl S) key :
  (forall ns name, SplitMetaNamespaceKey key = Some (ns, name) -> IsLeaderFor r ns name = false) ->
  (forall c w, Reconcile clock (with_client c r) key w = Reconcile clock r key w) /\
  (ReadOnlyInterface r = None -> is_Some (SplitMetaNamespaceKey key) ->
   forall w, Reconcile clock r key w = (Some (ESkipKey key), w)).
Proof.
  intros Hl. unfold Reconcile, newState.
  destruct (SplitMetaNamespaceKey key) as [[ns name]|]; [|split; [done|by intros _ []]].
  specialize (Hl ns name eq_refl). cbn [mbind option_bind IsLeaderFor with_client ReadOnlyInterface].
  rewrite Hl. split.
  - intros c w. set (s := MkState ns name _ false).
    destruct (isNotLeaderNorObserver s); [done|].
    unfold mbind, M_bind, api. cbn [Lister with_client OnDeletionInterface].
    destruct (Lister r (ssNamespace s) (ssName s) (wApi w)) as [original|e]; [|by destruct e].
    rewrite run_method_no_client by (by left).
    destruct (run_method clock r s original _) as [[[event resource]|e] w'] eqn:Er; [|done].
    unfold sync_status. cbn [skipStatusUpdates with_client ssIsLeader s negb].
    by destruct (skipStatusUpdates r), (bool_decide (yStatus original = yStatus resource)).
  - intros -> _ w. done.
Qed.

(** The write-back ends: it attempts the update once and up to five times,
    numbered in order, each further attempt after a conflict only, and returns
    what the last attempt says, except that the error of an interrupted request
    is replaced by the conflict before it, if there was one. *)
Theorem retry_attempts {S} (updater : nat -> M S (option go_error)) w :
  exists k last w1 e w2,
    (k < 5)%nat /\ after_conflicts updater k w = Some (last, w1) /\ updater k w1 = (e, w2) /\
    RetryUpdateConflicts updater w
    = (match e with
       | Some err => if Interrupted err then last else Some err
       | None => None
       end, w2) /\
    (forall err, e = Some err -> IsConflict err = true -> k = 4%nat).
Proof.
  destruct (retry_conflicts_attempts updater w 5 0 None w eq_refl) as (k&last&w1&e&w2&?&?&?&?&Hc);
    [lia|].
  exists k, last, w1, e, w2. split_and!; try done; lia.
Qed.

(** A status write whose request is interrupted (cancelled, or past its
    deadline) on the first attempt counts as done: the run goes on without an
    error and without an event, though nothing was stored. *)
Theorem interrupted_write_counts_as_done {S} (r : reconcilerImpl S) s original desired w m sv :
  skipStatusUpdates r = false -> ssIsLeader s = true -> yStatus original <> yStatus desired ->
  cl_UpdateStatus (Client r) (with_status original (yStatus desired)) (wApi w)
    = (Err (ApiInterrupted m), sv) ->
  sync_status r s original desired w = (None, MkWorld sv (wTicks w) (wEvents w)).
Proof.
  intros Hskip Hl Hne Hu. unfold sync_status. rewrite Hskip, bool_decide_false, Hl by done.
  cbn [negb]. unfold updateStatus, RetryUpdateConflicts. cbn [retry_conflicts].
  unfold update_attempt, mbind, M_bind, mret, M_ret, api. cbn [Nat.ltb Nat.leb].
  rewrite bool_decide_false by done. rewrite Hu. reflexivity.
Qed.

(** ** Witnesses *)

Definition sample_reconciler {S} (cl : client S) (leader : bool) : reconcilerImpl S :=
  MkReconcilerImpl cl (fun _ _ _ => Ok sample_source) (fun y => mret (None, y)) None None None
    (fun _ _ => leader) "yipyapsources.sources.yipyap.run" false "" false false.

Definition sample_key : string * string := ("default", "demo").

Definition edited_spec (base : string) : YipYapSourceSpec :=
  MkSpec (spSink sample_spec) None (spAPIKeyRef sample_spec) base None "stream" "".

(** Two edits come between the requests of the write-back. *)
Definition sample_world : world server :=
  MkWorld (MkServer {[ sample_key := sample_source ]} 18
    [EditSpec sample_key (edited_spec "https://a") 4; Idle;
     EditSpec sample_key (edited_spec "https://b") 5]) 0 [].

Definition wanted_status : YipYapSourceStatus := set_observed_generation 3 empty_status.

Lemma status_write_survives_conflicts_witness :
  exists w' y, updateStatus (sample_reconciler server_client true)
      sample_source (with_status sample_source wanted_status) sample_world = (None, w') /\
    svStore (wApi w') !! sample_key = Some y /\ yStatus y = wanted_status /\
    ySpec y = edited_spec "https://b".
Proof.
  destruct (status_write_survives_conflicts (H := plain_url_lib)
    (sample_reconciler server_client true) sample_source (with_status sample_source wanted_status)
    sample_world sample_source) as (w'&y&consumed&E&Hy&Hst&Henv&Hs&_).
  - reflexivity.
  - reflexivity.
  - apply map_Forall_singleton. split; [reflexivity|]. exists 17%N. split; [reflexivity|].
    reflexivity.
  - apply lookup_singleton_eq.
  - discriminate.
  - apply Nat.leb_le. reflexivity.
  - exists w', y. split; [exact E|]. split; [exact Hy|]. split; [exact Hst|].
    assert (exists w1, updateStatus (sample_reconciler server_client true)
      sample_source (with_status sample_source wanted_status) sample_world = (None, w1) /\
      svEnv (wApi w1) = []) as (w1&E1&Hw1).
    { eexists. split; [vm_compute; reflexivity|reflexivity]. }
    rewrite E in E1. injection E1 as <-. rewrite Hw1, app_nil_r in Henv.
    rewrite Hs, <- Henv. reflexivity.
Defined.

Lemma only_the_leader_writes_witness :
  Reconcile Z.of_nat (sample_reconciler server_client false) "default/demo"
    sample_world = (Some (ESkipKey "default/demo"), sample_world).
Proof.
  destruct (only_the_leader_writes (H := plain_url_lib) Z.of_nat
    (sample_reconciler server_client false) "default/demo") as [_ Hskip].
  - reflexivity.
  - apply Hskip; [reflexivity|]. vm_compute. eexists. reflexivity.
Defined.

Definition timing_out : client server :=
  MkClient server_Get (fun _ sv => (Err (ApiInterrupted "context deadline exceeded"), sv))
    (fun _ _ _ sv => (Err ApiNotFound, sv)).

Lemma interrupted_write_counts_as_done_witness :
  sync_status (sample_reconciler timing_out true) (MkState "default" "demo" false true)
    sample_source (with_status sample_source wanted_status) sample_world
  = (None, MkWorld (wApi sample_world) 0 []).
Proof.
  apply (interrupted_write_counts_as_done (sample_reconciler timing_out true)
    (MkState "default" "demo" false true) sample_source (with_status sample_source wanted_status)
    sample_world "context deadline exceeded" (wApi sample_world)).
  - reflexivity.
  - reflexivity.
  - discriminate.
  - reflexivity.
Defined.
