(* ===== verification/Rest.v ===== *)
(** * The REST client (k8s.io/client-go/rest, gentype)

    What the generated clientset sends: a client made from a configuration
    (rest/config.go, url_utils.go, client.go), the request a chain of calls
    builds, with the error that sticks to it (rest/request.go), and the path of
    its URL, which Go's [path.Join] assembles.

    A server is the world's: the transport takes the request that was built and
    answers with an error of the API or a document.  Not modelled: throttling,
    the retries and the headers but the content type of the body. *)

From Stdlib Require Import QArith.
From S2P Require Import Prelude GoStrings Types KindReconciler.
Local Open Scope string_scope.
Local Open Scope list_scope.

(** ** [path.Clean] and [path.Join] of the Go standard library *)

(** One segment of a path, the ones before it reversed. *)
Definition clean_step (rooted : bool) (out : list string) (seg : string) : list string :=
  if String.eqb seg "" || String.eqb seg "." then out
  else if String.eqb seg ".." then
    match out with
    | [] => if rooted then [] else [".."]
    | top :: rest => if String.eqb top ".." then seg :: out else rest
    end
  else seg :: out.

Definition path_Clean (p : string) : string :=
  if String.eqb p "" then "." else
  let rooted := has_prefix p "/" in
  let out := join "/" (reverse (foldl (clean_step rooted) [] (split "/" p))) in
  if rooted then "/" +:+ out else if String.eqb out "" then "." else out.

Fixpoint drop_empty (l : list string) : list string :=
  match l with
  | "" :: l => drop_empty l
  | _ => l
  end.

Definition path_Join (elem : list string) : string :=
  match drop_empty elem with [] => "" | l => path_Clean (join "/" l) end.

Example path_Join_1 : path_Join ["/"; "/k8s/"; "/apis/g/v1"] = "/k8s/apis/g/v1".
Proof. reflexivity. Qed.
Example path_Join_2 : path_Join ["a"; ".."; "../b"; ""] = "../b".
Proof. reflexivity. Qed.
Example path_Clean_3 : path_Clean "/.././a//b/../c/" = "/a/c".
Proof. reflexivity. Qed.

(** ** Configurations and clients (rest/config.go, client.go) *)

Inductive serializer := GeneratedClientCodec | DiscoveryCodec.

(** The fields the constructors read.  A limiter is a reference; [QPS] is a
    finite number. *)
Record Config := MkConfig {
  Host : string;
  APIPath : string;
  CfgGroupVersion : option GroupVersion;
  NegotiatedSerializer : option serializer;
  defaultTLS : bool;
  UserAgent : string;
  QPS : Q;
  Burst : Z;
  RateLimiter : option nat;
  CfgTimeout : Z;
  ContentType : string
}.

(** [http.Client]: which one it is, and its timeout. *)
Record http_client := MkHttpClient { hcId : nat; hcTimeout : Z }.

Record RESTClient := MkRESTClient {
  base : URL;
  versionedAPIPath : string;
  contentType : string;
  groupVersion : GroupVersion;
  rateLimiter : option nat;
  Client : option http_client
}.

Definition DefaultQPS : Q := 5.
Definition DefaultBurst : Z := 10.

(** The token buckets made so far, each with its rate and burst: a limiter is
    an index into them. *)
Definition buckets : Type := list (Q * Z).

Definition NewTokenBucketRateLimiter (qps : Q) (burst : Z) (b : buckets) : nat * buckets :=
  (length b, b ++ [(qps, burst)]).

Definition DefaultVersionedAPIPath (apiPath : string) (gv : GroupVersion) : string :=
  let versionedAPIPath := path_Join ["/"; apiPath] in
  if String.eqb (gvGroup gv) "" then path_Join [versionedAPIPath; gvVersion gv]
  else path_Join [versionedAPIPath; gvGroup gv; gvVersion gv].

Definition set_Path (p : string) (u : URL) : URL :=
  MkURL (uScheme u) (uOpaque u) (uUser u) (uHost u) p (uRawPath u) (uOmitHost u)
    (uForceQuery u) (uRawQuery u) (uFragment u) (uRawFragment u).

(** The query and the fragment removed. *)
Definition bare_URL (u : URL) : URL :=
  MkURL (uScheme u) (uOpaque u) (uUser u) (uHost u) (uPath u) (uRawPath u) (uOmitHost u)
    (uForceQuery u) "" "" (uRawFragment u).

Definition DefaultServerURL `{UrlLib} (host apiPath : string) (gv : GroupVersion) (tls : bool)
    : result string (URL * string) :=
  if String.eqb host "" then Err "host must be a URL or a host:port pair" else
  let parsed := match url_Parse host with
                | Ok u => if String.eqb (uScheme u) "" || String.eqb (uHost u) "" then None else Some u
                | Err _ => None
                end in
  hostURL ← match parsed with
            | Some u => Ok u
            | None =>
                u ← url_Parse ((if tls then "https://" else "http://") +:+ host);
                if negb (String.eqb (uPath u) "") && negb (String.eqb (uPath u) "/")
                then Err ("host must be a URL or a host:port pair: " +:+ go_quote host)
                else Ok u
            end;
  Ok (hostURL, DefaultVersionedAPIPath apiPath gv).

Definition DefaultServerUrlFor `{UrlLib} (config : Config) : result string (URL * string) :=
  let host := if String.eqb (Host config) "" then "localhost" else Host config in
  DefaultServerURL host (APIPath config)
    (default (MkGroupVersion "" "") (CfgGroupVersion config)) (defaultTLS config).

Definition NewRESTClient (baseURL : URL) (path contentType : string) (gv : GroupVersion)
    (limiter : option nat) (client : option http_client) : RESTClient :=
  let p := uPath baseURL in
  MkRESTClient (bare_URL (set_Path (if has_suffix p "/" then p else p +:+ "/") baseURL))
    path contentType gv limiter client.

(** The limiter of a client: the configured one, or one of its own. *)
Definition client_limiter (config : Config) (b : buckets) : option nat * buckets :=
  match RateLimiter config with
  | Some l => (Some l, b)
  | None =>
      let qps := if Qeq_bool (QPS config) 0 then DefaultQPS else QPS config in
      let burst := if (Burst config =? 0)%Z then DefaultBurst else Burst config in
      if negb (Qle_bool qps 0)
      then let '(l, b) := NewTokenBucketRateLimiter qps burst b in (Some l, b)
      else (None, b)
  end.

Definition RESTClientForConfigAndClient `{UrlLib} (config : Config)
    (httpClient : option http_client) (b : buckets) : result string RESTClient * buckets :=
  match CfgGroupVersion config, NegotiatedSerializer config with
  | None, _ => (Err "GroupVersion is required when initializing a RESTClient", b)
  | _, None => (Err "NegotiatedSerializer is required when initializing a RESTClient", b)
  | Some gv, Some _ =>
      match DefaultServerUrlFor config with
      | Err e => (Err e, b)
      | Ok (baseURL, path) =>
          let '(limiter, b) := client_limiter config b in
          (Ok (NewRESTClient baseURL path (ContentType config) gv limiter httpClient), b)
      end
  end.

(** [metav1.SchemeGroupVersion]. *)
Definition meta_v1 : GroupVersion := MkGroupVersion "meta.k8s.io" "v1".

Definition UnversionedRESTClientForConfigAndClient `{UrlLib} (config : Config)
    (httpClient : option http_client) (b : buckets) : result string RESTClient * buckets :=
  match NegotiatedSerializer config with
  | None => (Err "NegotiatedSerializer is required when initializing a RESTClient", b)
  | Some _ =>
      match DefaultServerUrlFor config with
      | Err e => (Err e, b)
      | Ok (baseURL, path) =>
          let '(limiter, b) := client_limiter config b in
          (Ok (NewRESTClient baseURL path (ContentType config)
                 (default meta_v1 (CfgGroupVersion config)) limiter httpClient), b)
      end
  end.

(** ** Requests (rest/request.go) *)

(** The options of a call, the ones of a list with the fields the code reads. *)
Record ListOptions := MkListOptions {
  LabelSelector : string;
  FieldSelector : string;
  Watch : bool;
  TimeoutSeconds : option Z
}.

Inductive request_options :=
| GetOptions (resourceVersion : string)
| ListOptions_ (opts : ListOptions)
| CreateOptions (dryRun : list string) (fieldManager : string)
| UpdateOptions (dryRun : list string) (fieldManager : string)
| PatchOptions (dryRun : list string) (fieldManager : string) (force : option bool).

Inductive body (D : Type) :=
| BodyObject (y : YipYapSource)
| BodyDeleteOptions (propagationPolicy : option string)
| BodyBytes (data : D).
Arguments BodyObject {D} _.
Arguments BodyDeleteOptions {D} _.
Arguments BodyBytes {D} _.

(** The parameter codec and the serializers of the scheme: documents, the
    encoding of an object for a content type, and the decoding of answers. *)
Class Codec := {
  Doc : Type;
  EncodeParameters : request_options -> GroupVersion -> result string (gmap string (list string));
  Encode : string -> body Doc -> result string Doc;
  DecodeSource : Doc -> result string YipYapSource;
  DecodeList : Doc -> result string (list YipYapSource)
}.

Section requests.
Context `{Codec}.

(** A request under construction; the suffix of the path is never set. *)
Record Request := MkRequest {
  rqC : RESTClient;
  rqVerb : string;
  rqPathPrefix : string;
  rqParams : gmap string (list string);
  rqContentType : option string;
  rqNamespace : option string;
  rqResource : string;
  rqResourceName : string;
  rqSubresource : string;
  rqTimeout : Z;
  rqBody : option Doc;
  rqErr : option string
}.

Definition NewRequest (c : RESTClient) : Request :=
  MkRequest c "" (path_Join ["/"; uPath (base c); versionedAPIPath c]) ∅ None None "" "" ""
    match Client c with Some h => hcTimeout h | None => 0 end None None.

Definition set_err (e : string) (r : Request) : Request :=
  MkRequest (rqC r) (rqVerb r) (rqPathPrefix r) (rqParams r) (rqContentType r) (rqNamespace r)
    (rqResource r) (rqResourceName r) (rqSubresource r) (rqTimeout r) (rqBody r) (Some e).

(** A step of the chain: nothing once there is an error. *)
Definition chained (f : Request -> Request) (r : Request) : Request :=
  match rqErr r with Some _ => r | None => f r end.

Definition Verb (verb : string) (c : RESTClient) : Request :=
  let r := NewRequest c in
  MkRequest (rqC r) verb (rqPathPrefix r) (rqParams r) (rqContentType r) (rqNamespace r)
    (rqResource r) (rqResourceName r) (rqSubresource r) (rqTimeout r) (rqBody r) (rqErr r).

(** [SetHeader "Content-Type"]. *)
Definition set_content_type (t : string) (r : Request) : Request :=
  MkRequest (rqC r) (rqVerb r) (rqPathPrefix r) (rqParams r) (Some t) (rqNamespace r)
    (rqResource r) (rqResourceName r) (rqSubresource r) (rqTimeout r) (rqBody r) (rqErr r).

Definition IsValidPathSegmentName (name : string) : list string :=
  if String.eqb name "." then ["may not be '.'"]
  else if String.eqb name ".." then ["may not be '..'"]
  else (if string_contains "/" name then ["may not contain '/'"] else [])
       ++ (if string_contains "%" name then ["may not contain '%'"] else []).

(** [%v] of a list of strings. *)
Definition print_list (l : list string) : string := "[" +:+ join " " l +:+ "]".

Definition Resource (resource : string) : Request -> Request := chained (fun r =>
  if negb (String.eqb (rqResource r) "") then
    set_err ("resource already set to " +:+ go_quote (rqResource r) +:+ ", cannot change to "
             +:+ go_quote resource) r
  else match IsValidPathSegmentName resource with
  | [] => MkRequest (rqC r) (rqVerb r) (rqPathPrefix r) (rqParams r) (rqContentType r)
            (rqNamespace r) resource (rqResourceName r) (rqSubresource r) (rqTimeout r)
            (rqBody r) None
  | msgs => set_err ("invalid resource " +:+ go_quote resource +:+ ": " +:+ print_list msgs) r
  end).

Definition SubResource (subresources : list string) : Request -> Request := chained (fun r =>
  let subresource := path_Join subresources in
  if negb (String.eqb (rqSubresource r) "") then
    set_err ("subresource already set to " +:+ go_quote (rqSubresource r)
             +:+ ", cannot change to " +:+ go_quote subresource) r
  else match list_find (fun s => IsValidPathSegmentName s <> []) subresources with
  | Some (_, s) => set_err ("invalid subresource " +:+ go_quote s +:+ ": "
                            +:+ print_list (IsValidPathSegmentName s)) r
  | None => MkRequest (rqC r) (rqVerb r) (rqPathPrefix r) (rqParams r) (rqContentType r)
              (rqNamespace r) (rqResource r) (rqResourceName r) subresource (rqTimeout r)
              (rqBody r) None
  end).

Definition Name (resourceName : string) : Request -> Request := chained (fun r =>
  if String.eqb resourceName "" then set_err "resource name may not be empty" r
  else if negb (String.eqb (rqResourceName r) "") then
    set_err ("resource name already set to " +:+ go_quote (rqResourceName r)
             +:+ ", cannot change to " +:+ go_quote resourceName) r
  else match IsValidPathSegmentName resourceName with
  | [] => MkRequest (rqC r) (rqVerb r) (rqPathPrefix r) (rqParams r) (rqContentType r)
            (rqNamespace r) (rqResource r) resourceName (rqSubresource r) (rqTimeout r)
            (rqBody r) None
  | msgs => set_err ("invalid resource name " +:+ go_quote resourceName +:+ ": "
                     +:+ print_list msgs) r
  end).

Definition Namespace (namespace : string) : Request -> Request := chained (fun r =>
  match rqNamespace r with
  | Some ns => set_err ("namespace already set to " +:+ go_quote ns +:+ ", cannot change to "
                        +:+ go_quote namespace) r
  | None =>
      match IsValidPathSegmentName namespace with
      | [] => MkRequest (rqC r) (rqVerb r) (rqPathPrefix r) (rqParams r) (rqContentType r)
                (Some namespace) (rqResource r) (rqResourceName r) (rqSubresource r)
                (rqTimeout r) (rqBody r) None
      | msgs => set_err ("invalid namespace " +:+ go_quote namespace +:+ ": "
                         +:+ print_list msgs) r
      end
  end).

Definition NamespaceIfScoped (namespace : string) (scoped : bool) (r : Request) : Request :=
  if scoped then Namespace namespace r else r.

(** A parameter set before is appended to. *)
Definition add_params (more params : gmap string (list string)) : gmap string (list string) :=
  union_with (fun old new => Some (old ++ new)) params more.

Definition VersionedParams (obj : request_options) : Request -> Request :=
  chained (fun r =>
    match EncodeParameters obj (groupVersion (rqC r)) with
    | Err e => set_err e r
    | Ok params =>
        MkRequest (rqC r) (rqVerb r) (rqPathPrefix r) (add_params params (rqParams r))
          (rqContentType r) (rqNamespace r) (rqResource r) (rqResourceName r)
          (rqSubresource r) (rqTimeout r) (rqBody r) None
    end).

Definition Timeout (d : Z) : Request -> Request := chained (fun r =>
  MkRequest (rqC r) (rqVerb r) (rqPathPrefix r) (rqParams r) (rqContentType r) (rqNamespace r)
    (rqResource r) (rqResourceName r) (rqSubresource r) d (rqBody r) None).

(** Bytes are sent as they are; an object is encoded. *)
Definition Body (obj : body Doc) : Request -> Request := chained (fun r =>
  let with_body data r :=
    MkRequest (rqC r) (rqVerb r) (rqPathPrefix r) (rqParams r) (rqContentType r) (rqNamespace r)
      (rqResource r) (rqResourceName r) (rqSubresource r) (rqTimeout r) (Some data) None in
  match obj with
  | BodyBytes data => with_body data r
  | _ =>
      let ct := if String.eqb (contentType (rqC r)) "" then "application/json"
                else contentType (rqC r) in
      match Encode ct obj with
      | Err e => set_err e r
      | Ok data => set_content_type ct (with_body data r)
      end
  end).

(** The path of the URL. *)
Definition url_path (r : Request) : string :=
  let p := rqPathPrefix r in
  let p := match rqNamespace r with
           | Some ns => if String.eqb ns "" then p else path_Join [p; "namespaces"; ns]
           | None => p
           end in
  let p := if String.eqb (rqResource r) "" then p else path_Join [p; to_lower (rqResource r)] in
  if String.eqb (rqResourceName r) "" && String.eqb (rqSubresource r) "" then p
  else path_Join [p; rqResourceName r; rqSubresource r; ""].

(** What is sent.  The query is kept as its values; a non-zero timeout is one of
    them and bounds the exchange. *)
Record HttpRequest := MkHttpRequest {
  hqMethod : string;
  hqURL : URL;
  hqQuery : gmap string (list string);
  hqTimeout : Z;
  hqContentType : option string;
  hqBody : option Doc
}.

Definition requestPreflightCheck (r : Request) : option string :=
  match rqNamespace r with
  | Some "" =>
      if String.eqb (rqVerb r) "POST" then Some "an empty namespace may not be set during creation"
      else if (String.eqb (rqVerb r) "GET" || String.eqb (rqVerb r) "PUT"
               || String.eqb (rqVerb r) "DELETE") && negb (String.eqb (rqResourceName r) "")
      then Some "an empty namespace may not be set when a resource name is provided"
      else None
  | _ => None
  end.

(** The request to send, or the first error of its construction. *)
Definition build (r : Request) : result string HttpRequest :=
  match rqErr r with
  | Some e => Err e
  | None =>
      match requestPreflightCheck r with
      | Some e => Err e
      | None => Ok (MkHttpRequest (rqVerb r) (set_Path (url_path r) (base (rqC r))) (rqParams r)
                      (rqTimeout r) (rqContentType r) (rqBody r))
      end
  end.

(** The server behind the client: a document, or an error of the API. *)
Definition transport (S : Type) : Type := HttpRequest -> S -> result api_error Doc * S.

Definition Do {S} (T : transport S) (r : Request) : S -> result api_error Doc * S := fun s =>
  match build r with
  | Err e => (Err (ApiOther e), s)
  | Ok h => T h s
  end.

Definition Into {A S} (decode : Doc -> result string A) (res : result api_error Doc * S)
    : result api_error A * S :=
  (data ← res.1; map_err ApiOther (decode data), res.2).

End requests.

(** ** Paths *)

(** The segments a rooted path keeps; [abs] prints them. *)
Definition clean_list (l : list string) : list string := reverse (foldl (clean_step true) [] l).
Definition abs (l : list string) : string := "/" +:+ join "/" l.
Definition nonempty (s : string) : Prop := s <> "".
#[export] Instance nonempty_dec s : Decision (nonempty s).
Proof. unfold nonempty. apply _. Defined.

(** Not one of the two segments [path.Clean] interprets. *)
Definition undotted (s : string) : Prop := s <> "." /\ s <> "..".
Definition no_slash (s : string) : Prop := string_contains "/" s = false.
Record plain (s : string) : Prop := {
  pl_nonempty : nonempty s;
  pl_undotted : undotted s;
  pl_no_slash : no_slash s
}.

Lemma split_cons sep c s :
  split sep (String c s) =
    if Ascii.eqb c sep then "" :: split sep s
    else match split sep s with [] => [String c ""] | p :: ps => String c p :: ps end.
Proof. reflexivity. Qed.

Lemma split_app sep a s : split sep (a +:+ String sep s) = split sep a ++ split sep s.
Proof.
  induction a as [|c a IH].
  { change ("" +:+ String sep s) with (String sep s). by rewrite split_cons, Ascii.eqb_refl. }
  change (String c a +:+ String sep s) with (String c (a +:+ String sep s)).
  rewrite !split_cons, IH. destruct (Ascii.eqb c sep); [done|].
  pose proof (split_not_nil sep a). by destruct (split sep a).
Qed.

Lemma split_join_concat l :
  l <> [] -> split "/" (join "/" l) = concat (map (split "/") l).
Proof.
  induction l as [|a l IH]; intros Hne; [done|]. destruct l as [|b l].
  { cbn [join map concat]. by rewrite app_nil_r. }
  change (join "/" (a :: b :: l)) with (a +:+ String "/" (join "/" (b :: l))).
  rewrite split_app, IH by done. done.
Qed.

Lemma clean_step_undotted out s :
  undotted s -> clean_step true out s = if decide (nonempty s) then s :: out else out.
Proof.
  intros [H1 H2]. unfold clean_step, nonempty.
  destruct (String.eqb_spec s ""), (String.eqb_spec s "."), (String.eqb_spec s "..");
    case_decide; try done.
Qed.

Lemma clean_list_app l l' :
  Forall undotted l' -> clean_list (l ++ l') = clean_list l ++ filter nonempty l'.
Proof.
  unfold clean_list. rewrite foldl_app. generalize (foldl (clean_step true) [] l). clear l.
  intros out Hl'. revert out. induction Hl' as [|s l' Hs _ IH]; intros out.
  { by rewrite app_nil_r. }
  cbn [foldl]. rewrite clean_step_undotted by done. rewrite filter_cons, IH.
  case_decide; [|done]. by rewrite reverse_cons, <- app_assoc.
Qed.

Lemma clean_list_plain l : Forall no_slash l -> Forall plain (clean_list l).
Proof.
  intros Hl. unfold clean_list. apply Forall_reverse.
  apply foldl_inv; [constructor|]. intros out s Hs Hout.
  assert (no_slash s) as Hns by (rewrite Forall_forall in Hl; by apply Hl).
  unfold clean_step. destruct (String.eqb_spec s ""), (String.eqb_spec s "."); try done.
  destruct (String.eqb_spec s "..") as [->|].
  - destruct Hout as [|top rest Ht Hrest]; [constructor|].
    destruct (String.eqb_spec top "..") as [->|]; [|done]. by destruct Ht as [_ [_ ?] _].
  - by constructor.
Qed.

Lemma has_prefix_slash p : has_prefix p "/" = true <-> exists r, p = String "/" r.
Proof. by rewrite has_prefix_spec. Qed.

Lemma path_Join_rooted a l :
  has_prefix a "/" = true ->
  path_Join (a :: l) = abs (clean_list (concat (map (split "/") (a :: l)))).
Proof.
  intros [r ->]%has_prefix_slash. unfold path_Join. cbn [drop_empty].
  rewrite <- split_join_concat by done. unfold path_Clean.
  assert (exists r', join "/" (String "/" r :: l) = String "/" r') as [r' Hr'].
  { destruct l; cbn [join]; eexists; reflexivity. }
  rewrite Hr'. cbn [String.eqb]. by rewrite (proj2 (has_prefix_slash _)) by eauto.
Qed.

Lemma split_abs l : l <> [] -> Forall no_slash l -> split "/" (abs l) = "" :: l.
Proof.
  intros Hne Hl. unfold abs. change (split "/" ("" +:+ String "/" (join "/" l)) = "" :: l).
  rewrite split_app, split_join_concat by done. cbn [split app]. f_equal.
  induction Hl as [|s l Hs _ IH]; [done|]. cbn [map concat].
  rewrite (split_whole "/" s) by done. cbn [app]. f_equal.
  destruct l; [done|]. by apply IH.
Qed.

Lemma plain_all l : Forall plain l -> Forall no_slash l /\ Forall undotted l /\ filter nonempty l = l.
Proof.
  intros Hl. split_and!.
  - eapply Forall_impl; [exact Hl|]. apply pl_no_slash.
  - eapply Forall_impl; [exact Hl|]. apply pl_undotted.
  - induction Hl as [|s l Hs _ IH]; [done|]. rewrite filter_cons_True by apply Hs. by rewrite IH.
Qed.

(** Segments added to a rooted path; empty ones disappear. *)
Lemma path_Join_abs l l' :
  Forall plain l -> Forall (fun s => s = "" \/ plain s) l' ->
  path_Join (abs l :: l') = abs (l ++ filter nonempty l').
Proof.
  intros Hl Hl'. rewrite path_Join_rooted by done. f_equal.
  assert (concat (map (split "/") l') = l') as E'.
  { induction Hl' as [|s l' Hs _ IH]; [done|]. cbn [map concat]. rewrite IH.
    destruct Hs as [->|Hs]; [done|]. by rewrite (split_whole "/" s) by apply Hs. }
  cbn [map concat]. rewrite E'.
  destruct (plain_all l Hl) as (Hns&Hud&Hne).
  rewrite clean_list_app by (eapply Forall_impl; [exact Hl'|]; intros s [->|Hs];
    [split; done|apply Hs]).
  f_equal. destruct l as [|a l]; [done|]. rewrite split_abs by done.
  change ("" :: a :: l) with ([""] ++ a :: l). rewrite clean_list_app by done. exact Hne.
Qed.

(** The segments of a path; a path of plain segments gives them back. *)
Definition segments (p : string) : list string := filter nonempty (split "/" p).

Lemma segments_abs l : Forall plain l -> segments (abs l) = l.
Proof.
  intros (Hns&_&Hne)%plain_all. destruct l as [|a l]; [done|].
  unfold segments. by rewrite split_abs.
Qed.

Lemma valid_segment s :
  IsValidPathSegmentName s = [] <->
    undotted s /\ no_slash s /\ string_contains "%" s = false.
Proof.
  unfold IsValidPathSegmentName, undotted, no_slash.
  destruct (String.eqb_spec s "."), (String.eqb_spec s ".."); try naive_solver.
  destruct (string_contains "/" s), (string_contains "%" s); naive_solver.
Qed.
