(* ===== verification/SourcesClient.v ===== *)
(** * The typed client of the sources
    (clientset/versioned/typed/sources/v1alpha1, client-go's gentype)

    The client of the group version ([SourcesV1alpha1Client]) is made from a
    configuration; [YipYapSources(ns)] is a typed client of gentype, each of
    whose methods builds one request and sends it.  Using the interface of a nil
    client is a panic, the result [None].

    Main results: the request every method sends ([typed_requests]); over a
    server that keeps the conventions of the API, the typed client is the client
    the generated reconciler is proved against ([typed_client_refines]), so what
    the write-back of the status guarantees holds on the wire
    ([status_survives_on_the_wire]). *)

From S2P Require Import Prelude GoStrings GoTime Types KindReconciler Rest.
Local Open Scope string_scope.
Local Open Scope list_scope.

(** What the constructors take from the environment: the transport a
    configuration asks for, and the name of the program. *)
Class Environment := {
  HTTPClientFor : Config -> result string http_client;
  DefaultKubernetesUserAgent : string
}.

(** ** The client of the group version (sources_client.go) *)

(** The argument is the client it talks through. *)
Record SourcesV1alpha1Client := MkSourcesClient { restClient : RESTClient }.

(** On a nil pointer it is nil. *)
Definition GetRESTClient (c : option SourcesV1alpha1Client) : option RESTClient :=
  restClient <$> c.

Section constructors.
Context `{UrlLib, Environment}.

Definition setConfigDefaults (config : Config) : Config :=
  MkConfig (Host config) "/apis" (Some SchemeGroupVersion) (Some GeneratedClientCodec)
    (defaultTLS config)
    (if String.eqb (UserAgent config) "" then DefaultKubernetesUserAgent else UserAgent config)
    (QPS config) (Burst config) (RateLimiter config) (CfgTimeout config) (ContentType config).

Definition NewForConfigAndClient (c : Config) (h : option http_client) (b : buckets)
    : result string SourcesV1alpha1Client * buckets :=
  let config := setConfigDefaults c in
  let '(client, b) := RESTClientForConfigAndClient config h b in
  (client ← client; Ok (MkSourcesClient client), b).

Definition NewForConfig (c : Config) (b : buckets) : result string SourcesV1alpha1Client * buckets :=
  let config := setConfigDefaults c in
  match HTTPClientFor config with
  | Err e => (Err e, b)
  | Ok httpClient => NewForConfigAndClient config (Some httpClient) b
  end.

(** [None] is the panic. *)
Definition NewForConfigOrDie (c : Config) (b : buckets) : option (SourcesV1alpha1Client * buckets) :=
  match NewForConfig c b with
  | (Ok client, b) => Some (client, b)
  | (Err _, _) => None
  end.

Definition New (c : RESTClient) : SourcesV1alpha1Client := MkSourcesClient c.

End constructors.

(** ** The typed client (yipyapsource.go, gentype/type.go) *)

Record yipYapSources := MkTypedClient {
  tcResource : string;
  tcClient : option RESTClient;
  tcNamespace : string
}.

Definition newYipYapSources (c : option SourcesV1alpha1Client) (namespace : string)
    : yipYapSources :=
  MkTypedClient "yipyapsources" (GetRESTClient c) namespace.

Definition YipYapSources (c : option SourcesV1alpha1Client) (namespace : string)
    : yipYapSources := newYipYapSources c namespace.

Section methods.
Context `{Codec} {S : Type} (T : transport S) (c : yipYapSources).

(** The start of every request: the verb, with its header if it has one, the
    namespace when there is one, and the resource. *)
Definition start_with (verb : string) (header : Request -> Request) : option Request :=
  rc ← tcClient c;
  Some (Rest.Resource (tcResource c)
    (NamespaceIfScoped (tcNamespace c) (negb (String.eqb (tcNamespace c) ""))
       (header (Verb verb rc)))).
Definition start (verb : string) : option Request := start_with verb id.

(** Send a request and decode the answer. *)
Definition send {A} (decode : Doc -> result string A) (r : option Request) (s : S)
    : option (result api_error A * S) :=
  r ← r; Some (Into decode (Do T r s)).

Definition list_timeout (opts : ListOptions) : Z :=
  match TimeoutSeconds opts with Some n => seconds64 n | None => 0 end.

Definition get_request (name : string) (opts : request_options) : option Request :=
  r ← start "GET"; Some (VersionedParams opts (Name name r)).
Definition Get name opts : S -> option (result api_error YipYapSource * S) :=
  send DecodeSource (get_request name opts).

Definition list_request (opts : ListOptions) : option Request :=
  r ← start "GET"; Some (Timeout (list_timeout opts) (VersionedParams (ListOptions_ opts) r)).
Definition List opts : S -> option (result api_error (list YipYapSource) * S) :=
  send DecodeList (list_request opts).

(** The answer is a stream, undecoded here. *)
Definition watch_request (opts : ListOptions) : option Request :=
  let opts := MkListOptions (LabelSelector opts) (FieldSelector opts) true (TimeoutSeconds opts) in
  list_request opts.
Definition Watch_ opts : S -> option (result api_error Doc * S) :=
  send Ok (watch_request opts).

Definition create_request (obj : YipYapSource) (opts : request_options) : option Request :=
  r ← start "POST"; Some (Body (BodyObject obj) (VersionedParams opts r)).
Definition Create obj opts : S -> option (result api_error YipYapSource * S) :=
  send DecodeSource (create_request obj opts).

Definition update_request (obj : YipYapSource) (opts : request_options) : option Request :=
  r ← start "PUT";
  Some (Body (BodyObject obj) (VersionedParams opts (Name (omName (yMeta obj)) r))).
Definition Update obj opts : S -> option (result api_error YipYapSource * S) :=
  send DecodeSource (update_request obj opts).

Definition update_status_request (obj : YipYapSource) (opts : request_options) : option Request :=
  r ← start "PUT";
  Some (Body (BodyObject obj) (VersionedParams opts
    (SubResource ["status"] (Name (omName (yMeta obj)) r)))).
Definition UpdateStatus obj opts : S -> option (result api_error YipYapSource * S) :=
  send DecodeSource (update_status_request obj opts).

Definition delete_request (name : string) (opts : body Doc) : option Request :=
  r ← start "DELETE"; Some (Body opts (Name name r)).
Definition Delete name opts : S -> option (result api_error unit * S) :=
  send (fun _ => Ok tt) (delete_request name opts).

Definition delete_collection_request (opts : body Doc) (listOpts : ListOptions) : option Request :=
  r ← start "DELETE";
  Some (Body opts (Timeout (list_timeout listOpts) (VersionedParams (ListOptions_ listOpts) r))).
Definition DeleteCollection opts listOpts : S -> option (result api_error unit * S) :=
  send (fun _ => Ok tt) (delete_collection_request opts listOpts).

Definition patch_request (name pt : string) (data : Doc) (opts : request_options)
    (subresources : list string) : option Request :=
  r ← start_with "PATCH" (set_content_type pt);
  Some (Body (BodyBytes data) (VersionedParams opts (SubResource subresources (Name name r)))).
Definition Patch name pt data opts subresources : S -> option (result api_error YipYapSource * S) :=
  send DecodeSource (patch_request name pt data opts subresources).

End methods.

(** ** The requests *)

(** The segments every request of a client starts with. *)
Definition client_prefix (rc : RESTClient) : list string :=
  clean_list (concat (map (split "/") ["/"; uPath (base rc); versionedAPIPath rc])).

Definition scope (ns : string) : list string := if String.eqb ns "" then [] else ["namespaces"; ns].

(** The URL of a resource of the client, or of one of its objects. *)
Definition destination (rc : RESTClient) (ns : string) (rest : list string) : URL :=
  set_Path (abs (client_prefix rc ++ scope ns ++ "yipyapsources" :: rest)) (base rc).

Definition client_timeout (rc : RESTClient) : Z :=
  match Client rc with Some h => hcTimeout h | None => 0 end.

Lemma client_prefix_plain rc : Forall plain (client_prefix rc).
Proof.
  apply clean_list_plain, Forall_concat, Forall_map, Forall_true. intros p.
  apply Forall_forall. intros s. apply split_no_sep.
Qed.

Lemma plain_segment s : s <> "" -> IsValidPathSegmentName s = [] -> plain s.
Proof. intros Hne (?&?&_)%valid_segment. done. Qed.

Lemma add_params_empty params : add_params params ∅ = params.
Proof.
  unfold add_params. apply map_eq. intros k. rewrite lookup_union_with, lookup_empty.
  by destruct (params !! k).
Qed.

Section requests.
Context `{Codec} (rc : RESTClient) (ns : string).
Hypothesis Hns : IsValidPathSegmentName ns = [].

Let c : yipYapSources := newYipYapSources (Some (New rc)) ns.

(** A request for the resource, with its name and subresource. *)
Definition resource_request (verb : string) (ct : option string) (name sub : string)
    (params : gmap string (list string)) (timeout : Z) (body : option Doc) : Request :=
  MkRequest rc verb (abs (client_prefix rc)) params ct
    (if String.eqb ns "" then None else Some ns) "yipyapsources" name sub timeout body None.

Lemma start_with_spec verb header ct :
  header (Verb verb rc) =
    MkRequest rc verb (rqPathPrefix (Verb verb rc)) ∅ ct None "" "" "" (client_timeout rc) None None ->
  start_with c verb header = Some (resource_request verb ct "" "" ∅ (client_timeout rc) None).
Proof using Hns.
  intros Hh. unfold start_with. cbn [c newYipYapSources tcClient GetRESTClient New tcNamespace
    tcResource restClient fmap option_fmap option_map mbind option_bind].
  rewrite Hh. cbn [Verb NewRequest rqPathPrefix]. rewrite path_Join_rooted by done.
  unfold NamespaceIfScoped, Namespace, Rest.Resource, chained, resource_request.
  destruct (String.eqb ns "") eqn:E; cbn [negb]; cbn; [done|]. by rewrite Hns.
Qed.

Lemma start_spec verb :
  start c verb = Some (resource_request verb None "" "" ∅ (client_timeout rc) None).
Proof using Hns. by apply start_with_spec. Qed.

Lemma Name_spec verb ct name params timeout body :
  name <> "" -> IsValidPathSegmentName name = [] ->
  Name name (resource_request verb ct "" "" params timeout body)
    = resource_request verb ct name "" params timeout body.
Proof using Hns.
  intros Hne Hn. unfold Name, chained, resource_request. cbn [rqErr rqResourceName].
  destruct (String.eqb_spec name ""); [done|]. by rewrite Hn.
Qed.

Lemma VersionedParams_spec opts verb ct name sub params timeout body :
  EncodeParameters opts (groupVersion rc) = Ok params ->
  VersionedParams opts (resource_request verb ct name sub ∅ timeout body)
    = resource_request verb ct name sub params timeout body.
Proof using Hns.
  intros Ho. unfold VersionedParams, chained, resource_request. cbn [rqErr rqC]. rewrite Ho.
  cbn [rqParams]. by rewrite add_params_empty.
Qed.

(** The content type objects are encoded for. *)
Definition object_type : string :=
  if String.eqb (contentType rc) "" then "application/json" else contentType rc.

Lemma Body_spec verb ct name sub params timeout b d ct' :
  match b with
  | BodyBytes data => d = data /\ ct' = ct
  | _ => Encode object_type b = Ok d /\ ct' = Some object_type
  end ->
  Body b (resource_request verb ct name sub params timeout None)
    = resource_request verb ct' name sub params timeout (Some d).
Proof using Hns.
  intros Hb. unfold Body, chained, resource_request. cbn [rqErr rqC]. fold object_type.
  destruct b; destruct Hb as [Hd ->]; [rewrite Hd|rewrite Hd|rewrite <- Hd]; done.
Qed.

Lemma SubResource_spec verb ct name params timeout body :
  SubResource ["status"] (resource_request verb ct name "" params timeout body)
    = resource_request verb ct name "status" params timeout body.
Proof using Hns. done. Qed.

Lemma no_SubResource_spec verb ct name params timeout body :
  SubResource [] (resource_request verb ct name "" params timeout body)
    = resource_request verb ct name "" params timeout body.
Proof using Hns. done. Qed.

Lemma Timeout_spec t verb ct name sub params timeout body :
  Timeout t (resource_request verb ct name sub params timeout body)
    = resource_request verb ct name sub params t body.
Proof using Hns. done. Qed.

Lemma build_spec verb ct name sub params timeout body :
  (name = "" -> sub = "") -> (name = "" \/ plain name) -> (sub = "" \/ plain sub) ->
  build (resource_request verb ct name sub params timeout body)
    = Ok (MkHttpRequest verb (destination rc ns (filter nonempty [name; sub])) params timeout ct body).
Proof using Hns.
  intros Hempty Hname Hsub. unfold build, requestPreflightCheck, resource_request.
  cbn [rqErr rqNamespace rqC rqVerb rqParams rqTimeout rqContentType rqBody].
  assert (url_path (resource_request verb ct name sub params timeout body)
    = abs (client_prefix rc ++ scope ns ++ "yipyapsources" :: filter nonempty [name; sub])) as Hurl.
  { unfold url_path, resource_request.
    cbn [rqPathPrefix rqNamespace rqResource rqResourceName rqSubresource].
    assert ((match (if String.eqb ns "" then None else Some ns) with
      | Some n => if String.eqb n "" then abs (client_prefix rc)
                  else path_Join [abs (client_prefix rc); "namespaces"; n]
      | None => abs (client_prefix rc) end) = abs (client_prefix rc ++ scope ns)) as Hscope.
    { unfold scope. destruct (String.eqb_spec ns "") as [|Hne]; [by rewrite app_nil_r|].
      destruct (String.eqb_spec ns ""); [done|].
      rewrite path_Join_abs; [|apply client_prefix_plain|].
      - rewrite !filter_cons_True by done. done.
      - do 2 (constructor; [right; first [by repeat split | by apply plain_segment]|]). constructor. }
    rewrite Hscope. cbn [String.eqb]. change (to_lower "yipyapsources") with "yipyapsources".
    assert (Forall plain (client_prefix rc ++ scope ns)) as Hplain.
    { apply Forall_app. split; [apply client_prefix_plain|]. unfold scope.
      destruct (String.eqb_spec ns ""); repeat constructor; try done;
        by apply plain_segment. }
    rewrite path_Join_abs; [|done|constructor; [right; by repeat split|constructor]].
    change (filter nonempty ["yipyapsources"]) with ["yipyapsources"].
    destruct (String.eqb name "" && String.eqb sub "") eqn:E.
    { apply andb_true_iff in E as [->%String.eqb_eq ->%String.eqb_eq].
      by rewrite <- app_assoc. }
    rewrite path_Join_abs; [|apply Forall_app; split; [done|repeat constructor; by repeat split]|
      repeat (constructor; [first [done | by left]|]); constructor].
    by rewrite <- !app_assoc. }
  unfold resource_request in Hurl. rewrite Hurl. unfold destination.
  destruct (String.eqb_spec ns "") as [|Hne]; [done|]. by destruct ns.
Qed.

End requests.

(** What the path of a client made from a configuration starts with: the path of
    the host, a prefix a proxy may need, and the group and version. *)
Lemma client_prefix_of_config `{UrlLib, Environment} config h b sc b' :
  NewForConfigAndClient config h b = (Ok sc, b') ->
  exists u p, DefaultServerUrlFor (setConfigDefaults config) = Ok (u, p) /\
    client_prefix (restClient sc)
      = clean_list (split "/" (uPath u)) ++ ["apis"; "sources.yipyap.run"; "v1alpha1"].
Proof.
  unfold NewForConfigAndClient, RESTClientForConfigAndClient.
  cbn [setConfigDefaults CfgGroupVersion NegotiatedSerializer].
  destruct (DefaultServerUrlFor (setConfigDefaults config)) as [[u p]|e] eqn:Eu; [|done].
  destruct (client_limiter (setConfigDefaults config) b) as [limiter b1].
  intros [= <- <-]. exists u, p. split; [done|].
  assert (p = "/apis/sources.yipyap.run/v1alpha1") as ->.
  { unfold DefaultServerUrlFor, DefaultServerURL in Eu. cbv zeta in Eu.
    destruct (String.eqb (if String.eqb (Host _) "" then _ else _) ""); [done|].
    match type of Eu with ((?x ≫= _) = _) => destruct x end; [|done]. by injection Eu as <- <-. }
  unfold client_prefix. cbn [restClient NewRESTClient base versionedAPIPath bare_URL set_Path uPath map concat].
  assert (forall q l, clean_list (split "/" q ++ "" :: l) = clean_list (split "/" q ++ l)) as Hskip.
  { intros q l. unfold clean_list. by rewrite !foldl_app. }
  assert (forall l, clean_list (["";""] ++ l) = clean_list l) as -> by done.
  destruct (has_suffix (uPath u) "/") eqn:Es.
  - rewrite app_nil_r. change (split "/" "/apis/sources.yipyap.run/v1alpha1")
      with ("" :: ["apis"; "sources.yipyap.run"; "v1alpha1"]).
    rewrite Hskip, clean_list_app by by repeat constructor. done.
  - change (uPath u +:+ "/") with (uPath u +:+ String "/" "").
    rewrite split_app, app_nil_r, <- app_assoc. cbn [app].
    change (split "/" "") with [""]. cbn [app]. rewrite Hskip.
    change (split "/" "/apis/sources.yipyap.run/v1alpha1")
      with ("" :: ["apis"; "sources.yipyap.run"; "v1alpha1"]).
    rewrite Hskip, clean_list_app by by repeat constructor. done.
Qed.

(** ** Theorems *)

Definition with_watch (b : bool) (opts : ListOptions) : ListOptions :=
  MkListOptions (LabelSelector opts) (FieldSelector opts) b (TimeoutSeconds opts).

(** Every method of the typed client sends one request, to the collection of
    its namespace (of all namespaces for the empty one) or to the named object
    in it, the status through its subresource: for a name and a namespace the
    REST client accepts, the verb, the URL, the parameters, the timeout and the
    body are these. *)
Theorem typed_requests `{Codec} rc ns name opts params lopts lparams obj d del ddel data pt :
  IsValidPathSegmentName ns = [] -> name <> "" -> IsValidPathSegmentName name = [] ->
  omName (yMeta obj) = name ->
  EncodeParameters opts (groupVersion rc) = Ok params ->
  (forall w, EncodeParameters (ListOptions_ (with_watch w lopts)) (groupVersion rc)
     = Ok (lparams w)) ->
  Encode (object_type rc) (BodyObject obj) = Ok d ->
  Encode (object_type rc) (BodyDeleteOptions del) = Ok ddel ->
  Watch lopts = false ->
  let c := YipYapSources (Some (New rc)) ns in
  let request verb rest params timeout ct body :=
    Some (Ok (MkHttpRequest verb (destination rc ns rest) params timeout ct body)) in
  let plainly verb rest := request verb rest params (client_timeout rc) in
  let json := Some (object_type rc) in
  build <$> get_request c name opts = plainly "GET" [name] None None /\
  build <$> list_request c lopts = request "GET" [] (lparams false) (list_timeout lopts) None None /\
  build <$> watch_request c lopts = request "GET" [] (lparams true) (list_timeout lopts) None None /\
  build <$> create_request c obj opts = plainly "POST" [] json (Some d) /\
  build <$> update_request c obj opts = plainly "PUT" [name] json (Some d) /\
  build <$> update_status_request c obj opts = plainly "PUT" [name; "status"] json (Some d) /\
  build <$> delete_request c name (BodyDeleteOptions del)
    = request "DELETE" [name] ∅ (client_timeout rc) json (Some ddel) /\
  build <$> delete_collection_request c (BodyDeleteOptions del) lopts
    = request "DELETE" [] (lparams false) (list_timeout lopts) json (Some ddel) /\
  build <$> patch_request c name pt data opts [] = plainly "PATCH" [name] (Some pt) (Some data).
Proof.
  intros Hns Hne Hname Hobj Hopts Hlopts Hd Hdel Hwatch c request plainly json.
  assert (plain name) as Hp by by apply plain_segment.
  assert (with_watch false lopts = lopts) as Elopts by (destruct lopts; cbn in *; by subst).
  pose proof (Hlopts false) as Hfalse. rewrite Elopts in Hfalse.
  assert (forall l, EncodeParameters (ListOptions_ (MkListOptions (LabelSelector lopts)
    (FieldSelector lopts) true (TimeoutSeconds lopts))) (groupVersion rc) = Ok l <-> l = lparams true)
    as Htrue by (intros l; rewrite (Hlopts true : EncodeParameters (ListOptions_ (MkListOptions
      _ _ true _)) _ = _); naive_solver).
  assert (plain "status") as Hstatus by by repeat split.
  split_and!;
    unfold get_request, list_request, watch_request, create_request, update_request,
      update_status_request, delete_request, delete_collection_request, patch_request, list_request;
    rewrite ?(start_spec rc ns Hns), ?(start_with_spec rc ns Hns "PATCH" _ (Some pt)) by done;
    cbn [mbind option_bind fmap option_fmap option_map]; rewrite ?Hobj;
    rewrite ?(Name_spec rc ns Hns), ?(SubResource_spec rc ns Hns), ?(no_SubResource_spec rc ns Hns)
      by done;
    try erewrite (VersionedParams_spec rc ns Hns) by first [eassumption | by apply Htrue];
    rewrite ?(Timeout_spec rc ns Hns);
    try (erewrite (Body_spec rc ns Hns) by (split; [eassumption || reflexivity|reflexivity]));
    rewrite (build_spec rc ns Hns) by (first [congruence | by left | by right]);
    rewrite ?filter_cons_True by done; reflexivity.
Qed.

(** A name the client does not accept stops the request: the server sees
    nothing. *)
Theorem refused_names `{Codec} {S} (T : transport S) rc ns name opts s :
  IsValidPathSegmentName ns = [] -> name = "" \/ IsValidPathSegmentName name <> [] ->
  exists e, Get T (YipYapSources (Some (New rc)) ns) name opts s = Some (Err (ApiOther e), s).
Proof.
  intros Hns Hbad. unfold Get, get_request. rewrite (start_spec rc ns Hns).
  cbn [mbind option_bind send].
  set (r := VersionedParams _ _). assert (exists e, rqErr r = Some e) as [e He].
  { unfold r, VersionedParams, chained, Name, chained, resource_request.
    cbn [rqErr rqResourceName]. destruct Hbad as [->|Hbad]; [by eexists|].
    destruct (String.eqb name ""); [by eexists|]. cbn [String.eqb negb].
    destruct (IsValidPathSegmentName name); [done|]. by eexists. }
  exists e. unfold Into, Do, build. by rewrite He.
Qed.

(** ** Refinement of the client of the generated reconciler *)

Record good (s : string) : Prop := {
  good_nonempty : s <> "";
  good_segment : IsValidPathSegmentName s = []
}.

(** The patch type, the options and the document of a patch; the reconciler
    marshals it. *)
Definition patch_type (p : patch) : string :=
  match p with
  | MergePatch _ _ => "application/merge-patch+json"
  | ApplyPatch _ _ _ _ _ => "application/apply-patch+yaml"
  end.

Definition patch_options (p : patch) : request_options :=
  match p with
  | MergePatch _ _ => PatchOptions [] "" None
  | ApplyPatch _ _ _ fieldManager force => PatchOptions [] fieldManager (Some force)
  end.

Definition answer `{Codec} {S} (document : YipYapSource -> Doc)
    (res : result api_error YipYapSource * S) : result api_error Doc * S :=
  (y ← res.1; Ok (document y), res.2).

(** What the conventions of the API make of the requests: [k] is the semantics
    of the server, on the states [inv] describes. *)
Class ApiServer `{Codec} {S : Type} (rc : RESTClient) (k : client S)
    (marshal : string -> string -> patch -> Doc) (T : transport S) := {
  document : YipYapSource -> Doc;
  document_decodes y : DecodeSource (document y) = Ok y;
  options_encode o : is_ok (EncodeParameters o (groupVersion rc)) = true;
  object_encodes y : exists d, Encode (object_type rc) (BodyObject y) = Ok d /\ DecodeSource d = Ok y;
  serves_get ns name params t ct b s : good ns -> good name ->
    T (MkHttpRequest "GET" (destination rc ns [name]) params t ct b) s
      = answer document (cl_Get k ns name s);
  serves_status y d params t ct s :
    good (omNamespace (yMeta y)) -> good (omName (yMeta y)) -> DecodeSource d = Ok y ->
    T (MkHttpRequest "PUT" (destination rc (omNamespace (yMeta y)) [omName (yMeta y); "status"])
         params t ct (Some d)) s = answer document (cl_UpdateStatus k y s);
  serves_patch ns name p params t s : good ns -> good name ->
    EncodeParameters (patch_options p) (groupVersion rc) = Ok params ->
    T (MkHttpRequest "PATCH" (destination rc ns [name]) params t (Some (patch_type p))
         (Some (marshal ns name p))) s = answer document (cl_Patch k ns name p s)
}.

Section refinement.
Context `{Codec} {S : Type} (rc : RESTClient) (k : client S)
  (marshal : string -> string -> patch -> Doc) (T : transport S).
Context {A : ApiServer rc k marshal T}.

Lemma send_answers (h : HttpRequest) (r : Request) res s :
  build r = Ok h -> T h s = answer document res -> send T DecodeSource (Some r) s = Some res.
Proof using A.
  intros Hb HT. unfold send, Do, Into. cbn [mbind option_bind]. rewrite Hb, HT.
  destruct res as [[y|e] s']; [|done]. cbn. by rewrite document_decodes.
Qed.

Lemma encoded o : exists params, EncodeParameters o (groupVersion rc) = Ok params.
Proof using A.
  pose proof (options_encode o) as Ho. destruct (EncodeParameters o _); [eauto|done].
Qed.

Lemma Get_refines ns name s :
  good ns -> good name ->
  Get T (YipYapSources (Some (New rc)) ns) name (GetOptions "") s = Some (cl_Get k ns name s).
Proof using A.
  intros [Hne Hns] [Hname Hval]. destruct (encoded (GetOptions "")) as [params Hp].
  assert (plain name) by by apply plain_segment.
  unfold Get, get_request. rewrite (start_spec rc ns Hns). cbn [mbind option_bind].
  rewrite (Name_spec rc ns Hns), (VersionedParams_spec rc ns Hns _ _ _ _ _ params) by done.
  eapply send_answers; [rewrite (build_spec rc ns Hns) by (first [congruence | by left | by right]);
    reflexivity|].
  rewrite filter_cons_True by done. by apply serves_get.
Qed.

Lemma UpdateStatus_refines y s :
  good (omNamespace (yMeta y)) -> good (omName (yMeta y)) ->
  UpdateStatus T (YipYapSources (Some (New rc)) (omNamespace (yMeta y))) y (UpdateOptions [] "") s
    = Some (cl_UpdateStatus k y s).
Proof using A.
  intros Gns Gname. destruct Gns as [Hne Hns] eqn:E1, Gname as [Hname Hval] eqn:E2.
  destruct (encoded (UpdateOptions [] "")) as [params Hp], (object_encodes y) as (d&Hd&Hdec).
  assert (plain (omName (yMeta y))) by by apply plain_segment.
  assert (plain "status") by by repeat split.
  unfold UpdateStatus, update_status_request. rewrite (start_spec rc _ Hns). cbn [mbind option_bind].
  rewrite (Name_spec rc _ Hns), (SubResource_spec rc _ Hns) by done.
  rewrite (VersionedParams_spec rc _ Hns _ _ _ _ _ params) by done.
  erewrite (Body_spec rc _ Hns) by (split; [exact Hd|reflexivity]).
  eapply send_answers; [rewrite (build_spec rc _ Hns) by (first [congruence | by left | by right]);
    reflexivity|].
  rewrite !filter_cons_True by done. by apply serves_status.
Qed.

Lemma Patch_refines ns name p s :
  good ns -> good name ->
  Patch T (YipYapSources (Some (New rc)) ns) name (patch_type p) (marshal ns name p)
    (patch_options p) [] s = Some (cl_Patch k ns name p s).
Proof using A.
  intros [Hne Hns] [Hname Hval]. destruct (encoded (patch_options p)) as [params Hp].
  assert (plain name) by by apply plain_segment.
  unfold Patch, patch_request. rewrite (start_with_spec rc ns Hns "PATCH" _ (Some (patch_type p))) by done.
  cbn [mbind option_bind].
  rewrite (Name_spec rc ns Hns), (no_SubResource_spec rc ns Hns) by done.
  rewrite (VersionedParams_spec rc ns Hns _ _ _ _ _ params) by done.
  erewrite (Body_spec rc ns Hns) by (split; reflexivity).
  eapply send_answers; [rewrite (build_spec rc ns Hns) by (first [congruence | by left | by right]);
    reflexivity|].
  rewrite !filter_cons_True by done. by apply serves_patch.
Qed.

End refinement.

(** The client of the reconciler, through the typed client.  The typed client of
    a process is never nil. *)
Definition wire_client `{Codec} {S} (marshal : string -> string -> patch -> Doc)
    (T : transport S) (c : option SourcesV1alpha1Client) : client S :=
  let or_nil res s := default (Err (ApiOther "nil client"), s) res in
  MkClient
    (fun ns name s => or_nil (Get T (YipYapSources c ns) name (GetOptions "") s) s)
    (fun y s => or_nil (UpdateStatus T (YipYapSources c (omNamespace (yMeta y))) y
                          (UpdateOptions [] "") s) s)
    (fun ns name p s => or_nil (Patch T (YipYapSources c ns) name (patch_type p)
                                  (marshal ns name p) (patch_options p) [] s) s).

(** A server whose answers carry the key that was asked for. *)
Class KeepsKeys {S} (k : client S) (inv : S -> Prop) := {
  get_keeps ns name s : inv s -> inv (cl_Get k ns name s).2;
  get_key ns name s y : inv s -> (cl_Get k ns name s).1 = Ok y -> key_of y = (ns, name);
  update_keeps y s : inv s -> inv (cl_UpdateStatus k y s).2
}.

Lemma env_step_versions sv : versions_ok sv -> versions_ok (env_step sv).
Proof.
  intros Hv. unfold env_step. destruct (svEnv sv) as [|[|key spec g] rest]; [done..|].
  cbn [env_act svStore]. destruct (svStore sv !! key) as [y|] eqn:Ey; [|done].
  apply put_versions; [done|]. apply (Hv _ _ Ey).
Qed.

#[export] Instance server_keeps_keys : KeepsKeys server_client versions_ok.
Proof.
  split.
  - intros ns name s Hv. by apply env_step_versions.
  - intros ns name s y Hv. cbn. destruct (svStore (env_step s) !! (ns, name)) as [z|] eqn:Ez; [|done].
    intros [= <-]. apply (env_step_versions s Hv _ _ Ez).
  - intros y s Hv%env_step_versions. cbn. unfold server_UpdateStatus.
    destruct (svStore (env_step s) !! key_of y) as [z|] eqn:Ez; [|done].
    destruct (negb _); [done|]. cbn [snd]. apply put_versions; [done|]. apply (Hv _ _ Ez).
Qed.

(** Updaters that agree where the invariant holds, and keep it, are retried
    alike. *)
Lemma retry_conflicts_ext {S} (inv : S -> Prop) f g :
  (forall n w, inv (wApi w) -> f n w = g n w /\ inv (wApi (g n w).2)) ->
  forall steps n last w, inv (wApi w) -> retry_conflicts steps n last f w = retry_conflicts steps n last g w.
Proof.
  intros Hfg steps. induction steps as [|steps IH]; intros n last w Hw; [done|].
  cbn [retry_conflicts]. unfold mbind, M_bind. destruct (Hfg n w Hw) as [-> Hinv].
  destruct (g n w) as [[e|] w']; [|done]. destruct (IsConflict e); [|done]. by apply IH.
Qed.

(** C40. The typed client implements the client the generated reconciler is
    proved against, [k]: over a server that keeps the conventions of the API,
    reading an object, writing its status and patching it are the operations of
    [k], for every namespace and name the REST client accepts; and the
    write-back of the status of a source, with its retries, is the same through
    the typed client as through [k]. *)
Theorem typed_client_refines `{Codec} {S} rc (k : client S) marshal T inv
    `{!ApiServer rc k marshal T, !KeepsKeys k inv} :
  (forall ns name s, good ns -> good name ->
     Get T (YipYapSources (Some (New rc)) ns) name (GetOptions "") s = Some (cl_Get k ns name s) /\
     (forall p, Patch T (YipYapSources (Some (New rc)) ns) name (patch_type p) (marshal ns name p)
        (patch_options p) [] s = Some (cl_Patch k ns name p s)) /\
     (forall y, key_of y = (ns, name) ->
        UpdateStatus T (YipYapSources (Some (New rc)) ns) y (UpdateOptions [] "") s
        = Some (cl_UpdateStatus k y s))) /\
  (forall (r : reconcilerImpl S) existing desired w, inv (wApi w) ->
     key_of existing = key_of desired -> good (key_of desired).1 -> good (key_of desired).2 ->
     updateStatus (with_client (wire_client marshal T (Some (New rc))) r) existing desired w
     = updateStatus (with_client k r) existing desired w).
Proof.
  assert (forall ns name y, key_of y = (ns, name) -> good ns -> good name -> forall s,
    UpdateStatus T (YipYapSources (Some (New rc)) (omNamespace (yMeta y))) y (UpdateOptions [] "") s
    = Some (cl_UpdateStatus k y s)) as Hup.
  { intros ns name y [= <- <-] ? ? s. by apply (UpdateStatus_refines rc k marshal T). }
  split.
  - intros ns name s Hns Hname. split; [by apply (Get_refines rc k marshal T)|].
    split; [intros p; by apply (Patch_refines rc k marshal T)|].
    intros y Hy. pose proof (Hup _ _ y Hy Hns Hname s) as E. by injection Hy as <- <-.
  - intros r existing desired w Hw Hkey Hns Hname.
    apply (retry_conflicts_ext inv); [|done]. clear w Hw. intros n w Hw.
    assert (forall w y, inv (wApi w) -> key_of y = key_of desired ->
      let attempt c := (if bool_decide (yStatus y = yStatus desired) then mret None
        else res ← api (cl_UpdateStatus c (with_status y (yStatus desired)));
             mret (match res with Ok _ => None | Err e => Some (EApi e) end)) w in
      attempt (wire_client marshal T (Some (New rc))) = attempt k /\ inv (wApi (attempt k).2))
      as Hwrite.
    { intros w' y Hw' Hy attempt. unfold attempt. case_bool_decide; [done|].
      unfold mbind, M_bind, api. cbn [wire_client cl_UpdateStatus].
      rewrite (Hup (key_of desired).1 (key_of desired).2 (with_status y (yStatus desired)))
        by (first [exact Hy | done]).
      cbn [default from_option]. pose proof (update_keeps (with_status y (yStatus desired)) (wApi w') Hw').
      by destruct (cl_UpdateStatus k _ _). }
    unfold update_attempt. unfold mbind, M_bind, mret, M_ret, api in *.
    cbn [with_client KindReconciler.Client].
    destruct (0 <? n)%nat; [|by apply (Hwrite w existing)].
    cbn [wire_client cl_Get].
    rewrite (Get_refines rc k marshal T) by done. cbn [default from_option].
    pose proof (get_keeps (omNamespace (yMeta desired)) (omName (yMeta desired)) (wApi w) Hw) as Hk.
    pose proof (get_key (omNamespace (yMeta desired)) (omName (yMeta desired)) (wApi w)) as Hy.
    destruct (cl_Get k _ _ (wApi w)) as [[y|e] s']; [|done].
    apply (Hwrite (MkWorld s' (wTicks w) (wEvents w)) y); [done|]. by apply (Hy y).
Qed.

(** ** A server *)

(** Documents that are what they encode. *)
Inductive sample_doc :=
| DSource (y : YipYapSource)
| DList (l : list YipYapSource)
| DDelete (propagationPolicy : option string)
| DPatch (p : patch).

Definition sample_codec : Codec := {|
  Doc := sample_doc;
  EncodeParameters := fun _ _ => Ok ∅;
  Encode := fun _ b =>
    Ok match b with
       | BodyObject y => DSource y
       | BodyDeleteOptions p => DDelete p
       | BodyBytes d => d
       end;
  DecodeSource := fun d => match d with DSource y => Ok y | _ => Err "not a source" end;
  DecodeList := fun d => match d with DList l => Ok l | _ => Err "not a list" end
|}.

Fixpoint strip_list (p l : list string) : option (list string) :=
  match p, l with
  | [], _ => Some l
  | a :: p, b :: l => if String.eqb a b then strip_list p l else None
  | _, _ => None
  end.

Lemma strip_list_app p l : strip_list p (p ++ l) = Some l.
Proof. induction p as [|a p IH]; [done|]. cbn. by rewrite String.eqb_refl. Qed.

#[local] Existing Instance sample_codec.

(** Requests are told apart by the method and the segments of the path. *)
Definition route {S} (rc : RESTClient) (k : client S) : transport S := fun h s =>
  match strip_list (client_prefix rc) (segments (uPath (hqURL h))), hqMethod h, hqBody h with
  | Some ["namespaces"; ns; "yipyapsources"; name], "GET", _ => answer DSource (cl_Get k ns name s)
  | Some ["namespaces"; ns; "yipyapsources"; name], "PATCH", Some (DPatch p) =>
      answer DSource (cl_Patch k ns name p s)
  | Some ["namespaces"; ns; "yipyapsources"; name; "status"], "PUT", Some (DSource y) =>
      answer DSource (cl_UpdateStatus k y s)
  | _, _, _ => (Err (ApiOther "the server could not find the requested resource"), s)
  end.

Lemma destination_segments rc ns rest :
  good ns -> Forall plain rest ->
  strip_list (client_prefix rc) (segments (uPath (destination rc ns rest)))
    = Some ("namespaces" :: ns :: "yipyapsources" :: rest).
Proof.
  intros [Hne Hns] Hrest. unfold destination, scope.
  destruct (String.eqb_spec ns ""); [done|]. cbn [set_Path uPath].
  rewrite segments_abs; [by rewrite strip_list_app|].
  apply Forall_app. split; [apply client_prefix_plain|].
  constructor; [by repeat split|]. constructor; [by apply plain_segment|].
  constructor; [by repeat split|done].
Qed.

#[export] Instance route_serves {S} rc (k : client S) :
  ApiServer rc k (fun _ _ p => DPatch p) (route rc k).
Proof.
  assert (forall s, good s -> plain s) as Hp by (intros s []; by apply plain_segment).
  assert (plain "status") by by repeat split.
  refine {| document := DSource |}; try done.
  - intros y. exists (DSource y). done.
  - intros ns name params t ct b s Hns Hname. unfold route. cbn [hqURL hqMethod hqBody].
    rewrite destination_segments by (rewrite ?Forall_cons; auto). done.
  - intros y d params t ct s Hns Hname Hd. unfold route. cbn [hqURL hqMethod hqBody].
    rewrite destination_segments by (rewrite ?Forall_cons; auto).
    destruct d; cbn in Hd; simplify_eq. done.
  - intros ns name p params t s Hns Hname Hd. unfold route. cbn [hqURL hqMethod hqBody].
    rewrite destination_segments by (rewrite ?Forall_cons; auto). done.
Qed.

(** ** Witnesses *)

Definition sample_host : URL := MkURL "https" "" None "proxy:6443" "/k8s" "" false false "" "" "".

(** A client behind a proxy. *)
Definition sample_rest : RESTClient :=
  NewRESTClient sample_host "/apis/sources.yipyap.run/v1alpha1" "" SchemeGroupVersion None None.

Example sample_get_path :
  uPath (destination sample_rest "default" ["demo"; "status"])
  = "/k8s/apis/sources.yipyap.run/v1alpha1/namespaces/default/yipyapsources/demo/status".
Proof. reflexivity. Qed.

Lemma typed_requests_witness :
  let c := YipYapSources (Some (New sample_rest)) "default" in
  exists h, build <$> update_status_request c sample_source (UpdateOptions [] "") = Some (Ok h) /\
    hqMethod h = "PUT" /\ hqBody h = Some (DSource sample_source) /\
    uPath (hqURL h)
    = "/k8s/apis/sources.yipyap.run/v1alpha1/namespaces/default/yipyapsources/demo/status".
Proof.
  cbv zeta.
  destruct (@typed_requests sample_codec sample_rest "default" "demo" (UpdateOptions [] "") ∅
    (MkListOptions "" "" false None) (fun _ => ∅) sample_source (DSource sample_source)
    None (DDelete None) (DSource sample_source) "") as (_&_&_&_&_&E&_).
  - reflexivity.
  - discriminate.
  - reflexivity.
  - reflexivity.
  - reflexivity.
  - intros w. reflexivity.
  - reflexivity.
  - reflexivity.
  - reflexivity.
  - eexists. split; [exact E|]. split; [reflexivity|]. split; reflexivity.
Defined.

Lemma typed_client_refines_witness :
  let c := wire_client (fun _ _ p => DPatch p) (route sample_rest server_client)
             (Some (New sample_rest)) in
  let desired := with_status sample_source wanted_status in
  exists w', updateStatus (with_client c (sample_reconciler server_client true))
      sample_source desired sample_world = (None, w') /\
    (yStatus <$> svStore (wApi w') !! sample_key) = Some wanted_status.
Proof.
  cbv zeta.
  destruct (@typed_client_refines sample_codec server sample_rest server_client
    (fun _ _ p => DPatch p) (route sample_rest server_client) versions_ok _ _) as [_ Hup].
  rewrite (Hup (sample_reconciler server_client true) sample_source
    (with_status sample_source wanted_status) sample_world).
  - eexists. split; vm_compute; reflexivity.
  - apply map_Forall_singleton. split; [reflexivity|]. exists 17%N. split; reflexivity.
  - reflexivity.
  - split; [discriminate|reflexivity].
  - split; [discriminate|reflexivity].
Defined.
