(* ===== verification/Clientset.v ===== *)
(** * The clientset (clientset/versioned/clientset.go)

    The client of the sources and the discovery client, made from one
    configuration.  They share a transport and, when the configuration asks for
    a rate without giving a limiter, one limiter made for both. *)

From Stdlib Require Import QArith.
From S2P Require Import Prelude GoStrings GoTime Types KindReconciler Rest SourcesClient.
Local Open Scope string_scope.
Local Open Scope list_scope.

(** ** The discovery client (client-go/discovery) *)

Record DiscoveryClient := MkDiscoveryClient {
  dcRestClient : RESTClient;
  LegacyPrefix : string;
  UseLegacyDiscovery : bool
}.

Record Clientset := MkClientset {
  csDiscoveryClient : DiscoveryClient;
  sourcesV1alpha1 : SourcesV1alpha1Client
}.

(** The accessors; the second is nil on a nil clientset, the first panics. *)
Definition SourcesV1alpha1 (c : option Clientset) : option SourcesV1alpha1Client :=
  sourcesV1alpha1 <$> c.
Definition Discovery (c : option Clientset) : option DiscoveryClient := csDiscoveryClient <$> c.

Section clientset.
Context `{UrlLib, Environment}.

Definition setDiscoveryDefaults (config : Config) : Config :=
  MkConfig (Host config) "" None (Some DiscoveryCodec) (defaultTLS config)
    (if String.eqb (UserAgent config) "" then DefaultKubernetesUserAgent else UserAgent config)
    (QPS config) (if (Burst config =? 0)%Z then 300 else Burst config)%Z (RateLimiter config)
    (if (CfgTimeout config =? 0)%Z then 32 * Second else CfgTimeout config)%Z (ContentType config).

Definition NewDiscoveryClientForConfigAndClient (c : Config) (h : option http_client)
    (b : buckets) : result string DiscoveryClient * buckets :=
  let config := setDiscoveryDefaults c in
  let '(client, b) := UnversionedRESTClientForConfigAndClient config h b in
  (client ← client; Ok (MkDiscoveryClient client "/api" false), b).

Definition NewDiscoveryClient (c : RESTClient) : DiscoveryClient :=
  MkDiscoveryClient c "/api" false.

(** ** Construction (clientset.go) *)

Definition set_RateLimiter (l : nat) (c : Config) : Config :=
  MkConfig (Host c) (APIPath c) (CfgGroupVersion c) (NegotiatedSerializer c) (defaultTLS c)
    (UserAgent c) (QPS c) (Burst c) (Some l) (CfgTimeout c) (ContentType c).

Definition set_UserAgent (a : string) (c : Config) : Config :=
  MkConfig (Host c) (APIPath c) (CfgGroupVersion c) (NegotiatedSerializer c) (defaultTLS c)
    a (QPS c) (Burst c) (RateLimiter c) (CfgTimeout c) (ContentType c).

Definition burst_error : string :=
  "burst is required to be greater than 0 when RateLimiter is not set and QPS is set to greater than 0".

(** The limiter for both clients, when a rate is asked for. *)
Definition shared_limiter (c : Config) (b : buckets) : result string Config * buckets :=
  if bool_decide (RateLimiter c = None) && negb (Qle_bool (QPS c) 0) then
    if (Burst c <=? 0)%Z then (Err burst_error, b)
    else let '(l, b) := NewTokenBucketRateLimiter (QPS c) (Burst c) b in (Ok (set_RateLimiter l c), b)
  else (Ok c, b).

(** The two clients of the configuration. *)
Definition new_clients (config : Config) (httpClient : option http_client) (b : buckets)
    : result string Clientset * buckets :=
  match SourcesClient.NewForConfigAndClient config httpClient b with
  | (Err e, b) => (Err e, b)
  | (Ok sources, b) =>
      match NewDiscoveryClientForConfigAndClient config httpClient b with
      | (Err e, b) => (Err e, b)
      | (Ok discovery, b) => (Ok (MkClientset discovery sources), b)
      end
  end.

Definition NewForConfigAndClient (c : Config) (httpClient : option http_client) (b : buckets)
    : result string Clientset * buckets :=
  match shared_limiter c b with
  | (Err e, b) => (Err e, b)
  | (Ok config, b) => new_clients config httpClient b
  end.

Definition NewForConfig (c : Config) (b : buckets) : result string Clientset * buckets :=
  let config := if String.eqb (UserAgent c) "" then set_UserAgent DefaultKubernetesUserAgent c else c in
  match HTTPClientFor config with
  | Err e => (Err e, b)
  | Ok httpClient => NewForConfigAndClient config (Some httpClient) b
  end.

(** [None] is the panic. *)
Definition NewForConfigOrDie (c : Config) (b : buckets) : option (Clientset * buckets) :=
  match NewForConfig c b with
  | (Ok cs, b) => Some (cs, b)
  | (Err _, _) => None
  end.

Definition New (c : RESTClient) : Clientset := MkClientset (NewDiscoveryClient c) (SourcesClient.New c).

(** ** Lemmas *)

(** Whether the host of a configuration is one does not depend on the paths. *)
Lemma server_url_paths config config' :
  Host config = Host config' -> defaultTLS config = defaultTLS config' ->
  is_ok (DefaultServerUrlFor config) = is_ok (DefaultServerUrlFor config').
Proof.
  unfold DefaultServerUrlFor, DefaultServerURL. intros -> ->.
  destruct (String.eqb (if String.eqb (Host config') "" then _ else _) ""); [done|]. cbv zeta.
  by match goal with |- is_ok (?x ≫= _) = _ => destruct x end.
Qed.

Lemma client_limiter_given l config b :
  RateLimiter config = Some l -> client_limiter config b = (Some l, b).
Proof. unfold client_limiter. by intros ->. Qed.

(** What a limiter a client made for itself is, by the rate asked for. *)
Definition own_limiter (qps : Q) (burst : Z) (b : buckets) : option nat * buckets :=
  if Qle_bool qps 0 && negb (Qeq_bool qps 0) then (None, b)
  else (Some (length b), b ++ [(if Qeq_bool qps 0 then DefaultQPS else qps,
                               if (burst =? 0)%Z then DefaultBurst else burst)]).

Lemma client_limiter_own config b :
  RateLimiter config = None -> client_limiter config b = own_limiter (QPS config) (Burst config) b.
Proof.
  unfold client_limiter, own_limiter, NewTokenBucketRateLimiter. intros ->.
  destruct (Qeq_bool (QPS config) 0) eqn:E; [by rewrite andb_false_r|].
  by destruct (Qle_bool (QPS config) 0).
Qed.

(** Both clients are made if the host is one, each with the limiter it gets. *)
Lemma new_clients_spec c h b :
  is_ok (new_clients c h b).1 = is_ok (DefaultServerUrlFor c) /\
  (forall cs b', new_clients c h b = (Ok cs, b') ->
     let src := restClient (sourcesV1alpha1 cs) in
     let dsc := dcRestClient (csDiscoveryClient cs) in
     Client src = h /\ Client dsc = h /\
     groupVersion src = SchemeGroupVersion /\ groupVersion dsc = meta_v1 /\
     exists b1, client_limiter (setConfigDefaults c) b = (rateLimiter src, b1) /\
                client_limiter (setDiscoveryDefaults c) b1 = (rateLimiter dsc, b')).
Proof.
  unfold new_clients, SourcesClient.NewForConfigAndClient, RESTClientForConfigAndClient,
    NewDiscoveryClientForConfigAndClient, UnversionedRESTClientForConfigAndClient.
  change (CfgGroupVersion (setConfigDefaults c)) with (Some SchemeGroupVersion).
  change (NegotiatedSerializer (setConfigDefaults c)) with (Some GeneratedClientCodec).
  change (NegotiatedSerializer (setDiscoveryDefaults c)) with (Some DiscoveryCodec). cbv iota.
  pose proof (server_url_paths (setConfigDefaults c) c eq_refl eq_refl) as Hs.
  pose proof (server_url_paths (setDiscoveryDefaults c) c eq_refl eq_refl) as Hd.
  destruct (DefaultServerUrlFor (setConfigDefaults c)) as [[u p]|e]; [|by split].
  destruct (client_limiter (setConfigDefaults c) b) as [l1 b1] eqn:E1. cbn [mbind option_bind].
  destruct (DefaultServerUrlFor (setDiscoveryDefaults c)) as [[u' p']|e]; [|cbn in *; congruence].
  destruct (client_limiter (setDiscoveryDefaults c) b1) as [l2 b2] eqn:E2.
  split; [done|]. intros cs b' [= <- <-]. split_and!; try done. by exists b1.
Qed.

(** ** Theorems *)

(** A clientset is made exactly when the host is one and, if no limiter is
    given and a rate is asked for, the burst is positive.  Its two clients then
    use the given transport, and the limiter: the given one; or one token bucket
    of the rate and burst asked for, shared by both; or, for a rate of zero,
    each its own with the default rate, discovery with a greater burst; or none
    at all for a negative rate. *)
Theorem clientset_construction c h b :
  (is_ok (NewForConfigAndClient c h b).1 = true <->
     is_ok (DefaultServerUrlFor c) = true /\
     (RateLimiter c = None -> Qle_bool (QPS c) 0 = false -> 0 < Burst c)%Z) /\
  (forall cs b', NewForConfigAndClient c h b = (Ok cs, b') ->
     let src := restClient (sourcesV1alpha1 cs) in
     let dsc := dcRestClient (csDiscoveryClient cs) in
     Client src = h /\ Client dsc = h /\
     groupVersion src = SchemeGroupVersion /\ groupVersion dsc = meta_v1 /\
     match RateLimiter c with
     | Some l => rateLimiter src = Some l /\ rateLimiter dsc = Some l /\ b' = b
     | None =>
         if Qle_bool (QPS c) 0 then
           let '(l1, b1) := own_limiter (QPS c) (Burst c) b in
           let '(l2, b2) := own_limiter (QPS c) (if (Burst c =? 0)%Z then 300 else Burst c)%Z b1 in
           rateLimiter src = l1 /\ rateLimiter dsc = l2 /\ b' = b2
         else rateLimiter src = Some (length b) /\ rateLimiter dsc = Some (length b) /\
              b' = b ++ [(QPS c, Burst c)]
     end).
Proof.
  unfold NewForConfigAndClient, shared_limiter, NewTokenBucketRateLimiter.
  destruct (RateLimiter c) as [l|] eqn:El; cbn [bool_decide decide].
  - rewrite bool_decide_false by done. cbn [andb].
    destruct (new_clients_spec c h b) as [Hok Hcs]. split; [rewrite Hok; naive_solver|].
    intros cs b' (?&?&?&?&b1&E1&E2)%Hcs. split_and!; try done;
      rewrite (client_limiter_given l) in E1 by done; simplify_eq;
      rewrite (client_limiter_given l) in E2 by done; by simplify_eq.
  - rewrite bool_decide_true by done. destruct (Qle_bool (QPS c) 0) eqn:Eq; cbn [andb negb].
    + destruct (new_clients_spec c h b) as [Hok Hcs]. split; [rewrite Hok; naive_solver|].
      intros cs b' (?&?&?&?&b1&E1&E2)%Hcs. split_and!; try done.
      rewrite client_limiter_own in E1 by done. rewrite client_limiter_own in E2 by done.
      cbn [setConfigDefaults setDiscoveryDefaults QPS Burst] in E1, E2. by rewrite E1, E2.
    + destruct (Z.leb_spec (Burst c) 0) as [Hb|Hb].
      { split; [|done]. split; [done|]. intros [_ Hpos]. specialize (Hpos eq_refl eq_refl). lia. }
      destruct (new_clients_spec (set_RateLimiter (length b) c) h (b ++ [(QPS c, Burst c)]))
        as [Hok Hcs].
      split; [rewrite Hok, (server_url_paths (set_RateLimiter (length b) c) c) by done; naive_solver|].
      intros cs b' (?&?&?&?&b1&E1&E2)%Hcs. split_and!; try done;
        rewrite (client_limiter_given (length b)) in E1 by done; simplify_eq;
        rewrite (client_limiter_given (length b)) in E2 by done; by simplify_eq.
Qed.

(** The constructor that panics does so exactly when there is no transport or no
    clientset; a caller that sets a rate and forgets the burst panics. *)
Theorem clientset_or_die c b :
  (NewForConfigOrDie c b = None <-> is_ok (NewForConfig c b).1 = false) /\
  (RateLimiter c = None -> Qle_bool (QPS c) 0 = false -> (Burst c <= 0)%Z ->
     NewForConfigOrDie c b = None).
Proof.
  split.
  - unfold NewForConfigOrDie. destruct (NewForConfig c b) as [[cs|e] b']; naive_solver.
  - intros Hl Hq Hb. unfold NewForConfigOrDie, NewForConfig.
    set (c' := if String.eqb (UserAgent c) "" then _ else c).
    assert (RateLimiter c' = None /\ Qle_bool (QPS c') 0 = false /\ (Burst c' <= 0)%Z) as (Hl'&Hq'&Hb')
      by (unfold c'; by destruct (String.eqb _ _)).
    destruct (HTTPClientFor c') as [h|e]; [|done].
    unfold NewForConfigAndClient, shared_limiter. rewrite Hl', Hq', bool_decide_true by done.
    cbn [andb negb]. by rewrite (proj2 (Z.leb_le _ _) Hb').
Qed.

End clientset.

(** ** Witnesses *)

Definition sample_environment : Environment := {|
  HTTPClientFor := fun c => if String.eqb (Host c) "badtls" then Err "bad certificate"
                            else Ok (MkHttpClient 3 (CfgTimeout c));
  DefaultKubernetesUserAgent := "controller/v0.0.0 (linux/amd64) kubernetes/unknown"
|}.

(** The configuration of the controller process, with a rate and a burst. *)
Definition sample_config : Config :=
  MkConfig "https://proxy:6443" "" None None false "" 5 10 None 0 "".

Lemma clientset_construction_witness :
  exists cs, NewForConfigAndClient (H := plain_url_lib) (H0 := sample_environment)
    sample_config None [] = (Ok cs, [(5%Q, 10%Z)]) /\
    rateLimiter (restClient (sourcesV1alpha1 cs)) = Some 0%nat /\
    rateLimiter (dcRestClient (csDiscoveryClient cs)) = Some 0%nat.
Proof.
  destruct (clientset_construction (H := plain_url_lib) (H0 := sample_environment)
    sample_config None []) as [[_ Hok] Hcs].
  specialize (Hok (conj eq_refl (fun _ _ => eq_refl))).
  destruct (NewForConfigAndClient (H := plain_url_lib) (H0 := sample_environment) sample_config
    None []) as [[cs|e] b'] eqn:E; [|discriminate Hok].
  exists cs. destruct (Hcs cs b' eq_refl) as (_&_&_&_&Hl&Hd&->).
  split; [reflexivity|]. split; [exact Hl|exact Hd].
Defined.
