(* ===== verification/Informers.v ===== *)
(** * Informers and listers (pkg/client/informers, pkg/client/listers)

    The shared informer factory the controller gets its caches from
    (externalversions/factory.go, generic.go, sources/...): informers are
    created once per type and run at most once.  An informer is the index of a
    record in the world, so that sharing shows; the goroutines that run
    informers are the world's, with the calls of [Run] so far and the ones that
    ended.  A type is its name.  The lock makes each operation one step.

    The lister of the sources over the informer's indexer (listers/sources and
    client-go's generic lister), as the generated reconciler uses it. *)

From S2P Require Import Prelude GoStrings CondSet Types.
Local Open Scope string_scope.
Local Open Scope list_scope.

(** ** Informers *)

Definition NamespaceAll : string := "".
Definition NamespaceIndex : string := "namespace".

(** The arguments of [cache.NewSharedIndexInformer]; a function is a number. *)
Record informer := MkInformer {
  ifObject : string;
  ifNamespace : string;
  ifTweakListOptions : option nat;
  ifResync : Z;
  ifIndexers : list string;
  ifTransform : option nat
}.

Definition SetTransform (t : option nat) (i : informer) : informer :=
  MkInformer (ifObject i) (ifNamespace i) (ifTweakListOptions i) (ifResync i) (ifIndexers i) t.

Record sharedInformerFactory := MkFactory {
  fNamespace : string;
  fTweakListOptions : option nat;
  fDefaultResync : Z;
  fCustomResync : gmap string Z;
  fTransform : option nat;
  fInformers : gmap string nat;
  fStartedInformers : gmap string bool;
  fWg : Z;
  fShuttingDown : bool
}.

(** The factory, the informers there are, the calls of [Run] with the stop
    channel of each, and the informers whose [Run] returned. *)
Record world := MkWorld {
  wFactory : sharedInformerFactory;
  wHeap : list informer;
  wRuns : list (nat * nat);
  wDone : list nat
}.

Definition with_factory (f : sharedInformerFactory) (w : world) : world :=
  MkWorld f (wHeap w) (wRuns w) (wDone w).

(** ** Construction (factory.go) *)

Definition SharedInformerOption : Type := sharedInformerFactory -> sharedInformerFactory.

Definition WithCustomResyncConfig (resyncConfig : gmap string Z) : SharedInformerOption := fun f =>
  MkFactory (fNamespace f) (fTweakListOptions f) (fDefaultResync f)
    (resyncConfig ∪ fCustomResync f) (fTransform f) (fInformers f) (fStartedInformers f)
    (fWg f) (fShuttingDown f).

Definition WithTweakListOptions (tweak : option nat) : SharedInformerOption := fun f =>
  MkFactory (fNamespace f) tweak (fDefaultResync f) (fCustomResync f) (fTransform f)
    (fInformers f) (fStartedInformers f) (fWg f) (fShuttingDown f).

Definition WithNamespace (namespace : string) : SharedInformerOption := fun f =>
  MkFactory namespace (fTweakListOptions f) (fDefaultResync f) (fCustomResync f) (fTransform f)
    (fInformers f) (fStartedInformers f) (fWg f) (fShuttingDown f).

Definition WithTransform (transform : option nat) : SharedInformerOption := fun f =>
  MkFactory (fNamespace f) (fTweakListOptions f) (fDefaultResync f) (fCustomResync f) transform
    (fInformers f) (fStartedInformers f) (fWg f) (fShuttingDown f).

Definition NewSharedInformerFactoryWithOptions (defaultResync : Z)
    (options : list SharedInformerOption) : sharedInformerFactory :=
  foldl (fun f opt => opt f) (MkFactory NamespaceAll None defaultResync ∅ None ∅ ∅ 0 false) options.

Definition NewSharedInformerFactory (defaultResync : Z) : sharedInformerFactory :=
  NewSharedInformerFactoryWithOptions defaultResync [].

Definition NewFilteredSharedInformerFactory (defaultResync : Z) (namespace : string)
    (tweak : option nat) : sharedInformerFactory :=
  NewSharedInformerFactoryWithOptions defaultResync
    [WithNamespace namespace; WithTweakListOptions tweak].

(** [withInformerFactory] of the injection package. *)
Definition withInformerFactory (scope : option string) (resync : Z) : sharedInformerFactory :=
  NewSharedInformerFactoryWithOptions resync
    match scope with Some ns => [WithNamespace ns] | None => [] end.

(** ** Operations (factory.go) *)

Definition InformerFor (informerType : string) (newFunc : Z -> informer) (w : world)
    : nat * world :=
  let f := wFactory w in
  match fInformers f !! informerType with
  | Some i => (i, w)
  | None =>
      let resyncPeriod := default (fDefaultResync f) (fCustomResync f !! informerType) in
      let i := length (wHeap w) in
      (i, MkWorld
            (MkFactory (fNamespace f) (fTweakListOptions f) (fDefaultResync f) (fCustomResync f)
               (fTransform f) (<[informerType := i]> (fInformers f)) (fStartedInformers f)
               (fWg f) (fShuttingDown f))
            (wHeap w ++ [SetTransform (fTransform f) (newFunc resyncPeriod)]) (wRuns w) (wDone w))
  end.

Definition started (f : sharedInformerFactory) (informerType : string) : bool :=
  default false (fStartedInformers f !! informerType).

(** One round of the loop of [Start]: a goroutine runs the informer. *)
Definition start_one (stopCh : nat) (w : world) (entry : string * nat) : world :=
  let f := wFactory w in
  if started f entry.1 then w
  else MkWorld
    (MkFactory (fNamespace f) (fTweakListOptions f) (fDefaultResync f) (fCustomResync f)
       (fTransform f) (fInformers f) (<[entry.1 := true]> (fStartedInformers f))
       (fWg f + 1) (fShuttingDown f))
    (wHeap w) (wRuns w ++ [(entry.2, stopCh)]) (wDone w).

Definition Start (stopCh : nat) (w : world) : world :=
  if fShuttingDown (wFactory w) then w
  else foldl (start_one stopCh) w (map_to_list (fInformers (wFactory w))).

(** The goroutine of an informer ends, once its channel is closed. *)
Definition Finish (i : nat) (w : world) : world :=
  let f := wFactory w in
  if bool_decide (i ∈ map fst (wRuns w)) && bool_decide (i ∉ wDone w) then
    MkWorld
      (MkFactory (fNamespace f) (fTweakListOptions f) (fDefaultResync f) (fCustomResync f)
         (fTransform f) (fInformers f) (fStartedInformers f) (fWg f - 1) (fShuttingDown f))
      (wHeap w) (wRuns w) (wDone w ++ [i])
  else w.

(** [Shutdown], up to the wait, which ends when the counter is zero. *)
Definition Shutdown (w : world) : world :=
  let f := wFactory w in
  with_factory
    (MkFactory (fNamespace f) (fTweakListOptions f) (fDefaultResync f) (fCustomResync f)
       (fTransform f) (fInformers f) (fStartedInformers f) (fWg f) true) w.

Definition Shutdown_returns (w : world) : bool := (fWg (wFactory w) =? 0)%Z.

(** The answers, from whether an informer syncs before the channel closes. *)
Definition WaitForCacheSync (synced : nat -> bool) (w : world) : gmap string bool :=
  let f := wFactory w in
  synced <$> filter (fun entry => started f entry.1 = true) (fInformers f).

(** ** The informer of the sources (sources/v1alpha1/yipyapsource.go) *)

Record yipYapSourceInformer := MkYipYapSourceInformer {
  yiNamespace : string;
  yiTweakListOptions : option nat
}.

(** [Sources().V1alpha1().YipYapSources()]: the group and the version hand the
    namespace and the tweak of the factory on (sources/interface.go,
    sources/v1alpha1/interface.go).  The factory they refer to is the world's. *)
Record group := MkGroup { grNamespace : string; grTweakListOptions : option nat }.
Record version := MkVersion { veNamespace : string; veTweakListOptions : option nat }.

Definition sources_New (namespace : string) (tweak : option nat) : group := MkGroup namespace tweak.
Definition v1alpha1_New (namespace : string) (tweak : option nat) : version :=
  MkVersion namespace tweak.

Definition Sources (f : sharedInformerFactory) : group :=
  sources_New (fNamespace f) (fTweakListOptions f).
Definition V1alpha1 (g : group) : version := v1alpha1_New (grNamespace g) (grTweakListOptions g).
Definition version_YipYapSources (v : version) : yipYapSourceInformer :=
  MkYipYapSourceInformer (veNamespace v) (veTweakListOptions v).

Definition YipYapSources (f : sharedInformerFactory) : yipYapSourceInformer :=
  version_YipYapSources (V1alpha1 (Sources f)).

Lemma YipYapSources_eq f :
  YipYapSources f = MkYipYapSourceInformer (fNamespace f) (fTweakListOptions f).
Proof. done. Qed.

Definition source_type : string := "*v1alpha1.YipYapSource".

Definition NewFilteredYipYapSourceInformer (namespace : string) (resyncPeriod : Z)
    (indexers : list string) (tweak : option nat) : informer :=
  MkInformer source_type namespace tweak resyncPeriod indexers None.

Definition NewYipYapSourceInformer (namespace : string) (resyncPeriod : Z)
    (indexers : list string) : informer :=
  NewFilteredYipYapSourceInformer namespace resyncPeriod indexers None.

(** The namespace and the options its four list and watch functions ask the
    client with. *)
Definition list_request {O : Type} (tweaks : nat -> O -> O) (i : informer) (options : O)
    : string * O :=
  (ifNamespace i,
   match ifTweakListOptions i with Some t => tweaks t options | None => options end).

Definition defaultInformer (y : yipYapSourceInformer) (resyncPeriod : Z) : informer :=
  NewFilteredYipYapSourceInformer (yiNamespace y) resyncPeriod [NamespaceIndex]
    (yiTweakListOptions y).

Definition Informer (y : yipYapSourceInformer) : world -> nat * world :=
  InformerFor source_type (defaultInformer y).

(** [ForResource] (generic.go). *)
Definition ForResource (group version resource : string) (w : world)
    : result string ((GroupResource * nat) * world) :=
  if String.eqb group (gvGroup SchemeGroupVersion)
     && String.eqb version (gvVersion SchemeGroupVersion) && String.eqb resource "yipyapsources"
  then
    let '(i, w) := Informer (YipYapSources (wFactory w)) w in
    Ok ((MkGroupResource group resource, i), w)
  else Err ("no informer found for " +:+ group +:+ "/" +:+ version +:+ ", Resource=" +:+ resource).

(** ** Runs of a factory *)

Inductive factory_op :=
| OpInformerFor (informerType : string) (newFunc : Z -> informer)
| OpStart (stopCh : nat)
| OpFinish (i : nat)
| OpShutdown.

Definition factory_step (w : world) (o : factory_op) : world :=
  match o with
  | OpInformerFor t newFunc => (InformerFor t newFunc w).2
  | OpStart stopCh => Start stopCh w
  | OpFinish i => Finish i w
  | OpShutdown => Shutdown w
  end.

Definition new_world (defaultResync : Z) (options : list SharedInformerOption) : world :=
  MkWorld (NewSharedInformerFactoryWithOptions defaultResync options) [] [] [].

(** ** The invariant *)

Definition run_informers (w : world) : list nat := map fst (wRuns w).

Record factory_ok (w : world) : Prop := {
  fo_once : NoDup (run_informers w);
  fo_done_once : NoDup (wDone w);
  fo_done : forall i, i ∈ wDone w -> i ∈ run_informers w;
  fo_started : forall t i, fInformers (wFactory w) !! t = Some i ->
    started (wFactory w) t = true <-> i ∈ run_informers w;
  fo_run : forall i, i ∈ run_informers w -> exists t, fInformers (wFactory w) !! t = Some i;
  fo_inj : forall t t' i, fInformers (wFactory w) !! t = Some i ->
    fInformers (wFactory w) !! t' = Some i -> t = t';
  fo_heap : forall t i, fInformers (wFactory w) !! t = Some i -> (i < length (wHeap w))%nat;
  fo_known : forall t, started (wFactory w) t = true -> is_Some (fInformers (wFactory w) !! t);
  fo_wg : fWg (wFactory w) = (Z.of_nat (length (wRuns w)) - Z.of_nat (length (wDone w)))%Z
}.

(** The options of the package. *)
Inductive package_option : SharedInformerOption -> Prop :=
| po_resync m : package_option (WithCustomResyncConfig m)
| po_tweak t : package_option (WithTweakListOptions t)
| po_namespace ns : package_option (WithNamespace ns)
| po_transform t : package_option (WithTransform t).

Lemma new_world_ok r options : Forall package_option options -> factory_ok (new_world r options).
Proof.
  intros Hopts. unfold new_world, NewSharedInformerFactoryWithOptions.
  set (P f := fInformers f = ∅ /\ fStartedInformers f = ∅ /\ fWg f = 0%Z).
  assert (P (foldl (fun f opt => opt f)
    (MkFactory NamespaceAll None r ∅ None ∅ ∅ 0 false) options)) as (Hi&Hs&Hw).
  { apply foldl_inv; [done|]. intros f opt Hopt Hf. rewrite Forall_forall in Hopts.
    by destruct (Hopts _ Hopt). }
  split; cbn; try (by constructor); try set_solver;
    unfold started; rewrite ?Hi, ?Hs, ?Hw; try done; intros *; by rewrite lookup_empty.
Qed.

Lemma InformerFor_ok t newFunc w : factory_ok w -> factory_ok (InformerFor t newFunc w).2.
Proof.
  intros [H1 H2 H3 H4 H5 H6 H7 H8 H9]. unfold InformerFor.
  destruct (fInformers (wFactory w) !! t) as [i|] eqn:Et; [done|].
  assert (started (wFactory w) t = false) as Hns.
  { destruct (started (wFactory w) t) eqn:E; [|done]. apply H8 in E as [? ?]. congruence. }
  assert (length (wHeap w) ∉ run_informers w) as Hfresh.
  { intros [t' Ht']%H5. apply H7 in Ht'. lia. }
  split; cbn [wFactory wHeap wRuns wDone fInformers fStartedInformers fWg snd]; try done.
  - intros t' i. unfold started. cbn. destruct (decide (t' = t)) as [->|Hne].
    + rewrite lookup_insert_eq. intros [= <-]. fold (started (wFactory w) t). rewrite Hns. done.
    + rewrite lookup_insert_ne by done. apply H4.
  - intros i [t' Ht']%H5. exists t'. rewrite lookup_insert_ne; [done|]. intros <-. congruence.
  - intros t1 t2 i. destruct (decide (t1 = t)) as [->|]; destruct (decide (t2 = t)) as [->|];
      rewrite ?lookup_insert_eq, ?lookup_insert_ne by done; try done.
    + intros [= <-] Hi%H7. lia.
    + intros Hi%H7 [= <-]. lia.
    + apply H6.
  - intros t' i. rewrite length_app. cbn. destruct (decide (t' = t)) as [->|].
    + rewrite lookup_insert_eq. intros [= <-]. lia.
    + rewrite lookup_insert_ne by done. intros Hi%H7. lia.
  - intros t' Ht'. destruct (decide (t' = t)) as [->|]; [by rewrite lookup_insert_eq|].
    rewrite lookup_insert_ne by done. by apply H8.
Qed.

Lemma start_one_ok stopCh w t i :
  factory_ok w -> fInformers (wFactory w) !! t = Some i -> factory_ok (start_one stopCh w (t, i)).
Proof.
  intros [H1 H2 H3 H4 H5 H6 H7 H8 H9] Ht. unfold start_one. cbn [fst snd].
  destruct (started (wFactory w) t) eqn:Es; [done|].
  assert (i ∉ run_informers w) as Hi by (intros Hi; apply (H4 t i Ht) in Hi; congruence).
  split; unfold run_informers in *; cbn [wFactory wHeap wRuns wDone fInformers fWg fst] in *;
    rewrite ?map_app, ?length_app; cbn; try done.
  - apply NoDup_app. split; [done|]. split; [set_solver|apply NoDup_singleton].
  - set_solver.
  - intros t' i' Ht'. unfold started. cbn. destruct (decide (t' = t)) as [->|Hne].
    + rewrite lookup_insert_eq. cbn. assert (i' = i) as -> by congruence. set_solver.
    + rewrite lookup_insert_ne by done. fold (started (wFactory w) t'). rewrite (H4 t' i' Ht').
      assert (i' <> i) by (intros ->; by destruct Hne; eapply H6). set_solver.
  - intros i' [?| ->%list_elem_of_singleton]%elem_of_app; [by apply H5|by exists t].
  - intros t'. unfold started. cbn. destruct (decide (t' = t)) as [->|]; [by rewrite Ht|].
    rewrite lookup_insert_ne by done. apply H8.
  - rewrite H9. lia.
Qed.

(** What starting leaves as it was. *)
Record same_requests (w w' : world) : Prop := {
  sr_informers : fInformers (wFactory w') = fInformers (wFactory w);
  sr_heap : wHeap w' = wHeap w;
  sr_done : wDone w' = wDone w;
  sr_flag : fShuttingDown (wFactory w') = fShuttingDown (wFactory w)
}.

Lemma start_one_requests stopCh w entry : same_requests w (start_one stopCh w entry).
Proof. unfold start_one. by destruct (started _ _). Qed.

Lemma start_loop stopCh l w :
  factory_ok w -> (forall t i, (t, i) ∈ l -> fInformers (wFactory w) !! t = Some i) ->
  let w' := foldl (start_one stopCh) w l in
  factory_ok w' /\ same_requests w w' /\
  (exists new, wRuns w' = wRuns w ++ new /\ Forall (fun r => r.2 = stopCh) new) /\
  (forall t, t ∈ map fst l -> started (wFactory w') t = true) /\
  (forall t, started (wFactory w) t = true -> started (wFactory w') t = true).
Proof.
  revert w. induction l as [|[t i] l IH]; intros w Hok Hl; cbn [foldl].
  { split; [done|]. split; [done|]. split; [by exists []; rewrite app_nil_r; split; [|constructor]|].
    split; [set_solver|done]. }
  destruct (start_one_requests stopCh w (t, i)) as [Ei Eh Ed Ef].
  destruct (IH (start_one stopCh w (t, i))) as (Hok'&[Ei' Eh' Ed' Ef']&(new&Hruns&Hnew)&Hst&Hmono).
  - apply start_one_ok; [done|]. apply Hl. left.
  - intros t' i' Hin. rewrite Ei. apply Hl. by right.
  - assert (forall t', started (wFactory w) t' = true \/ t' = t ->
      started (wFactory (start_one stopCh w (t, i))) t' = true) as Hone.
    { intros t' Ht'. unfold start_one. cbn [fst snd].
      destruct (started (wFactory w) t) eqn:Es; [by destruct Ht' as [?| ->]|].
      unfold started at 1. cbn. destruct (decide (t' = t)) as [->|Hne].
      - by rewrite lookup_insert_eq.
      - rewrite lookup_insert_ne by done. by destruct Ht'. }
    split; [done|]. split; [split; congruence|]. split; [|split].
    + assert (wRuns (start_one stopCh w (t, i)) = wRuns w \/
              wRuns (start_one stopCh w (t, i)) = wRuns w ++ [(i, stopCh)]) as Hone'
        by (unfold start_one; cbn; destruct (started (wFactory w) t); auto).
      rewrite Hruns. destruct Hone' as [-> | ->]; [by exists new|].
      exists ((i, stopCh) :: new). rewrite <- app_assoc. split; [done|]. by constructor.
    + intros t' Ht'. cbn in Ht'. apply elem_of_cons in Ht' as [->|?]; [|by apply Hst].
      apply Hmono, Hone. by right.
    + intros t' Ht'. apply Hmono, Hone. by left.
Qed.

Lemma Start_spec stopCh w :
  factory_ok w -> fShuttingDown (wFactory w) = false ->
  let w' := Start stopCh w in
  factory_ok w' /\ same_requests w w' /\
  (exists new, wRuns w' = wRuns w ++ new /\ Forall (fun r => r.2 = stopCh) new) /\
  (forall t, is_Some (fInformers (wFactory w) !! t) -> started (wFactory w') t = true).
Proof.
  intros Hok Hflag. unfold Start. rewrite Hflag.
  destruct (start_loop stopCh (map_to_list (fInformers (wFactory w))) w Hok)
    as (Hok'&Hsame&Hnew&Hst&_); [intros t i; apply elem_of_map_to_list|].
  split; [done|]. split; [done|]. split; [done|]. intros t [i Hi]. apply Hst.
  apply list_elem_of_In, in_map_iff. exists (t, i). split; [done|].
  by apply list_elem_of_In, elem_of_map_to_list.
Qed.

Lemma factory_step_ok o w : factory_ok w -> factory_ok (factory_step w o).
Proof.
  intros Hok. destruct o as [t newFunc|stopCh|i|]; cbn [factory_step].
  - by apply InformerFor_ok.
  - destruct (fShuttingDown (wFactory w)) eqn:E; [unfold Start; by rewrite E|].
    by apply Start_spec.
  - unfold Finish. case_bool_decide as Hr; [|done]. case_bool_decide as Hd; [|done]. cbn [andb].
    destruct Hok as [H1 H2 H3 H4 H5 H6 H7 H8 H9].
    split; cbn [wFactory wHeap wRuns wDone fInformers fWg]; try done.
    + apply NoDup_app. split; [done|]. split; [set_solver|apply NoDup_singleton].
    + intros i' [?| ->%list_elem_of_singleton]%elem_of_app; [by apply H3|done].
    + rewrite H9, length_app. cbn. lia.
  - by destruct Hok.
Qed.

Lemma factory_steps_ok ops w : factory_ok w -> factory_ok (foldl factory_step w ops).
Proof. intros Hok. apply foldl_inv; [done|]. intros w' o _. apply factory_step_ok. Qed.

(** An informer that was handed out stays the one of its type. *)
Lemma factory_step_stable o w t i :
  fInformers (wFactory w) !! t = Some i ->
  fInformers (wFactory (factory_step w o)) !! t = Some i.
Proof.
  intros Ht. destruct o as [t' newFunc|stopCh|j|]; cbn [factory_step].
  - unfold InformerFor. destruct (fInformers (wFactory w) !! t') eqn:E; [done|]. cbn.
    rewrite lookup_insert_ne; [done|]. intros ->. congruence.
  - unfold Start. destruct (fShuttingDown _); [done|].
    apply (foldl_inv (fun w' => fInformers (wFactory w') !! t = Some i)); [done|].
    intros w' e _ Hw'. by rewrite (sr_informers _ _ (start_one_requests stopCh w' e)).
  - unfold Finish. by destruct (_ && _).
  - done.
Qed.

Lemma factory_steps_stable ops w t i :
  fInformers (wFactory w) !! t = Some i ->
  fInformers (wFactory (foldl factory_step w ops)) !! t = Some i.
Proof.
  intros Ht. apply (foldl_inv (fun w => fInformers (wFactory w) !! t = Some i)); [done|].
  intros w' o _. apply factory_step_stable.
Qed.

Lemma factory_steps_shut ops w :
  fShuttingDown (wFactory w) = true ->
  fShuttingDown (wFactory (foldl factory_step w ops)) = true /\
  wRuns (foldl factory_step w ops) = wRuns w.
Proof.
  intros Hflag. apply (foldl_inv (fun w' => fShuttingDown (wFactory w') = true /\ wRuns w' = wRuns w));
    [done|]. intros w' o _ [Hf Hr]. destruct o as [t newFunc|stopCh|j|]; cbn [factory_step].
  - unfold InformerFor. by destruct (_ !! t).
  - unfold Start. by rewrite Hf.
  - unfold Finish. by destruct (_ && _).
  - done.
Qed.

Lemma InformerFor_known t newFunc w i :
  fInformers (wFactory w) !! t = Some i -> InformerFor t newFunc w = (i, w).
Proof. intros Ht. unfold InformerFor. by rewrite Ht. Qed.

Lemma InformerFor_records t newFunc w i w' :
  InformerFor t newFunc w = (i, w') -> fInformers (wFactory w') !! t = Some i.
Proof.
  unfold InformerFor. destruct (fInformers (wFactory w) !! t) eqn:E; intros [= <- <-]; [done|].
  cbn. by rewrite lookup_insert_eq.
Qed.

(** ** Theorems *)

(** C28. In every state a shared factory reaches, from any of its options and
    through any requests, starts, ends and shutdowns: no informer was run
    twice; a shutdown returns exactly when every informer that was run has
    ended; once it is shutting down nothing is run any more; and the informer
    handed out for a type stays the one every later request gets. *)
Theorem informers_are_shared_and_run_once r options ops :
  Forall package_option options ->
  let w := foldl factory_step (new_world r options) ops in
  NoDup (map fst (wRuns w)) /\
  (Shutdown_returns w = true <-> forall i, i ∈ map fst (wRuns w) -> i ∈ wDone w) /\
  (fShuttingDown (wFactory w) = true -> forall ops',
     wRuns (foldl factory_step w ops') = wRuns w) /\
  (forall t newFunc newFunc' ops' i w1, InformerFor t newFunc w = (i, w1) ->
     let w2 := foldl factory_step w1 ops' in InformerFor t newFunc' w2 = (i, w2)).
Proof.
  intros Hopts w.
  assert (factory_ok w) as [Honce Hdone_once Hdone _ _ _ _ _ Hwg]
    by (by apply factory_steps_ok, new_world_ok).
  split; [done|]. split; [|split].
  - unfold Shutdown_returns. rewrite Hwg, Z.eqb_eq. fold (run_informers w).
    assert (length (run_informers w) = length (wRuns w)) as Hlen by apply length_map.
    split.
    + intros Heq. assert (wDone w ≡ₚ run_informers w) as Hperm; [|intros i; by rewrite Hperm].
      apply submseteq_length_Permutation; [by apply NoDup_submseteq|]. lia.
    + intros Hall. assert (wDone w ≡ₚ run_informers w) as Hperm%Permutation_length; [|lia].
      apply NoDup_Permutation; [done..|]. intros i. split; [apply Hdone|apply Hall].
  - intros Hflag ops'. by apply factory_steps_shut.
  - intros t newFunc newFunc' ops' i w1 Hi. apply InformerFor_known.
    eapply factory_steps_stable, InformerFor_records, Hi.
Qed.

(** Starting a factory that is not shutting down leaves every informer
    requested so far run, the new ones until the given channel closes, and a
    wait then reports on each of them; requests after it need another start. *)
Theorem start_runs_what_was_requested r options ops stopCh synced :
  Forall package_option options ->
  let w := foldl factory_step (new_world r options) ops in
  fShuttingDown (wFactory w) = false ->
  let w' := Start stopCh w in
  (forall t i, fInformers (wFactory w) !! t = Some i ->
     i ∈ map fst (wRuns w') /\ (i ∉ map fst (wRuns w) -> (i, stopCh) ∈ wRuns w')) /\
  WaitForCacheSync synced w' = synced <$> fInformers (wFactory w).
Proof.
  intros Hopts w Hflag w'.
  assert (factory_ok w) as Hok by (by apply factory_steps_ok, new_world_ok).
  destruct (Start_spec stopCh w Hok Hflag) as (Hok'&Hsame&(new&Hruns&Hnew)&Hst).
  fold w' in Hok', Hsame, Hruns, Hst. split.
  - intros t i Ht.
    assert (i ∈ run_informers w') as Hi.
    { apply (fo_started _ Hok' t i); [by rewrite (sr_informers _ _ Hsame)|].
      apply Hst. by exists i. }
    split; [done|]. intros Hni. unfold run_informers in Hi. rewrite Hruns, map_app in Hi.
    apply elem_of_app in Hi as [?|Hi]; [done|].
    apply list_elem_of_In, in_map_iff in Hi as ([i' s]&<-&Hin).
    rewrite Hruns. apply elem_of_app. right. apply list_elem_of_In in Hin.
    rewrite Forall_forall in Hnew. by rewrite <- (Hnew _ Hin).
  - unfold WaitForCacheSync. rewrite (sr_informers _ _ Hsame). f_equal.
    apply map_filter_id. intros t i Ht. apply Hst. by exists i.
Qed.

(** The informer of the sources is one, by the typed path and by its resource;
    when the request makes it, it watches the factory's namespace, resyncs with
    the period set for its type or else the default one, and is indexed by
    namespace. *)
Theorem source_informer w i w' :
  Informer (YipYapSources (wFactory w)) w = (i, w') ->
  ForResource "sources.yipyap.run" "v1alpha1" "yipyapsources" w
    = Ok ((Resource "yipyapsources", i), w') /\
  (fInformers (wFactory w) !! source_type = None ->
   wHeap w' !! i = Some (MkInformer source_type (fNamespace (wFactory w))
     (fTweakListOptions (wFactory w))
     (default (fDefaultResync (wFactory w)) (fCustomResync (wFactory w) !! source_type))
     [NamespaceIndex] (fTransform (wFactory w)))).
Proof.
  intros Hi. split; [unfold ForResource; cbn [String.eqb]; by rewrite Hi|].
  intros Hnone. unfold Informer, InformerFor in Hi. rewrite Hnone in Hi. injection Hi as <- <-.
  cbn [wHeap]. rewrite lookup_app_r, Nat.sub_diag by done. reflexivity.
Qed.

(** ** Witnesses *)

Definition sample_ops : list factory_op :=
  [OpInformerFor source_type (defaultInformer (MkYipYapSourceInformer "" None)); OpStart 7;
   OpInformerFor "*v1.Deployment" (fun r => MkInformer "*v1.Deployment" "" None r [] None);
   OpStart 7; OpStart 8; OpFinish 0].

Lemma informers_are_shared_and_run_once_witness :
  let w := foldl factory_step (new_world 30 [WithNamespace "default"]) sample_ops in
  NoDup (map fst (wRuns w)) /\ length (wRuns w) = 2%nat /\ Shutdown_returns w = false /\
  ~ (forall i, i ∈ map fst (wRuns w) -> i ∈ wDone w).
Proof.
  destruct (informers_are_shared_and_run_once 30 [WithNamespace "default"] sample_ops)
    as (Honce&[_ Hwait]&_&_).
  - repeat constructor.
  - split; [exact Honce|]. split; [vm_compute; reflexivity|]. split; [vm_compute; reflexivity|].
    intros Hall. apply Hwait in Hall. vm_compute in Hall. discriminate Hall.
Defined.
