(* ===== verification/Injection.v ===== *)
(** * Injection (pkg/client/injection, knative.dev/pkg/injection)

    How the process builds what its controllers use: the injectors the packages
    register put the clientset, the shared informer factory and the informer of
    the sources into the context, in this order, and the getters take them out
    and panic when they are not there.  The filtered packages do the same for
    each of a list of label selectors; the fake packages put a fake clientset
    under the same key.

    A context is the list of its values, the last one first.  A factory is a
    reference: an index into the worlds (Informers.v) of the factories made so
    far.  A function that tweaks list options is a number: an index into the
    selectors it sets. *)

From S2P Require Import Prelude GoStrings GoTime Types Rest SourcesClient Clientset Informers.
From Stdlib Require Import QArith_base.
Local Open Scope string_scope.
Local Open Scope list_scope.

(** ** Contexts *)

(** The key types of the packages; each other package has its own. *)
Inductive key :=
| ClientKey
| FactoryKey
| InformerKey
| LabelKey
| FilteredFactoryKey (Selector : string)
| FilteredInformerKey (Selector : string)
| nsKey
| cfgKey
| resyncPeriodKey
| OtherKey (package : string).

#[export] Instance key_eq_dec : EqDecision key.
Proof. solve_decision. Defined.

(** The informer of the sources of a factory. *)
Record source_informer := MkSourceInformer {
  siFactory : nat;
  siInformer : yipYapSourceInformer
}.

Inductive value :=
| VClientset (c : Clientset)
| VFake (objects : list YipYapSource)
| VFactory (f : nat)
| VInformer (i : source_informer)
| VSelectors (l : list string)
| VString (s : string)
| VConfig (c : Config)
| VDuration (d : Z)
| VOther (n : nat).

Definition context : Type := list (key * value).

Definition WithValue (ctx : context) (k : key) (v : value) : context := (k, v) :: ctx.

Fixpoint Value (ctx : context) (k : key) : option value :=
  match ctx with
  | [] => None
  | (k', v) :: ctx => if decide (k' = k) then Some v else Value ctx k
  end.

(** ** What the injectors make *)

Record store := MkStore {
  stBuckets : buckets;
  stFactories : list world;
  stTweaks : list string
}.

(** An injector or a getter panics with a message, or goes on. *)
Definition I (A : Type) : Type := store -> result string (A * store).

#[export] Instance I_ret : MRet I := fun A a st => Ok (a, st).
#[export] Instance I_bind : MBind I := fun A B k m st =>
  match m st with Ok (a, st) => k a st | Err e => Err e end.
Definition Panic {A} (msg : string) : I A := fun _ => Err msg.

(** [untyped.(T)] of a value that is not of the type. *)
Definition bad_assertion {A} : I A := Panic "interface conversion".

Definition clientset_type : string :=
  "github.com/YipYap-run/knative-source/pkg/client/clientset/versioned.Interface".
Definition fake_clientset_type : string :=
  "github.com/YipYap-run/knative-source/pkg/client/clientset/versioned/fake.Clientset".
Definition factory_type : string :=
  "github.com/YipYap-run/knative-source/pkg/client/informers/externalversions.SharedInformerFactory".
Definition informer_type : string :=
  "github.com/YipYap-run/knative-source/pkg/client/informers/externalversions/sources/v1alpha1.YipYapSourceInformer".

Definition unable (what : string) : string :=
  "Unable to fetch " +:+ what +:+ " from context.".

(** ** Scope, configuration and resync period (injection/context.go) *)

Definition GetNamespaceScope (ctx : context) : I string :=
  match Value ctx nsKey with
  | None => mret ""
  | Some (VString ns) => mret ns
  | Some _ => bad_assertion
  end.

Definition HasNamespaceScope (ctx : context) : I bool :=
  ns ← GetNamespaceScope ctx; mret (negb (String.eqb ns "")).

Definition WithConfig (ctx : context) (cfg : Config) : context := WithValue ctx cfgKey (VConfig cfg).

Definition GetConfig (ctx : context) : I (option Config) :=
  match Value ctx cfgKey with
  | None => mret None
  | Some (VConfig c) => mret (Some c)
  | Some _ => bad_assertion
  end.

Definition DefaultResyncPeriod : Z := 10 * Hour.

Definition GetResyncPeriod (ctx : context) : I Z :=
  match Value ctx resyncPeriodKey with
  | None => mret DefaultResyncPeriod
  | Some (VDuration d) => mret d
  | Some _ => bad_assertion
  end.

(** ** The clientset (injection/client/client.go, fake/fake.go) *)

(** What implements [versioned.Interface]. *)
Inductive clientset_interface :=
| RealClientset (c : Clientset)
| FakeClientset (objects : list YipYapSource).

Definition as_clientset (v : value) : I clientset_interface :=
  match v with
  | VClientset c => mret (RealClientset c)
  | VFake objects => mret (FakeClientset objects)
  | _ => bad_assertion
  end.

Definition client_withClientFromConfig `{UrlLib, Environment} (ctx : context) (cfg : Config)
    : I context := fun st =>
  match Clientset.NewForConfig cfg (stBuckets st) with
  | (Err e, _) => Err e
  | (Ok cs, b) =>
      Ok (WithValue ctx ClientKey (VClientset cs), MkStore b (stFactories st) (stTweaks st))
  end.

Definition client_Get (ctx : context) : I clientset_interface :=
  match Value ctx ClientKey with
  | None =>
      cfg ← GetConfig ctx;
      match cfg with
      | None => Panic (unable clientset_type +:+ " This context is not the application context (which is typically given to constructors via sharedmain).")
      | Some _ => Panic (unable clientset_type)
      end
  | Some untyped => as_clientset untyped
  end.

(** [With]: a fake clientset that holds the objects. *)
Definition fake_With (ctx : context) (objects : list YipYapSource) : context :=
  WithValue ctx ClientKey (VFake objects).

Definition fake_withClient (ctx : context) (cfg : Config) : I context := mret (fake_With ctx []).

Definition fake_client_Get (ctx : context) : I (list YipYapSource) :=
  match Value ctx ClientKey with
  | None => Panic (unable fake_clientset_type)
  | Some (VFake objects) => mret objects
  | Some _ => bad_assertion
  end.

(** ** The factory (injection/informers/factory/factory.go, fake/fake.go) *)

Definition new_factory (resync : Z) (options : list SharedInformerOption) : I nat := fun st =>
  Ok (length (stFactories st),
      MkStore (stBuckets st) (stFactories st ++ [new_world resync options]) (stTweaks st)).

(** The options for the scope of the context. *)
Definition scope_options (ctx : context) : I (list SharedInformerOption) :=
  scoped ← HasNamespaceScope ctx;
  if (scoped : bool) then ns ← GetNamespaceScope ctx; mret [WithNamespace ns] else mret [].

(** After the clientset was fetched. *)
Definition inject_factory (ctx : context) : I context :=
  opts ← scope_options ctx;
  resync ← GetResyncPeriod ctx;
  f ← new_factory resync opts;
  mret (WithValue ctx FactoryKey (VFactory f)).

Definition factory_withInformerFactory (ctx : context) : I context :=
  _ ← client_Get ctx; inject_factory ctx.

Definition fake_factory_withInformerFactory (ctx : context) : I context :=
  _ ← fake_client_Get ctx; inject_factory ctx.

Definition factory_Get (ctx : context) : I nat :=
  match Value ctx FactoryKey with
  | None => Panic (unable factory_type)
  | Some (VFactory f) => mret f
  | Some _ => bad_assertion
  end.

(** ** The informer (injection/informers/sources/v1alpha1/yipyapsource, and fake) *)

(** [f.Sources().V1alpha1().YipYapSources()]. *)
Definition sources_of (f : nat) : I source_informer := fun st =>
  match stFactories st !! f with
  | Some w => Ok (MkSourceInformer f (YipYapSources (wFactory w)), st)
  | None => Err "no such factory"
  end.

(** [inf.Informer()]: the informer is the factory and its index in it. *)
Definition Informer_of (inf : source_informer) : I (nat * nat) := fun st =>
  match stFactories st !! siFactory inf with
  | Some w =>
      let '(i, w) := Informer (siInformer inf) w in
      Ok ((siFactory inf, i),
          MkStore (stBuckets st) (<[siFactory inf := w]> (stFactories st)) (stTweaks st))
  | None => Err "no such factory"
  end.

(** The fake package's function is the same: its [factory.Get] is this one. *)
Definition informer_withInformer (ctx : context) : I (context * (nat * nat)) :=
  f ← factory_Get ctx;
  inf ← sources_of f;
  i ← Informer_of inf;
  mret (WithValue ctx InformerKey (VInformer inf), i).

Definition informer_Get (ctx : context) : I source_informer :=
  match Value ctx InformerKey with
  | None => Panic (unable informer_type)
  | Some (VInformer i) => mret i
  | Some _ => bad_assertion
  end.

(** ** The filtered packages (factory/filtered, yipyapsource/filtered, and fakes) *)

Definition filteredFactory_WithSelectors (ctx : context) (selector : list string) : context :=
  WithValue ctx LabelKey (VSelectors selector).

Definition labelSelectors (ctx : context) : I (list string) :=
  match Value ctx LabelKey with
  | None => Panic "Unable to fetch labelkey from context."
  | Some (VSelectors l) => mret l
  | Some _ => bad_assertion
  end.

(** [func(l) { l.LabelSelector = selectorVal }], and what the number stands for. *)
Definition new_tweak (selectorVal : string) : I nat := fun st =>
  Ok (length (stTweaks st), MkStore (stBuckets st) (stFactories st) (stTweaks st ++ [selectorVal])).

Definition tweak (tweaks : list string) (t : nat) (l : ListOptions) : ListOptions :=
  match tweaks !! t with
  | Some selector => MkListOptions selector (FieldSelector l) (Rest.Watch l) (TimeoutSeconds l)
  | None => l
  end.

Fixpoint inject_filtered_factories (selectors : list string) (ctx : context) : I context :=
  match selectors with
  | [] => mret ctx
  | selector :: selectors =>
      opts ← scope_options ctx;
      t ← new_tweak selector;
      resync ← GetResyncPeriod ctx;
      f ← new_factory resync (opts ++ [WithTweakListOptions (Some t)]);
      inject_filtered_factories selectors
        (WithValue ctx (FilteredFactoryKey selector) (VFactory f))
  end.

Definition filteredFactory_withInformerFactory (ctx : context) : I context :=
  _ ← client_Get ctx;
  selectors ← labelSelectors ctx;
  inject_filtered_factories selectors ctx.

Definition fakeFilteredFactory_withInformerFactory (ctx : context) : I context :=
  _ ← fake_client_Get ctx;
  selectors ← labelSelectors ctx;
  inject_filtered_factories selectors ctx.

Definition filteredFactory_Get (ctx : context) (selector : string) : I nat :=
  match Value ctx (FilteredFactoryKey selector) with
  | None => Panic ("Unable to fetch " +:+ factory_type +:+ " with selector " +:+ selector
                   +:+ " from context.")
  | Some (VFactory f) => mret f
  | Some _ => bad_assertion
  end.

Fixpoint inject_filtered_informers (selectors : list string) (ctx : context)
    (infs : list (nat * nat)) : I (context * list (nat * nat)) :=
  match selectors with
  | [] => mret (ctx, infs)
  | selector :: selectors =>
      f ← filteredFactory_Get ctx selector;
      inf ← sources_of f;
      i ← Informer_of inf;
      inject_filtered_informers selectors
        (WithValue ctx (FilteredInformerKey selector) (VInformer inf)) (infs ++ [i])
  end.

(** The fake package's function is the same. *)
Definition filtered_withInformer (ctx : context) : I (context * list (nat * nat)) :=
  selectors ← labelSelectors ctx; inject_filtered_informers selectors ctx [].

Definition filtered_Get (ctx : context) (selector : string) : I source_informer :=
  match Value ctx (FilteredInformerKey selector) with
  | None => Panic ("Unable to fetch " +:+ informer_type +:+ " with selector " +:+ selector
                   +:+ " from context.")
  | Some (VInformer i) => mret i
  | Some _ => bad_assertion
  end.

(** ** The injection implementation (knative.dev/pkg/injection) *)

(** What the packages registered.  An informer of another package is not one of
    our factories. *)
Record impl := MkImpl {
  clients : list (context -> Config -> I context);
  factories : list (context -> I context);
  ducks : list (context -> I context);
  informers : list (context -> I (context * option (nat * nat)));
  filteredInformers : list (context -> I (context * list (nat * nat)))
}.

(** Run the injectors of a list, each on the context of the ones before. *)
Fixpoint inject_all (l : list (context -> I context)) (ctx : context) : I context :=
  match l with
  | [] => mret ctx
  | inject :: l => ctx ← inject ctx; inject_all l ctx
  end.

(** Likewise, gathering the informers. *)
Fixpoint inject_informers (l : list (context -> I (context * list (nat * nat))))
    (ctx : context) (infs : list (nat * nat)) : I (context * list (nat * nat)) :=
  match l with
  | [] => mret (ctx, infs)
  | inject :: l => r ← inject ctx; inject_informers l (r.1 : context) (infs ++ r.2)
  end.

Definition one_informer (inject : context -> I (context * option (nat * nat))) (ctx : context)
    : I (context * list (nat * nat)) :=
  r ← inject ctx; mret (r.1, match r.2 with Some i => [i] | None => [] end).

Definition SetupInformers (i : impl) (ctx : context) (cfg : Config)
    : I (context * list (nat * nat)) :=
  ctx ← inject_all (map (fun ci ctx => ci ctx cfg) (clients i)) ctx;
  ctx ← inject_all (factories i) ctx;
  ctx ← inject_all (ducks i) ctx;
  inject_informers (map one_informer (informers i) ++ filteredInformers i) ctx [].

(** The configuration with the defaults of [sharedmain.MainWithConfig], for a
    number of controllers; [EnableInjectionOrDie] then finds a rate and a burst. *)
Definition set_rate (qps : Q) (burst : Z) (c : Config) : Config :=
  MkConfig (Host c) (APIPath c) (CfgGroupVersion c) (NegotiatedSerializer c) (defaultTLS c)
    (UserAgent c) qps burst (RateLimiter c) (CfgTimeout c) (ContentType c).

Definition main_config (ctors : nat) (c : Config) : Config :=
  set_rate (if Qeq_bool (QPS c) 0 then inject_Z (Z.of_nat ctors) * DefaultQPS else QPS c)%Q
    (if (Burst c =? 0)%Z then Z.of_nat ctors * DefaultBurst else Burst c)%Z c.

Definition EnableInjectionOrDie (i : impl) (ctx : context) (c : Config)
    : I (context * list (nat * nat)) :=
  let c := set_rate (if Qeq_bool (QPS c) 0 then DefaultQPS else QPS c)
             (if (Burst c =? 0)%Z then DefaultBurst else Burst c) c in
  SetupInformers i (WithConfig ctx c) c.

(** ** Running injectors *)

(** The injector goes on, to a result and a store of which [Q] holds. *)
Definition runs {A} (m : I A) (st : store) (Q : A -> store -> Prop) : Prop :=
  exists a st', m st = Ok (a, st') /\ Q a st'.

Lemma runs_ret {A} (a : A) st (Q : A -> store -> Prop) : Q a st -> runs (mret a) st Q.
Proof. intros HQ. by exists a, st. Qed.

Lemma runs_bind {A B} (m : I A) (k : A -> I B) st Q :
  runs m st (fun a st' => runs (k a) st' Q) -> runs (m ≫= k) st Q.
Proof.
  intros (a&st'&Hm&b&st''&Hk&HQ). exists b, st''. split; [|done].
  unfold mbind, I_bind. by rewrite Hm.
Qed.

Lemma runs_impl {A} (m : I A) st (P Q : A -> store -> Prop) :
  runs m st P -> (forall a st', P a st' -> Q a st') -> runs m st Q.
Proof. intros (a&st'&Hm&HP) HPQ. exists a, st'. auto. Qed.

(** The keys of the packages modelled, and the contexts that agree on them. *)
Definition ours (k : key) : Prop := match k with OtherKey _ => False | _ => True end.
Definition keeps (ctx ctx' : context) : Prop := forall k, ours k -> Value ctx' k = Value ctx k.

Lemma Value_same ctx k v : Value (WithValue ctx k v) k = Some v.
Proof. cbn. by rewrite decide_True. Qed.
Lemma Value_other ctx k k' v : k <> k' -> Value (WithValue ctx k v) k' = Value ctx k'.
Proof. intros Hne. cbn. by rewrite decide_False. Qed.

(** The injectors of other packages: they go on, use their own keys, and know
    nothing of our factories. *)
Definition foreign (inject : context -> I context) : Prop := forall ctx st,
  runs (inject ctx) st (fun ctx' st' => keeps ctx ctx' /\ stFactories st' = stFactories st).
Definition foreign_informer (inject : context -> I (context * option (nat * nat))) : Prop :=
  forall ctx st, runs (inject ctx) st (fun r st' =>
    keeps ctx r.1 /\ stFactories st' = stFactories st /\ r.2 = None).

Lemma inject_all_foreign l ctx st :
  Forall foreign l ->
  runs (inject_all l ctx) st (fun ctx' st' => keeps ctx ctx' /\ stFactories st' = stFactories st).
Proof.
  intros Hl. revert ctx st. induction Hl as [|inject l Hi _ IH]; intros ctx st.
  { by apply runs_ret. }
  apply runs_bind. eapply runs_impl; [apply Hi|]. intros ctx1 st1 [Hk1 E1].
  eapply runs_impl; [apply IH|]. intros ctx2 st2 [Hk2 E2]. split; [|congruence].
  intros k Hk. by rewrite Hk2, Hk1.
Qed.

Lemma inject_all_app l l' ctx st Q :
  runs (inject_all l ctx) st (fun ctx' st' => runs (inject_all l' ctx') st' Q) ->
  runs (inject_all (l ++ l') ctx) st Q.
Proof.
  revert ctx st. induction l as [|inject l IH]; intros ctx st.
  { intros (a&st'&[= <- <-]&HQ). done. }
  intros (ctx2&st2&Hrun&HQ). cbn [app inject_all] in *. unfold mbind, I_bind in Hrun.
  apply runs_bind. destruct (inject ctx st) as [[ctx1 st1]|e] eqn:E; [|done].
  exists ctx1, st1. split; [done|]. apply IH. by exists ctx2, st2.
Qed.

(** One injector among foreign ones. *)
Lemma inject_all_one l l' inject ctx st (P : context -> store -> Prop) :
  Forall foreign (l ++ l') ->
  (forall ctx' st', keeps ctx ctx' -> stFactories st' = stFactories st ->
     runs (inject ctx') st' P) ->
  (forall ctx1 ctx2 st1 st2, P ctx1 st1 -> keeps ctx1 ctx2 ->
     stFactories st2 = stFactories st1 -> P ctx2 st2) ->
  runs (inject_all (l ++ inject :: l') ctx) st P.
Proof.
  intros [Hl Hl']%Forall_app Hinject Hstable. apply inject_all_app.
  eapply runs_impl; [by apply inject_all_foreign|]. intros ctx1 st1 [Hk1 E1].
  cbn [inject_all]. apply runs_bind. eapply runs_impl; [by apply Hinject|].
  intros ctx2 st2 HP. eapply runs_impl; [by apply inject_all_foreign|].
  intros ctx3 st3 [Hk3 E3]. by eapply Hstable.
Qed.

Lemma inject_informers_foreign l ctx infs st :
  Forall foreign_informer l ->
  runs (inject_informers (map one_informer l) ctx infs) st (fun r st' =>
    keeps ctx r.1 /\ stFactories st' = stFactories st /\ r.2 = infs).
Proof.
  intros Hl. revert ctx infs st. induction Hl as [|inject l Hi _ IH]; intros ctx infs st.
  { by apply runs_ret. }
  cbn [map inject_informers]. apply runs_bind. unfold one_informer at 1. apply runs_bind.
  eapply runs_impl; [apply Hi|]. intros [ctx1 o] st1 (Hk1&E1&Ho). cbn in *. subst o.
  apply runs_ret. cbn [fst snd]. rewrite app_nil_r.
  eapply runs_impl; [apply IH|]. intros [ctx2 infs2] st2 (Hk2&E2&Einfs). cbn in *.
  split_and!; [|congruence|done]. intros k Hk. by rewrite Hk2, Hk1.
Qed.

Lemma inject_informers_app l l' ctx infs st Q :
  runs (inject_informers l ctx infs) st (fun r st' => runs (inject_informers l' r.1 r.2) st' Q) ->
  runs (inject_informers (l ++ l') ctx infs) st Q.
Proof.
  revert ctx infs st. induction l as [|inject l IH]; intros ctx infs st.
  { intros (a&st'&[= <- <-]&HQ). done. }
  intros (r2&st2&Hrun&HQ). cbn [app inject_informers] in *. unfold mbind, I_bind in Hrun.
  apply runs_bind. destruct (inject ctx st) as [[r1 st1]|e] eqn:E; [|done].
  exists r1, st1. split; [done|]. apply IH. by exists r2, st2.
Qed.

(** *** The scope and the resync period *)

(** The values a caller of the injection may have set. *)
Record context_ok (ctx : context) (ns : string) (resync : Z) : Prop := {
  co_ns : Value ctx nsKey = Some (VString ns) \/ Value ctx nsKey = None /\ ns = "";
  co_resync : Value ctx resyncPeriodKey = Some (VDuration resync) \/
              Value ctx resyncPeriodKey = None /\ resync = DefaultResyncPeriod
}.

Lemma context_ok_keeps ctx ctx' ns resync :
  keeps ctx ctx' -> context_ok ctx ns resync -> context_ok ctx' ns resync.
Proof. intros Hk [H1 H2]. split; by rewrite Hk. Qed.

Lemma context_ok_with ctx k v ns resync :
  k <> nsKey -> k <> resyncPeriodKey -> context_ok ctx ns resync ->
  context_ok (WithValue ctx k v) ns resync.
Proof. intros ? ? [H1 H2]. split; by rewrite Value_other. Qed.

Definition scope_option (ns : string) : list SharedInformerOption :=
  if String.eqb ns "" then [] else [WithNamespace ns].

Lemma scope_options_runs ctx ns resync st (Q : list SharedInformerOption -> store -> Prop) :
  context_ok ctx ns resync -> Q (scope_option ns) st -> runs (scope_options ctx) st Q.
Proof.
  intros [Hns _] HQ. unfold scope_options, HasNamespaceScope, GetNamespaceScope.
  destruct Hns as [-> | [-> ->]]; [|exists [], st; split; [reflexivity|exact HQ]].
  exists (scope_option ns), st. split; [|done]. unfold scope_option, mbind, I_bind, mret, I_ret.
  by destruct (String.eqb ns "").
Qed.

Lemma GetResyncPeriod_runs ctx ns resync st (Q : Z -> store -> Prop) :
  context_ok ctx ns resync -> Q resync st -> runs (GetResyncPeriod ctx) st Q.
Proof.
  intros [_ Hr] HQ. unfold GetResyncPeriod. destruct Hr as [-> | [-> ->]]; by apply runs_ret.
Qed.

(** The world of a fresh factory for the scope, with a label selector or none. *)
Lemma fresh_world ns resync t :
  let f := wFactory (new_world resync (scope_option ns ++ t)) in
  t = [] \/ (exists n, t = [WithTweakListOptions (Some n)]) ->
  fNamespace f = ns /\ fInformers f = ∅ /\ fDefaultResync f = resync /\ fCustomResync f = ∅ /\
  fTransform f = None /\
  fTweakListOptions f = match t with [] => None | o :: _ => fTweakListOptions (o f) end.
Proof.
  cbv zeta. unfold scope_option, new_world, NewSharedInformerFactoryWithOptions.
  destruct (String.eqb_spec ns "") as [->|]; intros [->|[m ->]]; done.
Qed.

Lemma inject_factory_runs ctx ns resync st (Q : context -> store -> Prop) :
  context_ok ctx ns resync ->
  Q (WithValue ctx FactoryKey (VFactory (length (stFactories st))))
    (MkStore (stBuckets st) (stFactories st ++ [new_world resync (scope_option ns)]) (stTweaks st)) ->
  runs (inject_factory ctx) st Q.
Proof.
  intros Hctx HQ. unfold inject_factory. apply runs_bind.
  eapply scope_options_runs; [done|]. apply runs_bind.
  eapply GetResyncPeriod_runs; [done|]. apply runs_bind.
  eexists _, _. split; [reflexivity|]. by apply runs_ret.
Qed.

(** *** The informer *)

(** What the informer in the context is: the factory's one for the sources. *)
Record informer_made (ctx : context) (st : store) (i : nat * nat) (k : key)
    (ns : string) (resync : Z) (t : option nat) : Prop := {
  im_value : Value ctx k = Some (VInformer (MkSourceInformer i.1 (MkYipYapSourceInformer ns t)));
  im_world : exists w, stFactories st !! i.1 = Some w /\
    fInformers (wFactory w) !! source_type = Some i.2 /\
    wHeap w !! i.2 = Some (MkInformer source_type ns t resync [NamespaceIndex] None)
}.

Lemma sources_of_runs f w st (Q : source_informer -> store -> Prop) :
  stFactories st !! f = Some w ->
  Q (MkSourceInformer f (YipYapSources (wFactory w))) st -> runs (sources_of f) st Q.
Proof. intros Hw HQ. eexists _, _. split; [|exact HQ]. unfold sources_of. by rewrite Hw. Qed.

(** The informer of a fresh factory. *)
Lemma Informer_of_fresh f ns resync t st (Q : nat * nat -> store -> Prop) :
  let w := new_world resync (scope_option ns ++ match t with
                             | Some n => [WithTweakListOptions (Some n)] | None => [] end) in
  let i := MkInformer source_type ns t resync [NamespaceIndex] None in
  stFactories st !! f = Some w ->
  (forall w', fInformers (wFactory w') !! source_type = Some 0%nat -> wHeap w' !! 0%nat = Some i ->
     Q (f, 0%nat) (MkStore (stBuckets st) (<[f := w']> (stFactories st)) (stTweaks st))) ->
  runs (Informer_of (MkSourceInformer f (YipYapSources (wFactory w)))) st Q.
Proof.
  intros w i Hw HQ.
  destruct (fresh_world ns resync match t with
    | Some n => [WithTweakListOptions (Some n)] | None => [] end) as (Hns&Hi&Hr&Hc&Ht&Htw).
  { destruct t; eauto. }
  fold w in Hns, Hi, Hr, Hc, Ht, Htw.
  unfold Informer_of. eexists (f, 0%nat), _. cbn [siFactory siInformer]. rewrite Hw.
  unfold Informer, InformerFor. rewrite Hi, lookup_empty.
  change (wHeap w) with (@nil informer). cbn [length fst snd].
  split; [reflexivity|]. apply HQ; cbn [wFactory fInformers wHeap app lookup list_lookup].
  - apply lookup_insert_eq.
  - rewrite Hc, lookup_empty, Ht. cbn [default from_option]. unfold i.
    rewrite YipYapSources_eq, Hns, Hr, Htw. by destruct t.
Qed.

Lemma informer_withInformer_runs ctx ns resync f st (Q : context * (nat * nat) -> store -> Prop) :
  Value ctx FactoryKey = Some (VFactory f) ->
  stFactories st !! f = Some (new_world resync (scope_option ns)) ->
  (forall ctx' st', informer_made ctx' st' (f, 0%nat) InformerKey ns resync None ->
     (forall k, k <> InformerKey -> Value ctx' k = Value ctx k) -> Q (ctx', (f, 0%nat)) st') ->
  runs (informer_withInformer ctx) st Q.
Proof.
  intros Hf Hw HQ. unfold informer_withInformer, factory_Get. rewrite Hf. apply runs_bind, runs_ret.
  rewrite <- (app_nil_r (scope_option ns)) in Hw.
  apply runs_bind. eapply sources_of_runs; [exact Hw|].
  apply runs_bind. apply (Informer_of_fresh f ns resync None st); [exact Hw|].
  intros w' Hi Hh. apply runs_ret, HQ.
  - split; [|exists w'].
    + rewrite Value_same. cbn [fst]. do 3 f_equal. rewrite YipYapSources_eq.
      destruct (fresh_world ns resync [] (or_introl eq_refl)) as (->&_&_&_&_&->). done.
    + cbn [fst snd stFactories]. split; [|done]. apply list_lookup_insert_eq.
      by apply lookup_lt_Some in Hw.
  - intros k Hk. by rewrite Value_other.
Qed.

(** The injector the package of the informer registers. *)
Definition registered_informer (ctx : context) : I (context * option (nat * nat)) :=
  r ← informer_withInformer ctx; mret (r.1, Some r.2).

(** The informers of the process: ours among the ones of other packages. *)
Lemma inject_informers_one l l' ctx ns resync f st (P : context -> store -> Prop) :
  Forall foreign_informer (l ++ l') ->
  Value ctx FactoryKey = Some (VFactory f) ->
  stFactories st !! f = Some (new_world resync (scope_option ns)) ->
  (forall ctx' st', informer_made ctx' st' (f, 0%nat) InformerKey ns resync None ->
     (forall k, ours k -> k <> InformerKey -> Value ctx' k = Value ctx k) -> P ctx' st') ->
  runs (inject_informers (map one_informer (l ++ registered_informer :: l')) ctx []) st
    (fun r st' => P r.1 st' /\ r.2 = [(f, 0%nat)]).
Proof.
  intros [Hl Hl']%Forall_app Hf Hw HP. rewrite map_app. apply inject_informers_app.
  eapply runs_impl; [by apply inject_informers_foreign|].
  intros [ctx1 infs1] st1 (Hk1&E1&Hinfs). cbn [fst snd] in *. subst infs1.
  cbn [map inject_informers]. apply runs_bind. unfold one_informer at 1, registered_informer.
  apply runs_bind, runs_bind.
  eapply (informer_withInformer_runs ctx1 ns resync f); [by rewrite Hk1|by rewrite E1|].
  intros ctx2 st2 Him Hk2. apply runs_ret, runs_ret. cbn [fst snd app].
  eapply runs_impl; [by apply inject_informers_foreign|].
  intros [ctx3 infs3] st3 (Hk3&E3&->). cbn [fst snd] in *. split; [|done]. apply HP.
  - destruct Him as [Hv Hwd]. split; [by rewrite Hk3|by rewrite E3].
  - intros k Hk Hne. by rewrite Hk3, Hk2, Hk1.
Qed.

(** The injection of the controller process: with the packages of the
    clientset, of the factory and of the informer linked, among any others, the
    setup goes through whenever a clientset can be made.  The three getters then
    answer, one informer is handed to be started, it is the one the getter's
    informer hands out again, and it watches the scope of the context with its
    resync period. *)
Theorem setup_injects `{UrlLib, Environment} i c1 c2 f1 f2 n1 n2 ctx cfg ns resync st :
  clients i = c1 ++ client_withClientFromConfig :: c2 ->
  Forall (fun ci => foreign (fun ctx => ci ctx cfg)) (c1 ++ c2) ->
  factories i = f1 ++ factory_withInformerFactory :: f2 -> Forall foreign (f1 ++ f2) ->
  Forall foreign (ducks i) ->
  informers i = n1 ++ registered_informer :: n2 -> Forall foreign_informer (n1 ++ n2) ->
  filteredInformers i = [] ->
  context_ok ctx ns resync ->
  (forall b, is_ok (Clientset.NewForConfig cfg b).1 = true) ->
  let f := length (stFactories st) in
  exists ctx' st' cs inf w,
    SetupInformers i ctx cfg st = Ok ((ctx', [(f, 0%nat)]), st') /\
    client_Get ctx' st' = Ok (RealClientset cs, st') /\
    factory_Get ctx' st' = Ok (f, st') /\
    informer_Get ctx' st' = Ok (inf, st') /\
    Informer_of inf st' = Ok ((f, 0%nat), st') /\
    stFactories st' !! f = Some w /\
    wHeap w !! 0%nat = Some (MkInformer source_type ns None resync [NamespaceIndex] None).
Proof.
  intros Hc Hcf Hf Hff Hd Hn Hnf Hfi Hctx Hcfg f.
  set (has_client ctx' st' := (exists cs, Value ctx' ClientKey = Some (VClientset cs)) /\
    context_ok ctx' ns resync /\ stFactories st' = stFactories st).
  set (has_factory ctx' (st' : store) := (exists cs, Value ctx' ClientKey = Some (VClientset cs)) /\
    Value ctx' FactoryKey = Some (VFactory f) /\
    stFactories st' = stFactories st ++ [new_world resync (scope_option ns)]).
  assert (runs (SetupInformers i ctx cfg) st (fun r st' =>
    (exists cs, Value r.1 ClientKey = Some (VClientset cs)) /\
    Value r.1 FactoryKey = Some (VFactory f) /\
    informer_made r.1 st' (f, 0%nat) InformerKey ns resync None /\ r.2 = [(f, 0%nat)])) as
    ([ctx' infs]&st'&Hrun&([cs Hcs]&Hfk&[Hv (w&Hw&Hwi&Hwh)]&Hinfs)).
  { unfold SetupInformers. apply runs_bind. rewrite Hc, map_app.
    apply (runs_impl _ _ has_client).
    { apply inject_all_one.
      - rewrite <- map_app. by apply Forall_map.
      - intros ctx1 st1 Hk1 E1. specialize (Hcfg (stBuckets st1)).
        unfold client_withClientFromConfig, runs.
        destruct (Clientset.NewForConfig cfg (stBuckets st1)) as [[cs|e] b]; [|done].
        eexists _, _. split; [reflexivity|]. split; [exists cs; apply Value_same|].
        split; [|done]. apply context_ok_with; [done..|]. by eapply context_ok_keeps.
      - intros ctx1 ctx2 st1 st2 ([cs Hcs]&Hok&E) Hk E'. split; [exists cs; by rewrite Hk|].
        split; [by eapply context_ok_keeps|congruence]. }
    intros ctx1 st1 ([cs Hcs]&Hok&E1). apply runs_bind. rewrite Hf.
    apply (runs_impl _ _ has_factory).
    { apply inject_all_one; [done| |].
      - intros ctx2 st2 Hk2 E2. unfold factory_withInformerFactory. apply runs_bind.
        unfold client_Get. rewrite Hk2, Hcs by done. apply runs_ret.
        eapply inject_factory_runs; [by eapply context_ok_keeps|].
        split; [exists cs; by rewrite Value_other, Hk2|]. rewrite Value_same, E2, E1. done.
      - intros ctx2 ctx3 st2 st3 ([cs' Hcs']&Hfk&E) Hk E'.
        split; [exists cs'; by rewrite Hk|]. split; [by rewrite Hk|congruence]. }
    intros ctx2 st2 ([cs' Hcs']&Hfk&E2). apply runs_bind.
    eapply runs_impl; [by apply inject_all_foreign|]. intros ctx3 st3 [Hk3 E3].
    rewrite Hn, Hfi, app_nil_r.
    eapply runs_impl; [apply (inject_informers_one n1 n2 ctx3 ns resync f st3 (fun ctx' st' =>
      (exists cs, Value ctx' ClientKey = Some (VClientset cs)) /\
      Value ctx' FactoryKey = Some (VFactory f) /\
      informer_made ctx' st' (f, 0%nat) InformerKey ns resync None)); [done| | |]|naive_solver].
    - by rewrite Hk3.
    - rewrite E3, E2. by apply list_lookup_middle.
    - intros ctx4 st4 Him Hk4. split; [exists cs'; by rewrite Hk4, Hk3|].
      split; [by rewrite Hk4, Hk3|done]. }
  cbn [fst snd] in *. subst infs. eexists ctx', st', cs, _, w. split; [exact Hrun|].
  unfold client_Get, factory_Get, informer_Get. rewrite Hcs, Hfk, Hv.
  split_and!; try done. unfold Informer_of. cbn [siFactory siInformer fst]. rewrite Hw.
  unfold Informer. rewrite (InformerFor_known source_type _ w 0%nat) by done.
  rewrite list_insert_id by done. by destruct st'.
Qed.

(** ** The filtered packages *)

(** A selector with its factory and the number of its tweak. *)
Record job := MkJob { jSelector : string; jFactory : nat; jTweak : nat }.

Definition job_world (ns : string) (resync : Z) (j : job) : world :=
  new_world resync (scope_option ns ++ [WithTweakListOptions (Some (jTweak j))]).

(** The jobs of a list of selectors, in the stores that have so many factories
    and tweaks. *)
Definition jobs (f t : nat) (selectors : list string) : list job :=
  imap (fun n selector => MkJob selector (f + n) (t + n)) selectors.

Lemma jobs_cons f t s selectors :
  jobs f t (s :: selectors) = MkJob s f t :: jobs (S f) (S t) selectors.
Proof.
  unfold jobs. cbn [imap]. rewrite !Nat.add_0_r. f_equal. apply imap_ext. intros n x _. cbn.
  f_equal; lia.
Qed.

Lemma jobs_selectors f t selectors : map jSelector (jobs f t selectors) = selectors.
Proof.
  revert f t. induction selectors as [|s l IH]; intros f t; [done|].
  rewrite jobs_cons. cbn [map]. by rewrite IH.
Qed.

Lemma jobs_bound f t selectors j :
  j ∈ jobs f t selectors -> (f <= jFactory j)%nat.
Proof.
  revert f t. induction selectors as [|s l IH]; intros f t; [by intros ?%not_elem_of_nil|].
  rewrite jobs_cons. intros [->|Hj]%elem_of_cons; [done|]. apply IH in Hj. lia.
Qed.

Lemma jobs_factories_nodup f t selectors : NoDup (map jFactory (jobs f t selectors)).
Proof.
  revert f t. induction selectors as [|s l IH]; intros f t; [constructor|].
  rewrite jobs_cons. cbn [map]. constructor; [|apply IH].
  intros (j&E&Hj)%list_elem_of_In%in_map_iff. apply list_elem_of_In, jobs_bound in Hj.
  cbn in E. lia.
Qed.

Lemma inject_filtered_factories_runs selectors ctx ns resync st :
  context_ok ctx ns resync -> NoDup selectors ->
  let l := jobs (length (stFactories st)) (length (stTweaks st)) selectors in
  runs (inject_filtered_factories selectors ctx) st (fun ctx' st' =>
    stFactories st' = stFactories st ++ map (job_world ns resync) l /\
    stTweaks st' = stTweaks st ++ selectors /\
    (forall j, j ∈ l -> Value ctx' (FilteredFactoryKey (jSelector j)) = Some (VFactory (jFactory j))) /\
    (forall k, (forall s, s ∈ selectors -> k <> FilteredFactoryKey s) -> Value ctx' k = Value ctx k)).
Proof.
  revert ctx st. induction selectors as [|s selectors IH]; intros ctx st Hctx Hnd l.
  { apply runs_ret. cbn. rewrite !app_nil_r. split_and!; try done. by intros j ?%not_elem_of_nil. }
  apply NoDup_cons in Hnd as [Hs Hnd]. cbn [inject_filtered_factories].
  apply runs_bind. eapply scope_options_runs; [done|]. apply runs_bind.
  eexists _, _. split; [reflexivity|]. apply runs_bind.
  eapply GetResyncPeriod_runs; [done|]. apply runs_bind. eexists _, _. split; [reflexivity|].
  cbn [stBuckets stFactories stTweaks].
  set (f := length (stFactories st)) in *. set (t := length (stTweaks st)) in *.
  eapply runs_impl; [apply IH; [|done]|]; [by apply context_ok_with|].
  cbn [stFactories stTweaks]. rewrite !length_app. fold f t. cbn [length]. rewrite !Nat.add_1_r.
  intros ctx' st' (Hf&Ht&Hj&Hk). unfold l. rewrite jobs_cons. cbn [map].
  split_and!.
  - by rewrite Hf, <- app_assoc.
  - by rewrite Ht, <- app_assoc.
  - intros j [->|Hin]%elem_of_cons; [|by apply Hj]. cbn [jSelector jFactory].
    rewrite Hk, Value_same; [done|]. intros s' Hs' [= ->]. done.
  - intros k Hne. rewrite Hk by (intros s' ?; apply Hne; by right).
    apply Value_other. intros <-. by eapply Hne; [left|].
Qed.

Lemma inject_filtered_informers_runs l ctx infs ns resync st :
  NoDup (map jSelector l) -> NoDup (map jFactory l) ->
  (forall j, j ∈ l -> Value ctx (FilteredFactoryKey (jSelector j)) = Some (VFactory (jFactory j)) /\
     stFactories st !! jFactory j = Some (job_world ns resync j)) ->
  runs (inject_filtered_informers (map jSelector l) ctx infs) st (fun r st' =>
    r.2 = infs ++ map (fun j => (jFactory j, 0%nat)) l /\ stTweaks st' = stTweaks st /\
    (forall j, j ∈ l -> informer_made r.1 st' (jFactory j, 0%nat) (FilteredInformerKey (jSelector j))
       ns resync (Some (jTweak j))) /\
    (forall k, (forall j, j ∈ l -> k <> FilteredInformerKey (jSelector j)) -> Value r.1 k = Value ctx k) /\
    (forall f, f ∉ map jFactory l -> stFactories st' !! f = stFactories st !! f)).
Proof.
  revert ctx infs st. induction l as [|j l IH]; intros ctx infs st Hs Hf Hj.
  { apply runs_ret. rewrite app_nil_r. split_and!; try done. by intros j ?%not_elem_of_nil. }
  cbn [map] in *. apply NoDup_cons in Hs as [Hs Hsl], Hf as [Hf Hfl].
  destruct (Hj j) as [Hv Hw]; [by left|]. cbn [inject_filtered_informers].
  unfold filteredFactory_Get. rewrite Hv. apply runs_bind, runs_ret, runs_bind.
  eapply sources_of_runs; [exact Hw|]. apply runs_bind.
  apply (Informer_of_fresh (jFactory j) ns resync (Some (jTweak j)) st); [exact Hw|].
  intros w' Hi Hh. eapply runs_impl; [apply IH; [done|done|]|].
  - intros j' Hj'. rewrite Value_other by done. destruct (Hj j') as [Hv' Hw']; [by right|].
    split; [done|]. cbn [stFactories]. rewrite list_lookup_insert_ne; [done|].
    intros E. apply Hf. rewrite E. by apply list_elem_of_In, in_map, list_elem_of_In.
  - cbn [stFactories stTweaks]. intros [ctx' infs'] st' (Hinfs&Ht&Him&Hk&Hfs). cbn [fst snd] in *.
    split_and!; [by rewrite Hinfs, <- app_assoc|done| | |].
    + intros j' [->|Hj']%elem_of_cons; [|by apply Him]. split; [|exists w'].
      * rewrite Hk, Value_same.
        -- cbn [fst]. do 3 f_equal. rewrite YipYapSources_eq. unfold job_world.
           destruct (fresh_world ns resync [WithTweakListOptions (Some (jTweak j))]) as
             (->&_&_&_&_&->); [by eauto|done].
        -- intros j'' Hj'' [= E]. apply Hs. rewrite E. by apply list_elem_of_In, in_map, list_elem_of_In.
      * cbn [fst snd]. rewrite Hfs by done. split; [|done]. apply list_lookup_insert_eq.
        by apply lookup_lt_Some in Hw.
    + intros k Hne. rewrite Hk by (intros j' ?; apply Hne; by right). rewrite Value_other; [done|].
      intros <-. by eapply Hne; [left|].
    + intros f [Hne Hin]%not_elem_of_cons. rewrite Hfs by done. by rewrite list_lookup_insert_ne.
Qed.

(** The tweak of a job sets its selector. *)
Lemma jobs_tweak selectors f tweaks0 j (opts : ListOptions) :
  j ∈ jobs f (length tweaks0) selectors ->
  tweak (tweaks0 ++ selectors) (jTweak j) opts
    = MkListOptions (jSelector j) (FieldSelector opts) (Rest.Watch opts) (TimeoutSeconds opts).
Proof.
  revert f tweaks0. induction selectors as [|s l IH]; intros f tweaks0; [by intros ?%not_elem_of_nil|].
  rewrite jobs_cons. intros [->|Hj]%elem_of_cons.
  - unfold tweak. cbn [jTweak jSelector]. by rewrite list_lookup_middle.
  - change (s :: l) with ([s] ++ l). rewrite app_assoc. apply (IH (S f)).
    rewrite length_app. cbn. by rewrite Nat.add_1_r.
Qed.

(** The filtered injection gives every selector of the context a factory
    and an informer of its own: the getter answers for each of them, with an
    informer that was handed out to be started, and whose lists and watches ask
    for the scope of the context and the selector.  Linked without selectors in
    the context, the packages panic. *)
Theorem filtered_setup ctx selectors ns resync cs st :
  Value ctx ClientKey = Some (VClientset cs) -> context_ok ctx ns resync -> NoDup selectors ->
  let setup ctx := filteredFactory_withInformerFactory ctx ≫= filtered_withInformer in
  (exists ctx' infs st',
     setup (filteredFactory_WithSelectors ctx selectors) st = Ok ((ctx', infs), st') /\
     length infs = length selectors /\
     forall s, s ∈ selectors -> exists inf i w made,
       filtered_Get ctx' s st' = Ok (inf, st') /\ Informer_of inf st' = Ok (i, st') /\
       i ∈ infs /\ stFactories st' !! i.1 = Some w /\ wHeap w !! i.2 = Some made /\
       forall opts, Informers.list_request (tweak (stTweaks st')) made opts
         = (ns, MkListOptions s (FieldSelector opts) (Rest.Watch opts) (TimeoutSeconds opts))) /\
  (Value ctx LabelKey = None -> setup ctx st = Err "Unable to fetch labelkey from context.").
Proof.
  intros Hcs Hctx Hnd setup. split; [|intros Hl].
  - set (ctx0 := filteredFactory_WithSelectors ctx selectors).
    set (l := jobs (length (stFactories st)) (length (stTweaks st)) selectors).
    assert (runs (setup ctx0) st (fun r st' =>
      r.2 = map (fun j => (jFactory j, 0%nat)) l /\ stTweaks st' = stTweaks st ++ selectors /\
      forall j, j ∈ l -> informer_made r.1 st' (jFactory j, 0%nat) (FilteredInformerKey (jSelector j))
        ns resync (Some (jTweak j)))) as ([ctx' infs]&st'&Hrun&Hinfs&Ht&Him).
    { apply runs_bind. unfold filteredFactory_withInformerFactory, client_Get, labelSelectors, ctx0,
        filteredFactory_WithSelectors. rewrite (Value_other ctx LabelKey ClientKey), Hcs by done.
      apply runs_bind, runs_ret, runs_bind. rewrite Value_same. apply runs_ret.
      eapply runs_impl; [apply (inject_filtered_factories_runs selectors _ ns resync); [|done]|].
      { by apply context_ok_with. }
      intros ctx1 st1 (Hf1&Ht1&Hj1&Hk1). unfold filtered_withInformer, labelSelectors.
      rewrite Hk1, Value_same by done. apply runs_bind, runs_ret.
      rewrite <- (jobs_selectors (length (stFactories st)) (length (stTweaks st)) selectors) at 1.
      fold l. eapply runs_impl; [apply (inject_filtered_informers_runs l _ _ ns resync)|].
      - unfold l. by rewrite jobs_selectors.
      - apply jobs_factories_nodup.
      - intros j Hj. split; [by apply Hj1|]. rewrite Hf1. fold l. clear -Hj. unfold l in *.
        revert Hj. generalize (stFactories st) (length (stTweaks st)). clear l.
        induction selectors as [|s selectors IH]; intros ws t; [by intros ?%not_elem_of_nil|].
        rewrite jobs_cons. intros [->|Hj]%elem_of_cons; cbn [map].
        + by apply list_lookup_middle.
        + specialize (IH (ws ++ [job_world ns resync (MkJob s (length ws) t)]) (S t)).
          rewrite length_app, Nat.add_1_r, <- app_assoc in IH. by apply IH.
      - intros r st2 (Hr&Ht2&Him&_). split; [done|]. split; [congruence|done]. }
    cbn [fst snd] in *. subst infs. exists ctx', (map (fun j => (jFactory j, 0%nat)) l), st'.
    split; [exact Hrun|]. split.
    { rewrite length_map. unfold l, jobs. by rewrite length_imap. }
    intros s Hs. rewrite <- (jobs_selectors (length (stFactories st)) (length (stTweaks st))) in Hs.
    apply list_elem_of_In, in_map_iff in Hs as (j&<-&Hj%list_elem_of_In).
    destruct (Him j Hj) as [Hv (w&Hw&Hwi&Hwh)]. cbn [fst snd] in *.
    eexists _, (jFactory j, 0%nat), w, _. unfold filtered_Get. rewrite Hv. split; [reflexivity|].
    split; [|split; [|split; [done|split; [exact Hwh|]]]].
    + unfold Informer_of. cbn [siFactory siInformer]. rewrite Hw. unfold Informer.
      rewrite (InformerFor_known source_type _ w 0%nat) by done.
      rewrite list_insert_id by done. by destruct st'.
    + by apply list_elem_of_In, (in_map (fun j => (jFactory j, 0%nat))), list_elem_of_In.
    + intros opts. unfold Informers.list_request. cbn [ifNamespace ifTweakListOptions].
      rewrite Ht. f_equal. by eapply jobs_tweak.
  - unfold setup, filteredFactory_withInformerFactory, client_Get, labelSelectors, mbind, I_bind.
    by rewrite Hcs, Hl.
Qed.

(** The fakes stand in for the packages: with a fake clientset in the context the
    getters of the packages answer as they do in the process. *)
Theorem fakes_serve_the_getters ctx objects ns resync st :
  context_ok ctx ns resync ->
  let f := length (stFactories st) in
  exists ctx' st' inf,
    (ctx ← fake_factory_withInformerFactory (fake_With ctx objects); informer_withInformer ctx) st
      = Ok ((ctx', (f, 0%nat)), st') /\
    client_Get ctx' st' = Ok (FakeClientset objects, st') /\
    fake_client_Get ctx' st' = Ok (objects, st') /\
    factory_Get ctx' st' = Ok (f, st') /\ informer_Get ctx' st' = Ok (inf, st').
Proof.
  intros Hctx f.
  assert (runs (ctx ← fake_factory_withInformerFactory (fake_With ctx objects); informer_withInformer ctx)
    st (fun r st' => r.2 = (f, 0%nat) /\ Value r.1 ClientKey = Some (VFake objects) /\
    Value r.1 FactoryKey = Some (VFactory f) /\ exists inf, Value r.1 InformerKey = Some (VInformer inf)))
    as ([ctx' i]&st'&Hrun&Hi&Hc&Hf&inf&Hinf).
  { apply runs_bind. unfold fake_factory_withInformerFactory, fake_client_Get, fake_With.
    rewrite Value_same. apply runs_bind, runs_ret.
    eapply inject_factory_runs; [by apply context_ok_with|].
    apply (informer_withInformer_runs _ ns resync f).
    - by rewrite Value_same.
    - cbn [stFactories]. by apply list_lookup_middle.
    - intros ctx' st' [Hv _] Hk. cbn [fst snd]. rewrite !Hk, Value_same, Value_other by done.
      split_and!; [done|by rewrite Value_same|done|by eexists]. }
  cbn [fst snd] in *. subst i. exists ctx', st', inf. split; [exact Hrun|].
  unfold client_Get, fake_client_Get, factory_Get, informer_Get. by rewrite Hc, Hf, Hinf.
Qed.

(** ** Witnesses *)

(** Another package: it puts something of its own into the context. *)
Definition other_package (name : string) (ctx : context) : I context :=
  mret (WithValue ctx (OtherKey name) (VOther 0)).

Lemma other_package_foreign name : foreign (other_package name).
Proof.
  intros ctx st. apply runs_ret. split; [|done]. intros k Hk. apply Value_other.
  intros <-. done.
Qed.

Lemma other_informer_foreign name :
  foreign_informer (fun ctx => ctx ← other_package name ctx; mret (ctx, None)).
Proof.
  intros ctx st. apply runs_bind, runs_ret, runs_ret. split; [|done]. intros k Hk.
  apply Value_other. intros <-. done.
Qed.

(** The packages the controller links. *)
Definition controller_impl : impl :=
  MkImpl [(fun ctx _ => other_package "kubeclient" ctx);
          client_withClientFromConfig (H := plain_url_lib) (H0 := sample_environment)]
    [other_package "kubefactory"; factory_withInformerFactory] [other_package "addressable"]
    [(fun ctx => ctx ← other_package "deployment" ctx; mret (ctx, None)); registered_informer] [].

Definition process_config : Config :=
  main_config 1 (MkConfig "https://proxy:6443" "" None None false "" 0 0 None 0 "").

Definition scoped_context : context := WithValue [] nsKey (VString "yipyap").
Definition empty_store : store := MkStore [] [] [].

Lemma setup_injects_witness :
  exists ctx' st' w, SetupInformers controller_impl scoped_context process_config empty_store
      = Ok ((ctx', [(0%nat, 0%nat)]), st') /\
    factory_Get ctx' st' = Ok (0%nat, st') /\ stFactories st' !! 0%nat = Some w /\
    wHeap w !! 0%nat
      = Some (MkInformer source_type "yipyap" None DefaultResyncPeriod [NamespaceIndex] None).
Proof.
  destruct (setup_injects (H := plain_url_lib) (H0 := sample_environment) controller_impl
    [(fun ctx _ => other_package "kubeclient" ctx)] [] [other_package "kubefactory"] []
    [(fun ctx => ctx ← other_package "deployment" ctx; mret (ctx, None))] []
    scoped_context process_config "yipyap" DefaultResyncPeriod empty_store)
    as (ctx'&st'&cs&inf&w&Hrun&_&Hf&_&_&Hw&Hh).
  - reflexivity.
  - constructor; [apply other_package_foreign|constructor].
  - reflexivity.
  - constructor; [apply other_package_foreign|constructor].
  - constructor; [apply other_package_foreign|constructor].
  - reflexivity.
  - constructor; [apply other_informer_foreign|constructor].
  - reflexivity.
  - split; [left; reflexivity|right; split; reflexivity].
  - intros b. reflexivity.
  - exists ctx', st', w. split; [exact Hrun|]. split; [exact Hf|]. split; [exact Hw|exact Hh].
Defined.

Lemma filtered_setup_witness :
  exists cs ctx' infs st',
    (filteredFactory_withInformerFactory
       (filteredFactory_WithSelectors (WithValue scoped_context ClientKey (VClientset cs)) ["a=b"; "c"])
     ≫= filtered_withInformer) empty_store = Ok ((ctx', infs), st') /\ length infs = 2%nat.
Proof.
  set (cs := Clientset.New sample_rest).
  destruct (filtered_setup (WithValue scoped_context ClientKey (VClientset cs)) ["a=b"; "c"]
    "yipyap" DefaultResyncPeriod cs empty_store) as [(ctx'&infs&st'&Hrun&Hlen&_) _].
  - reflexivity.
  - split; [left; reflexivity|right; split; reflexivity].
  - apply (bool_decide_unpack _). reflexivity.
  - exists cs, ctx', infs, st'. split; [exact Hrun|exact Hlen].
Defined.
