(* ===== verification/Leader.v ===== *)
(** * Leadership and the construction of the reconciler

    [LeaderAwareFuncs] (reconciler/leader.go of knative.dev/pkg): the buckets
    this replica leads, and what promoting and demoting one does.  [NewImpl]
    and [NewReconciler] of the generated package: the reconciler from the
    options, with the promote function that enqueues what the cache lists.

    A callback the user may set is a flag, and calling it an effect. *)

From S2P Require Import Prelude GoStrings CondSet Types Api Lifecycle KindReconciler.
Local Open Scope string_scope.
Local Open Scope list_scope.

Record NamespacedName := MkNamespacedName { nnNamespace : string; nnName : string }.

#[export] Instance NamespacedName_eq_dec : EqDecision NamespacedName.
Proof. solve_decision. Defined.
#[export] Program Instance NamespacedName_countable : Countable NamespacedName :=
  inj_countable' (fun k => (nnNamespace k, nnName k)) (fun '(ns, n) => MkNamespacedName ns n) _.
Next Obligation. by intros []. Qed.

Record Bucket := MkBucket { bkName : string; bkHas : NamespacedName -> bool }.

Inductive leader_effect :=
| PromoteCallback (bucket : string)
| DemoteCallback (bucket : string)
| Enqueued (key : NamespacedName).

(** ** The buckets *)

(** The map of [LeaderAwareFuncs], by the names of the buckets. *)
Abbreviation buckets := (gmap string Bucket).

Definition IsLeaderFor (laf : buckets) (key : NamespacedName) : bool :=
  existsb (fun kb => bkHas kb.2 key) (map_to_list laf).

Inductive leader_op := Promoted (b : Bucket) | Demoted (b : Bucket).

Definition leader_step (op : leader_op) (laf : buckets) : buckets :=
  match op with
  | Promoted b => <[bkName b := b]> laf
  | Demoted b => delete (bkName b) laf
  end.

(** [Promote]: the bucket is recorded first, then the promote function runs,
    if the caller gave it an enqueue function. *)
Definition Promote {E : Type} (b : Bucket) (promote : option (Bucket -> list leader_effect * option E))
    (laf : buckets) : buckets * (list leader_effect * option E) :=
  (leader_step (Promoted b) laf,
   match promote with Some f => f b | None => ([], None) end).

Definition Demote (b : Bucket) (demote : bool) (laf : buckets) : buckets * list leader_effect :=
  (leader_step (Demoted b) laf, if demote then [DemoteCallback (bkName b)] else []).

(** [MaybeEnqueueBucketKey]. *)
Definition MaybeEnqueueBucketKey (b : Bucket) (key : NamespacedName) : list leader_effect :=
  if bkHas b key then [Enqueued key] else [].

(** ** Options *)

Record Options := MkOptions {
  optFinalizerName : string;
  optUseServerSideApplyForFinalizers : bool;
  optFinalizerFieldManager : string;
  optForceApplyFinalizers : bool;
  optAgentName : string;
  optSkipStatusUpdates : bool;
  optDemoteFunc : bool;
  optPromoteFilterFunc : option (YipYapSource -> bool);
  optPromoteFunc : bool
}.

Definition defaultControllerAgentName : string := "yipyapsource-controller".
Definition defaultFinalizerName : string := "yipyapsources.sources.yipyap.run".

(** What the generated package makes of a reconciler. *)
Record impl (S : Type) := MkImpl {
  implRec : reconcilerImpl S;
  implAgent : string;
  implDemote : bool;
  implFilter : option (YipYapSource -> bool);
  implPromote : bool
}.
Arguments MkImpl {S} _ _ _ _ _.
Arguments implRec {S} _.
Arguments implAgent {S} _.
Arguments implDemote {S} _.
Arguments implFilter {S} _.
Arguments implPromote {S} _.

Section construct.
Context {S : Type}.

(** The interface a controller implements: the hooks, the optional ones by a
    type assertion. *)
Record hooks := MkHooks {
  hkReconcile : hook S;
  hkFinalize : option (hook S);
  hkObserve : option (hook S);
  hkDeletion : option (string -> string -> M S (option go_error));
  hkLeaderAware : bool
}.

(** The options on the reconciler; [None] is the [Fatal] for a missing field
    manager. *)
Definition apply_options (o : Options) (r : reconcilerImpl S) : option (reconcilerImpl S) :=
  let fin := if String.eqb (optFinalizerName o) "" then finalizerName r else optFinalizerName o in
  let skip := optSkipStatusUpdates o || skipStatusUpdates r in
  let make ssa manager force :=
    MkReconcilerImpl (Client r) (Lister r) (ReconcileKind r) (Finalizer r) (ReadOnlyInterface r)
      (OnDeletionInterface r) (KindReconciler.IsLeaderFor r) fin ssa manager force skip in
  if optUseServerSideApplyForFinalizers o then
    if String.eqb (optFinalizerFieldManager o) "" then None
    else Some (make true (optFinalizerFieldManager o) (optForceApplyFinalizers o))
  else
    Some (make (useServerSideApplyForFinalizers r) (finalizerFieldManager r)
            (forceApplyFinalizers r)).

Definition base (cl : client S) (lister : string -> string -> S -> result api_error YipYapSource)
    (leader : string -> string -> bool) (h : hooks) : reconcilerImpl S :=
  MkReconcilerImpl cl lister (hkReconcile h) (hkFinalize h) (hkObserve h) (hkDeletion h) leader
    defaultFinalizerName false "" false false.

Definition NewReconciler cl lister leader (h : hooks) (options : list Options)
    : option (reconcilerImpl S) :=
  if (1 <? length options)%nat then None
  else if hkLeaderAware h then None
  else foldl (fun r o => r ← r; apply_options o r) (Some (base cl lister leader h)) options.

(** [NewImpl]: every option also sets the callbacks. *)
Definition impl_option (i : option (impl S)) (o : Options) : option (impl S) :=
  i ← i;
  r ← apply_options o (implRec i);
  Some (MkImpl r
    (if String.eqb (optAgentName o) "" then implAgent i else optAgentName o)
    (optDemoteFunc o || implDemote i)
    (match optPromoteFilterFunc o with Some f => Some f | None => implFilter i end)
    (optPromoteFunc o || implPromote i)).

Definition NewImpl cl lister leader (h : hooks) (options : list Options) : option (impl S) :=
  if (1 <? length options)%nat then None
  else foldl impl_option
    (Some (MkImpl (base cl lister leader h) defaultControllerAgentName false None false)) options.

(** The [PromoteFunc] of [NewImpl] on the lister's answer: the callback, then
    every listed resource that passes the filter. *)
Definition PromoteFunc {E} (i : impl S) (all : result E (list YipYapSource))
    (enq : Bucket -> NamespacedName -> list leader_effect) (b : Bucket)
    : list leader_effect * option E :=
  let signal := if implPromote i then [PromoteCallback (bkName b)] else [] in
  match all with
  | Err e => (signal, Some e)
  | Ok all =>
      (signal ++ flat_map (fun elt =>
         if match implFilter i with Some f => negb (f elt) | None => false end then []
         else enq b (MkNamespacedName (omNamespace (yMeta elt)) (omName (yMeta elt)))) all, None)
  end.
End construct.

(** ** Lemmas *)

Lemma IsLeaderFor_spec laf key :
  IsLeaderFor laf key = true <-> exists k b, laf !! k = Some b /\ bkHas b key = true.
Proof.
  unfold IsLeaderFor. rewrite existsb_exists. split.
  - intros ([k b]&Hin&Hb). apply list_elem_of_In, elem_of_map_to_list in Hin. eauto.
  - intros (k&b&Hk&Hb). exists (k, b). split; [|done].
    by apply list_elem_of_In, elem_of_map_to_list.
Qed.

Definition op_name (op : leader_op) : string :=
  match op with Promoted b | Demoted b => bkName b end.

(** The buckets led after some promotions and demotions. *)
Lemma leader_run_lookup ops laf k b :
  foldl (fun laf op => leader_step op laf) laf ops !! k = Some b <->
  (exists pre post, ops = pre ++ Promoted b :: post /\ bkName b = k /\
     Forall (fun op => op_name op <> k) post) \/
  (laf !! k = Some b /\ Forall (fun op => op_name op <> k) ops).
Proof.
  revert laf. induction ops as [|op ops IH]; intros laf; cbn [foldl].
  - split; [by right|]. intros [([|]&?&?&_)|[? _]]; done.
  - rewrite IH. split.
    + intros [(pre&post&->&Hk&Hp)|[Hl Hf]]; [left; by exists (op :: pre), post|].
      destruct op as [b'|b']; cbn [leader_step] in Hl.
      * apply lookup_insert_Some in Hl as [[Hn ->]|[Hn Hl]].
        -- left. exists [], ops. split_and!; [done|done|]. eapply Forall_impl; [exact Hf|done].
        -- right. split; [done|]. by constructor.
      * apply lookup_delete_Some in Hl as [Hn Hl]. right. split; [done|]. by constructor.
    + intros [([|op' pre]&post&[= -> ->]&Hk&Hp)|[Hl Hf]].
      * right. cbn [leader_step]. rewrite Hk. split; [by rewrite lookup_insert_eq|done].
      * left. by exists pre, post.
      * apply Forall_cons in Hf as [Hn Hf]. right. split; [|done].
        destruct op; cbn [leader_step op_name] in *; [by rewrite lookup_insert_ne|].
        by rewrite lookup_delete_ne.
Qed.

(** ** Theorems *)

(** Leadership follows the elections: after any sequence of promotions and
    demotions, the replica leads a key exactly when some bucket has the key that
    was promoted and, under its name, neither demoted nor replaced since. *)
Theorem leadership_follows_elections ops key :
  IsLeaderFor (foldl (fun laf op => leader_step op laf) ∅ ops) key = true <->
  exists pre b post,
    ops = pre ++ Promoted b :: post /\ Forall (fun op => op_name op <> bkName b) post /\
    bkHas b key = true.
Proof.
  rewrite IsLeaderFor_spec. split.
  - intros (k&b&Hk&Hb). apply leader_run_lookup in Hk as [(pre&post&E&<-&Hp)|[? _]]; [|done].
    by exists pre, b, post.
  - intros (pre&b&post&E&Hp&Hb). exists (bkName b), b. split; [|done].
    apply leader_run_lookup. left. by exists pre, post.
Qed.

(** Taking over loses nothing: when a bucket is promoted, every listed
    resource of the bucket (that passes the filter, if there is one) is
    enqueued, nothing outside the bucket is, and by then the replica leads each
    of the keys, so the run will not skip them. *)
Theorem promotion_resyncs {S E} (i : impl S) (all : list YipYapSource) b laf :
  let '(laf', (effects, err)) :=
    Promote (E := E) b (Some (PromoteFunc i (Ok all) MaybeEnqueueBucketKey)) laf in
  err = None /\
  forall key, Enqueued key ∈ effects <->
    IsLeaderFor laf' key = true /\ bkHas b key = true /\
    exists y, y ∈ all /\ key = MkNamespacedName (omNamespace (yMeta y)) (omName (yMeta y)) /\
      (forall f, implFilter i = Some f -> f y = true).
Proof.
  cbn. split; [done|]. intros key. rewrite elem_of_app, (list_elem_of_In (flat_map _ all)), in_flat_map.
  assert (forall key, bkHas b key = true -> IsLeaderFor (<[bkName b:=b]> laf) key = true) as Hl.
  { intros k Hk. apply IsLeaderFor_spec. exists (bkName b), b. by rewrite lookup_insert_eq. }
  unfold MaybeEnqueueBucketKey. split.
  - intros [Hs|(y&Hy&Hin)].
    { destruct (implPromote i); [|by apply not_elem_of_nil in Hs]. by apply list_elem_of_singleton in Hs. }
    apply list_elem_of_In in Hy.
    destruct (match implFilter i with Some f => negb (f y) | None => false end) eqn:Ef; [done|].
    destruct (bkHas b _) eqn:Eb; [|done]. destruct Hin as [[= <-]|[]].
    split_and!; [auto|done|]. exists y. split_and!; [done..|]. intros f Hf. rewrite Hf in Ef.
    by apply negb_false_iff.
  - intros (_&Hb&y&Hy&->&Hf). right. exists y. split; [by apply list_elem_of_In|].
    destruct (implFilter i) as [f|]; [rewrite (Hf f eq_refl); cbn [negb]|]; rewrite Hb; by left.
Qed.

(** The options: more than one set is fatal, and so is server-side apply
    without a field manager; otherwise the reconciler keeps the controller's
    hooks, client and lister, takes the finalizer name given or the default one,
    and applies finalizers on the server exactly when asked to, then always
    under a manager's name. *)
Theorem NewImpl_options {S} cl lister leader (h : @hooks S) options :
  match NewImpl cl lister leader h options with
  | None =>
      (1 < length options)%nat \/
      exists o, options = [o] /\ optUseServerSideApplyForFinalizers o = true /\
        optFinalizerFieldManager o = ""
  | Some i =>
      let r := implRec i in
      (length options <= 1)%nat /\
      Client r = cl /\ Lister r = lister /\ ReconcileKind r = hkReconcile h /\
      Finalizer r = hkFinalize h /\ ReadOnlyInterface r = hkObserve h /\
      OnDeletionInterface r = hkDeletion h /\ finalizerName r <> "" /\ implAgent i <> "" /\
      (useServerSideApplyForFinalizers r = true -> finalizerFieldManager r <> "") /\
      (options = [] -> i = MkImpl (base cl lister leader h) defaultControllerAgentName
                             false None false) /\
      (forall o, options = [o] ->
         useServerSideApplyForFinalizers r = optUseServerSideApplyForFinalizers o /\
         skipStatusUpdates r = optSkipStatusUpdates o)
  end.
Proof.
  unfold NewImpl. destruct options as [|o [|o' rest]].
  - cbn. split_and!; try done; lia.
  - cbn. unfold apply_options. cbn [base finalizerName].
    destruct (optUseServerSideApplyForFinalizers o) eqn:Eu.
    + destruct (String.eqb_spec (optFinalizerFieldManager o) "") as [Em|Hm].
      { cbn. right. by exists o. }
      cbn. destruct (String.eqb_spec (optFinalizerName o) ""), (String.eqb_spec (optAgentName o) "");
        split_and!; try done; try lia; intros ? [= <-]; by rewrite orb_false_r.
    + cbn. destruct (String.eqb_spec (optFinalizerName o) ""), (String.eqb_spec (optAgentName o) "");
        split_and!; try done; try lia; intros ? [= <-]; by rewrite orb_false_r.
  - cbn. left. lia.
Qed.
