(* ===== verification/Contents.v ===== *)
(** * The contents of the conditions

    Lifecycle.v follows the status of each condition.  Here a condition's
    content is its status, reason and message, everything but the transition
    time, and the Mark methods of the source are matched with a machine on
    contents ([cmark]).  The machine makes a reconciliation idempotent, and two
    condition lists with the same contents are equal once the transition times
    are groomed. *)

From S2P Require Import Prelude GoStrings CondSet Types Lifecycle Names Deployment Reconcile.
Local Open Scope string_scope.
Local Open Scope list_scope.

(** ** Contents *)

Definition content : Type := string * string * string.

Definition content_of (c : Condition) : content := (cStatus c, cReason c, cMessage c).

Definition cview_t : Type := ConditionType -> option content.
Definition ccview (st : cstate) : cview_t := fun t => content_of <$> GetCondition t st.
Definition cview (s : tstatus) : cview_t := ccview (managed s).

Definition cset (t : ConditionType) (x : content) (v : cview_t) : cview_t :=
  fun t' => if String.eqb t' t then Some x else v t'.

Definition c_true : content := (ConditionTrue, "", "").
Definition c_false (reason message : string) : content := (ConditionFalse, reason, message).
Definition c_unknown (reason message : string) : content := (ConditionUnknown, reason, message).
Definition is_false (x : option content) : bool :=
  match x with Some (s, _, _) => String.eqb s ConditionFalse | None => false end.
Definition is_true (x : option content) : bool :=
  match x with Some (s, _, _) => String.eqb s ConditionTrue | None => false end.

Abbreviation sinkT := YipYapSourceConditionSinkProvided.
Abbreviation depT := YipYapSourceConditionDeployed.
Abbreviation readyT := YipYapSourceConditionReady.

(** The other dependent. *)
Definition other (t : ConditionType) : ConditionType := if String.eqb t sinkT then depT else sinkT.

(** Ready when one dependent is True: the content of the other unless it is
    True as well. *)
Definition c_ready (x : option content) : content :=
  match x with
  | None => c_unknown "" ""
  | Some x => if is_true (Some x) then c_true else x
  end.

(** The machine: the dependent takes its content, and Ready follows. *)
Definition cmark (m : mark) (v : cview_t) : cview_t :=
  match m with
  | MTrue t => cset readyT (c_ready (v (other t))) (cset t c_true v)
  | MFalse t reason message =>
      cset readyT (c_false reason message) (cset t (c_false reason message) v)
  | MUnknown t reason message =>
      if is_false (v (other t)) then
        if is_false (v readyT) then cset t (c_unknown reason message) v
        else cset readyT (c_false reason message) (cset t (c_unknown reason message) v)
      else cset readyT (c_unknown reason message) (cset t (c_unknown reason message) v)
  end.

(** ** The manager refines the machine *)

Section refine.
Context (clock : nat -> Z).
Let r := yipyapSourceCondSet.

Lemma step_content t status sev reason message st :
  wf r st -> forall t',
  ccview (SetCondition clock (MkCondition t status sev zero_time reason message) st) t'
  = cset t (status, reason, message) (ccview st) t'.
Proof.
  intros Hwf t'. unfold ccview, cset. destruct (String.eqb_spec t' t) as [->|Hne].
  - destruct (get_SetCondition_same clock (MkCondition t status sev zero_time reason message) st)
      as [tm Htm]; [apply Hwf|]. simpl in Htm. by rewrite Htm.
  - rewrite get_SetCondition_other; [done|apply Hwf|done].
Qed.

Lemma dependents_two t : t ∈ dependents r -> t = sinkT \/ t = depT.
Proof. unfold r. rewrite set_dependents, !elem_of_cons, elem_of_nil. tauto. Qed.

Lemma dependent_not_ready t : t ∈ dependents r -> String.eqb t readyT = false /\ t <> readyT.
Proof. intros [->| ->]%dependents_two; done. Qed.

Lemma other_dependent t : t ∈ dependents r -> other t ∈ dependents r /\ other t <> t.
Proof. unfold r. intros [->| ->]%dependents_two; split; try done; auto with conds. Qed.

Lemma dependents_other t d : t ∈ dependents r -> d ∈ dependents r -> d = t \/ d = other t.
Proof. intros [->| ->]%dependents_two [->| ->]%dependents_two; auto. Qed.

Lemma ccview_cond st t c : GetCondition t st = Some c -> ccview st t = Some (content_of c).
Proof. unfold ccview. by intros ->. Qed.

Lemma is_false_cond st t : IsFalse (GetCondition t st) = is_false (ccview st t).
Proof. unfold ccview. by destruct (GetCondition t st). Qed.

(** With one dependent True, the unhappy one can only be the other. *)
Lemma unhappy_other t st :
  wf r st -> t ∈ dependents r -> ccview st t = Some c_true ->
  match findUnhappyDependent r st with
  | Some c => content_of c = c_ready (ccview st (other t)) /\ is_true (ccview st (other t)) = false
  | None => is_true (ccview st (other t)) = true
  end.
Proof.
  intros Hwf Ht Htrue. destruct (other_dependent t Ht) as [Ho Hot].
  assert (exists ct, GetCondition t st = Some ct /\ cStatus ct = ConditionTrue) as (ct&Ect&Hct).
  { unfold ccview in Htrue. destruct (GetCondition t st) as [ct|] eqn:E; [|done].
    exists ct. split; [done|]. by injection Htrue. }
  assert (forall c, c ∈ dep_conds r st -> cStatus c <> ConditionTrue ->
    GetCondition (other t) st = Some c) as Honly.
  { intros c Hin Hn. apply (elem_of_dep_conds r set_ok) in Hin as [Hd Hg]; [|done].
    destruct (dependents_other t (cType c) Ht Hd) as [E|E]; rewrite <- E; [|done].
    rewrite E in Hg. congruence. }
  pose proof (findUnhappyDependent_aggregate r set_ok st Hwf) as Hagg.
  unfold findUnhappyDependent in *. fold (dep_conds r st) in *.
  change (length (dependents r) =? 0)%nat with false in *. cbv iota in *.
  assert (forall c, GetCondition (other t) st = Some c -> cStatus c <> ConditionTrue ->
    content_of c = c_ready (ccview st (other t)) /\ is_true (ccview st (other t)) = false) as Hc.
  { intros c Hg Hn. rewrite (ccview_cond _ _ _ Hg). unfold c_ready, is_true, content_of.
    apply String.eqb_neq in Hn. by rewrite Hn. }
  destruct (first_such IsFalse (dep_conds r st)) as [c|] eqn:E1.
  { apply first_such_Some in E1 as [Hin _]. apply Hc; [apply Honly; [done|]|]; apply Hagg. }
  destruct (first_such IsUnknown (dep_conds r st)) as [c|] eqn:E2.
  { apply first_such_Some in E2 as [Hin _]. apply Hc; [apply Honly; [done|]|]; apply Hagg. }
  destruct (length (dep_conds r st) <? length (dependents r))%nat eqn:E3.
  - apply Nat.ltb_lt, dep_conds_length in E3; [|apply set_ok|done].
    apply Exists_exists in E3 as (d&Hd&Hv).
    destruct (dependents_other t d Ht Hd) as [->| ->].
    + unfold view in Hv. by rewrite Ect in Hv.
    + unfold view, ccview in *. by destruct (GetCondition (other t) st).
  - unfold ccview. destruct (GetCondition (other t) st) as [c|] eqn:Eo.
    + assert (c ∈ dep_conds r st) as Hin.
      { apply (elem_of_dep_conds r set_ok); [done|].
        destruct (find_cond_Some _ _ _ Eo) as [_ ->]. done. }
      pose proof (first_such_None _ _ E1 c Hin) as F1.
      pose proof (first_such_None _ _ E2 c Hin) as F2. simpl in F1, F2.
      destruct (find_cond_Some _ _ _ Eo) as [Hin' _].
      pose proof (wf_status _ _ Hwf) as Hstd. rewrite Forall_forall in Hstd.
      destruct (Hstd c Hin') as [E|[E|E]]; simpl; rewrite E in *; done.
    + exfalso. apply Nat.ltb_ge in E3.
      assert (Exists (fun d => view st d = None) (dependents r)) as He.
      { apply Exists_exists. exists (other t). split; [done|]. unfold view. by rewrite Eo. }
      apply dep_conds_length in He; [lia|apply set_ok|done].
Qed.

Lemma cset_ext t x v v' t' : (forall t, v t = v' t) -> cset t x v t' = cset t x v' t'.
Proof. intros E. unfold cset. by rewrite E. Qed.

Lemma cset_other t x v t' : t' <> t -> cset t x v t' = v t'.
Proof. intros Hne. unfold cset. by rewrite (proj2 (String.eqb_neq _ _) Hne). Qed.

Lemma cset_same t x v : cset t x v t = Some x.
Proof. unfold cset. by rewrite String.eqb_refl. Qed.

(** The loop of [MarkUnknown] looks for a False dependent: with [t] Unknown,
    the other one. *)
Lemma unknown_loop_other t reason message st :
  wf r st -> t ∈ dependents r -> ccview st t = Some (c_unknown reason message) ->
  unknown_loop clock r t reason message (dependents r) false st =
    if is_false (ccview st (other t))
    then inl (if negb (is_false (ccview st readyT))
              then MarkFalse clock r (happy r) reason message st else st)
    else inr true.
Proof.
  intros Hwf Ht Hu. destruct (other_dependent t Ht) as [Ho Hot].
  assert (Exists (fun d => view st d = Some ConditionFalse) (dependents r)
    <-> is_false (ccview st (other t)) = true) as HE.
  { assert (forall d, view st d = Some ConditionFalse <-> is_false (ccview st d) = true) as HF.
    { intros d. unfold view, ccview. destruct (GetCondition d st) as [c|]; simpl; [|done].
      rewrite String.eqb_eq. split; [by intros [= ->]|by intros ->]. }
    rewrite Exists_exists. split.
    - intros (d&Hd&Hv). apply HF in Hv. destruct (dependents_other t d Ht Hd) as [->| ->]; [|done].
      by rewrite Hu in Hv.
    - intros Hf. exists (other t). split; [done|]. by apply HF. }
  pose proof (unknown_loop_spec clock r set_ok t reason message (dependents r) false st) as Hl.
  destruct (unknown_loop _ _ _ _ _ _ _ _) as [st'|b'].
  - destruct Hl as [Hex ->]. apply HE in Hex. rewrite Hex. by rewrite is_false_cond.
  - destruct Hl as [Hn ->]. rewrite HE in Hn. apply not_true_is_false in Hn. rewrite Hn.
    by rewrite bool_decide_true.
Qed.

Lemma exec_mark_content m st :
  wf r st -> mark_type m ∈ dependents r ->
  forall t, ccview (exec_mark clock r m st) t = cmark m (ccview st) t.
Proof.
  intros Hwf Hm.
  assert (forall status reason message, std_status status ->
    let st1 := SetCondition clock (MkCondition (mark_type m) status
                 (severity r (mark_type m)) zero_time reason message) st in
    wf r st1 /\ (forall t, ccview st1 t = cset (mark_type m) (status, reason, message) (ccview st) t))
    as Hset.
  { intros status reason message Hs. split.
    - apply step_wf; [done|by right|done].
    - by apply step_content. }
  destruct (other_dependent _ Hm) as [Ho Hot]. destruct (dependent_not_ready _ Hm) as [Hr Hrn].
  destruct m as [t|t reason message|t reason message]; cbn [mark_type exec_mark cmark] in *.
  - destruct (Hset ConditionTrue "" "") as [Hwf1 Hv1]; [by left|]. unfold MarkTrue.
    set (st1 := SetCondition clock _ st) in *.
    pose proof (unhappy_other t st1 Hwf1 Hm) as Hun. rewrite Hv1, cset_same in Hun.
    specialize (Hun eq_refl). rewrite Hv1, cset_other in Hun by done.
    unfold recomputeHappiness. intros t'.
    destruct (findUnhappyDependent r st1) as [c|].
    + destruct Hun as [Hc _]. rewrite step_content by done.
      change (cStatus c, cReason c, cMessage c) with (content_of c). rewrite Hc.
      by apply cset_ext.
    + change (happy r) with readyT. rewrite Hr. cbn [negb]. rewrite step_content by done.
      unfold c_ready. destruct (ccview st (other t)) as [x|]; [|done]. rewrite Hun.
      by apply cset_ext.
  - destruct (Hset ConditionFalse reason message) as [Hwf1 Hv1]; [by right; left|].
    unfold MarkFalse. rewrite mark_false_types by (apply set_ok || done). cbn [fold_left].
    intros t'. rewrite step_content by done. by apply cset_ext.
  - destruct (Hset ConditionUnknown reason message) as [Hwf1 Hv1]; [by right; right|].
    unfold MarkUnknown. set (st1 := SetCondition clock _ st) in *. intros t'.
    rewrite unknown_loop_other by (done || by rewrite Hv1, cset_same).
    rewrite !Hv1, !cset_other by done.
    destruct (is_false (ccview st (other t))).
    + destruct (is_false (ccview st readyT)); cbn [negb]; [by rewrite Hv1|].
      unfold MarkFalse. rewrite mark_false_happy_types by apply set_ok. cbn [fold_left].
      rewrite step_content by done. by apply cset_ext.
    + rewrite step_content by done. by apply cset_ext.
Qed.

(** The same through the status. *)
Lemma manage_mark_content m s :
  wf r (managed s) -> mark_type m ∈ dependents r ->
  let s' := manage (exec_mark clock r m) s in
  wf r (managed s') /\ forall t, cview s' t = cmark m (cview s) t.
Proof.
  intros Hwf Hm. cbv zeta.
  assert (managed (manage (exec_mark clock r m) s) = exec_mark clock r m (managed s)) as E
    by (unfold managed, manage; simpl; by destruct (exec_mark _ _ _ _)).
  unfold cview. rewrite E. split; [|by apply exec_mark_content].
  by apply (exec_mark_refines clock r set_ok).
Qed.
End refine.
