(* ===== verification/Controller.v ===== *)
(** * The controller (pkg/reconciler/yipyapsource/controller.go)

    The generated reconciler around [ReconcileKind]: the instance the
    controller builds, and what reconciling once and again does to the stored
    status.  The cluster the hook acts on is a function of the API server's
    state; reconciliations that meet the same answers are compared. *)

From S2P Require Import Prelude GoStrings CondSet Types Api Lifecycle Names Deployment.
From S2P Require Import Reconcile KindReconciler Leader Contents.
Local Open Scope string_scope.
Local Open Scope list_scope.

(** ** The instance *)

(** [envConfig]: the image, a required variable (set, if only to the empty
    string). *)
Definition process_env (lookup : string -> option string) : option string :=
  lookup "YIPYAP_SOURCE_RA_IMAGE".

Section instance.
Context {S : Type} `{UrlLib} (clock : nat -> Z).
(** The cluster behind the API server, what a write does to it, and the class
    of an API error. *)
Context (kube_of : S -> Kube) (apply : S -> list write -> S) (classify : string -> api_error).

(** The error [ReconcileKind] returns, with what it wraps. *)
Definition event_of (e : reconcile_error) : go_error :=
  match e with
  | ResolveSink m => EWrap "resolve sink" (EText m)
  | CreateDeployment m => EWrap "create Deployment" (EApi (classify m))
  | UpdateDeployment m => EWrap "update Deployment" (EApi (classify m))
  | GetDeployment m => EWrap "get Deployment" (EApi (classify m))
  | Panicked => EText "panic"
  end.

Definition reconcile_hook (image : string) : hook S := fun src w =>
  let o := Reconcile.ReconcileKind (H0 := kube_of (wApi w)) clock image src (wTicks w) in
  ((event_of <$> oError o, with_status src (tsStatus (oStatus o))),
   MkWorld (apply (wApi w) (oWrites o)) (tsTicks (oStatus o)) (wEvents w)).

(** [NewController]: [Reconciler] implements neither [Finalizer] nor an
    observer; no options.  [None] is the panic for a missing image. *)
Definition NewController (lookup : string -> option string) (cl : client S)
    (lister : string -> string -> S -> result api_error YipYapSource)
    (leader : string -> string -> bool) : option (impl S) :=
  image ← process_env lookup;
  NewImpl cl lister leader (MkHooks (reconcile_hook image) None None None false) [].
End instance.

(** ** What a reconciliation meets

    The answers of the resolver and of the cluster, as the marks they lead to
    and the fields they fill; none of it depends on the status. *)

Record answer := MkAnswer {
  anMarks : list mark;
  anSink : option URL;
  anDeployment : option string;
  anError : option reconcile_error
}.

Definition sink_mark `{UrlLib} (uri : URL) : mark :=
  if uri_given (Some uri) then MTrue sinkT else MUnknown sinkT "SinkEmpty" "Sink has no URI".

Fixpoint propagate_marks (cs : list DeploymentCondition) : list mark :=
  match cs with
  | [] => []
  | c :: cs =>
      if negb (String.eqb (dcType c) DeploymentAvailable) then propagate_marks cs
      else if String.eqb (dcStatus c) ConditionTrue then [MTrue depT]
      else if String.eqb (dcStatus c) ConditionFalse then [MFalse depT (dcReason c) (dcMessage c)]
      else if String.eqb (dcStatus c) ConditionUnknown then
        [MUnknown depT (dcReason c) (dcMessage c)]
      else []
  end.

Definition deployment_answer `{Kube} (ns : string) (expected : Deployment) (uri : URL)
    (sink : mark) : answer :=
  let failed e reason m := MkAnswer [sink; MFalse depT reason m] (Some uri) None (Some e) in
  let current cur :=
    MkAnswer (sink :: propagate_marks (dpConditions cur)) (Some uri) (Some (dpName cur)) None in
  match lister_get ns (dpName expected) with
  | Err NotFound =>
      match kube_write (WCreate ns expected) with
      | Ok cur => current cur
      | Err m => failed (CreateDeployment m) "CreateFailed" m
      end
  | Err (GetFailed m) => MkAnswer [sink] (Some uri) None (Some (GetDeployment m))
  | Ok cur =>
      if drifted expected cur then
        match kube_write (WUpdate ns (with_template (dpTemplate expected) (dpReplicas expected) cur)) with
        | Ok cur => current cur
        | Err m => failed (UpdateDeployment m) "UpdateFailed" m
        end
      else current cur
  end.

Definition answer_of `{UrlLib, Kube} (image : string) (src : YipYapSource) : answer :=
  match URIFromDestinationV1 (sink_destination src) src with
  | Err e => MkAnswer [MFalse sinkT "NotFound" e] None None (Some (ResolveSink e))
  | Ok uri =>
      match MakeAdapterDeployment src (Some uri) image with
      | None => MkAnswer [sink_mark uri] (Some uri) None (Some Panicked)
      | Some expected =>
          deployment_answer (omNamespace (yMeta src)) expected uri (sink_mark uri)
      end
  end.

(** The other fields of the status. *)
Definition fill (a : answer) (generation : Z) (st : YipYapSourceStatus) : YipYapSourceStatus :=
  let st := set_ce_attributes knownCloudEventAttributes (set_observed_generation generation st) in
  let st := match anSink a with Some uri => set_sink_uri (Some uri) st | None => st end in
  match anDeployment a with Some n => set_deployment_name n st | None => st end.

(** ** A reconciliation is its marks *)

Section marks.
Context `{UrlLib} (clock : nat -> Z).
Let r := yipyapSourceCondSet.

(** A change of the other fields. *)
Definition keeps_conditions (f : YipYapSourceStatus -> YipYapSourceStatus) : Prop :=
  forall cs st, f (set_conditions cs st) = set_conditions cs (f st) /\
                stConditions (f st) = stConditions st.

Lemma manage_manage g h s : manage g (manage h s) = manage (fun st => g (h st)) s.
Proof.
  unfold manage, managed. cbn [tsStatus tsTicks].
  destruct s as [[] t]. by destruct (h _).
Qed.

Lemma with_manage f g s :
  keeps_conditions f -> with_tstatus f (manage g s) = manage g (with_tstatus f s).
Proof.
  intros Hf. unfold with_tstatus, manage, managed. cbn [tsStatus tsTicks].
  destruct (Hf (conds (g (CState (stConditions (tsStatus s)) (tsTicks s)))) (tsStatus s)) as [-> E].
  by rewrite E.
Qed.

Lemma manage_nil s : manage (fun st => st) s = s.
Proof. by destruct s as [[] t]. Qed.

Lemma propagate_conditions_marks cs s :
  propagate_conditions clock cs s = manage (exec_marks clock r (propagate_marks cs)) s.
Proof.
  induction cs as [|c cs IH]; cbn [propagate_conditions propagate_marks]; [by rewrite manage_nil|].
  destruct (negb _); [done|].
  destruct (String.eqb (dcStatus c) ConditionTrue); [done|].
  destruct (String.eqb (dcStatus c) ConditionFalse); [done|].
  destruct (String.eqb (dcStatus c) ConditionUnknown); [done|]. by rewrite manage_nil.
Qed.

Lemma MarkSink_manage uri s :
  MarkSink clock (Some uri) s
  = manage (exec_mark clock r (sink_mark uri)) (with_tstatus (set_sink_uri (Some uri)) s).
Proof. unfold MarkSink, sink_mark. by destruct (uri_given (Some uri)). Qed.

Lemma fill_keeps a g : keeps_conditions (fill a g).
Proof. intros cs st. unfold fill. by destruct (anSink a), (anDeployment a). Qed.

Lemma keeps_name n : keeps_conditions (set_deployment_name n).
Proof. done. Qed.
Lemma keeps_uri u : keeps_conditions (set_sink_uri u).
Proof. done. Qed.
Lemma keeps_attributes l : keeps_conditions (set_ce_attributes l).
Proof. done. Qed.
Lemma keeps_generation g : keeps_conditions (set_observed_generation g).
Proof. done. Qed.

(** [ReconcileKind], by the answers it meets. *)
Lemma ReconcileKind_answer `{Kube} image src ticks :
  let a := answer_of image src in
  let o := Reconcile.ReconcileKind clock image src ticks in
  oError o = anError a /\
  oStatus o = manage (fun st => exec_marks clock r (anMarks a) (InitializeConditions clock r st))
                (TStatus (fill a (omGeneration (yMeta src)) (yStatus src)) ticks).
Proof.
  cbv zeta. unfold Reconcile.ReconcileKind, answer_of.
  set (s0 := with_tstatus (set_ce_attributes _) _).
  assert (s0 = manage (InitializeConditions clock r) (TStatus (set_ce_attributes
    knownCloudEventAttributes (set_observed_generation (omGeneration (yMeta src)) (yStatus src)))
    ticks)) as ->.
  { unfold s0. unfold Status_InitializeConditions.
    rewrite (with_manage (set_observed_generation _)) by apply keeps_generation.
    rewrite with_manage by apply keeps_attributes. done. }
  destruct (URIFromDestinationV1 _ _) as [uri|e].
  2:{ split; [done|]. unfold MarkNoSink.
      change (MarkFalse clock yipyapSourceCondSet sinkT "NotFound" e)
        with (exec_mark clock r (MFalse sinkT "NotFound" e)).
      rewrite manage_manage. done. }
  set (st0 := set_ce_attributes _ _).
  assert (forall cs, MarkSink clock (Some uri) (manage (InitializeConditions clock r)
    (TStatus st0 ticks)) = cs -> cs = manage (fun st => exec_mark clock r (sink_mark uri)
      (InitializeConditions clock r st)) (TStatus (set_sink_uri (Some uri) st0) ticks)) as Hsink.
  { intros cs <-. rewrite MarkSink_manage, with_manage by apply keeps_uri.
    by rewrite manage_manage. }
  specialize (Hsink _ eq_refl). rewrite Hsink. clear Hsink.
  set (s1 := manage _ (TStatus (set_sink_uri (Some uri) st0) ticks)).
  destruct (MakeAdapterDeployment src (Some uri) image) as [expected|]; [|done].
  assert (forall cur, let o := propagateDeploymentAvailability clock
      (with_tstatus (set_deployment_name (dpName cur)) s1) cur in
    o = manage (fun st => exec_marks clock r (sink_mark uri :: propagate_marks (dpConditions cur))
        (InitializeConditions clock r st))
      (TStatus (set_deployment_name (dpName cur) (set_sink_uri (Some uri) st0)) ticks)) as Hok.
  { intros cur. cbv zeta. unfold propagateDeploymentAvailability, s1.
    rewrite with_manage by apply keeps_name. rewrite propagate_conditions_marks, manage_manage.
    done. }
  assert (forall reason m, MarkNotDeployed clock reason m s1
    = manage (fun st => exec_marks clock r [sink_mark uri; MFalse depT reason m]
        (InitializeConditions clock r st)) (TStatus (set_sink_uri (Some uri) st0) ticks)) as Hfail.
  { intros reason m. unfold MarkNotDeployed, s1. by rewrite manage_manage. }
  unfold reconcile_deployment, deployment_answer.
  destruct (lister_get _ _) as [cur|[|m]]; [|..|done].
  - destruct (drifted expected cur).
    + destruct (kube_write _) as [cur'|m]; cbn [map_err]; [split; [done|apply Hok]|].
      split; [done|apply Hfail].
    + split; [done|apply Hok].
  - destruct (kube_write _) as [cur'|m]; cbn [map_err]; [split; [done|apply Hok]|].
    split; [done|apply Hfail].
Qed.
End marks.

(** ** Marks settle *)

Fixpoint cmarks (ms : list mark) (v : cview_t) : cview_t :=
  match ms with [] => v | m :: ms => cmarks ms (cmark m v) end.

(** The marks of a reconciliation: the sink, then at most the Deployment. *)
Inductive shape : list mark -> Prop :=
| shape_sink m : mark_type m = sinkT -> shape [m]
| shape_both m m' :
    mark_type m = sinkT -> mark_status m <> ConditionFalse -> mark_type m' = depT -> shape [m; m'].

Lemma sink_mark_type `{UrlLib} uri :
  mark_type (sink_mark uri) = sinkT /\ mark_status (sink_mark uri) <> ConditionFalse.
Proof. unfold sink_mark. by destruct (uri_given (Some uri)). Qed.

Lemma propagate_marks_shape cs :
  propagate_marks cs = [] \/ exists m, propagate_marks cs = [m] /\ mark_type m = depT.
Proof.
  induction cs as [|c cs IH]; cbn [propagate_marks]; [by left|].
  destruct (negb _); [done|].
  destruct (String.eqb (dcStatus c) ConditionTrue); [right; eauto|].
  destruct (String.eqb (dcStatus c) ConditionFalse); [right; eauto|].
  destruct (String.eqb (dcStatus c) ConditionUnknown); [right; eauto|by left].
Qed.

Lemma answer_of_shape `{UrlLib, Kube} image src : shape (anMarks (answer_of image src)).
Proof.
  unfold answer_of. destruct (URIFromDestinationV1 _ _) as [uri|e]; [|by constructor].
  destruct (sink_mark_type uri) as [Ht Hs].
  destruct (MakeAdapterDeployment _ _ _) as [expected|]; [|by constructor].
  assert (forall cs, shape (sink_mark uri :: propagate_marks cs)) as Hp.
  { intros cs. destruct (propagate_marks_shape cs) as [->|(m&->&Hm)]; by constructor. }
  unfold deployment_answer. destruct (lister_get _ _) as [cur|[|m]]; [|..|by constructor].
  - destruct (drifted _ _); [|apply Hp].
    destruct (kube_write _); [apply Hp|by constructor].
  - destruct (kube_write _); [apply Hp|by constructor].
Qed.

Lemma shape_dependents ms :
  shape ms -> Forall (fun m => mark_type m ∈ dependents yipyapSourceCondSet) ms.
Proof.
  intros [m E|m m' E _ E']; repeat (apply Forall_cons; split); try apply Forall_nil;
    rewrite ?E, ?E'; auto with conds; done.
Qed.

Lemma cmark_ext m v v' t : (forall t, v t = v' t) -> cmark m v t = cmark m v' t.
Proof.
  intros E. destruct m as [t0|t0 a b|t0 a b]; cbn [cmark].
  - rewrite (E (other t0)). by repeat (apply cset_ext; intros).
  - by repeat (apply cset_ext; intros).
  - rewrite (E (other t0)), (E readyT). repeat case_match; by repeat (apply cset_ext; intros).
Qed.

Lemma cmarks_ext ms v v' t : (forall t, v t = v' t) -> cmarks ms v t = cmarks ms v' t.
Proof.
  revert v v'. induction ms as [|m ms IH]; intros v v' E; cbn [cmarks]; [done|].
  apply IH. intros t'. by apply cmark_ext.
Qed.

Definition mark_content (m : mark) : content :=
  match m with
  | MTrue _ => c_true
  | MFalse _ reason message => c_false reason message
  | MUnknown _ reason message => c_unknown reason message
  end.

(** A mark gives its dependent its content and leaves the other alone. *)
Lemma cmark_dependents m v t :
  mark_type m = sinkT \/ mark_type m = depT -> t <> readyT ->
  cmark m v t = if String.eqb t (mark_type m) then Some (mark_content m) else v t.
Proof.
  intros Hm Ht. destruct m as [t0|t0 a b|t0 a b]; cbn [cmark mark_type mark_content].
  - by rewrite cset_other.
  - by rewrite cset_other.
  - destruct (is_false (v (other t0))), (is_false (v readyT)); by rewrite ?cset_other by done.
Qed.

(** Ready after the second of two marks: from the two contents alone. *)
Lemma cmark_ready m m' v :
  mark_type m = sinkT -> mark_status m <> ConditionFalse -> mark_type m' = depT ->
  cmark m' (cmark m v) readyT
  = Some (match m' with MTrue _ => c_ready (Some (mark_content m)) | _ => mark_content m' end).
Proof.
  intros Hm Hf Hm'.
  assert (cmark m v sinkT = Some (mark_content m)) as Hs
    by (rewrite cmark_dependents by (done || by left); by rewrite Hm).
  destruct m' as [t|t a b|t a b]; cbn in Hm'; subst t; cbn [cmark mark_content];
    change (other depT) with sinkT; rewrite ?Hs.
  - apply cset_same.
  - apply cset_same.
  - destruct m as [t0|t0 a0 b0|t0 a0 b0]; [|done|]; cbn [mark_content is_false c_true c_unknown];
      apply cset_same.
Qed.

(** A reconciliation's marks are idempotent. *)
Lemma cmarks_idem ms v t : shape ms -> cmarks ms (cmarks ms v) t = cmarks ms v t.
Proof.
  intros Hs. destruct (decide (t = readyT)) as [->|Ht].
  2:{ destruct Hs as [m E|m m' E _ E']; cbn [cmarks].
      - rewrite !cmark_dependents by (done || by left). by destruct (String.eqb t _).
      - rewrite !cmark_dependents by (done || (by left) || by right).
        by destruct (String.eqb t (mark_type m')), (String.eqb t (mark_type m)). }
  destruct Hs as [m E|m m' E Hf E']; cbn [cmarks]; [|by rewrite !cmark_ready].
  destruct m as [t0|t0 a b|t0 a b]; cbn in E; subst t0; cbn [cmark]; change (other sinkT) with depT.
  - by rewrite !cset_same, !cset_other.
  - by rewrite !cset_same.
  - destruct (is_false (v depT)) eqn:Ed; [destruct (is_false (v readyT)) eqn:Er|];
      repeat (rewrite Ed || rewrite Er || rewrite cset_same || rewrite cset_other by done ||
              change (is_false (Some (c_false a b))) with true); done.
Qed.

(** ** The marks on a well-formed state *)

Section settle.
Context `{UrlLib} (clock : nat -> Z).
Let r := yipyapSourceCondSet.

Lemma exec_marks_content ms st :
  wf r st -> Forall (fun m => mark_type m ∈ dependents r) ms ->
  forall t, ccview (exec_marks clock r ms st) t = cmarks ms (ccview st) t.
Proof.
  intros Hwf Hms. revert st Hwf.
  induction Hms as [|m ms Hm Hms IH]; intros st Hwf t; cbn [exec_marks cmarks]; [done|].
  rewrite IH by (by apply (exec_mark_refines clock r set_ok)).
  apply cmarks_ext. by apply exec_mark_content.
Qed.

Definition aggregated (st : cstate) : Prop :=
  view st readyT = Some (ready_of (view st sinkT) (view st depT)).

Lemma exec_mark_aggregated m st :
  wf r st -> mark_type m ∈ dependents r -> aggregated (exec_mark clock r m st).
Proof.
  intros Hwf Hm. destruct (manage_mark clock m (TStatus (set_conditions (conds st) empty_status)
    (ticks st))) as (_&Hr&_); [by destruct st|done|].
  unfold ready_status, sview, managed, manage in Hr. destruct st as [cs n]. exact Hr.
Qed.

Lemma exec_marks_settled ms st :
  wf r st -> complete r st -> shape ms ->
  let st' := exec_marks clock r ms st in wf r st' /\ complete r st' /\ aggregated st'.
Proof.
  intros Hwf Hc Hs. pose proof (shape_dependents ms Hs) as Hd. cbv zeta.
  split; [auto with conds|]. destruct Hs as [m E|m m' E _ E']; cbn [exec_marks].
  - apply Forall_cons in Hd as [Hm _]. split; [by apply exec_mark_complete; auto with conds|].
    by apply exec_mark_aggregated.
  - apply Forall_cons in Hd as [Hm Hd]. apply Forall_cons in Hd as [Hm' _].
    destruct (exec_mark_refines clock r set_ok m st Hwf Hm) as [Hwf1 _]. split.
    + apply exec_mark_complete; auto with conds. by apply exec_mark_complete; auto with conds.
    + by apply exec_mark_aggregated.
Qed.

(** Conditions that differ in their times only. *)
Definition same_but_time (c c' : Condition) : Prop := with_time 0 c = with_time 0 c'.

Lemma groom_time tm old c : same_but_time c (groom tm old c).
Proof.
  unfold groom, same_but_time.
  destruct (find_cond _ _); [case_bool_decide|]; by destruct c.
Qed.

Lemma groom_type tm old c : cType (groom tm old c) = cType c.
Proof. pose proof (groom_time tm old c) as E. by destruct c, (groom _ _ _); injection E. Qed.

Lemma groom_find tm old l t :
  find_cond t (map (groom tm old) l) = groom tm old <$> find_cond t l.
Proof.
  induction l as [|c l IH]; [done|]. cbn [map find_cond]. rewrite groom_type.
  by destruct (String.eqb _ _).
Qed.

Lemma groom_ccview tm old l n m t :
  ccview (CState (map (groom tm old) l) n) t = ccview (CState l m) t.
Proof.
  unfold ccview, GetCondition. cbn [conds]. rewrite groom_find.
  destruct (find_cond t l) as [c|]; [|done]. cbn.
  pose proof (groom_time tm old c) as E. unfold content_of. f_equal.
  by destruct c, (groom _ _ _); injection E as -> -> -> -> ->.
Qed.

Lemma view_ccview st t : view st t = (fun x => x.1.1) <$> ccview st t.
Proof. unfold view, ccview. by destruct (GetCondition t st). Qed.

Lemma groom_view tm old l n m t :
  view (CState (map (groom tm old) l) n) t = view (CState l m) t.
Proof. by rewrite !view_ccview, (groom_ccview tm old l n m). Qed.

Lemma groom_wf tm old l n m : wf r (CState l m) -> wf r (CState (map (groom tm old) l) n).
Proof.
  intros [Hnd Hs Ht Hsev Hst]. cbn [conds] in *.
  assert (cType <$> map (groom tm old) l = cType <$> l) as Ety.
  { clear. induction l as [|c l IH]; [done|]. cbn. by rewrite groom_type, IH. }
  assert (forall P Q : Condition -> Prop, (forall c, P c -> Q (groom tm old c)) ->
    Forall P l -> Forall Q (map (groom tm old) l)) as Hall.
  { intros P Q HPQ HP. apply Forall_map. eapply Forall_impl; [exact HP|]. exact HPQ. }
  split; cbn [conds].
  - by rewrite Ety.
  - clear -Hs. induction Hs as [|c l Hs IH Hc]; cbn [map]; constructor; [done|].
    apply Forall_map. eapply Forall_impl; [exact Hc|]. intros c'. unfold not_less, type_less.
    by rewrite !groom_type.
  - eapply Hall; [|exact Ht]. intros c. by rewrite groom_type.
  - eapply Hall; [|exact Hsev]. intros c <-. pose proof (groom_time tm old c) as E.
    by destruct c, (groom _ _ _); injection E as -> -> -> -> ->.
  - eapply Hall; [|exact Hst]. intros c Hc. pose proof (groom_time tm old c) as E.
    by destruct c, (groom _ _ _); injection E as <- <- <- <- <-.
Qed.

Lemma groom_complete tm old l n m :
  complete r (CState l m) -> complete r (CState (map (groom tm old) l) n).
Proof. rewrite !complete_view. intros Hc t Ht. rewrite (groom_view tm old l n m). auto. Qed.

Lemma wf_cond st t c : wf r st -> GetCondition t st = Some c ->
  c ∈ conds st /\ cType c = t /\ cSeverity c = ConditionSeverityError.
Proof.
  intros Hwf [Hin Ht]%find_cond_Some. split_and!; [done..|].
  pose proof (wf_severity _ _ Hwf) as Hs. rewrite Forall_forall in Hs. auto.
Qed.

(** With the same contents, grooming gives the old list back. *)
Lemma groom_same tm old l n m :
  wf r (CState old n) -> wf r (CState l m) ->
  (forall t, ccview (CState l m) t = ccview (CState old n) t) ->
  map (groom tm old) l = old.
Proof.
  intros Ho Hl Hc. pose proof (groom_wf tm old l m m Hl) as Hg.
  assert (forall t, find_cond t (map (groom tm old) l) = find_cond t old) as Hfind.
  { intros t. rewrite groom_find. specialize (Hc t). unfold ccview, GetCondition in Hc.
    cbn [conds] in Hc. destruct (find_cond t l) as [c|] eqn:Ec, (find_cond t old) as [o|] eqn:Eo;
      cbn in Hc |- *; try done.
    destruct (wf_cond _ t c Hl Ec) as (_&Hct&Hcs), (wf_cond _ t o Ho Eo) as (_&Hot&Hos).
    f_equal. unfold groom. rewrite Hct, Eo.
    assert (with_time (cLastTransitionTime o) c = o) as E.
    { injection Hc as E1 E2 E3. destruct c, o. cbn in *. by subst. }
    rewrite E. by rewrite bool_decide_true. }
  assert (forall l1 l2 k1 k2, wf r (CState l1 k1) -> wf r (CState l2 k2) ->
    (forall t, find_cond t l1 = find_cond t l2) -> forall c, c ∈ l1 -> c ∈ l2) as Hsub.
  { intros l1 l2 k1 k2 H1 H2 Hf c Hin.
    apply (find_cond_elem l1 c (wf_nodup _ _ H1)) in Hin. rewrite Hf in Hin.
    by apply find_cond_Some in Hin as [? _]. }
  apply (StronglySorted_unique_strong (not_less type_less)).
  - intros c c' Hin Hin' H1 H2. apply (Hsub _ _ _ _ Hg Ho Hfind) in Hin.
    unfold not_less, type_less in *.
    assert (cType c = cType c') as Ety.
    { rewrite str_ltb_not_le in H1, H2. by apply (anti_symm String.le). }
    apply (find_cond_elem _ _ (wf_nodup _ _ Ho)) in Hin, Hin'. congruence.
  - apply Hg.
  - apply Ho.
  - apply NoDup_Permutation.
    + eapply NoDup_fmap_1, (wf_nodup _ _ Hg).
    + eapply NoDup_fmap_1, (wf_nodup _ _ Ho).
    + intros c. split; [by eapply Hsub|]. by eapply Hsub; [..|symmetry].
Qed.
End settle.

(** ** The status of a run

    What the leader's run makes of the stored status, given the answers it
    meets and the generation of the resource. *)

Section run_status.
Context `{UrlLib} (clock : nat -> Z).
Let r := yipyapSourceCondSet.

Definition pre_status (g : Z) (s : tstatus) : tstatus :=
  let s := Status_InitializeConditions clock s in
  if negb (stObservedGeneration (tsStatus s) =? g)%Z then
    manage (MarkUnknown clock r (happy r) failedGenerationBump
      "unsuccessfully observed a new generation") s
  else s.

Definition hook_status (a : answer) (g : Z) (s : tstatus) : tstatus :=
  manage (fun st => exec_marks clock r (anMarks a) (InitializeConditions clock r st))
    (TStatus (fill a g (tsStatus s)) (tsTicks s)).

Definition post_status (g : Z) (old : list Condition) (s : tstatus) : YipYapSourceStatus :=
  set_conditions (map (groom (clock (tsTicks s)) old) (stConditions (tsStatus s)))
    (set_observed_generation g (tsStatus s)).

Definition run_status (a : answer) (g : Z) (st : YipYapSourceStatus) (n : nat) : YipYapSourceStatus :=
  post_status g (stConditions st) (hook_status a g (pre_status g (TStatus st n))).

Definition status_conds (st : YipYapSourceStatus) : cstate := CState (stConditions st) 0.

(** A status a run with these answers leaves as it is. *)
Record steady (a : answer) (g : Z) (st : YipYapSourceStatus) : Prop := {
  steady_wf : wf r (status_conds st);
  steady_complete : complete r (status_conds st);
  steady_ready : aggregated (status_conds st);
  steady_generation : stObservedGeneration st = g;
  steady_fields : fill a g st = st;
  steady_marks : forall t, cmarks (anMarks a) (ccview (status_conds st)) t
                           = ccview (status_conds st) t
}.

Lemma wf_ticks cs n m : wf r (CState cs n) -> wf r (CState cs m).
Proof. intros []. by split. Qed.

Lemma managed_manage f s : managed (manage f s) = f (managed s).
Proof. unfold managed, manage. cbn [tsStatus tsTicks stConditions set_conditions]. by destruct (f _). Qed.

Lemma pre_status_wf g s : wf r (managed s) -> wf r (managed (pre_status g s)).
Proof.
  intros Hwf. destruct (InitializeConditions_spec clock r set_ok (managed s) Hwf) as [Hwf1 _].
  unfold pre_status, Status_InitializeConditions.
  destruct (negb _); rewrite !managed_manage; [|done].
  set (st := InitializeConditions clock _ _) in *.
  unfold MarkUnknown.
  set (st1 := SetCondition clock _ st).
  assert (wf r st1) as Hwf2 by (apply (step_wf clock r); [done|by left|by right; right]).
  pose proof (unknown_loop_spec clock r set_ok (happy r) failedGenerationBump
    "unsuccessfully observed a new generation" (dependents r) false st1) as Hl.
  fold r. destruct (unknown_loop _ _ _ _ _ _ _ _) as [st'|[]]; [|destruct Hl as [_ Hb]; done|done].
  destruct Hl as [_ ->]. destruct (negb _); [|done].
  unfold MarkFalse. rewrite mark_false_happy_types by apply set_ok. cbn [fold_left].
  apply (step_wf clock r); [done|by left|by right; left].
Qed.

(** The conditions a run arrives at. *)
Lemma hook_conds a g s :
  wf r (managed s) -> shape (anMarks a) ->
  let st := managed (hook_status a g s) in
  wf r st /\ complete r st /\ aggregated st /\
  exists v, forall t, ccview st t = cmarks (anMarks a) v t.
Proof.
  intros Hwf Hs. cbv zeta. unfold hook_status. rewrite managed_manage.
  assert (managed (TStatus (fill a g (tsStatus s)) (tsTicks s)) = managed s) as ->.
  { unfold managed. cbn [tsStatus tsTicks]. f_equal. unfold fill.
    by destruct (anSink a), (anDeployment a). }
  destruct (InitializeConditions_spec clock r set_ok (managed s) Hwf) as (Hwf1&Hc1&_).
  destruct (exec_marks_settled clock (anMarks a) _ Hwf1 Hc1 Hs) as (?&?&?). split_and!; [done..|].
  eexists. apply exec_marks_content; [done|by apply shape_dependents].
Qed.

(** A run ends in a steady status, errors included. *)
Lemma run_status_steady a g st n :
  wf r (status_conds st) -> shape (anMarks a) -> steady a g (run_status a g st n).
Proof.
  intros Hwf Hs. unfold run_status.
  set (s := hook_status a g (pre_status g (TStatus st n))).
  destruct (hook_conds a g (pre_status g (TStatus st n))) as (Hwf1&Hc1&Hr1&v&Hv); [|done|].
  { apply pre_status_wf. by eapply wf_ticks. }
  fold s in Hwf1, Hc1, Hr1, Hv.
  assert (status_conds (post_status g (stConditions st) s)
    = CState (map (groom (clock (tsTicks s)) (stConditions st)) (stConditions (tsStatus s))) 0)
    as E by done.
  split; rewrite ?E.
  - by eapply groom_wf.
  - by eapply groom_complete.
  - unfold aggregated. by rewrite !(groom_view _ _ _ _ (tsTicks s)).
  - done.
  - unfold post_status, s, hook_status, manage, fill. cbn [tsStatus tsTicks].
    by destruct (anSink a), (anDeployment a).
  - intros t. rewrite (groom_ccview _ _ _ _ (tsTicks s)).
    rewrite (cmarks_ext _ _ (cmarks (anMarks a) v))
      by (intros t'; by rewrite (groom_ccview _ _ _ _ (tsTicks s))).
    rewrite cmarks_idem by done. by rewrite <- Hv.
Qed.

(** A steady status stays. *)
Lemma run_status_same a g st n : steady a g st -> shape (anMarks a) -> run_status a g st n = st.
Proof.
  intros [Hwf Hc _ Hg Hf Hm] Hs. unfold run_status.
  assert (complete r (CState (stConditions st) n)) as Hcn by done.
  assert (pre_status g (TStatus st n) = TStatus st n) as ->.
  { unfold pre_status, Status_InitializeConditions.
    assert (manage (InitializeConditions clock yipyapSourceCondSet) (TStatus st n) = TStatus st n) as ->.
    { unfold manage, managed. cbn [tsStatus tsTicks].
      rewrite (InitializeConditions_complete_noop clock yipyapSourceCondSet set_ok _ Hcn). by destruct st. }
    cbn [tsStatus]. by rewrite Hg, Z.eqb_refl. }
  unfold hook_status. cbn [tsStatus tsTicks]. rewrite Hf. unfold manage, managed.
  cbn [tsStatus tsTicks]. rewrite (InitializeConditions_complete_noop clock r set_ok _ Hcn).
  set (st' := exec_marks clock r (anMarks a) (CState (stConditions st) n)).
  unfold post_status. cbn [tsStatus tsTicks stConditions set_conditions].
  pose proof (shape_dependents _ Hs) as Hd.
  rewrite (groom_same _ _ (conds st') 0 (ticks st')).
  - rewrite <- Hg. by destruct st.
  - exact Hwf.
  - destruct st' as [cs m] eqn:E. cbn [conds ticks]. rewrite <- E.
    apply exec_marks_wf; [apply set_ok|by eapply wf_ticks|done].
  - intros t. transitivity (ccview st' t); [by destruct st'|].
    unfold st'. rewrite exec_marks_content by (done || by eapply wf_ticks). apply Hm.
Qed.
End run_status.

(** ** The controller's runs *)

(** The resource a hook is given: the copy with its spec defaulted. *)
Definition defaulted (y : YipYapSource) : YipYapSource :=
  with_spec y (Spec_SetDefaults (WithinParent background (yMeta y)) (ySpec y)).

(** The resolver looks at the destination and at the parent's name, not at its
    status. *)
Definition resolver_ignores_status (k : Kube) : Prop :=
  forall d y st, URIFromDestinationV1 d (with_status y st) = URIFromDestinationV1 d y.

Lemma answer_of_status `{UrlLib} (k : Kube) image y st :
  resolver_ignores_status k -> answer_of image (with_status y st) = answer_of image y.
Proof.
  intros Hk. unfold answer_of.
  change (sink_destination (with_status y st)) with (sink_destination y). by rewrite Hk.
Qed.

(** The run of a resource by the leader: who leads, what the cache has. *)
Record leads {S} (leader : string -> string -> bool)
    (lister : string -> string -> S -> result api_error YipYapSource)
    (key : string) (w : world S) (y : YipYapSource) : Prop := {
  lead_key : exists ns name, SplitMetaNamespaceKey key = Some (ns, name) /\
               leader ns name = true /\ lister ns name (wApi w) = Ok y;
  lead_live : omDeletionTimestamp (yMeta y) = None
}.

Section runs.
Context {S : Type} `{UrlLib} (clock : nat -> Z).
Context (kube_of : S -> Kube) (apply : S -> list write -> S) (classify : string -> api_error).
Context (lookup : string -> option string) (image : string).
Context (lister : string -> string -> S -> result api_error YipYapSource).
Context (leader : string -> string -> bool).
Context (Himage : process_env lookup = Some image).
Context (Hresolver : forall s, resolver_ignores_status (kube_of s)).

Definition instance (cl : client S) : reconcilerImpl S :=
  MkReconcilerImpl cl lister (reconcile_hook clock kube_of apply classify image) None None None
    leader defaultFinalizerName false "" false false.

Lemma NewController_instance cl :
  implRec <$> NewController clock kube_of apply classify lookup cl lister leader
  = Some (instance cl).
Proof. unfold NewController. by rewrite Himage. Qed.

(** The answers a run on [y] meets in [w]. *)
Definition met (w : world S) (y : YipYapSource) : answer :=
  answer_of (H0 := kube_of (wApi w)) image (defaulted y).

(** What the hook leaves of the world: its writes, the clock readings of the
    processing around it. *)
Definition run_world (w : world S) (y : YipYapSource) : world S :=
  let g := omGeneration (yMeta y) in
  let s := pre_status clock g (TStatus (yStatus y) (wTicks w)) in
  let o := Reconcile.ReconcileKind (H0 := kube_of (wApi w)) clock image
             (with_status (defaulted y) (tsStatus s)) (tsTicks s) in
  MkWorld (apply (wApi w) (oWrites o)) (Datatypes.S (tsTicks (oStatus o))) (wEvents w).

Lemma PreProcessReconcile_status y (w : world S) :
  let s := pre_status clock (omGeneration (yMeta y)) (TStatus (yStatus y) (wTicks w)) in
  PreProcessReconcile clock y w
  = (with_status (defaulted y) (tsStatus s), MkWorld (wApi w) (tsTicks s) (wEvents w)).
Proof.
  cbv zeta. unfold PreProcessReconcile, pre_status, mbind, M_bind, mret, M_ret, on_status.
  cbn [yStatus with_spec with_status yMeta wTicks wApi wEvents].
  set (s := Status_InitializeConditions clock _).
  destruct (negb _); [|done]. by destruct s.
Qed.

Lemma run_method_leader cl s y w :
  ssIsLeader s = true -> omDeletionTimestamp (yMeta y) = None ->
  let a := met w y in
  run_method clock (instance cl) s y w
  = (Ok (event_of classify <$> anError a,
         with_status (defaulted y)
           (run_status clock a (omGeneration (yMeta y)) (yStatus y) (wTicks w))),
     run_world w y).
Proof.
  intros Hl Hd. cbv zeta. unfold run_method, reconcileMethodFor. rewrite Hd, Hl.
  unfold setFinalizerIfFinalizer. cbn [Finalizer instance skipStatusUpdates].
  unfold mbind at 1, M_bind at 1, mret at 1, M_ret at 1.
  unfold mbind at 1, M_bind at 1. rewrite PreProcessReconcile_status.
  unfold mbind at 1, M_bind at 1. cbn [ReconcileKind instance]. unfold reconcile_hook.
  set (s1 := pre_status clock _ _). cbn [wApi wTicks wEvents].
  pose proof (ReconcileKind_answer clock (H0 := kube_of (wApi w)) image
    (with_status (defaulted y) (tsStatus s1)) (tsTicks s1)) as Ha.
  cbv zeta in Ha. rewrite answer_of_status in Ha by done. destruct Ha as [He Hs].
  rewrite He. unfold run_world. fold s1. fold (met w y) in *.
  change (omGeneration (yMeta (with_status (defaulted y) (tsStatus s1))))
    with (omGeneration (yMeta y)) in Hs.
  change (yStatus (with_status (defaulted y) (tsStatus s1))) with (tsStatus s1) in Hs.
  change (manage _ _) with (hook_status clock (met w y) (omGeneration (yMeta y)) s1) in Hs.
  rewrite Hs. reflexivity.
Qed.

(** The rest of the run, once the resource is listed. *)
Lemma Reconcile_leader cl key y w :
  leads leader lister key w y ->
  exists s, (ssIsLeader s = true /\ newState key (instance cl) = Some s) /\
  Reconcile clock (instance cl) key w
  = (failed ← sync_status (instance cl) s y (with_status (defaulted y)
       (run_status clock (met w y) (omGeneration (yMeta y)) (yStatus y) (wTicks w)));
     match failed with
     | Some e => mret (Some e)
     | None => report (event_of classify <$> anError (met w y))
     end) (run_world w y).
Proof.
  intros [(ns&name&Hk&Hl&Hy) Hd]. exists (MkState ns name false true).
  assert (newState key (instance cl) = Some (MkState ns name false true)) as Hst.
  { unfold newState. rewrite Hk. cbn. by rewrite Hl. }
  split; [done|]. unfold Reconcile, newState. rewrite Hk.
  cbn [mbind option_bind KindReconciler.IsLeaderFor ReadOnlyInterface instance]. rewrite Hl.
  change (isNotLeaderNorObserver _) with false. cbv iota.
  unfold mbind at 1, M_bind at 1, api.
  change (Lister (instance cl)) with lister. cbn [ssNamespace ssName]. rewrite Hy.
  unfold mbind at 1, M_bind at 1.
  destruct w as [sv n ev]. cbn [wApi wTicks wEvents].
  change (bool_decide (is_Some None)) with false.
  rewrite run_method_leader by done. reflexivity.
Qed.
End runs.

Lemma steady_contents a g st m :
  steady a g st -> shape (anMarks a) -> m ∈ anMarks a ->
  ccview (status_conds st) (mark_type m) = Some (mark_content m).
Proof.
  intros Hst Hs Hm. rewrite <- (steady_marks _ _ _ Hst).
  destruct Hs as [m0 E|m0 m1 E _ E'].
  - apply list_elem_of_singleton in Hm as ->. cbn [cmarks].
    rewrite cmark_dependents by (rewrite E; auto; done). by rewrite String.eqb_refl.
  - cbn [cmarks]. apply elem_of_cons in Hm as [->|E1].
    + rewrite cmark_dependents by (rewrite ?E; auto; done).
      rewrite E, E'. change (String.eqb sinkT depT) with false. cbv iota. rewrite <- E.
      rewrite cmark_dependents by (rewrite E; auto; done). by rewrite String.eqb_refl.
    + apply list_elem_of_singleton in E1 as ->.
      rewrite cmark_dependents by (rewrite E'; auto; done). by rewrite String.eqb_refl.
Qed.

(** ** Theorems *)

(** C9. The status the leader writes, whether the reconciliation succeeded or
    failed, and whatever well-formed status was stored before: the generation is observed, the
    conditions are well-formed, the source is ready exactly when both of its
    dependents are True, and the dependents say what the run met; what the
    processing around the hook marked for a new generation is gone. *)
Theorem leader_run_status {S} `{UrlLib} clock kube_of apply classify lookup image lister leader
    (cl : client S) R key (w : world S) y :
  process_env lookup = Some image -> (forall s, resolver_ignores_status (kube_of s)) ->
  implRec <$> NewController clock kube_of apply classify lookup cl lister leader = Some R ->
  leads leader lister key w y -> wf yipyapSourceCondSet (status_conds (yStatus y)) ->
  let a := met kube_of image w y in
  let g := omGeneration (yMeta y) in
  let st := run_status clock a g (yStatus y) (wTicks w) in
  (exists s, ssIsLeader s = true /\ Reconcile clock R key w
     = (failed ← sync_status R s y (with_status (defaulted y) st);
        match failed with
        | Some e => mret (Some e)
        | None => report (event_of classify <$> anError a)
        end) (run_world clock kube_of apply image w y)) /\
  wf yipyapSourceCondSet (status_conds st) /\ stObservedGeneration st = g /\
  (IsReady (TStatus st 0) = true <->
     sview (TStatus st 0) YipYapSourceConditionSinkProvided = Some ConditionTrue /\
     sview (TStatus st 0) YipYapSourceConditionDeployed = Some ConditionTrue) /\
  (forall m, m ∈ anMarks a -> ccview (status_conds st) (mark_type m) = Some (mark_content m)) /\
  fill a g st = st.
Proof.
  intros Himage Hresolver HR Hleads Hwf a g st.
  rewrite (NewController_instance clock kube_of apply classify lookup image lister leader Himage)
    in HR. injection HR as <-.
  assert (shape (anMarks a)) as Hs by apply answer_of_shape.
  assert (steady a g st) as Hst by (by apply run_status_steady).
  split_and!; [|apply Hst..| |by intros m; apply (steady_contents a g)|apply Hst].
  - destruct (Reconcile_leader clock kube_of apply classify image lister leader Hresolver cl key y w
      Hleads) as (s&[Hl _]&E). by exists s.
  - apply coherent_IsReady. split; [apply Hst|right; apply Hst].
Qed.

(** C8. The status settles: once the status of a run is stored, a run that
    meets the same answers at the same generation computes the same status again and
    does not write it back.  Its result does not depend on the client of the sources,
    and it changes the world by what the hook itself did, its writes of the
    Deployment included, besides the event of a reconciliation that failed again. *)
Theorem status_settles {S} `{UrlLib} clock kube_of apply classify lookup image lister leader
    (cl cl' : client S) R R' key (w w' : world S) y y' :
  process_env lookup = Some image -> (forall s, resolver_ignores_status (kube_of s)) ->
  implRec <$> NewController clock kube_of apply classify lookup cl lister leader = Some R ->
  implRec <$> NewController clock kube_of apply classify lookup cl' lister leader = Some R' ->
  wf yipyapSourceCondSet (status_conds (yStatus y)) ->
  leads leader lister key w' y' ->
  yStatus y' = run_status clock (met kube_of image w y) (omGeneration (yMeta y)) (yStatus y)
                 (wTicks w) ->
  omGeneration (yMeta y') = omGeneration (yMeta y) ->
  met kube_of image w' y' = met kube_of image w y ->
  Reconcile clock R key w' = Reconcile clock R' key w' /\
  Reconcile clock R key w'
    = report (event_of classify <$> anError (met kube_of image w y))
        (run_world clock kube_of apply image w' y').
Proof.
  intros Himage Hresolver HR HR' Hwf Hleads Hst Hg Hmet.
  rewrite (NewController_instance clock kube_of apply classify lookup image lister leader Himage)
    in HR, HR'. injection HR as <-. injection HR' as <-.
  assert (shape (anMarks (met kube_of image w y))) as Hs by apply answer_of_shape.
  assert (forall cl, Reconcile clock (instance clock kube_of apply classify image lister leader cl)
    key w' = report (event_of classify <$> anError (met kube_of image w y))
        (run_world clock kube_of apply image w' y')) as Hrun.
  { intros cl0.
    destruct (Reconcile_leader clock kube_of apply classify image lister leader Hresolver cl0 key
      y' w' Hleads) as (s&_&->).
    rewrite Hmet, Hg, run_status_same;
      [|rewrite Hst; by apply run_status_steady|done].
    unfold sync_status. cbn [skipStatusUpdates instance].
    change (yStatus (with_status (defaulted y') (yStatus y'))) with (yStatus y').
    rewrite bool_decide_true by done. reflexivity. }
  split; [by rewrite !Hrun|apply Hrun].
Qed.

(** ** Witnesses *)

(** A cluster with the adapter available, and the cache holding one source. *)
Definition available : Kube :=
  Reconcile.kube_of [MkDeploymentCondition DeploymentAvailable ConditionTrue "" ""] true.

Definition no_client : client unit :=
  MkClient (fun _ _ w => (Err ApiNotFound, w)) (fun _ w => (Err ApiNotFound, w))
    (fun _ _ _ w => (Err ApiNotFound, w)).
Definition yes_client : client unit :=
  MkClient (fun _ _ w => (Err ApiNotFound, w)) (fun y w => (Ok y, w))
    (fun _ _ _ w => (Err ApiNotFound, w)).

Definition sample_env (name : string) : option string :=
  if String.eqb name "YIPYAP_SOURCE_RA_IMAGE" then Some sample_image else None.

Definition sample_instance (y : YipYapSource) (cl : client unit) : reconcilerImpl unit :=
  instance (H := plain_url_lib) Z.of_nat (fun _ => available) (fun s _ => s) ApiOther sample_image
    (fun _ _ _ => Ok y) (fun _ _ => true) cl.

Definition fresh_world : world unit := MkWorld tt 0 [].

Definition reconciled_status : YipYapSourceStatus :=
  run_status Z.of_nat
    (met (H := plain_url_lib) (fun _ : unit => available) sample_image fresh_world sample_source)
    3 empty_status 0.

Lemma leader_run_status_witness :
  IsReady (TStatus reconciled_status 0) = true /\ stObservedGeneration reconciled_status = 3%Z /\
  (Reconcile Z.of_nat (sample_instance sample_source yes_client)
     "default/demo" fresh_world).1 = None.
Proof.
  destruct (leader_run_status (H := plain_url_lib) Z.of_nat (fun _ => available) (fun s _ => s)
    ApiOther sample_env sample_image (fun _ _ _ => Ok sample_source) (fun _ _ => true)
    yes_client (sample_instance sample_source yes_client) "default/demo" fresh_world sample_source)
    as (_&_&Hg&Hr&_&_).
  - reflexivity.
  - intros s d y st. reflexivity.
  - reflexivity.
  - split; [|reflexivity]. exists "default", "demo". split; [reflexivity|]. split; reflexivity.
  - split; constructor.
  - split.
    + apply Hr. split; vm_compute; reflexivity.
    + split; [exact Hg|vm_compute; reflexivity].
Defined.

Lemma status_settles_witness :
  let y := with_status sample_source reconciled_status in
  let w := MkWorld tt 20 [] in
  Reconcile Z.of_nat (sample_instance y yes_client) "default/demo" w
  = Reconcile Z.of_nat (sample_instance y no_client) "default/demo" w /\
  (Reconcile Z.of_nat (sample_instance y no_client) "default/demo" w).1 = None.
Proof.
  cbv zeta.
  destruct (status_settles (H := plain_url_lib) Z.of_nat (fun _ => available) (fun s _ => s)
    ApiOther sample_env sample_image
    (fun _ _ _ => Ok (with_status sample_source reconciled_status)) (fun _ _ => true)
    yes_client no_client
    (sample_instance (with_status sample_source reconciled_status) yes_client)
    (sample_instance (with_status sample_source reconciled_status) no_client)
    "default/demo" fresh_world (MkWorld tt 20 []) sample_source
    (with_status sample_source reconciled_status)) as [E Erun].
  - reflexivity.
  - intros s d y st. reflexivity.
  - reflexivity.
  - reflexivity.
  - split; constructor.
  - split; [|reflexivity]. exists "default", "demo". split; [reflexivity|]. split; reflexivity.
  - reflexivity.
  - reflexivity.
  - reflexivity.
  - split; [exact E|]. rewrite <- E, Erun. vm_compute. reflexivity.
Defined.
