(* ===== verification/Wiring.v ===== *)
(** * Events and the work queue

    What puts keys on the work queue (pkg/reconciler/yipyapsource/controller.go
    with controller/controller.go of knative.dev/pkg and tools/cache of
    client-go): the handlers of the two informers.  What a worker does with the
    result of a run ([processNextWorkItem], [handleErr]). *)

From S2P Require Import Prelude GoStrings CondSet Types Api Lifecycle Names Deployment.
From S2P Require Import Reconcile KindReconciler Leader Contents Controller.
Local Open Scope string_scope.
Local Open Scope list_scope.

(** ** What an informer delivers *)

(** An object, or the tombstone of a deletion the watch missed, with the last
    state known. *)
Inductive delivered (A : Type) :=
| Object (a : A)
| DeletedFinalStateUnknown (key : string) (a : option A).
Arguments Object {A} _.
Arguments DeletedFinalStateUnknown {A} _ _.

Inductive event (A : Type) :=
| OnAdd (obj : delivered A)
| OnUpdate (old new : delivered A)
| OnDelete (obj : delivered A).
Arguments OnAdd {A} _.
Arguments OnUpdate {A} _ _.
Arguments OnDelete {A} _.

Section handlers.
Context {A : Type}.

(** A handler and the keys it enqueues. *)
Definition handler : Type := event A -> list NamespacedName.

Definition DeletionHandlingAccessor (obj : delivered A) : option A :=
  match obj with Object a => Some a | DeletedFinalStateUnknown _ a => a end.

Definition HandleAll (h : delivered A -> list NamespacedName) : handler := fun e =>
  match e with OnAdd obj => h obj | OnUpdate _ new => h new | OnDelete obj => h obj end.

Definition FilteringResourceEventHandler (filter : delivered A -> bool) (h : handler) : handler :=
  fun e =>
  match e with
  | OnAdd obj => if negb (filter obj) then [] else h (OnAdd obj)
  | OnUpdate old new =>
      match filter new, filter old with
      | true, true => h (OnUpdate old new)
      | true, false => h (OnAdd new)
      | false, true => h (OnDelete old)
      | false, false => []
      end
  | OnDelete obj => if negb (filter obj) then [] else h (OnDelete obj)
  end.
End handlers.

(** ** The controller of an object *)

Definition GetControllerOf (refs : list OwnerReference) : option OwnerReference :=
  hd_error (filter (fun o => orController o = Some true) refs).

Definition ParseGroupVersion (gv : string) : option GroupVersion :=
  if String.eqb gv "" || String.eqb gv "/" then Some (MkGroupVersion "" "")
  else match split "/" gv with
       | [version] => Some (MkGroupVersion "" version)
       | [group; version] => Some (MkGroupVersion group version)
       | _ => None
       end.

(** [FilterController(&v1alpha1.YipYapSource{})]: a tombstone is not an
    object. *)
Definition FilterController (obj : delivered Deployment) : bool :=
  match obj with
  | DeletedFinalStateUnknown _ _ => false
  | Object d =>
      match GetControllerOf (dpOwnerReferences d) with
      | None => false
      | Some owner =>
          match ParseGroupVersion (orAPIVersion owner) with
          | None => false
          | Some gv =>
              String.eqb (gvGroup gv) (gvkGroup GetGroupVersionKind) &&
              String.eqb (orKind owner) (gvkKind GetGroupVersionKind)
          end
      end
  end.

Definition source_key (y : YipYapSource) : NamespacedName :=
  MkNamespacedName (omNamespace (yMeta y)) (omName (yMeta y)).

Definition Enqueue (obj : delivered YipYapSource) : list NamespacedName :=
  match DeletionHandlingAccessor obj with Some y => [source_key y] | None => [] end.

Definition EnqueueControllerOf (obj : delivered Deployment) : list NamespacedName :=
  match DeletionHandlingAccessor obj with
  | None => []
  | Some d =>
      match GetControllerOf (dpOwnerReferences d) with
      | Some owner => [MkNamespacedName (dpNamespace d) (orName owner)]
      | None => []
      end
  end.

(** The two handlers [NewController] installs. *)
Definition source_handler : handler := HandleAll Enqueue.
Definition deployment_handler : handler :=
  FilteringResourceEventHandler FilterController (HandleAll EnqueueControllerOf).

(** ** A worker *)

(** [safeKey]: the string a key is reconciled under. *)
Definition safeKey (key : NamespacedName) : string :=
  if String.eqb (nnNamespace key) "" then nnName key
  else nnNamespace key +:+ "/" +:+ nnName key.

Inductive queue_action := Forget | AddAfter (d : Z) | AddRateLimited.

Definition handleErr (shutting_down : bool) (e : go_error) : queue_action :=
  if IsSkipKey e || shutting_down then Forget
  else match root e with
       | ERequeueKey d => AddAfter d
       | _ => if IsConflict e then AddRateLimited
              else if negb (IsPermanentError e) then AddRateLimited else Forget
       end.

Definition processNextWorkItem {S} (clock : nat -> Z) (r : reconcilerImpl S)
    (shutting_down : bool) (key : NamespacedName) : M S queue_action :=
  err ← Reconcile clock r (safeKey key);
  mret (match err with Some e => handleErr shutting_down e | None => Forget end).

(** ** Lemmas *)

Definition no_slash (s : string) : Prop := string_contains "/" s = false.

Lemma safeKey_split key :
  no_slash (nnNamespace key) -> no_slash (nnName key) ->
  SplitMetaNamespaceKey (safeKey key) = Some (nnNamespace key, nnName key).
Proof.
  destruct key as [ns name]. cbn [nnNamespace nnName]. intros Hns Hn.
  unfold safeKey, SplitMetaNamespaceKey. cbn [nnNamespace nnName].
  destruct (String.eqb_spec ns "") as [->|_]; [by rewrite split_whole|].
  change (ns +:+ "/" +:+ name) with (ns +:+ String "/" name).
  by rewrite split_app_sep, split_whole.
Qed.

Lemma FilterController_spec obj :
  FilterController obj = true ->
  exists d owner, obj = Object d /\ GetControllerOf (dpOwnerReferences d) = Some owner /\
    orKind owner = "YipYapSource" /\
    gvGroup <$> ParseGroupVersion (orAPIVersion owner) = Some GroupName.
Proof.
  destruct obj as [d|]; [|done]. cbn [FilterController].
  destruct (GetControllerOf _) as [owner|] eqn:Eo; [|done].
  destruct (ParseGroupVersion _) as [gv|] eqn:Eg; [|done].
  intros [E1%String.eqb_eq E2%String.eqb_eq]%andb_true_iff.
  exists d, owner. split_and!; [done|done|done|]. rewrite Eg. cbn. by rewrite E1.
Qed.

(** The errors of the write-back are those of its requests. *)
Definition request_error (e : option go_error) : Prop :=
  match e with None => True | Some e => exists a, e = EApi a end.

Lemma update_attempt_errors {S} (r : reconcilerImpl S) existing desired n w :
  request_error (update_attempt r existing desired n w).1.
Proof.
  assert (forall existing w, request_error
    ((if bool_decide (yStatus existing = yStatus desired) then mret None
      else res ← api (cl_UpdateStatus (Client r) (with_status existing (yStatus desired)));
           mret (match res with Ok _ => None | Err e => Some (EApi e) end) : M S _) w).1) as Hput.
  { intros ex w'. case_bool_decide; [done|]. unfold mbind, M_bind, mret, M_ret, api.
    destruct (cl_UpdateStatus _ _ _) as [[y|e] s']; cbn; eauto. }
  unfold update_attempt. destruct (0 <? n)%nat; [|apply Hput].
  unfold mbind at 1, M_bind at 1, api at 1.
  destruct (cl_Get _ _ _ _) as [[ex|e] s']; [apply Hput|]. cbn. eauto.
Qed.

Lemma after_conflicts_errors {S} (updater : nat -> M S (option go_error)) k w last w' :
  (forall n w, request_error (updater n w).1) ->
  after_conflicts updater k w = Some (last, w') -> request_error last.
Proof.
  intros Hu. destruct k as [|k]; cbn [after_conflicts]; [by intros [= <- _]|].
  destruct (after_conflicts updater k w) as [[l w1]|]; [|done]. cbn [mbind option_bind].
  specialize (Hu k w1). destruct (updater k w1) as [[e|] w2]; [|done].
  destruct (IsConflict e); [|done]. by intros [= <- _].
Qed.

Lemma sync_status_errors {S} (r : reconcilerImpl S) s original resource w :
  request_error (sync_status r s original resource w).1.
Proof.
  unfold sync_status. destruct (skipStatusUpdates r); [done|].
  case_bool_decide; [done|]. destruct (negb _); [done|].
  unfold mbind at 1, M_bind at 1, updateStatus, RetryUpdateConflicts.
  destruct (retry_conflicts_attempts (update_attempt r original resource) w 5 0 None w eq_refl)
    as (k&last&w1&e&w2&_&Ha&Hu&->&_); [lia|].
  assert (forall n w, request_error (update_attempt r original resource n w).1) as He
    by (intros; apply update_attempt_errors).
  pose proof (after_conflicts_errors _ _ _ _ _ He Ha) as Hl.
  specialize (He k w1). rewrite Hu in He. cbn [fst] in He.
  destruct e as [err|]; [|done].
  destruct (Interrupted err); [destruct last as [err'|]; [|done]|]; exact He || exact Hl.
Qed.

(** An error of a request, and the wrapped errors of the hook, are retried. *)
Lemma handleErr_request a : handleErr false (EApi a) = AddRateLimited.
Proof. by destruct a. Qed.

Lemma handleErr_event classify e : handleErr false (event_of classify e) = AddRateLimited.
Proof. destruct e as [m|m|m|m|]; cbn [event_of]; try done; unfold handleErr; cbn; by destruct (classify m). Qed.

Lemma report_event {S} classify e (w : world S) :
  (report (Some (event_of classify e)) w).1 = Some (event_of classify e).
Proof.
  unfold report.
  assert (EventAs (event_of classify e) = None) as ->
    by (destruct e as [m|m|m|m|]; try done; unfold EventAs; cbn; by destruct (classify m)).
  unfold mbind, M_bind. by destruct (IsSkipKey _ || IsRequeueKey _ || IsConflict _).
Qed.

(** The error of a leader's write-back of the status it arrived at. *)
Definition write_back {S} (r : reconcilerImpl S) (key : string) (y : YipYapSource)
    (st : YipYapSourceStatus) (w : world S) : option go_error :=
  match newState key r with
  | Some s => (sync_status r s y (with_status (defaulted y) st) w).1
  | None => None
  end.

(** What a leader's worker does with the key it ran. *)
Lemma worker_action {S} `{UrlLib} clock kube_of apply classify image lister leader
    (cl : client S) key (w : world S) y :
  (forall s, resolver_ignores_status (kube_of s)) -> leads leader lister (safeKey key) w y ->
  let R := instance clock kube_of apply classify image lister leader cl in
  let a := met kube_of image w y in
  let st := run_status clock a (omGeneration (yMeta y)) (yStatus y) (wTicks w) in
  let written := write_back R (safeKey key) y st (run_world clock kube_of apply image w y) in
  (processNextWorkItem clock R false key w).1
  = (if bool_decide (anError a = None) && bool_decide (written = None)
     then Forget else AddRateLimited).
Proof.
  intros Hresolver Hleads R a st.
  destruct (Reconcile_leader clock kube_of apply classify image lister leader Hresolver cl
    (safeKey key) y w Hleads) as (s&[_ Hs]&E).
  cbv zeta.
  assert (write_back R (safeKey key) y st (run_world clock kube_of apply image w y)
    = (sync_status R s y (with_status (defaulted y) st) (run_world clock kube_of apply image w y)).1)
    as -> by (unfold write_back, R; by rewrite Hs).
  unfold processNextWorkItem. unfold mbind at 1, M_bind at 1. unfold R. rewrite E.
  unfold mbind at 1, M_bind at 1. fold a st R.
  pose proof (sync_status_errors R s y
    (with_status (defaulted y) st) (run_world clock kube_of apply image w y)) as He.
  destruct (sync_status _ s y _ _) as [failed w1]. cbn [fst] in *.
  destruct failed as [e|].
  - destruct He as [x ->]. rewrite (bool_decide_false (Some _ = None)) by done.
    rewrite andb_false_r. cbn. by apply handleErr_request.
  - rewrite (bool_decide_true (None = None)), andb_true_r by done.
    destruct (anError a) as [e|]; cbn [fmap option_fmap option_map]; [|done].
    rewrite bool_decide_false by done.
    pose proof (report_event classify e w1) as Hr.
    destruct (report _ w1) as [res w2]. cbn [fst] in Hr. subst res.
    cbn. apply handleErr_event.
Qed.

(** ** Theorems *)

(** The events of an adapter Deployment reach its source: whatever its
    status and its spec became, as long as it keeps its owner, each event on it
    enqueues the key of the source it was rendered for and nothing else, and
    the worker reads that key back as the source's namespace and name. *)
Theorem deployment_events_reach_the_source `{UrlLib} src sink image d d' old :
  no_slash (omNamespace (yMeta src)) -> no_slash (omName (yMeta src)) ->
  MakeAdapterDeployment src sink image = Some d ->
  dpNamespace d' = dpNamespace d -> dpOwnerReferences d' = dpOwnerReferences d ->
  (forall e, e ∈ [OnAdd (Object d'); OnUpdate old (Object d'); OnDelete (Object d')] ->
     deployment_handler e = [source_key src]) /\
  SplitMetaNamespaceKey (safeKey (source_key src))
    = Some (omNamespace (yMeta src), omName (yMeta src)).
Proof.
  intros Hns Hn Hd Ens Eo. split; [|by apply safeKey_split].
  unfold MakeAdapterDeployment in Hd.
  destruct (ChildName _ _) as [name|]; [|done]. cbn in Hd. injection Hd as <-.
  cbn [dpNamespace dpOwnerReferences] in Ens, Eo.
  assert (FilterController (Object d') = true) as Hf
    by (cbn [FilterController]; rewrite Eo; reflexivity).
  assert (EnqueueControllerOf (Object d') = [source_key src]) as He.
  { unfold EnqueueControllerOf. cbn [DeletionHandlingAccessor]. rewrite Eo, Ens. reflexivity. }
  intros e He'. unfold deployment_handler, FilteringResourceEventHandler.
  rewrite !elem_of_cons, elem_of_nil in He'.
  destruct He' as [->|[->|[->|[]]]]; rewrite Hf; [exact He| |exact He].
  destruct (FilterController old); exact He.
Qed.

(** Only sources are enqueued by Deployments: a key comes from an object
    whose controlling owner is a YipYapSource of this group, in the namespace of
    the object.  A Deployment without such an owner moves nothing. *)
Theorem deployment_events_are_owned e key :
  key ∈ deployment_handler e ->
  exists d owner,
    (e = OnAdd (Object d) \/ e = OnDelete (Object d) \/
     (exists o, e = OnUpdate o (Object d)) \/ (exists n, e = OnUpdate (Object d) n)) /\
    GetControllerOf (dpOwnerReferences d) = Some owner /\ orKind owner = "YipYapSource" /\
    gvGroup <$> ParseGroupVersion (orAPIVersion owner) = Some GroupName /\
    key = MkNamespacedName (dpNamespace d) (orName owner).
Proof.
  assert (forall obj, FilterController obj = true -> key ∈ EnqueueControllerOf obj ->
    exists d owner, obj = Object d /\ GetControllerOf (dpOwnerReferences d) = Some owner /\
      orKind owner = "YipYapSource" /\
      gvGroup <$> ParseGroupVersion (orAPIVersion owner) = Some GroupName /\
      key = MkNamespacedName (dpNamespace d) (orName owner)) as Hobj.
  { intros obj (d&owner&->&Ho&Hk&Hg)%FilterController_spec Hin.
    exists d, owner. split_and!; try done. unfold EnqueueControllerOf in Hin.
    cbn [DeletionHandlingAccessor] in Hin. rewrite Ho in Hin. by apply list_elem_of_singleton in Hin. }
  unfold deployment_handler, FilteringResourceEventHandler, HandleAll.
  destruct e as [obj|old new|obj].
  - destruct (FilterController obj) eqn:Ef; [|by intros ?%not_elem_of_nil].
    intros (d&o&->&H1)%Hobj; [|done]. exists d, o. split; [by left|done].
  - destruct (FilterController new) eqn:En, (FilterController old) eqn:Eo;
      [..|by intros ?%not_elem_of_nil].
    1,2: intros (d&o&->&H1)%Hobj; [|done]; exists d, o; split; [eauto|done].
    intros (d&o&->&H1)%Hobj; [|done]. exists d, o. split; [|done]. eauto 6.
  - destruct (FilterController obj) eqn:Ef; [|by intros ?%not_elem_of_nil].
    intros (d&o&->&H1)%Hobj; [|done]. exists d, o. split; [by right; left|done].
Qed.

(** A deletion of the adapter Deployment that the watch missed enqueues
    nothing: the informer delivers a tombstone, which the filter rejects before
    the handler could unwrap it.  The tombstone of a source is unwrapped. *)
Theorem missed_deployment_deletion_is_dropped k d y :
  deployment_handler (OnDelete (DeletedFinalStateUnknown k (Some d))) = [] /\
  EnqueueControllerOf (DeletedFinalStateUnknown k (Some d)) = EnqueueControllerOf (Object d) /\
  source_handler (OnDelete (DeletedFinalStateUnknown k (Some y))) = [source_key y].
Proof. split_and!; reflexivity. Qed.

(** No failed run is forgotten: the leader's run of a key whose
    reconciliation failed, or whose status could not be written, puts the key
    back with a delay; otherwise the key is forgotten, and so it is, untouched,
    when another replica leads it. *)
Theorem failed_runs_are_retried {S} `{UrlLib} clock kube_of apply classify lookup image lister leader
    (cl : client S) R key (w : world S) :
  process_env lookup = Some image -> (forall s, resolver_ignores_status (kube_of s)) ->
  implRec <$> NewController clock kube_of apply classify lookup cl lister leader = Some R ->
  (forall y, leads leader lister (safeKey key) w y ->
     let a := met kube_of image w y in
     let st := run_status clock a (omGeneration (yMeta y)) (yStatus y) (wTicks w) in
     let written := write_back R (safeKey key) y st (run_world clock kube_of apply image w y) in
     (processNextWorkItem clock R false key w).1
     = (if bool_decide (anError a = None) && bool_decide (written = None)
        then Forget else AddRateLimited)) /\
  (no_slash (nnNamespace key) -> no_slash (nnName key) ->
   leader (nnNamespace key) (nnName key) = false ->
   processNextWorkItem clock R false key w = (Forget, w)).
Proof.
  intros Himage Hresolver HR.
  rewrite (NewController_instance clock kube_of apply classify lookup image lister leader Himage)
    in HR. injection HR as <-. split.
  - intros y Hleads a st written. by apply worker_action.
  - intros Hns Hn Hl. unfold processNextWorkItem. unfold mbind at 1, M_bind at 1.
    unfold Reconcile, newState. rewrite safeKey_split by done.
    cbn [mbind option_bind KindReconciler.IsLeaderFor ReadOnlyInterface instance]. rewrite Hl.
    reflexivity.
Qed.

(** ** Witnesses *)

Lemma deployment_events_reach_the_source_witness :
  let d := MkDeployment (dpNamespace sample_deployment) (dpName sample_deployment) ∅
             (dpOwnerReferences sample_deployment) None ∅ (dpTemplate sample_deployment)
             [MkDeploymentCondition "Available" "False" "MinimumReplicasUnavailable" ""] in
  deployment_handler (OnDelete (Object d)) = [MkNamespacedName "default" "demo"] /\
  SplitMetaNamespaceKey "default/demo" = Some ("default", "demo").
Proof.
  cbv zeta.
  destruct (deployment_events_reach_the_source (H := plain_url_lib) sample_source (Some sample_url)
    sample_image sample_deployment
    (MkDeployment (dpNamespace sample_deployment) (dpName sample_deployment) ∅
       (dpOwnerReferences sample_deployment) None ∅ (dpTemplate sample_deployment)
       [MkDeploymentCondition "Available" "False" "MinimumReplicasUnavailable" ""])
    (Object sample_deployment)) as [Hall Hkey].
  - reflexivity.
  - reflexivity.
  - vm_compute. reflexivity.
  - reflexivity.
  - reflexivity.
  - split; [|exact Hkey]. apply Hall. right. right. left.
Defined.

Lemma deployment_events_are_owned_witness :
  exists d owner, d = sample_deployment /\
    GetControllerOf (dpOwnerReferences d) = Some owner /\ orName owner = "demo".
Proof.
  destruct (deployment_events_are_owned (OnAdd (Object sample_deployment))
    (MkNamespacedName "default" "demo")) as (d&owner&Hd&Ho&_&_&Hk).
  - vm_compute. left.
  - exists d, owner.
    destruct Hd as [Hd|[Hd|[[o Hd]|[n Hd]]]]; try discriminate Hd. injection Hd as <-.
    split; [reflexivity|]. split; [exact Ho|]. symmetry. exact (f_equal nnName Hk).
Defined.

(** The sink cannot be resolved: the run fails and comes back. *)
Lemma failed_runs_are_retried_witness :
  let kube := Reconcile.kube_of [] false in
  let r := instance (H := plain_url_lib) Z.of_nat (fun _ => kube) (fun s _ => s) ApiOther sample_image
             (fun _ _ _ => Ok sample_source) (fun _ _ => true) yes_client in
  (processNextWorkItem Z.of_nat r false (MkNamespacedName "default" "demo") fresh_world).1
  = AddRateLimited.
Proof.
  cbv zeta.
  destruct (failed_runs_are_retried (H := plain_url_lib) Z.of_nat
    (fun _ => Reconcile.kube_of [] false) (fun s _ => s) ApiOther sample_env sample_image
    (fun _ _ _ => Ok sample_source) (fun _ _ => true) yes_client
    (instance (H := plain_url_lib) Z.of_nat (fun _ => Reconcile.kube_of [] false) (fun s _ => s)
       ApiOther sample_image (fun _ _ _ => Ok sample_source) (fun _ _ => true) yes_client)
    (MkNamespacedName "default" "demo") fresh_world) as [Hrun _].
  - reflexivity.
  - intros s d y st. reflexivity.
  - reflexivity.
  - specialize (Hrun sample_source). cbv zeta in Hrun. rewrite Hrun.
    2:{ split; [|reflexivity]. exists "default", "demo". split; [reflexivity|]. split; reflexivity. }
    rewrite bool_decide_false by discriminate. reflexivity.
Defined.
