(* ===== verification/Workqueue.v ===== *)
(** * Work queues (k8s.io/client-go/util/workqueue)

    The queue of keys every lane of a controller's work queue is: a key is
    queued at most once, and while it is processed it is not queued but marked
    dirty, to be queued again when it is done.  Each method holds the lock, so it
    is one step.  Then the delays of the default rate limiter. *)

From S2P Require Import Prelude GoTime.

(** ** The queue (queue.go) *)

Section queue.
Context {T : Type} `{Countable T}.

Record Typed := MkTyped {
  queue : list T;
  dirty : gset T;
  processing : gset T;
  shuttingDown : bool
}.

Definition newQueue : Typed := MkTyped [] ∅ ∅ false.

Definition Add (item : T) (q : Typed) : Typed :=
  if shuttingDown q then q
  else if bool_decide (item ∈ dirty q) then q
  else
    let q := MkTyped (queue q) ({[item]} ∪ dirty q) (processing q) (shuttingDown q) in
    if bool_decide (item ∈ processing q) then q
    else MkTyped (queue q ++ [item]) (dirty q) (processing q) (shuttingDown q).

Definition Len (q : Typed) : nat := length (queue q).

(** What [Get] returns: it waits, it says that the queue is shut down, or it
    hands an item out. *)
Inductive got :=
| Blocked
| Shutdown
| Item (item : T) (q : Typed).

Definition Get (q : Typed) : got :=
  match queue q with
  | [] => if shuttingDown q then Shutdown else Blocked
  | item :: rest =>
      Item item (MkTyped rest (dirty q ∖ {[item]}) ({[item]} ∪ processing q) (shuttingDown q))
  end.

Definition Done (item : T) (q : Typed) : Typed :=
  MkTyped (if bool_decide (item ∈ dirty q) then queue q ++ [item] else queue q)
    (dirty q) (processing q ∖ {[item]}) (shuttingDown q).

Definition ShutDown (q : Typed) : Typed := MkTyped (queue q) (dirty q) (processing q) true.

(** ** What the queue promises *)

(** The comment of the struct: the queue holds, once each, the dirty items that
    are not being processed. *)
Record queue_ok (q : Typed) : Prop := {
  qo_nodup : NoDup (queue q);
  qo_queue : forall x, x ∈ queue q <-> x ∈ dirty q /\ x ∉ processing q
}.

Lemma newQueue_ok : queue_ok newQueue.
Proof. split; [constructor|]. cbn. set_solver. Qed.

Lemma Add_ok x q : queue_ok q -> queue_ok (Add x q).
Proof.
  intros [Hnd Hq]. unfold Add. destruct (shuttingDown q); [done|].
  case_bool_decide as Hd; [done|]. cbn [processing]. case_bool_decide as Hp; split; cbn; try done.
  - intros y. rewrite Hq. set_solver.
  - apply NoDup_app. split; [done|]. split; [|apply NoDup_singleton].
    intros y Hy ->%list_elem_of_singleton. apply Hq in Hy as [? _]. done.
  - intros y. rewrite elem_of_app, Hq, list_elem_of_singleton. set_solver.
Qed.

Lemma Get_ok q x q' : queue_ok q -> Get q = Item x q' -> queue_ok q'.
Proof.
  intros [Hnd Hq]. unfold Get. destruct (queue q) as [|y rest] eqn:E; [by destruct (shuttingDown q)|].
  intros [= <- <-]. apply NoDup_cons in Hnd as [Hy Hnd]. split; cbn; [done|].
  intros z. specialize (Hq z). rewrite elem_of_cons in Hq. set_solver.
Qed.

(** An item that was handed out is done. *)
Lemma Done_ok x q : queue_ok q -> x ∈ processing q -> queue_ok (Done x q).
Proof.
  intros [Hnd Hq] Hx. unfold Done. split; cbn.
  - case_bool_decide; [|done]. apply NoDup_app. split; [done|]. split; [|apply NoDup_singleton].
    intros y Hy ->%list_elem_of_singleton. by apply Hq in Hy as [_ ?].
  - intros y. case_bool_decide; rewrite ?elem_of_app, ?list_elem_of_singleton, Hq;
      destruct (decide (y = x)) as [->|]; set_solver.
Qed.

Lemma ShutDown_ok q : queue_ok q -> queue_ok (ShutDown q).
Proof. intros []. by split. Qed.

Lemma Get_item q x q' :
  queue_ok q -> Get q = Item x q' ->
  x ∈ dirty q /\ x ∉ processing q /\ queue q = x :: queue q' /\
  dirty q' = dirty q ∖ {[x]} /\ processing q' = {[x]} ∪ processing q /\
  shuttingDown q' = shuttingDown q.
Proof.
  intros [_ Hq]. unfold Get. destruct (queue q) as [|y rest] eqn:E; [by destruct (shuttingDown q)|].
  intros [= <- <-]. assert (y ∈ dirty q /\ y ∉ processing q) as [? ?] by (apply Hq; left). done.
Qed.

Lemma Add_dirty x q : shuttingDown q = false -> dirty (Add x q) = {[x]} ∪ dirty q.
Proof.
  intros Hs. unfold Add. rewrite Hs. case_bool_decide; [set_solver|]. cbn [processing].
  by case_bool_decide.
Qed.

Lemma Add_mono x q : dirty q ⊆ dirty (Add x q).
Proof.
  unfold Add. destruct (shuttingDown q); [done|]. case_bool_decide; [done|]. cbn [processing].
  case_bool_decide; cbn; set_solver.
Qed.

Lemma Add_same x q :
  processing (Add x q) = processing q /\ shuttingDown (Add x q) = shuttingDown q.
Proof.
  unfold Add. destruct (shuttingDown q) eqn:E; [done|]. case_bool_decide; [done|]. cbn [processing].
  by case_bool_decide.
Qed.

(** New items go to the end. *)
Lemma Add_queue x q : exists l, queue (Add x q) = queue q ++ l.
Proof.
  unfold Add. destruct (shuttingDown q); [by exists []; rewrite app_nil_r|].
  case_bool_decide; [by exists []; rewrite app_nil_r|]. cbn [processing].
  case_bool_decide; cbn; [by exists []; rewrite app_nil_r|by exists [x]].
Qed.

Lemma Done_queue x q : exists l, queue (Done x q) = queue q ++ l.
Proof. unfold Done. cbn. case_bool_decide; [by exists [x]|by exists []; rewrite app_nil_r]. Qed.

(** *** As the set of what is to be done *)

(** What a client sees: the items still to be handed out, and the ones being
    processed. *)
Record pending_set := MkPending { todo : gset T; doing : gset T }.

Definition view (q : Typed) : pending_set := MkPending (dirty q) (processing q).

(** The queue refines a pair of sets, the items to do and the items being
    done: adding puts an item among the former, an item is handed out exactly
    when one is to do that nobody is doing, and moves to the latter, and a done
    item leaves it; what was added while an item was being done is still to do.
    In every state such a client can reach the queue holds each available item
    once. *)
Theorem queue_refines_sets q : queue_ok q ->
  let available := todo (view q) ∖ doing (view q) in
  (forall x, queue_ok (Add x q) /\
     view (Add x q) = (if shuttingDown q then view q
                       else MkPending ({[x]} ∪ todo (view q)) (doing (view q)))) /\
  (forall x q', Get q = Item x q' -> queue_ok q' /\ x ∈ available /\
     view q' = MkPending (todo (view q) ∖ {[x]}) ({[x]} ∪ doing (view q))) /\
  (Get q = Blocked <-> available = ∅ /\ shuttingDown q = false) /\
  (Get q = Shutdown <-> available = ∅ /\ shuttingDown q = true) /\
  (forall x, x ∈ doing (view q) -> queue_ok (Done x q) /\
     view (Done x q) = MkPending (todo (view q)) (doing (view q) ∖ {[x]})) /\
  Len q = size available.
Proof.
  intros Hok available.
  assert (forall x, x ∈ queue q <-> x ∈ available) as Hav.
  { intros x. rewrite (qo_queue _ Hok). unfold available. cbn. set_solver. }
  assert (queue q = [] <-> available = ∅) as Hempty.
  { split; intros E.
    - apply set_eq. intros x. rewrite <- Hav, E. set_solver.
    - destruct (queue q) as [|x l]; [done|]. exfalso. specialize (Hav x). rewrite E in Hav.
      apply (not_elem_of_empty (C := gset T) x), Hav. left. }
  split_and!.
  - intros x. split; [by apply Add_ok|]. unfold view, Add. destruct (shuttingDown q); [done|].
    case_bool_decide; cbn [todo doing].
    + f_equal. set_solver.
    + cbn [processing]. by case_bool_decide.
  - intros x q' Hg. destruct (Get_item q x q' Hok Hg) as (?&?&_&Hd&Hp&_).
    split; [by eapply Get_ok|]. unfold view, available. rewrite Hd, Hp. split; [set_solver|done].
  - rewrite <- Hempty. unfold Get. destruct (queue q), (shuttingDown q); naive_solver.
  - rewrite <- Hempty. unfold Get. destruct (queue q), (shuttingDown q); naive_solver.
  - intros x Hx. split; [by apply Done_ok|done].
  - unfold Len. replace available with (list_to_set (C := gset T) (queue q)).
    + symmetry. apply size_list_to_set, Hok.
    + apply set_eq. intros x. by rewrite elem_of_list_to_set, Hav.
Qed.
End queue.

Arguments Typed T {_ _} : assert.
Arguments got T {_ _} : assert.
Arguments Blocked {T _ _}.
Arguments Shutdown {T _ _}.

(** ** The delays of the default rate limiter (default_rate_limiters.go) *)

Definition baseDelay : Z := 5 * Millisecond.
Definition maxDelay : Z := 1000 * Second.

(** [When] of the exponential limiter after [exp] failures.  The product of the
    base and a power of two is exact in a 64-bit float, or too large for either
    comparison. *)
Definition exponential_delay (exp : nat) : Z :=
  let backoff := (baseDelay * 2 ^ Z.of_nat exp)%Z in
  if (max_int64 <? backoff)%Z then maxDelay
  else if (maxDelay <? backoff)%Z then maxDelay
  else backoff.

(** The greater of it and what the token bucket says. *)
Definition When (exp : nat) (bucket : Z) : Z := Z.max (exponential_delay exp) bucket.

(** The delay before a key is retried after [n] failures in a row is five
    milliseconds doubled [n] times while that is at most a thousand seconds, and
    a thousand seconds afterwards, unless the token bucket asks for more; it
    never falls as failures add up, and never overflows. *)
Theorem retry_delay n bucket :
  When n bucket = Z.max (if (n <=? 17)%nat then baseDelay * 2 ^ Z.of_nat n else maxDelay) bucket /\
  (baseDelay <= When n bucket <= Z.max maxDelay bucket)%Z /\
  (When n bucket <= When (S n) bucket)%Z.
Proof.
  assert (forall k, exponential_delay k
    = if (k <=? 17)%nat then (baseDelay * 2 ^ Z.of_nat k)%Z else maxDelay) as Hexp.
  { intros k. unfold exponential_delay. destruct (Nat.leb_spec k 17) as [Hk|Hk].
    - assert (2 ^ Z.of_nat k <= 2 ^ 17)%Z by (apply Z.pow_le_mono_r; lia).
      change (2 ^ 17)%Z with 131072%Z in *.
      unfold baseDelay, maxDelay, Millisecond, Second, max_int64.
      destruct (Z.ltb_spec (2 ^ 63 - 1) (5 * 1000000 * 2 ^ Z.of_nat k)); [lia|].
      destruct (Z.ltb_spec (1000 * 1000000000) (5 * 1000000 * 2 ^ Z.of_nat k)); lia.
    - destruct (Z.ltb_spec max_int64 (baseDelay * 2 ^ Z.of_nat k)); [done|].
      assert (2 ^ 18 <= 2 ^ Z.of_nat k)%Z by (apply Z.pow_le_mono_r; lia).
      change (2 ^ 18)%Z with 262144%Z in *.
      destruct (Z.ltb_spec maxDelay (baseDelay * 2 ^ Z.of_nat k)) as [|Hle]; [done|].
      unfold baseDelay, maxDelay, Millisecond, Second in Hle. lia. }
  assert (forall k, (baseDelay <= exponential_delay k <= maxDelay)%Z) as Hb.
  { intros k. rewrite Hexp. destruct (Nat.leb_spec k 17) as [Hk|Hk]; [|done].
    assert (2 ^ Z.of_nat k <= 2 ^ 17)%Z by (apply Z.pow_le_mono_r; lia).
    assert (1 <= 2 ^ Z.of_nat k)%Z by (apply (Z.pow_le_mono_r 2 0); lia).
    change (2 ^ 17)%Z with 131072%Z in *. unfold baseDelay, maxDelay, Millisecond, Second. lia. }
  unfold When. split; [by rewrite Hexp|]. split; [specialize (Hb n); lia|].
  apply Z.max_le_compat_r. rewrite (Hexp n). destruct (Nat.leb_spec n 17) as [Hn|Hn].
  - rewrite (Hexp (S n)). destruct (Nat.leb_spec (S n) 17) as [Hs|Hs].
    + rewrite Nat2Z.inj_succ, Z.pow_succ_r by lia.
      assert (1 <= 2 ^ Z.of_nat n)%Z by (apply (Z.pow_le_mono_r 2 0); lia).
      unfold baseDelay, Millisecond. lia.
    + pose proof (Hb n) as Hbn. rewrite Hexp in Hbn. destruct (Nat.leb_spec n 17); [lia|lia].
  - rewrite Hexp. destruct (Nat.leb_spec (S n) 17); [lia|done].
Qed.

(** ** Witnesses *)

(** An item is added again while it is being done. *)
Lemma queue_refines_sets_witness :
  let q := Add 1%nat (MkTyped [] ∅ {[1%nat]} false) in
  Get q = Blocked /\ Len (Done 1%nat q) = 1%nat.
Proof.
  intros q.
  assert (queue_ok q) as Hq by (split; [constructor|]; vm_compute; set_solver).
  destruct (queue_refines_sets q Hq) as (_&_&Hb&_&Hd&_). split.
  - apply Hb. vm_compute. split; reflexivity.
  - destruct (Hd 1%nat) as [_ _]; [apply (bool_decide_unpack _); vm_compute; exact I|].
    vm_compute. reflexivity.
Defined.
