(* ===== verification/TwoLane.v ===== *)
(** * The work queue of a controller (knative.dev/pkg/controller)

    The two-lane queue between the event handlers and the workers
    (two_lane_queue.go), with client-go's delayed additions around it
    (delaying_queue.go) and the workers of [RunContext] (controller.go).

    Keys are added to the fast or the slow lane.  A goroutine per lane takes a
    key out, marks it done there, and sends it on a channel without a buffer; a
    third one receives from the channels, the fast one first, and adds to the
    consumer queue, from which the workers take keys, reconcile, put them back
    or forget them, and mark them done.  Delayed keys wait in a channel and then,
    with their times, in the waiting loop, which adds the ones that are due.

    The goroutines interleave: a state is what all of them share and where each
    of them is, and a label is one step of one of them, [step] says what it does
    and whether it can be taken.  Not modelled: metrics, and that the channel of
    delayed keys has room for a thousand. *)

From S2P Require Import Prelude GoTime Leader Workqueue Wiring.
Local Open Scope list_scope.

Section controller.
Context {T : Type} `{Countable T}.

(** ** The state *)

(** Where the goroutine of a lane ([process]) is: before [Get], between [Get] and
    [Done], sending, or returned with its channel closed. *)
Inductive thread :=
| Idle
| Got (item : T)
| Sending (item : T)
| Closed.

Record lane := MkLane { lnQueue : Typed T; lnThread : thread }.

(** Where [runConsumer] is: at the head of its loop, in the second select, or
    returned. *)
Inductive consumer_pc := Top | Both | Exited.

(** Where a worker is: before [Get], reconciling a key, before [Done] of it, or
    returned. *)
Inductive worker :=
| Waiting
| Working (key : T)
| Acted (key : T)
| Gone.

Record state := MkState {
  fastLane : lane;
  slowLane : lane;
  consumerQueue : Typed T;
  pc : consumer_pc;
  fast : bool;
  slow : bool;
  (** how far the shutdown got: the fast lane, the slow lane, the stop channel *)
  shut : nat;
  (** the channel of delayed keys, the waiting loop, and whether it runs *)
  waitingForAddCh : list (T * Z);
  waitingForQueue : gmap T Z;
  looping : bool;
  failures : gmap T nat;
  now : Z;
  workers : list worker
}.

Definition init (threadiness : nat) : state :=
  MkState (MkLane newQueue Idle) (MkLane newQueue Idle) newQueue Top true true 0 [] ∅ true ∅ 0
    (replicate threadiness Waiting).

Definition set_fast (l : lane) (s : state) : state :=
  MkState l (slowLane s) (consumerQueue s) (pc s) (fast s) (slow s) (shut s) (waitingForAddCh s)
    (waitingForQueue s) (looping s) (failures s) (now s) (workers s).
Definition set_slow (l : lane) (s : state) : state :=
  MkState (fastLane s) l (consumerQueue s) (pc s) (fast s) (slow s) (shut s) (waitingForAddCh s)
    (waitingForQueue s) (looping s) (failures s) (now s) (workers s).
Definition set_consumer (q : Typed T) (p : consumer_pc) (s : state) : state :=
  MkState (fastLane s) (slowLane s) q p (fast s) (slow s) (shut s) (waitingForAddCh s)
    (waitingForQueue s) (looping s) (failures s) (now s) (workers s).
Definition set_flags (f sl : bool) (p : consumer_pc) (s : state) : state :=
  MkState (fastLane s) (slowLane s) (consumerQueue s) p f sl (shut s) (waitingForAddCh s)
    (waitingForQueue s) (looping s) (failures s) (now s) (workers s).
Definition set_shut (n : nat) (s : state) : state :=
  MkState (fastLane s) (slowLane s) (consumerQueue s) (pc s) (fast s) (slow s) n (waitingForAddCh s)
    (waitingForQueue s) (looping s) (failures s) (now s) (workers s).
Definition set_waiting (ch : list (T * Z)) (m : gmap T Z) (b : bool) (s : state) : state :=
  MkState (fastLane s) (slowLane s) (consumerQueue s) (pc s) (fast s) (slow s) (shut s) ch m b
    (failures s) (now s) (workers s).
Definition set_failures (m : gmap T nat) (s : state) : state :=
  MkState (fastLane s) (slowLane s) (consumerQueue s) (pc s) (fast s) (slow s) (shut s)
    (waitingForAddCh s) (waitingForQueue s) (looping s) m (now s) (workers s).
Definition set_now (t : Z) (s : state) : state :=
  MkState (fastLane s) (slowLane s) (consumerQueue s) (pc s) (fast s) (slow s) (shut s)
    (waitingForAddCh s) (waitingForQueue s) (looping s) (failures s) t (workers s).
Definition set_worker (w : nat) (x : worker) (q : Typed T) (s : state) : state :=
  MkState (fastLane s) (slowLane s) q (pc s) (fast s) (slow s) (shut s)
    (waitingForAddCh s) (waitingForQueue s) (looping s) (failures s) (now s)
    (<[w := x]> (workers s)).

(** ** Adding keys *)

(** [Add] of the two-lane queue, and [AddSlow]. *)
Definition tlq_Add (x : T) (s : state) : state :=
  set_fast (MkLane (Add x (lnQueue (fastLane s))) (lnThread (fastLane s))) s.
Definition AddSlow (x : T) (s : state) : state :=
  set_slow (MkLane (Add x (lnQueue (slowLane s))) (lnThread (slowLane s))) s.

Definition ShuttingDown (s : state) : bool :=
  shuttingDown (lnQueue (fastLane s)) || shuttingDown (lnQueue (slowLane s)).

(** [AddAfter] of the delaying queue. *)
Definition addAfter (x : T) (d : Z) (s : state) : state :=
  if ShuttingDown s then s
  else if (d <=? 0)%Z then tlq_Add x s
  else set_waiting (waitingForAddCh s ++ [(x, now s + d)%Z]) (waitingForQueue s) (looping s) s.

(** [AddRateLimited]; [bucket] is what the token bucket says. *)
Definition addRateLimited (x : T) (bucket : Z) (s : state) : state :=
  let n := default 0%nat (failures s !! x) in
  addAfter x (When n bucket) (set_failures (<[x := S n]> (failures s)) s).

(** ** The goroutines of the lanes *)

Definition lane_Get (l : lane) : option lane :=
  match lnThread l, Get (lnQueue l) with
  | Idle, Item x q => Some (MkLane q (Got x))
  | Idle, Shutdown => Some (MkLane (lnQueue l) Closed)
  | _, _ => None
  end.

Definition lane_Done (l : lane) : option lane :=
  match lnThread l with
  | Got x => Some (MkLane (Done x (lnQueue l)) (Sending x))
  | _ => None
  end.

(** The lane once its item was received. *)
Definition received (l : lane) : lane := MkLane (lnQueue l) Idle.

(** ** The consumer *)

(** The item of the fast channel is received, or that it is closed is noticed. *)
Definition receive_fast (s : state) : option state :=
  match lnThread (fastLane s) with
  | Sending x => Some (set_consumer (Add x (consumerQueue s)) Top (set_fast (received (fastLane s)) s))
  | Closed => Some (set_flags false (slow s) Top s)
  | _ => None
  end.

Definition receive_slow (s : state) : option state :=
  match lnThread (slowLane s) with
  | Sending x => Some (set_consumer (Add x (consumerQueue s)) Top (set_slow (received (slowLane s)) s))
  | Closed => Some (set_flags (fast s) false Top s)
  | _ => None
  end.

(** The head of the loop, with the first select, whose default case is taken when
    nothing is sent. *)
Definition consumer_top (s : state) : option state :=
  match pc s with
  | Top =>
      if negb (fast s || slow s) then Some (set_consumer (ShutDown (consumerQueue s)) Exited s)
      else if fast s then
        match receive_fast s with
        | Some s => Some s
        | None => Some (set_flags (fast s) (slow s) Both s)
        end
      else Some (set_flags (fast s) (slow s) Both s)
  | _ => None
  end.

(** The second select: one channel or the other. *)
Definition consumer_both (from_fast : bool) (s : state) : option state :=
  match pc s with
  | Both => if from_fast then receive_fast s else receive_slow s
  | _ => None
  end.

(** ** The waiting loop *)

(** A key from the channel: it waits, with the earlier of two times, or is due. *)
Definition insert (x : T) (readyAt : Z) (m : gmap T Z) : gmap T Z :=
  match m !! x with
  | Some existing => if (readyAt <? existing)%Z then <[x := readyAt]> m else m
  | None => <[x := readyAt]> m
  end.

Definition loop_receive (s : state) : option state :=
  match looping s, waitingForAddCh s with
  | true, (x, readyAt) :: ch =>
      Some (if (now s <? readyAt)%Z
            then set_waiting ch (insert x readyAt (waitingForQueue s)) (looping s) s
            else tlq_Add x (set_waiting ch (waitingForQueue s) (looping s) s))
  | _, _ => None
  end.

(** The entry with the least time, once it is due. *)
Definition loop_fire (x : T) (s : state) : option state :=
  match looping s, waitingForQueue s !! x with
  | true, Some readyAt =>
      if (readyAt <=? now s)%Z
         && bool_decide (map_Forall (fun _ r => readyAt <= r)%Z (waitingForQueue s))
      then Some (tlq_Add x (set_waiting (waitingForAddCh s) (delete x (waitingForQueue s))
                              (looping s) s))
      else None
  | _, _ => None
  end.

Definition loop_exit (s : state) : option state :=
  if looping s && ShuttingDown s
  then Some (set_waiting (waitingForAddCh s) (waitingForQueue s) false s) else None.

(** ** The workers (processNextWorkItem) *)

Definition worker_Get (w : nat) (x : T) (s : state) : option state :=
  match workers s !! w, Get (consumerQueue s) with
  | Some Waiting, Item y q => if decide (x = y) then Some (set_worker w (Working x) q s) else None
  | _, _ => None
  end.

Definition worker_exit (w : nat) (s : state) : option state :=
  match workers s !! w, Get (consumerQueue s) with
  | Some Waiting, Shutdown => Some (set_worker w Gone (consumerQueue s) s)
  | _, _ => None
  end.

(** What the worker does with the key after the reconciliation (Wiring.v says
    when it does which). *)
Definition act (x : T) (a : queue_action) (bucket : Z) (s : state) : state :=
  match a with
  | Forget => set_failures (delete x (failures s)) s
  | AddAfter d => addAfter x d s
  | AddRateLimited => addRateLimited x bucket s
  end.

Definition worker_act (w : nat) (a : queue_action) (bucket : Z) (s : state) : option state :=
  match workers s !! w with
  | Some (Working x) => Some (act x a bucket (set_worker w (Acted x) (consumerQueue s) s))
  | _ => None
  end.

Definition worker_Done (w : nat) (s : state) : option state :=
  match workers s !! w with
  | Some (Acted x) => Some (set_worker w Waiting (Done x (consumerQueue s)) s)
  | _ => None
  end.

(** ** Steps *)

Inductive label :=
| LEnqueue (x : T)
| LEnqueueSlow (x : T)
| LEnqueueAfter (x : T) (d : Z)
| LTick (t : Z)
| LShut
| LLaneGet (is_fast : bool)
| LLaneDone (is_fast : bool)
| LTop
| LBoth (from_fast : bool)
| LReceive
| LFire (x : T)
| LLoopExit
| LGet (w : nat) (x : T)
| LExit (w : nat)
| LAct (w : nat) (a : queue_action) (bucket : Z)
| LDone (w : nat).

(** [ShutDown] of the delaying queue, which only the first call runs. *)
Definition shut_step (s : state) : option state :=
  let down l := MkLane (ShutDown (lnQueue l)) (lnThread l) in
  match shut s with
  | 0%nat => Some (set_shut 1 (set_fast (down (fastLane s)) s))
  | 1%nat => Some (set_shut 2 (set_slow (down (slowLane s)) s))
  | 2%nat => Some (set_shut 3 s)
  | _ => None
  end.

Definition step (s : state) (l : label) : option state :=
  match l with
  | LEnqueue x => Some (tlq_Add x s)
  | LEnqueueSlow x => Some (AddSlow x s)
  | LEnqueueAfter x d => Some (addAfter x d s)
  | LTick t => if (now s <=? t)%Z then Some (set_now t s) else None
  | LShut => shut_step s
  | LLaneGet true => l ← lane_Get (fastLane s); Some (set_fast l s)
  | LLaneGet false => l ← lane_Get (slowLane s); Some (set_slow l s)
  | LLaneDone true => l ← lane_Done (fastLane s); Some (set_fast l s)
  | LLaneDone false => l ← lane_Done (slowLane s); Some (set_slow l s)
  | LTop => consumer_top s
  | LBoth from_fast => consumer_both from_fast s
  | LReceive => loop_receive s
  | LFire x => loop_fire x s
  | LLoopExit => loop_exit s
  | LGet w x => worker_Get w x s
  | LExit w => worker_exit w s
  | LAct w a bucket => worker_act w a bucket s
  | LDone w => worker_Done w s
  end.

Fixpoint run (ls : list label) (s : state) : option state :=
  match ls with
  | [] => Some s
  | l :: ls => s ← step s l; run ls s
  end.

Definition reachable (threadiness : nat) (s : state) : Prop :=
  exists ls, run ls (init threadiness) = Some s.
End controller.

Arguments state T {_ _} : assert.
Arguments label T : clear implicits.
Arguments lane T {_ _} : assert.
Arguments worker T : clear implicits.
Arguments thread T : clear implicits.

Section invariant.
Context {T : Type} `{Countable T}.
Implicit Types (s : state T) (l : lane T) (x : T).

(** ** The invariant *)

(** The key a worker holds. *)
Definition holds (wk : worker T) : option T :=
  match wk with Working x | Acted x => Some x | _ => None end.

Record lane_ok (l : lane T) : Prop := {
  la_queue : queue_ok (lnQueue l);
  la_processing : processing (lnQueue l) = match lnThread l with Got x => {[x]} | _ => ∅ end;
  la_closed : lnThread l = Closed -> shuttingDown (lnQueue l) = true /\ queue (lnQueue l) = []
}.

Record state_ok (s : state T) : Prop := {
  so_fast : lane_ok (fastLane s);
  so_slow : lane_ok (slowLane s);
  so_consumer : queue_ok (consumerQueue s);
  so_processing : forall x, x ∈ processing (consumerQueue s) <->
    exists w wk, workers s !! w = Some wk /\ holds wk = Some x;
  so_unique : forall w w' wk wk' x, workers s !! w = Some wk -> workers s !! w' = Some wk' ->
    holds wk = Some x -> holds wk' = Some x -> w = w';
  so_fast_flag : fast s = false -> lnThread (fastLane s) = Closed;
  so_slow_flag : slow s = false -> lnThread (slowLane s) = Closed;
  so_exit : shuttingDown (consumerQueue s) = true -> fast s = false /\ slow s = false;
  so_exited : pc s = Exited -> fast s = false;
  so_shut_fast : shuttingDown (lnQueue (fastLane s)) = (0 <? shut s)%nat;
  so_shut_slow : shuttingDown (lnQueue (slowLane s)) = (1 <? shut s)%nat;
  so_loop : looping s = false -> (0 < shut s)%nat;
  so_gone : forall w, workers s !! w = Some Gone -> shuttingDown (consumerQueue s) = true;
  so_all_gone : workers s <> [] -> Forall (fun wk => wk = Gone) (workers s) ->
    dirty (consumerQueue s) = ∅
}.

(** *** Lanes *)

Lemma lane_Add_ok x l : lane_ok l -> lane_ok (MkLane (Add x (lnQueue l)) (lnThread l)).
Proof.
  intros [Hq Hp Hc]. destruct (Add_same x (lnQueue l)) as [Ep Es].
  split; cbn [lnQueue lnThread]; [by apply Add_ok|by rewrite Ep|].
  intros [Hs He]%Hc. rewrite Es. split; [done|]. unfold Add. by rewrite Hs.
Qed.

Lemma lane_Get_ok l l' : lane_ok l -> lane_Get l = Some l' ->
  lane_ok l' /\ shuttingDown (lnQueue l') = shuttingDown (lnQueue l) /\ lnThread l = Idle.
Proof.
  intros [Hq Hp Hc]. unfold lane_Get. destruct (lnThread l) eqn:Et; try done.
  destruct (Get (lnQueue l)) as [| |y q'] eqn:Eg; try done; intros [= <-].
  - assert (shuttingDown (lnQueue l) = true /\ queue (lnQueue l) = []) as Hc'.
    { unfold Get in Eg. destruct (queue (lnQueue l)); [|done]. by destruct (shuttingDown _). }
    split; [|done]. split; cbn [lnQueue lnThread]; [done..|]. by intros _.
  - destruct (Get_item _ _ _ Hq Eg) as (_&_&_&_&Ep&Es).
    split; [|done]. split; cbn [lnQueue lnThread]; [by eapply Get_ok| |done].
    rewrite Ep, Hp. set_solver.
Qed.

Lemma lane_Done_ok l l' : lane_ok l -> lane_Done l = Some l' ->
  lane_ok l' /\ shuttingDown (lnQueue l') = shuttingDown (lnQueue l) /\
  exists x, lnThread l = Got x /\ l' = MkLane (Done x (lnQueue l)) (Sending x).
Proof.
  intros [Hq Hp Hc]. unfold lane_Done. destruct (lnThread l) as [|y|y|] eqn:Et; try done.
  intros [= <-]. split; [|split; [done|by exists y]].
  split; cbn [lnQueue lnThread]; [|cbn; rewrite Hp; set_solver|done].
  apply Done_ok; [done|]. rewrite Hp. set_solver.
Qed.

Lemma received_ok x l : lane_ok l -> lnThread l = Sending x -> lane_ok (received l).
Proof.
  intros [Hq Hp Hc] Et. rewrite Et in Hp. by split.
Qed.

Lemma lane_down_ok l : lane_ok l -> lane_ok (MkLane (ShutDown (lnQueue l)) (lnThread l)).
Proof.
  intros [Hq Hp Hc]. split; cbn [lnQueue lnThread]; [by apply ShutDown_ok|done|].
  intros [_ He]%Hc. done.
Qed.

(** *** States *)

Lemma set_fast_ok l s :
  state_ok s -> lane_ok l -> shuttingDown (lnQueue l) = shuttingDown (lnQueue (fastLane s)) ->
  (lnThread (fastLane s) = Closed -> lnThread l = Closed) -> state_ok (set_fast l s).
Proof. intros [] Hl Es Hc. split; cbn; auto. by rewrite Es. Qed.

Lemma set_slow_ok l s :
  state_ok s -> lane_ok l -> shuttingDown (lnQueue l) = shuttingDown (lnQueue (slowLane s)) ->
  (lnThread (slowLane s) = Closed -> lnThread l = Closed) -> state_ok (set_slow l s).
Proof. intros [] Hl Es Hc. split; cbn; auto. by rewrite Es. Qed.

Lemma tlq_Add_ok x s : state_ok s -> state_ok (tlq_Add x s).
Proof.
  intros Hs. apply set_fast_ok; [done|apply lane_Add_ok, Hs| |done]. cbn. by rewrite (proj2 (Add_same _ _)).
Qed.

Lemma AddSlow_ok x s : state_ok s -> state_ok (AddSlow x s).
Proof.
  intros Hs. apply set_slow_ok; [done|apply lane_Add_ok, Hs| |done]. cbn. by rewrite (proj2 (Add_same _ _)).
Qed.

Lemma set_waiting_ok ch m b s :
  state_ok s -> (b = false -> (0 < shut s)%nat) -> state_ok (set_waiting ch m b s).
Proof. intros [] Hb. split; cbn; auto. Qed.

Lemma set_failures_ok m s : state_ok s -> state_ok (set_failures m s).
Proof. intros []. split; cbn; auto. Qed.

Lemma addAfter_ok x d s : state_ok s -> state_ok (addAfter x d s).
Proof.
  intros Hs. unfold addAfter. destruct (ShuttingDown s); [done|].
  destruct (d <=? 0)%Z; [by apply tlq_Add_ok|]. apply set_waiting_ok; [done|apply Hs].
Qed.

Lemma act_ok x a b s : state_ok s -> state_ok (act x a b s).
Proof.
  intros Hs. destruct a; cbn [act]; [by apply set_failures_ok|by apply addAfter_ok|].
  by apply addAfter_ok, set_failures_ok.
Qed.

Lemma ShuttingDown_shut s : state_ok s -> ShuttingDown s = (0 <? shut s)%nat.
Proof.
  intros Hs. unfold ShuttingDown. rewrite (so_shut_fast _ Hs), (so_shut_slow _ Hs).
  by destruct (shut s) as [|[|]].
Qed.

(** The consumer queue takes a key in. *)
Lemma set_consumer_ok x s :
  state_ok s -> state_ok (set_consumer (Add x (consumerQueue s)) Top s).
Proof.
  intros []. destruct (Add_same x (consumerQueue s)) as [Ep Es]. split; cbn; auto.
  - by apply Add_ok.
  - by rewrite Ep.
  - by rewrite Es.
  - done.
  - by rewrite Es.
  - intros Hne Hall. assert (shuttingDown (consumerQueue s) = true) as Hsd.
    { destruct (workers s) as [|wk wks] eqn:E; [done|]. inversion Hall; subst.
      apply (so_gone0 0%nat). by rewrite ?E. }
    unfold Add. rewrite Hsd. auto.
Qed.

Lemma set_flags_ok f sl p s :
  state_ok s -> (f = false -> lnThread (fastLane s) = Closed) ->
  (sl = false -> lnThread (slowLane s) = Closed) ->
  (fast s = false -> f = false) -> (slow s = false -> sl = false) -> p <> Exited ->
  state_ok (set_flags f sl p s).
Proof. intros [] ? ? ? ? ?. split; cbn; auto; naive_solver. Qed.

Lemma receive_fast_ok s s' : state_ok s -> receive_fast s = Some s' -> state_ok s'.
Proof.
  intros Hs. unfold receive_fast. destruct (lnThread (fastLane s)) eqn:Et; try done; intros [= <-].
  - apply (set_consumer_ok item (set_fast (received (fastLane s)) s)).
    apply set_fast_ok; [done|eapply received_ok; [apply Hs|done]|done|]. congruence.
  - apply set_flags_ok; try done. apply Hs.
Qed.

Lemma receive_slow_ok s s' : state_ok s -> receive_slow s = Some s' -> state_ok s'.
Proof.
  intros Hs. unfold receive_slow. destruct (lnThread (slowLane s)) eqn:Et; try done; intros [= <-].
  - apply (set_consumer_ok item (set_slow (received (slowLane s)) s)).
    apply set_slow_ok; [done|eapply received_ok; [apply Hs|done]|done|]. congruence.
  - apply set_flags_ok; try done. apply Hs.
Qed.

(** *** Workers *)

Lemma so_held s w wk x : state_ok s -> workers s !! w = Some wk -> holds wk = Some x ->
  x ∈ processing (consumerQueue s).
Proof. intros Hs Hw Hx. apply (so_processing _ Hs). eauto. Qed.

(** A worker changes: what it holds afterwards is what the queue processes. *)
Lemma set_worker_ok w wk wk' q s :
  state_ok s -> workers s !! w = Some wk -> queue_ok q ->
  shuttingDown q = shuttingDown (consumerQueue s) ->
  (forall x, x ∈ processing q <-> holds wk' = Some x \/ x ∈ processing (consumerQueue s) /\ holds wk <> Some x) ->
  (forall x, holds wk' = Some x -> x ∈ processing (consumerQueue s) -> holds wk = Some x) ->
  (wk' = Gone -> shuttingDown q = true /\ queue q = []) ->
  state_ok (set_worker w wk' q s).
Proof.
  intros Hs Hw Hq Hsd Hproc Hnew Hgone.
  assert (w < length (workers s))%nat as Hlt by by eapply lookup_lt_Some.
  assert (forall w' z, <[w := wk']> (workers s) !! w' = Some z ->
    w' = w /\ z = wk' \/ w' <> w /\ workers s !! w' = Some z) as Hin.
  { intros w' z. destruct (decide (w' = w)) as [->|Hne].
    - rewrite list_lookup_insert_eq by done. intros [= ->]. by left.
    - rewrite list_lookup_insert_ne by done. by right. }
  assert (forall x, x ∈ processing q <->
    exists w' z, <[w := wk']> (workers s) !! w' = Some z /\ holds z = Some x) as Hproc'.
  { intros x. rewrite Hproc. split.
    - intros [Hx|[Hx Hne]].
      + exists w, wk'. by rewrite list_lookup_insert_eq.
      + apply (so_processing _ Hs) in Hx as (w'&z&Hw'&Hz). exists w', z.
        rewrite list_lookup_insert_ne; [done|]. intros <-. congruence.
    - intros (w'&z&[[-> ->]|[Hne Hw']]%Hin&Hz); [by left|]. right.
      split; [by eapply so_held|]. intros Hx. destruct Hne.
      by apply (so_unique _ Hs _ _ _ _ x Hw' Hw). }
  split; cbn [set_worker fastLane slowLane consumerQueue workers fast slow shut looping];
    try apply Hs; try done.
  - intros w1 w2 z1 z2 x [[-> ->]|[Hn1 Hw1]]%Hin [[-> ->]|[Hn2 Hw2]]%Hin Hz1 Hz2; [done| | |].
    + destruct Hn2. assert (holds wk = Some x) by (eapply Hnew, so_held; done).
      by apply (so_unique _ Hs _ _ _ _ x Hw2 Hw).
    + destruct Hn1. assert (holds wk = Some x) by (eapply Hnew, so_held; done).
      by apply (so_unique _ Hs _ _ _ _ x Hw1 Hw).
    + by eapply (so_unique _ Hs).
  - rewrite Hsd. apply Hs.
  - intros w' [[-> Hg]|[_ Hg]]%Hin; [by apply Hgone|]. rewrite Hsd. by eapply so_gone.
  - intros _ Hall. rewrite Forall_lookup in Hall. apply set_eq. intros x. split; [|set_solver].
    intros Hx. exfalso.
    assert (x ∉ processing q) as Hnp.
    { intros (w'&z&Hw'&Hz)%Hproc'. apply Hall in Hw' as ->. done. }
    destruct Hgone as [_ He]; [apply (Hall w); by rewrite list_lookup_insert_eq|].
    assert (x ∈ queue q) as Hin' by by apply (qo_queue _ Hq). rewrite He in Hin'. set_solver.
Qed.

Lemma set_worker_same_ok w wk wk' s :
  state_ok s -> workers s !! w = Some wk -> holds wk' = holds wk ->
  (wk' = Gone -> Get (consumerQueue s) = Shutdown) -> state_ok (set_worker w wk' (consumerQueue s) s).
Proof.
  intros Hs Hw Hh Hg. eapply set_worker_ok; [done..|apply Hs|done| | |].
  - intros x. rewrite Hh. split; [|intros [?|[? _]]; [by eapply so_held|done]].
    intros Hx. destruct (decide (holds wk = Some x)); auto.
  - intros x. by rewrite Hh.
  - intros E%Hg. unfold Get in E. destruct (queue (consumerQueue s)); [|done].
    by destruct (shuttingDown (consumerQueue s)).
Qed.

(** ** Every step keeps the invariant *)

Lemma step_ok s (la : label T) s' : state_ok s -> step s la = Some s' -> state_ok s'.
Proof.
  intros Hs Hstep. destruct la as [x|x|x d|t| |f|f| |f| |x| |w x|w|w a b|w]; cbn [step] in Hstep.
  - injection Hstep as <-. by apply tlq_Add_ok.
  - injection Hstep as <-. by apply AddSlow_ok.
  - injection Hstep as <-. by apply addAfter_ok.
  - destruct (now s <=? t)%Z; [|done]. injection Hstep as <-. destruct Hs. by split.
  - unfold shut_step in Hstep. destruct (shut s) as [|[|[|]]] eqn:Es; try done; injection Hstep as <-;
      destruct Hs; split; cbn; auto using lane_down_ok; rewrite ?Es in *; auto with lia.
  - destruct f.
    + destruct (lane_Get (fastLane s)) as [l|] eqn:E; [|done]. injection Hstep as <-.
      destruct (lane_Get_ok _ _ (so_fast _ Hs) E) as (?&?&?). apply set_fast_ok; try done. congruence.
    + destruct (lane_Get (slowLane s)) as [l|] eqn:E; [|done]. injection Hstep as <-.
      destruct (lane_Get_ok _ _ (so_slow _ Hs) E) as (?&?&?). apply set_slow_ok; try done. congruence.
  - destruct f.
    + destruct (lane_Done (fastLane s)) as [l|] eqn:E; [|done]. injection Hstep as <-.
      destruct (lane_Done_ok _ _ (so_fast _ Hs) E) as (?&?&y&?&?). apply set_fast_ok; try done. congruence.
    + destruct (lane_Done (slowLane s)) as [l|] eqn:E; [|done]. injection Hstep as <-.
      destruct (lane_Done_ok _ _ (so_slow _ Hs) E) as (?&?&y&?&?). apply set_slow_ok; try done. congruence.
  - unfold consumer_top in Hstep. destruct (pc s); try done.
    destruct (fast s || slow s) eqn:Ef; cbn [negb] in Hstep.
    + assert (forall b, b = fast s -> state_ok (set_flags b (slow s) Both s)) as Hboth
        by (intros b ->; apply set_flags_ok; try done; apply Hs).
      destruct (fast s) eqn:Ef'; [destruct (receive_fast s) eqn:Er|]; injection Hstep as <-;
        [by eapply receive_fast_ok|by apply Hboth..].
    + injection Hstep as <-. apply orb_false_iff in Ef as [Ef Esl]. destruct Hs.
      split; cbn; auto using ShutDown_ok.
  - unfold consumer_both in Hstep. destruct (pc s); try done.
    destruct f; [by eapply receive_fast_ok|by eapply receive_slow_ok].
  - unfold loop_receive in Hstep. destruct (looping s) eqn:El; [|done].
    destruct (waitingForAddCh s) as [|[x r] ch]; [done|]. injection Hstep as <-.
    destruct (now s <? r)%Z; [|apply tlq_Add_ok]; by apply set_waiting_ok.
  - unfold loop_fire in Hstep. destruct (looping s) eqn:El; [|done].
    destruct (waitingForQueue s !! x); [|done]. destruct (_ && _); [|done]. injection Hstep as <-.
    by apply tlq_Add_ok, set_waiting_ok.
  - unfold loop_exit in Hstep. rewrite (ShuttingDown_shut s Hs) in Hstep.
    destruct (looping s); [|done]. destruct (Nat.ltb_spec 0 (shut s)); [|done].
    injection Hstep as <-. by apply set_waiting_ok.
  - unfold worker_Get in Hstep. destruct (workers s !! w) as [[| | |]|] eqn:Ew; try done.
    destruct (Get (consumerQueue s)) as [| |y q] eqn:Eg; try done.
    destruct (decide (x = y)) as [<-|]; [|done]. injection Hstep as <-.
    destruct (Get_item _ _ _ (so_consumer _ Hs) Eg) as (Hd&Hnp&_&_&Hp&Hsd).
    eapply set_worker_ok; [done|exact Ew|eapply Get_ok; [apply (so_consumer _ Hs)|exact Eg]|done| | |done].
    + intros z. rewrite Hp. cbn. set_solver.
    + intros z [= <-] Hz. done.
  - unfold worker_exit in Hstep. destruct (workers s !! w) as [[| | |]|] eqn:Ew; try done.
    destruct (Get (consumerQueue s)) as [| |y q] eqn:Eg; try done. injection Hstep as <-.
    by eapply set_worker_same_ok.
  - unfold worker_act in Hstep. destruct (workers s !! w) as [[|x|x|]|] eqn:Ew; try done.
    injection Hstep as <-. apply act_ok. by eapply set_worker_same_ok.
  - unfold worker_Done in Hstep. destruct (workers s !! w) as [[|x|x|]|] eqn:Ew; try done.
    injection Hstep as <-. assert (x ∈ processing (consumerQueue s)) as Hx by by eapply so_held.
    eapply set_worker_ok; [done|exact Ew|by apply Done_ok, Hx; apply Hs|done| |done|done].
    intros z. cbn. set_solver.
Qed.

Lemma init_ok n : state_ok (@init T _ _ n).
Proof.
  assert (lane_ok (MkLane (@newQueue T _ _) Idle)) by by split; [apply newQueue_ok|..].
  assert (forall w wk, workers (@init T _ _ n) !! w = Some wk -> wk = Waiting) as Hw.
  { intros w wk [-> _]%lookup_replicate. done. }
  split; try done.
  - apply newQueue_ok.
  - intros x. split; [set_solver|]. intros (w&wk&->%Hw&?). done.
  - intros w w' wk wk' x ->%Hw. done.
  - intros w ?%Hw. done.
Qed.

Lemma run_app ls ls' s : run (ls ++ ls') s = run ls s ≫= run ls'.
Proof.
  revert s. induction ls as [|l ls IH]; intros s; [done|]. cbn [app run].
  destruct (step s l); [apply IH|done].
Qed.

Lemma run_ok ls s s' : state_ok s -> run ls s = Some s' -> state_ok s'.
Proof.
  revert s. induction ls as [|l ls IH]; intros s Hs Hr; cbn [run] in Hr; [by injection Hr as <-|].
  destruct (step s l) eqn:E; [|done]. eapply IH; [|exact Hr]. by eapply step_ok.
Qed.

Lemma reachable_ok n s : reachable n s -> state_ok s.
Proof. intros [ls Hr]. eapply run_ok; [apply init_ok|exact Hr]. Qed.
End invariant.

Section theorems.
Context {T : Type} `{Countable T}.
Implicit Types (s : state T) (l : lane T) (x : T) (la : label T).

(** ** No key is lost *)

(** A key on its way through a lane, or in the consumer queue. *)
Definition in_lane x l : Prop :=
  x ∈ dirty (lnQueue l) \/ lnThread l = Got x \/ lnThread l = Sending x.
Definition in_lanes x s : Prop :=
  in_lane x (fastLane s) \/ in_lane x (slowLane s) \/ x ∈ dirty (consumerQueue s).

(** A key waiting for its time. *)
Definition delayed x s : Prop :=
  x ∈ map fst (waitingForAddCh s) \/ is_Some (waitingForQueue s !! x).

(** A key some worker is going to take. *)
Definition scheduled x s : Prop := in_lanes x s \/ shut s = 0%nat /\ delayed x s.

(** The worker takes the key. *)
Definition takes x la : Prop := exists w, la = LGet w x.

Lemma in_lane_Add x y l : in_lane x l -> in_lane x (MkLane (Add y (lnQueue l)) (lnThread l)).
Proof. intros [Hx|Hx]; [left; by apply Add_mono|by right]. Qed.

Lemma in_lane_added x l :
  shuttingDown (lnQueue l) = false -> in_lane x (MkLane (Add x (lnQueue l)) (lnThread l)).
Proof. intros Hs. left. cbn. rewrite Add_dirty by done. set_solver. Qed.

Lemma in_lane_Get x l l' : lane_ok l -> lane_Get l = Some l' -> in_lane x l -> in_lane x l'.
Proof.
  intros Hl. unfold lane_Get. destruct (lnThread l) eqn:Et; try done.
  destruct (Get (lnQueue l)) as [| |y q'] eqn:Eg; try done; intros [= <-] Hx; unfold in_lane in *;
    rewrite Et in Hx; cbn [lnQueue lnThread]; [naive_solver|].
  destruct (Get_item _ _ _ (la_queue _ Hl) Eg) as (_&_&_&Hd&_&_). rewrite Hd.
  destruct Hx as [Hx|[?|?]]; [|done..]. destruct (decide (x = y)) as [->|]; [by right; left|].
  left. set_solver.
Qed.

Lemma in_lane_Done x l l' : lane_Done l = Some l' -> in_lane x l -> in_lane x l'.
Proof.
  unfold lane_Done. destruct (lnThread l) eqn:Et; try done. intros [= <-]. unfold in_lane.
  rewrite Et. cbn. intros [?|[[= ->]|?]]; auto. done.
Qed.

Lemma in_lanes_fast x l s :
  (in_lane x (fastLane s) -> in_lane x l) -> in_lanes x s -> in_lanes x (set_fast l s).
Proof. unfold in_lanes. cbn. naive_solver. Qed.
Lemma in_lanes_slow x l s :
  (in_lane x (slowLane s) -> in_lane x l) -> in_lanes x s -> in_lanes x (set_slow l s).
Proof. unfold in_lanes. cbn. naive_solver. Qed.

Lemma in_lanes_tlq_Add x y s : in_lanes x s -> in_lanes x (tlq_Add y s).
Proof. apply in_lanes_fast, in_lane_Add. Qed.

Lemma in_lanes_addAfter x y d s : in_lanes x s -> in_lanes x (addAfter y d s).
Proof.
  intros Hx. unfold addAfter. destruct (ShuttingDown s); [done|].
  destruct (d <=? 0)%Z; [by apply in_lanes_tlq_Add|done].
Qed.

(** A key that is received goes on in the consumer queue, which runs as long as a
    channel is open. *)
Lemma in_lanes_receive_fast x s s' :
  state_ok s -> receive_fast s = Some s' -> in_lanes x s -> in_lanes x s'.
Proof.
  intros Hs. unfold receive_fast. destruct (lnThread (fastLane s)) as [|y|y|] eqn:Et; try done;
    intros [= <-] Hx; [|done]. unfold in_lanes in *. cbn.
  assert (shuttingDown (consumerQueue s) = false) as Hsd.
  { destruct (shuttingDown (consumerQueue s)) eqn:E; [|done].
    apply (so_exit _ Hs) in E as [E _]. apply (so_fast_flag _ Hs) in E. congruence. }
  rewrite Add_dirty by done. unfold in_lane in *. rewrite Et in Hx. cbn. set_solver.
Qed.

Lemma in_lanes_receive_slow x s s' :
  state_ok s -> receive_slow s = Some s' -> in_lanes x s -> in_lanes x s'.
Proof.
  intros Hs. unfold receive_slow. destruct (lnThread (slowLane s)) as [|y|y|] eqn:Et; try done;
    intros [= <-] Hx; [|done]. unfold in_lanes in *. cbn.
  assert (shuttingDown (consumerQueue s) = false) as Hsd.
  { destruct (shuttingDown (consumerQueue s)) eqn:E; [|done].
    apply (so_exit _ Hs) in E as [_ E]. apply (so_slow_flag _ Hs) in E. congruence. }
  rewrite Add_dirty by done. unfold in_lane in *. rewrite Et in Hx. cbn. set_solver.
Qed.

Lemma in_lanes_step x s la s' :
  state_ok s -> step s la = Some s' -> in_lanes x s -> in_lanes x s' \/ takes x la.
Proof.
  intros Hs Hstep Hx.
  destruct la as [y|y|y d|t| |f|f| |f| |y| |w y|w|w a b|w]; cbn [step] in Hstep;
    try (injection Hstep as <-; left).
  - by apply in_lanes_tlq_Add.
  - by apply in_lanes_slow, Hx; apply in_lane_Add.
  - by apply in_lanes_addAfter.
  - destruct (now s <=? t)%Z; [|done]. injection Hstep as <-. by left.
  - left. unfold shut_step in Hstep. destruct (shut s) as [|[|[|]]]; try done; by injection Hstep as <-.
  - left. destruct f; [destruct (lane_Get (fastLane s)) eqn:E|destruct (lane_Get (slowLane s)) eqn:E];
      try done; injection Hstep as <-; [apply in_lanes_fast|apply in_lanes_slow]; try done;
      (eapply in_lane_Get; [apply Hs|done]).
  - left. destruct f; [destruct (lane_Done (fastLane s)) eqn:E|destruct (lane_Done (slowLane s)) eqn:E];
      try done; injection Hstep as <-; [apply in_lanes_fast|apply in_lanes_slow]; try done;
      by apply in_lane_Done.
  - left. unfold consumer_top in Hstep. destruct (pc s); try done.
    destruct (negb _); [by injection Hstep as <-|]. destruct (fast s); [|by injection Hstep as <-].
    destruct (receive_fast s) eqn:E; injection Hstep as <-; [by eapply in_lanes_receive_fast|done].
  - left. unfold consumer_both in Hstep. destruct (pc s); try done.
    destruct f; [by eapply in_lanes_receive_fast|by eapply in_lanes_receive_slow].
  - left. unfold loop_receive in Hstep. destruct (looping s), (waitingForAddCh s) as [|[y r] ch]; try done.
    injection Hstep as <-. destruct (now s <? r)%Z; [done|by apply in_lanes_tlq_Add].
  - left. unfold loop_fire in Hstep. destruct (looping s), (waitingForQueue s !! y); try done.
    destruct (_ && _); [|done]. injection Hstep as <-. by apply in_lanes_tlq_Add.
  - left. unfold loop_exit in Hstep. destruct (looping s && ShuttingDown s); [|done].
    by injection Hstep as <-.
  - unfold worker_Get in Hstep. destruct (workers s !! w) as [[| | |]|]; try done.
    destruct (Get (consumerQueue s)) as [| |z q] eqn:Eg; try done.
    destruct (decide (y = z)) as [<-|]; [|done]. injection Hstep as <-.
    destruct (Get_item _ _ _ (so_consumer _ Hs) Eg) as (_&_&_&Hd&_&_).
    destruct (decide (x = y)) as [->|]; [right; by exists w|]. left.
    unfold in_lanes in *. cbn. rewrite Hd. set_solver.
  - left. unfold worker_exit in Hstep. destruct (workers s !! w) as [[| | |]|]; try done.
    destruct (Get (consumerQueue s)); try done. by injection Hstep as <-.
  - left. unfold worker_act in Hstep. destruct (workers s !! w) as [[|y|y|]|]; try done.
    injection Hstep as <-. destruct a; cbn [act]; [done|by apply in_lanes_addAfter..].
  - left. unfold worker_Done in Hstep. destruct (workers s !! w) as [[|y|y|]|]; try done.
    by injection Hstep as <-.
Qed.

(** A key that was delayed, while the queue is not shut down. *)
Lemma delayed_addAfter x y d s : delayed x s -> delayed x (addAfter y d s).
Proof.
  intros Hx. unfold addAfter. destruct (ShuttingDown s); [done|]. destruct (d <=? 0)%Z; [done|].
  unfold delayed in *. cbn. rewrite map_app. set_solver.
Qed.

Lemma addAfter_schedules x d s : state_ok s -> shut s = 0%nat -> scheduled x (addAfter x d s).
Proof.
  intros Hs H0. unfold addAfter. rewrite (ShuttingDown_shut s Hs), H0. cbn.
  destruct (d <=? 0)%Z.
  - left. left. apply in_lane_added. by rewrite (so_shut_fast _ Hs), H0.
  - right. split; [done|]. left. cbn. rewrite map_app. set_solver.
Qed.

Lemma insert_some x y r m : is_Some (m !! x) \/ x = y -> is_Some (insert y r m !! x).
Proof.
  unfold insert. intros Hx.
  destruct (m !! y) as [e|] eqn:E; [destruct (r <? e)%Z|];
    (destruct (decide (x = y)) as [->|Hne]; [rewrite ?lookup_insert_eq; eauto|]);
    rewrite ?lookup_insert_ne by done; naive_solver.
Qed.

Lemma scheduled_step x s la s' :
  state_ok s -> step s la = Some s' -> la <> LShut ->
  scheduled x s -> scheduled x s' \/ takes x la.
Proof.
  intros Hs Hstep Hla [Hx|[H0 Hx]].
  { destruct (in_lanes_step x s la s' Hs Hstep Hx) as [?|?]; [by left; left|by right]. }
  assert (shut s = 0%nat -> forall y, scheduled y (tlq_Add y s)) as Hadd.
  { intros _ y. left. left. apply in_lane_added. by rewrite (so_shut_fast _ Hs), H0. }
  left. destruct la as [y|y|y d|t| |f|f| |f| |y| |w y|w|w a b|w]; cbn [step] in Hstep;
    try (injection Hstep as <-).
  - by right.
  - by right.
  - destruct (decide (x = y)) as [->|]; [by apply addAfter_schedules|].
    unfold addAfter. rewrite (ShuttingDown_shut s Hs), H0. cbn. destruct (d <=? 0)%Z; [by right|].
    right. split; [done|]. unfold delayed in *. cbn. rewrite map_app. set_solver.
  - destruct (now s <=? t)%Z; [|done]. injection Hstep as <-. by right.
  - done.
  - right. destruct f; [destruct (lane_Get (fastLane s))|destruct (lane_Get (slowLane s))];
      try done; by injection Hstep as <-.
  - right. destruct f; [destruct (lane_Done (fastLane s))|destruct (lane_Done (slowLane s))];
      try done; by injection Hstep as <-.
  - right. unfold consumer_top, receive_fast in Hstep. destruct (pc s); try done.
    destruct (negb _); [by injection Hstep as <-|]. destruct (fast s); [|by injection Hstep as <-].
    destruct (lnThread (fastLane s)); by injection Hstep as <-.
  - right. unfold consumer_both, receive_fast, receive_slow in Hstep. destruct (pc s); try done.
    destruct f; [destruct (lnThread (fastLane s))|destruct (lnThread (slowLane s))]; try done;
      by injection Hstep as <-.
  - unfold loop_receive in Hstep. destruct (looping s); [|done].
    destruct (waitingForAddCh s) as [|[y r] ch] eqn:Ech; [done|]. injection Hstep as <-.
    unfold delayed in Hx. rewrite Ech in Hx. cbn in Hx.
    destruct (now s <? r)%Z.
    + right. split; [done|]. unfold delayed. cbn.
      destruct Hx as [[->|?]%elem_of_cons|?]; [right; apply insert_some; auto|by left|].
      right. apply insert_some. auto.
    + destruct (decide (x = y)) as [->|].
      * left. left. apply in_lane_added. cbn. by rewrite (so_shut_fast _ Hs), H0.
      * right. split; [done|]. unfold delayed. cbn. set_solver.
  - unfold loop_fire in Hstep. destruct (looping s); [|done].
    destruct (waitingForQueue s !! y) as [r|] eqn:Ey; [|done]. destruct (_ && _); [|done].
    injection Hstep as <-. destruct (decide (x = y)) as [->|].
    + left. left. apply in_lane_added. cbn. by rewrite (so_shut_fast _ Hs), H0.
    + right. split; [done|]. unfold delayed in *. cbn. by rewrite lookup_delete_ne.
  - unfold loop_exit in Hstep. rewrite (ShuttingDown_shut s Hs), H0, andb_false_r in Hstep. done.
  - right. unfold worker_Get in Hstep. destruct (workers s !! w) as [[| | |]|]; try done.
    destruct (Get (consumerQueue s)); try done. destruct (decide _); [|done]. by injection Hstep as <-.
  - right. unfold worker_exit in Hstep. destruct (workers s !! w) as [[| | |]|]; try done.
    destruct (Get (consumerQueue s)); try done. by injection Hstep as <-.
  - right. unfold worker_act in Hstep. destruct (workers s !! w) as [[|y|y|]|]; try done.
    injection Hstep as <-. set (s1 := set_worker w (Acted y) (consumerQueue s) s).
    assert (forall m d, shut (addAfter y d (set_failures m s1)) = 0%nat) as Hsh.
    { intros m d. unfold addAfter. destruct (ShuttingDown _); [done|]. by destruct (d <=? 0)%Z. }
    assert (forall d, shut (addAfter y d s1) = 0%nat) as Hsh'.
    { intros d. unfold addAfter. destruct (ShuttingDown _); [done|]. by destruct (d <=? 0)%Z. }
    destruct a; cbn [act]; [done| |]; (split; [first [apply Hsh' | apply Hsh]|by apply delayed_addAfter]).
  - right. unfold worker_Done in Hstep. destruct (workers s !! w) as [[|y|y|]|]; try done.
    by injection Hstep as <-.
Qed.

Lemma kept_run (P : state T -> Prop) (ok : label T -> Prop) x ls s s' :
  (forall s la s', state_ok s -> step s la = Some s' -> ok la -> P s -> P s' \/ takes x la) ->
  state_ok s -> run ls s = Some s' -> Forall ok ls -> P s ->
  (exists w, LGet w x ∈ ls) \/ P s'.
Proof.
  intros Hstep. revert s. induction ls as [|la ls IH]; intros s Hs Hr Hok Hx; cbn [run] in Hr.
  { injection Hr as <-. by right. }
  destruct (step s la) as [s1|] eqn:E; [|done]. inversion Hok; subst.
  destruct (Hstep s la s1) as [Hx1|[w ->]]; [done..| |left; exists w; by left].
  destruct (IH s1) as [[w ?]|?]; [by eapply step_ok|done..|left; exists w; by right|by right].
Qed.

Lemma shut_or_not (ls : list (label T)) : LShut ∈ ls \/ Forall (fun la => la <> LShut) ls.
Proof.
  induction ls as [|la ls [?|?]]; [by right|left; by right|].
  destruct la; first [right; by constructor | left; left].
Qed.

(** What puts a key back on its way: an event handler, or a worker after its run
    of the key. *)
Inductive adds (x : T) (s : state T) : label T -> Prop :=
| adds_enqueue : adds x s (LEnqueue x)
| adds_slow : adds x s (LEnqueueSlow x)
| adds_after d : adds x s (LEnqueueAfter x d)
| adds_retry w d b : workers s !! w = Some (Working x) -> adds x s (LAct w (AddAfter d) b)
| adds_limited w b : workers s !! w = Some (Working x) -> adds x s (LAct w AddRateLimited b).

Lemma adds_schedules x s la s' :
  state_ok s -> shut s = 0%nat -> adds x s la -> step s la = Some s' -> scheduled x s'.
Proof.
  intros Hs H0 Ha Hstep.
  destruct Ha as [| |d|w d b Hw|w b Hw]; cbn [step] in Hstep; unfold worker_act in *;
    rewrite ?Hw in Hstep; injection Hstep as <-; cbn [act].
  - left. left. apply in_lane_added. by rewrite (so_shut_fast _ Hs), H0.
  - left. right. left. apply in_lane_added. by rewrite (so_shut_slow _ Hs), H0.
  - by apply addAfter_schedules.
  - apply addAfter_schedules; [by eapply set_worker_same_ok|done].
  - apply addAfter_schedules; [by apply set_failures_ok; eapply set_worker_same_ok|done].
Qed.

Lemma in_lanes_kept ls s s' x :
  state_ok s -> run ls s = Some s' -> in_lanes x s -> (exists w, LGet w x ∈ ls) \/ in_lanes x s'.
Proof.
  intros Hs Hr. apply (kept_run (in_lanes x) (fun _ => True)); [|done..|by apply Forall_true].
  intros s1 la s2 Hs1 Hstep _. by apply in_lanes_step.
Qed.

Lemma scheduled_kept ls s s' x :
  state_ok s -> run ls s = Some s' -> scheduled x s ->
  (exists w, LGet w x ∈ ls) \/ scheduled x s' \/ LShut ∈ ls.
Proof.
  intros Hs Hr Hx. destruct (shut_or_not ls) as [?|Hsh]; [by right; right|].
  destruct (kept_run (scheduled x) (fun la => la <> LShut) x ls s s'); auto.
  intros s1 la s2. apply scheduled_step.
Qed.

Lemma enqueued_in_lanes s la s' x :
  state_ok s -> shut s = 0%nat -> la = LEnqueue x \/ la = LEnqueueSlow x -> step s la = Some s' ->
  in_lanes x s'.
Proof.
  intros Hs H0 Hla Hstep.
  destruct Hla as [-> | ->]; injection Hstep as <-; [left|right; left]; apply in_lane_added.
  - by rewrite (so_shut_fast _ Hs), H0.
  - by rewrite (so_shut_slow _ Hs), H0.
Qed.

(** Only [ShutDown] shuts the queue down. *)
Lemma addAfter_shut x d s : shut (addAfter x d s) = shut s.
Proof. unfold addAfter. destruct (ShuttingDown s); [done|]. by destruct (d <=? 0)%Z. Qed.

Lemma unshut_step s la s' : step s la = Some s' -> la <> LShut -> shut s' = shut s.
Proof.
  intros Hstep Hla. destruct la as [x|x|x d|t| |f|f| |f| |x| |w x|w|w a b|w]; cbn [step] in Hstep.
  - by injection Hstep as <-.
  - by injection Hstep as <-.
  - injection Hstep as <-. apply addAfter_shut.
  - destruct (now s <=? t)%Z; [|done]. by injection Hstep as <-.
  - done.
  - destruct f; [destruct (lane_Get (fastLane s))|destruct (lane_Get (slowLane s))]; try done;
      by injection Hstep as <-.
  - destruct f; [destruct (lane_Done (fastLane s))|destruct (lane_Done (slowLane s))]; try done;
      by injection Hstep as <-.
  - unfold consumer_top, receive_fast in Hstep. destruct (pc s); try done.
    destruct (negb _); [by injection Hstep as <-|]. destruct (fast s); [|by injection Hstep as <-].
    destruct (lnThread (fastLane s)); by injection Hstep as <-.
  - unfold consumer_both, receive_fast, receive_slow in Hstep. destruct (pc s); try done.
    destruct f; [destruct (lnThread (fastLane s))|destruct (lnThread (slowLane s))]; try done;
      by injection Hstep as <-.
  - unfold loop_receive in Hstep. destruct (looping s); [|done].
    destruct (waitingForAddCh s) as [|[y r] ch]; [done|]. injection Hstep as <-. by destruct (now s <? r)%Z.
  - unfold loop_fire in Hstep. destruct (looping s); [|done].
    destruct (waitingForQueue s !! x); [|done]. destruct (_ && _); [|done]. by injection Hstep as <-.
  - unfold loop_exit in Hstep. destruct (_ && _); [|done]. by injection Hstep as <-.
  - unfold worker_Get in Hstep. destruct (workers s !! w) as [[| | |]|]; try done.
    destruct (Get (consumerQueue s)); try done. destruct (decide _); [|done]. by injection Hstep as <-.
  - unfold worker_exit in Hstep. destruct (workers s !! w) as [[| | |]|]; try done.
    destruct (Get (consumerQueue s)); try done. by injection Hstep as <-.
  - unfold worker_act in Hstep. destruct (workers s !! w) as [[|y|y|]|]; try done.
    injection Hstep as <-. destruct a; cbn [act]; unfold addRateLimited; by rewrite ?addAfter_shut.
  - unfold worker_Done in Hstep. destruct (workers s !! w) as [[|y|y|]|]; try done.
    by injection Hstep as <-.
Qed.

Lemma unshut_run ls s s' :
  run ls s = Some s' -> Forall (fun la => la <> LShut) ls -> shut s = 0%nat -> shut s' = 0%nat.
Proof.
  revert s. induction ls as [|la ls IH]; intros s Hr Hall H0; cbn [run] in Hr; [by injection Hr as <-|].
  destruct (step s la) as [s1|] eqn:E; [|done]. inversion Hall; subst.
  apply (IH s1); [done..|]. by rewrite (unshut_step s la s1).
Qed.

Lemma failures_addRateLimited x b s :
  failures (addRateLimited x b s) = <[x := S (default 0%nat (failures s !! x))]> (failures s).
Proof.
  unfold addRateLimited, addAfter. destruct (ShuttingDown _); [done|]. by destruct (_ <=? 0)%Z.
Qed.

(** C17. No key is lost: whenever a key is added to either lane, added with a
    delay, or put back by a worker after a failed run, the key is, after any
    further steps of the goroutines in any order, either taken by a worker in one
    of them or still on its way, unless the queue is shut down; and a key added
    to a lane before the shutdown gets to a worker in spite of it. *)
Theorem no_key_is_lost n s la s1 ls s2 x :
  reachable n s -> shut s = 0%nat -> adds x s la -> step s la = Some s1 -> run ls s1 = Some s2 ->
  ((exists w, LGet w x ∈ ls) \/ scheduled x s2 \/ LShut ∈ ls) /\
  (la = LEnqueue x \/ la = LEnqueueSlow x -> (exists w, LGet w x ∈ ls) \/ in_lanes x s2).
Proof.
  intros Hreach H0 Ha Hstep Hr. assert (state_ok s) as Hs by by eapply reachable_ok.
  assert (state_ok s1) as Hs1 by by eapply step_ok. split.
  - apply (scheduled_kept ls s1); [done..|]. by apply (adds_schedules x s la).
  - intros Hla. apply (in_lanes_kept ls s1); [done..|]. by apply (enqueued_in_lanes s la).
Qed.

(** Once all the workers have returned, no key is on its way. *)
Lemma gone_clears_lanes s x :
  state_ok s -> workers s <> [] -> Forall (fun wk => wk = Gone) (workers s) -> ~ in_lanes x s.
Proof.
  intros Hs Hne Hall Hx.
  assert (shuttingDown (consumerQueue s) = true) as Hsd.
  { destruct (workers s) as [|wk wks] eqn:E; [done|]. inversion Hall; subst.
    apply (so_gone _ Hs 0%nat). by rewrite E. }
  apply (so_exit _ Hs) in Hsd as [Hf Hsl]. apply (so_fast_flag _ Hs) in Hf.
  apply (so_slow_flag _ Hs) in Hsl.
  assert (forall l, lane_ok l -> lnThread l = Closed -> ~ in_lane x l) as Hclosed.
  { intros l [Hq Hp Hc] Et [Hd|[?|?]]; [|congruence..]. destruct (Hc Et) as [_ He].
    rewrite Et in Hp. assert (x ∈ queue (lnQueue l)) as Hin by (apply (qo_queue _ Hq); set_solver).
    rewrite He in Hin. set_solver. }
  destruct Hx as [Hx|[Hx|Hx]].
  - by eapply Hclosed, Hx; [apply Hs|].
  - by eapply Hclosed, Hx; [apply Hs|].
  - rewrite (so_all_gone _ Hs Hne Hall) in Hx. set_solver.
Qed.

(** C18. No two workers ever hold the same key, from taking it to marking it done,
    whatever lanes it was added to, and each queue holds, once each, the keys
    that are to be processed and are not being processed.  When all the workers
    have returned, after a shutdown, no key is left on its way: every key added
    to a lane before it was taken. *)
Theorem workers_are_exclusive n s :
  reachable n s ->
  (forall w w' wk wk' x, workers s !! w = Some wk -> workers s !! w' = Some wk' ->
     holds wk = Some x -> holds wk' = Some x -> w = w') /\
  queue_ok (consumerQueue s) /\ queue_ok (lnQueue (fastLane s)) /\ queue_ok (lnQueue (slowLane s)) /\
  (forall x, x ∈ processing (consumerQueue s) <->
     exists w wk, workers s !! w = Some wk /\ holds wk = Some x) /\
  (workers s <> [] -> Forall (fun wk => wk = Gone) (workers s) -> forall x, ~ in_lanes x s).
Proof.
  intros Hs%reachable_ok. split_and!; try apply Hs.
  intros Hne Hall x. by apply gone_clears_lanes.
Qed.

(** ** Keys reach the workers *)

(** The steps that carry keys towards the consumer queue. *)
Definition forwarding la : bool :=
  match la with
  | LLaneGet _ | LLaneDone _ | LTop | LBoth _ | LReceive | LFire _ => true
  | _ => false
  end.

(** What there is left to carry. *)
Definition lane_load l : nat :=
  4 * size (dirty (lnQueue l))
  + match lnThread l with Got _ => 3 | Sending _ => 2 | _ => 0 end.
Definition load s : nat :=
  lane_load (fastLane s) + lane_load (slowLane s)
  + match pc s with Top => 1 | _ => 0 end
  + 5 * size (waitingForQueue s) + 6 * length (waitingForAddCh s).

Lemma Add_load x l :
  (lane_load (MkLane (Add x (lnQueue l)) (lnThread l)) <= lane_load l + 4)%nat.
Proof.
  unfold lane_load. cbn [lnQueue lnThread].
  assert (dirty (Add x (lnQueue l)) ⊆ {[x]} ∪ dirty (lnQueue l)) as Hsub%subseteq_size.
  { unfold Add. destruct (shuttingDown _); [set_solver|]. case_bool_decide; [set_solver|].
    cbn [processing]. case_bool_decide; done. }
  pose proof (size_union_alt {[x]} (dirty (lnQueue l))) as Hu.
  assert (size (dirty (lnQueue l) ∖ {[x]}) <= size (dirty (lnQueue l)))%nat
    by (apply subseteq_size; set_solver).
  rewrite size_singleton in Hu. lia.
Qed.

Lemma lane_Get_load l l' :
  lane_ok l -> shuttingDown (lnQueue l) = false -> lane_Get l = Some l' ->
  (lane_load l' < lane_load l)%nat.
Proof.
  intros Hl Hsd. unfold lane_Get. destruct (lnThread l) eqn:Et; try done.
  destruct (Get (lnQueue l)) as [| |x q'] eqn:Eg; try done.
  { unfold Get in Eg. destruct (queue _); [|done]. by rewrite Hsd in Eg. }
  intros [= <-]. destruct (Get_item _ _ _ (la_queue _ Hl) Eg) as (Hx&_&_&Hd&_&_).
  unfold lane_load. cbn [lnQueue lnThread]. rewrite Et, Hd, size_difference, size_singleton
    by set_solver.
  assert (size (dirty (lnQueue l)) <> 0)%nat by (intros E%size_empty_iff; set_solver). lia.
Qed.

Lemma lane_Done_load l l' : lane_Done l = Some l' -> (lane_load l' < lane_load l)%nat.
Proof.
  unfold lane_Done. destruct (lnThread l) eqn:Et; try done. intros [= <-].
  unfold lane_load. rewrite Et. cbn. lia.
Qed.

Lemma received_load x l :
  lnThread l = Sending x -> (lane_load (received l) + 2 = lane_load l)%nat.
Proof. intros Et. unfold lane_load. rewrite Et. cbn. lia. Qed.

(** While the queue runs, both channels are open. *)
Lemma running s : state_ok s -> shut s = 0%nat ->
  lnThread (fastLane s) <> Closed /\ lnThread (slowLane s) <> Closed /\
  fast s = true /\ slow s = true /\ pc s <> Exited /\
  shuttingDown (lnQueue (fastLane s)) = false /\ shuttingDown (lnQueue (slowLane s)) = false /\
  looping s = true.
Proof.
  intros Hs H0. pose proof (so_shut_fast _ Hs) as Hf. pose proof (so_shut_slow _ Hs) as Hl.
  rewrite H0 in Hf, Hl. cbn in Hf, Hl.
  assert (lnThread (fastLane s) <> Closed) as Hcf.
  { intros [E _]%(la_closed _ (so_fast _ Hs)). congruence. }
  assert (lnThread (slowLane s) <> Closed) as Hcl.
  { intros [E _]%(la_closed _ (so_slow _ Hs)). congruence. }
  assert (fast s = true) as Ef.
  { destruct (fast s) eqn:E; [done|]. by apply (so_fast_flag _ Hs) in E. }
  split_and!; try done.
  - destruct (slow s) eqn:E; [done|]. by apply (so_slow_flag _ Hs) in E.
  - intros E%(so_exited _ Hs). congruence.
  - destruct (looping s) eqn:E; [done|]. apply (so_loop _ Hs) in E. lia.
Qed.

Lemma insert_size x r m : (size (insert x r m) <= size m + 1)%nat.
Proof.
  unfold insert. destruct (m !! x) as [e|] eqn:E; [destruct (r <? e)%Z|].
  - rewrite map_size_insert_Some by eauto. lia.
  - lia.
  - rewrite map_size_insert_None by done. lia.
Qed.

Ltac load_simpl :=
  unfold load, tlq_Add; cbn [set_fast set_slow set_consumer set_flags set_waiting fastLane slowLane pc
    waitingForQueue waitingForAddCh lnQueue lnThread].

Lemma forwarding_step s la s' :
  state_ok s -> shut s = 0%nat -> forwarding la = true -> step s la = Some s' ->
  shut s' = 0%nat /\ (load s' < load s)%nat.
Proof.
  intros Hs H0 Hf Hstep. destruct (running s Hs H0) as (Hcf&Hcl&Ef&El&Hpc&Hsf&Hsl&_).
  destruct la as [| | | | |f|f| |f| |x| | | | |]; try done; cbn [step] in Hstep; clear Hf.
  - destruct f; [destruct (lane_Get (fastLane s)) eqn:E|destruct (lane_Get (slowLane s)) eqn:E];
      try done; injection Hstep as <-; (split; [done|]); load_simpl;
      apply lane_Get_load in E; try done; try apply Hs; lia.
  - destruct f; [destruct (lane_Done (fastLane s)) eqn:E|destruct (lane_Done (slowLane s)) eqn:E];
      try done; injection Hstep as <-; (split; [done|]); load_simpl;
      apply lane_Done_load in E; lia.
  - unfold consumer_top, receive_fast in Hstep. destruct (pc s) eqn:Epc; try done.
    rewrite Ef in Hstep. cbn in Hstep.
    destruct (lnThread (fastLane s)) as [|y|y|] eqn:Et; try done; injection Hstep as <-;
      (split; [done|]); load_simpl; rewrite ?Epc; try lia.
    apply received_load in Et. lia.
  - unfold consumer_both, receive_fast, receive_slow in Hstep. destruct (pc s) eqn:Epc; try done.
    destruct f; [destruct (lnThread (fastLane s)) as [|y|y|] eqn:Et
                |destruct (lnThread (slowLane s)) as [|y|y|] eqn:Et]; try done;
      injection Hstep as <-; (split; [done|]); load_simpl; rewrite ?Epc;
      apply received_load in Et; lia.
  - unfold loop_receive in Hstep. destruct (looping s); [|done].
    destruct (waitingForAddCh s) as [|[y r] ch] eqn:Ech; [done|]. injection Hstep as <-.
    destruct (now s <? r)%Z; (split; [done|]); load_simpl; rewrite Ech; cbn [length].
    + pose proof (insert_size y r (waitingForQueue s)). lia.
    + pose proof (Add_load y (fastLane s)). lia.
  - unfold loop_fire in Hstep. destruct (looping s); [|done].
    destruct (waitingForQueue s !! x) as [r|] eqn:Ex; [|done]. destruct (_ && _); [|done].
    injection Hstep as <-. split; [done|]. load_simpl.
    pose proof (Add_load x (fastLane s)). rewrite map_size_delete_Some by eauto.
    assert (size (waitingForQueue s) <> 0)%nat
      by (intros E%map_size_empty_inv; rewrite E, lookup_empty in Ex; done).
    lia.
Qed.

(** A least time of the waiting keys. *)
Lemma least_entry (m : gmap T Z) x r :
  m !! x = Some r -> exists y r', m !! y = Some r' /\ (r' <= r)%Z /\ map_Forall (fun _ e => r' <= e)%Z m.
Proof.
  revert x r. induction m as [|y e m Hy IH] using map_ind; intros x r; [by rewrite lookup_empty|].
  assert (exists z e', <[y := e]> m !! z = Some e' /\ map_Forall (fun _ e => e' <= e)%Z (<[y := e]> m))
    as (z&e'&Hz&Hall).
  { destruct (decide (m = ∅)) as [->|Hne].
    - exists y, e. rewrite lookup_insert_eq. split; [done|]. apply map_Forall_insert_2; [lia|].
      apply map_Forall_empty.
    - apply map_choose in Hne as (z&r0&Hz). destruct (IH z r0 Hz) as (z'&e'&Hz'&_&Hall).
      destruct (decide (e <= e')%Z).
      + exists y, e. rewrite lookup_insert_eq. split; [done|]. apply map_Forall_insert_2; [lia|].
        eapply map_Forall_impl; [exact Hall|]. cbn. lia.
      + exists z', e'. rewrite lookup_insert_ne by (intros ->; congruence). split; [done|].
        apply map_Forall_insert_2; [lia|done]. }
  intros Hx. exists z, e'. split; [done|]. split; [|done]. by apply (Hall x).
Qed.

(** Nothing more to carry. *)
Lemma forwarding_stuck s :
  state_ok s -> shut s = 0%nat -> (forall la, forwarding la = true -> step s la = None) ->
  waitingForAddCh s = [] /\ map_Forall (fun _ r => now s < r)%Z (waitingForQueue s) /\
  (forall x, in_lanes x s -> x ∈ queue (consumerQueue s) \/
     exists w wk, workers s !! w = Some wk /\ holds wk = Some x).
Proof.
  intros Hs H0 Hstuck. destruct (running s Hs H0) as (Hcf&Hcl&Ef&El&Hpc&Hsf&Hsl&Eloop).
  pose proof (Hstuck LReceive eq_refl) as Hrec. cbn [step] in Hrec. unfold loop_receive in Hrec.
  rewrite Eloop in Hrec. split; [by destruct (waitingForAddCh s) as [|[]]|]. split.
  { intros x r Hx. destruct (Z.lt_ge_cases (now s) r) as [|Hle]; [done|exfalso].
    destruct (least_entry _ x r Hx) as (y&r'&Hy&Hr&Hall).
    specialize (Hstuck (LFire y) eq_refl). cbn [step] in Hstuck. unfold loop_fire in Hstuck.
    rewrite Eloop, Hy, (proj2 (Z.leb_le r' (now s))), bool_decide_true in Hstuck by (done || lia).
    done. }
  assert (pc s = Both) as Epc.
  { specialize (Hstuck LTop eq_refl). cbn [step] in Hstuck. unfold consumer_top in Hstuck.
    destruct (pc s); [|done..]. rewrite Ef in Hstuck. cbn in Hstuck. by destruct (receive_fast s). }
  assert (forall l (b : bool), lane_ok l -> shuttingDown (lnQueue l) = false -> lnThread l <> Closed ->
    (forall x, lnThread l = Sending x -> False) -> lane_Get l = None -> lane_Done l = None ->
    forall x, ~ in_lane x l) as Hlane.
  { intros l b [Hq Hp _] Hsd Hc Hsend Hget Hdone x Hx. unfold lane_Get, lane_Done in *.
    destruct (lnThread l) eqn:Et; try done; [|by eapply Hsend].
    unfold in_lane in Hx. rewrite Et in Hx. destruct Hx as [Hx|[?|?]]; [|done..].
    assert (x ∈ queue (lnQueue l)) as Hin by (apply (qo_queue _ Hq); rewrite Hp; set_solver).
    unfold Get in Hget. destruct (queue (lnQueue l)); [set_solver|done]. }
  intros x [Hx|[Hx|Hx]].
  - exfalso. eapply (Hlane (fastLane s) true); try done; try apply Hs.
    + intros y Et. specialize (Hstuck (LBoth true) eq_refl). cbn [step] in Hstuck.
      unfold consumer_both, receive_fast in Hstuck. by rewrite Epc, Et in Hstuck.
    + specialize (Hstuck (LLaneGet true) eq_refl). cbn [step] in Hstuck.
      by destruct (lane_Get (fastLane s)).
    + specialize (Hstuck (LLaneDone true) eq_refl). cbn [step] in Hstuck.
      by destruct (lane_Done (fastLane s)).
  - exfalso. eapply (Hlane (slowLane s) false); try done; try apply Hs.
    + intros y Et. specialize (Hstuck (LBoth false) eq_refl). cbn [step] in Hstuck.
      unfold consumer_both, receive_slow in Hstuck. by rewrite Epc, Et in Hstuck.
    + specialize (Hstuck (LLaneGet false) eq_refl). cbn [step] in Hstuck.
      by destruct (lane_Get (slowLane s)).
    + specialize (Hstuck (LLaneDone false) eq_refl). cbn [step] in Hstuck.
      by destruct (lane_Done (slowLane s)).
  - destruct (decide (x ∈ processing (consumerQueue s))) as [Hp|Hp].
    + right. by apply (so_processing _ Hs).
    + left. by apply (qo_queue _ (so_consumer _ Hs)).
Qed.
(** As long as something can be carried one of these steps carries it. *)
Definition forwarders s : list (label T) :=
  [LLaneGet true; LLaneGet false; LLaneDone true; LLaneDone false; LTop; LBoth true; LBoth false;
   LReceive] ++ map LFire (map_to_list (waitingForQueue s)).*1.

Lemma forwarders_complete s la :
  forwarding la = true -> is_Some (step s la) -> la ∈ forwarders s.
Proof.
  intros Hf Hstep. unfold forwarders. rewrite elem_of_app.
  destruct la as [| | | | |[]|[]| |[]| |x| | | | |]; try done; try (left; set_solver).
  right. apply list_elem_of_fmap. exists x. split; [done|]. cbn [step] in Hstep.
  unfold loop_fire in Hstep. destruct (looping s); [|by destruct Hstep].
  destruct (waitingForQueue s !! x) as [r|] eqn:E; [|by destruct Hstep].
  apply list_elem_of_fmap. exists (x, r). split; [done|]. by apply elem_of_map_to_list.
Qed.

Lemma forwarding_or_stuck s :
  (exists la s', forwarding la = true /\ step s la = Some s') \/
  (forall la, forwarding la = true -> step s la = None).
Proof.
  destruct (List.find (fun la => forwarding la && bool_decide (is_Some (step s la))) (forwarders s))
    as [la|] eqn:E.
  - apply find_some in E as [_ [Hf [s' Hs']%bool_decide_eq_true]%andb_true_iff]. left. eauto.
  - right. intros la Hf. destruct (step s la) as [s'|] eqn:Es; [exfalso|done].
    assert (is_Some (step s la)) as Hsome by eauto.
    apply (forwarders_complete s la Hf), list_elem_of_In in Hsome.
    apply (find_none _ _ E) in Hsome. rewrite Hf, bool_decide_true in Hsome by eauto. done.
Qed.

Lemma forwarding_run_bounded ls s s' :
  state_ok s -> shut s = 0%nat -> Forall (fun la => forwarding la = true) ls -> run ls s = Some s' ->
  (length ls + load s' <= load s)%nat.
Proof.
  revert s. induction ls as [|la ls IH]; intros s Hs H0 Hall Hr; cbn [run length] in *.
  { injection Hr as <-. lia. }
  destruct (step s la) as [s1|] eqn:E; [|done]. inversion Hall; subst.
  destruct (forwarding_step s la s1) as [H1 Hlt]; [done..|].
  assert (length ls + load s' <= load s1)%nat by (apply IH; [by eapply step_ok|done..]). lia.
Qed.

Lemma forwarding_drains s :
  state_ok s -> shut s = 0%nat ->
  exists ls s', Forall (fun la => forwarding la = true) ls /\ run ls s = Some s' /\ shut s' = 0%nat /\
    (forall la, forwarding la = true -> step s' la = None).
Proof.
  remember (load s) as n eqn:En. revert s En. induction (lt_wf n) as [n _ IH]. intros s -> Hs H0.
  destruct (forwarding_or_stuck s) as [(la&s1&Hf&E)|Hstuck]; [|by exists [], s].
  destruct (forwarding_step s la s1) as [H1 Hlt]; [done..|].
  destruct (IH (load s1) Hlt s1) as (ls&s'&Hall&Hr&Hrest); [done|by eapply step_ok|done|].
  exists (la :: ls), s'. cbn [run]. rewrite E. split; [by constructor|done].
Qed.

(** *** The consumer queue is first in, first out *)

Definition is_get la : bool := match la with LGet _ _ => true | _ => false end.

Lemma receive_queue (b : bool) s s' :
  (if b then receive_fast s else receive_slow s) = Some s' ->
  exists rest, queue (consumerQueue s') = queue (consumerQueue s) ++ rest.
Proof.
  assert (exists rest, queue (consumerQueue s) = queue (consumerQueue s) ++ rest) as Hsame
    by (exists []; by rewrite app_nil_r).
  unfold receive_fast, receive_slow. intros Hr.
  destruct b; [destruct (lnThread (fastLane s))|destruct (lnThread (slowLane s))]; try done;
    injection Hr as <-; first [apply Add_queue | exact Hsame].
Qed.

Lemma addAfter_consumer x d s : consumerQueue (addAfter x d s) = consumerQueue s.
Proof. unfold addAfter. destruct (ShuttingDown s); [done|]. by destruct (d <=? 0)%Z. Qed.

Lemma act_consumer x a b s : consumerQueue (act x a b s) = consumerQueue s.
Proof.
  destruct a; cbn [act]; [done|apply addAfter_consumer|]. unfold addRateLimited.
  by rewrite addAfter_consumer.
Qed.

Lemma consumer_step s la s' : step s la = Some s' ->
  (is_get la = false /\ exists rest, queue (consumerQueue s') = queue (consumerQueue s) ++ rest) \/
  (exists w x, la = LGet w x /\ queue (consumerQueue s) = x :: queue (consumerQueue s')).
Proof.
  intros Hstep.
  assert (consumerQueue s' = consumerQueue s ->
    exists rest, queue (consumerQueue s') = queue (consumerQueue s) ++ rest) as Hsame
    by (intros ->; exists []; by rewrite app_nil_r).
  destruct la as [x|x|x d|t| |f|f| |f| |x| |w x|w|w a b|w];
    try (left; split; [done|]); cbn [step] in Hstep.
  - by injection Hstep as <-; apply Hsame.
  - by injection Hstep as <-; apply Hsame.
  - injection Hstep as <-. apply Hsame, addAfter_consumer.
  - destruct (now s <=? t)%Z; [|done]. by injection Hstep as <-; apply Hsame.
  - unfold shut_step in Hstep.
    destruct (shut s) as [|[|[|]]]; try done; by injection Hstep as <-; apply Hsame.
  - destruct f; [destruct (lane_Get (fastLane s))|destruct (lane_Get (slowLane s))]; try done;
      by injection Hstep as <-; apply Hsame.
  - destruct f; [destruct (lane_Done (fastLane s))|destruct (lane_Done (slowLane s))]; try done;
      by injection Hstep as <-; apply Hsame.
  - unfold consumer_top in Hstep. destruct (pc s); try done.
    destruct (negb _); [by injection Hstep as <-; exists []; cbn; rewrite app_nil_r|].
    destruct (fast s); [|by injection Hstep as <-; apply Hsame].
    destruct (receive_fast s) eqn:Er; [|by injection Hstep as <-; apply Hsame].
    injection Hstep as <-. by apply (receive_queue true).
  - unfold consumer_both in Hstep. destruct (pc s); try done. by apply (receive_queue f).
  - unfold loop_receive in Hstep. destruct (looping s); [|done].
    destruct (waitingForAddCh s) as [|[y r] ch]; [done|].
    injection Hstep as <-. by apply Hsame; destruct (now s <? r)%Z.
  - unfold loop_fire in Hstep. destruct (looping s); [|done].
    destruct (waitingForQueue s !! x); [|done]. destruct (_ && _); [|done].
    by injection Hstep as <-; apply Hsame.
  - unfold loop_exit in Hstep. destruct (_ && _); [|done]. by injection Hstep as <-; apply Hsame.
  - unfold worker_Get in Hstep. destruct (workers s !! w) as [[| | |]|]; try done.
    destruct (Get (consumerQueue s)) as [| |y q] eqn:Eg; try done.
    destruct (decide (x = y)) as [<-|]; [|done]. injection Hstep as <-. right. exists w, x.
    split; [done|]. unfold Get in Eg. destruct (queue (consumerQueue s)) as [|z rest];
      [by destruct (shuttingDown _)|]. by injection Eg as -> <-.
  - unfold worker_exit in Hstep. destruct (workers s !! w) as [[| | |]|]; try done.
    destruct (Get (consumerQueue s)); try done. by injection Hstep as <-; apply Hsame.
  - unfold worker_act in Hstep. destruct (workers s !! w) as [[|y|y|]|]; try done.
    injection Hstep as <-. apply Hsame. by rewrite act_consumer.
  - unfold worker_Done in Hstep. destruct (workers s !! w) as [[|y|y|]|]; try done.
    injection Hstep as <-. apply Done_queue.
Qed.

Lemma served_in_order ls s s' i x :
  run ls s = Some s' -> queue (consumerQueue s) !! i = Some x ->
  (i < length (filter (fun la => is_get la = true) ls))%nat -> exists w, LGet w x ∈ ls.
Proof.
  revert s i. induction ls as [|la ls IH]; intros s i Hr Hi Hlt; [cbn in Hlt; lia|].
  cbn [run] in Hr. destruct (step s la) as [s1|] eqn:E; [|done].
  destruct (consumer_step _ _ _ E) as [[Hg [rest Hl]]|(w&y&->&Hl)].
  - rewrite filter_cons_False in Hlt by by rewrite Hg.
    destruct (IH s1 i) as [w ?]; [done| |done|exists w; by right].
    rewrite Hl. by apply lookup_app_l_Some.
  - rewrite filter_cons_True in Hlt by done. cbn [length] in Hlt. rewrite Hl in Hi.
    destruct i as [|i]; [injection Hi as <-; exists w; left|].
    destruct (IH s1 i) as [w' ?]; [done|done|lia|exists w'; by right].
Qed.

(** C19. Keys reach the workers.  As long as the queue is not shut down, the steps
    of the goroutines between the handlers and the workers come to an end, within
    a bound the state gives, and when they have, nothing waits in a lane: each
    key that was on its way is in the consumer queue, or a worker is running it,
    or its time has not come.  In the consumer queue a key is taken after the
    ones before it and no others, and a waiting worker can always take the first. *)
Theorem keys_reach_the_workers n s :
  reachable n s -> shut s = 0%nat ->
  (forall ls s', Forall (fun la => forwarding la = true) ls -> run ls s = Some s' ->
     (length ls <= load s)%nat) /\
  (exists ls s', Forall (fun la => forwarding la = true) ls /\ run ls s = Some s' /\
     forall x, scheduled x s ->
       x ∈ queue (consumerQueue s') \/
       (exists w wk, workers s' !! w = Some wk /\ holds wk = Some x) \/
       (exists t, waitingForQueue s' !! x = Some t /\ (now s' < t)%Z)) /\
  (forall ls s' i x, run ls s = Some s' -> queue (consumerQueue s) !! i = Some x ->
     (i < length (filter (fun la => is_get la = true) ls))%nat -> exists w, LGet w x ∈ ls) /\
  (forall w x rest, workers s !! w = Some Waiting -> queue (consumerQueue s) = x :: rest ->
     is_Some (step s (LGet w x))).
Proof.
  intros Hs%reachable_ok H0. split_and!.
  - intros ls s' Hall Hr. pose proof (forwarding_run_bounded ls s s' Hs H0 Hall Hr). lia.
  - destruct (forwarding_drains s Hs H0) as (ls&s'&Hall&Hr&H0'&Hstuck). exists ls, s'.
    split; [done|]. split; [done|]. intros x Hx.
    assert (state_ok s') as Hs' by by eapply run_ok.
    destruct (forwarding_stuck s' Hs' H0' Hstuck) as (Hch&Htimes&Hlanes).
    destruct (kept_run (scheduled x) (fun la => la <> LShut) x ls s s') as [[w Hin]|[Hl|[_ Hd]]];
      try done.
    + intros s1 la s2. apply scheduled_step.
    + eapply Forall_impl; [exact Hall|]. by intros la Hf ->.
    + rewrite Forall_forall in Hall. by apply Hall in Hin.
    + destruct (Hlanes x Hl) as [|]; auto.
    + unfold delayed in Hd. rewrite Hch in Hd. destruct Hd as [Hd|[t Ht]]; [set_solver|].
      right. right. exists t. split; [done|]. by apply (Htimes x).
  - intros ls s' i x. apply served_in_order.
  - intros w x rest Hw Hq. cbn [step]. unfold worker_Get, Get. rewrite Hw, Hq.
    rewrite decide_True by done. eauto.
Qed.
End theorems.

(** ** Witnesses *)

Definition key_demo : NamespacedName := MkNamespacedName "default" "demo".
Definition key_other : NamespacedName := MkNamespacedName "default" "other".

(** One worker; a key goes through the fast lane and is being reconciled. *)
Definition to_worker (key : NamespacedName) : list (label NamespacedName) :=
  [LEnqueue key; LLaneGet true; LLaneDone true; LTop; LGet 0 key].
Definition after (ls : list (label NamespacedName)) : state NamespacedName :=
  default (init 1) (run ls (init 1)).

Lemma reachable_after ls : present (run ls (init 1)) = true -> reachable 1 (after ls).
Proof. intros [s Hr]%present_Some. exists ls. unfold after. by rewrite Hr. Qed.

(** The key is added again while it is being reconciled, and the run fails. *)
Lemma no_key_is_lost_witness :
  let ls := [LLaneGet true; LLaneDone true; LTop; LAct 0 Forget 0; LDone 0] in
  let s1 := tlq_Add key_demo (after (to_worker key_demo)) in
  match run ls s1 with
  | Some s2 => (exists w, LGet w key_demo ∈ ls) \/ in_lanes key_demo s2
  | None => False
  end.
Proof.
  cbv zeta. destruct (present_Some (run [LLaneGet true; LLaneDone true; LTop; LAct 0 Forget 0; LDone 0]
    (tlq_Add key_demo (after (to_worker key_demo))))) as [s2 Hr]; [vm_compute; reflexivity|].
  rewrite Hr.
  destruct (no_key_is_lost 1 (after (to_worker key_demo)) (LEnqueue key_demo)
    (tlq_Add key_demo (after (to_worker key_demo)))
    [LLaneGet true; LLaneDone true; LTop; LAct 0 Forget 0; LDone 0] s2 key_demo) as [_ Hlanes].
  - apply reachable_after. vm_compute. reflexivity.
  - vm_compute. reflexivity.
  - constructor.
  - reflexivity.
  - exact Hr.
  - apply Hlanes. left. reflexivity.
Defined.

Lemma workers_are_exclusive_witness :
  let s := after (to_worker key_demo ++ [LEnqueue key_demo; LLaneGet true; LLaneDone true; LTop]) in
  queue_ok (consumerQueue s) /\ key_demo ∈ processing (consumerQueue s).
Proof.
  intros s. destruct (workers_are_exclusive 1 s) as (_&Hok&_&_&Hp&_).
  - apply reachable_after. vm_compute. reflexivity.
  - split; [exact Hok|]. apply Hp. exists 0%nat, (Working key_demo). split; reflexivity.
Defined.

(** Two keys wait, one in each lane, behind a third that is being reconciled. *)
Lemma keys_reach_the_workers_witness :
  let s := after (to_worker key_demo ++ [LEnqueue key_demo; LEnqueueSlow key_other]) in
  exists ls s', run ls s = Some s' /\
    (key_other ∈ queue (consumerQueue s') \/
     (exists w wk, workers s' !! w = Some wk /\ holds wk = Some key_other) \/
     (exists t, waitingForQueue s' !! key_other = Some t /\ (now s' < t)%Z)).
Proof.
  intros s. destruct (keys_reach_the_workers 1 s) as (_&(ls&s'&_&Hr&Hall)&_).
  - apply reachable_after. vm_compute. reflexivity.
  - vm_compute. reflexivity.
  - exists ls, s'. split; [exact Hr|]. apply Hall. left. right. left. left.
    apply (bool_decide_unpack _). vm_compute. exact I.
Defined.
