(* ===== verification/Tracker.v ===== *)
(** * The tracker (knative.dev/pkg/tracker)

    Which sources watch which objects, and until when: a source that resolved its
    sink is enqueued again when the object it refers to changes.  References with
    a label selector, which nothing here makes, are left out, so the table of
    exact references is the whole state.  The readings of the clock within one
    call are one argument; the text of the validation errors is left out, but
    not the fields they are about. *)

From S2P Require Import Prelude GoStrings Types Api Leader Wiring.
Local Open Scope string_scope.
Local Open Scope list_scope.

(** ** References *)

Record Reference := MkReference {
  refAPIVersion : string;
  refKind : string;
  refNamespace : string;
  refName : string
}.

#[export] Instance Reference_eq_dec : EqDecision Reference.
Proof. solve_decision. Defined.
#[export] Program Instance Reference_countable : Countable Reference :=
  inj_countable' (fun r => (refAPIVersion r, refKind r, refNamespace r, refName r))
    (fun '(a, k, ns, n) => MkReference a k ns n) _.
Next Obligation. by intros []. Qed.

(** *** Their validation (k8s.io/apimachinery: util/validation, api/validate/content) *)

(** A regular expression [edge(inner*edge)?], for [inner] that includes [edge]. *)
Definition framed (inner edge : ascii -> bool) (s : string) : bool :=
  string_forallb inner s &&
  match s, String.rev s with
  | String a _, String b _ => edge a && edge b
  | _, _ => false
  end.

Definition is_lower_alnum (c : ascii) : bool := is_digit c || is_lower c.

Definition dns1123Label (s : string) : bool :=
  framed (fun c => is_lower_alnum c || Ascii.eqb c "-") is_lower_alnum s.

Definition IsDNS1123Label (s : string) : bool :=
  (String.length s <=? 63)%nat && dns1123Label s.

Definition IsDNS1123Subdomain (s : string) : bool :=
  (String.length s <=? 253)%nat && forallb dns1123Label (split "." s).

Definition labelKey (s : string) : bool :=
  framed (fun c => is_alnum c || Ascii.eqb c "-" || Ascii.eqb c "_" || Ascii.eqb c ".") is_alnum s.

Definition IsLabelKey (s : string) : bool :=
  let name_ok name := (String.length name <=? 63)%nat && labelKey name in
  match split "/" s with
  | [name] => name_ok name
  | [prefix; name] =>
      negb (String.eqb prefix "") && IsDNS1123Subdomain prefix && name_ok name
  | _ => false
  end.

Definition IsCIdentifier (s : string) : bool :=
  match s with
  | "" => false
  | String c r =>
      negb (is_digit c) && string_forallb (fun c => is_alnum c || Ascii.eqb c "_") s
  end.

(** The messages of [TrackReference], by the field each is about, sorted. *)
Definition invalid_fields (ref : Reference) : list string :=
  (if IsLabelKey (refAPIVersion ref) then [] else ["APIVersion"]) ++
  (if IsCIdentifier (refKind ref) then [] else ["Kind"]) ++
  (if String.eqb (refName ref) "" then []
   else if IsDNS1123Subdomain (refName ref) then [] else ["Name"]) ++
  (if String.eqb (refNamespace ref) "" then []
   else if IsDNS1123Label (refNamespace ref) then [] else ["Namespace"]) ++
  (if String.eqb (refName ref) "" then ["must provide either Name or Selector"] else []).

(** ** The state *)

Record tracker := MkTracker {
  leaseDuration : Z;
  exact : gmap Reference (gmap NamespacedName Z)
}.

(** [New], and [GetTrackerLease] with the resync period. *)
Definition newTracker (resync : Z) : tracker := MkTracker (3 * resync) ∅.

Definition isExpired (now expiry : Z) : bool := (expiry <? now)%Z.

(** ** Operations *)

(** [TrackReference] for the source of a key: what it returns, the state after,
    and the keys it calls the callback with. *)
Definition TrackReference (now : Z) (ref : Reference) (key : NamespacedName) (t : tracker)
    : result (list string) unit * tracker * list NamespacedName :=
  match invalid_fields ref with
  | [] =>
      let l := default ∅ (exact t !! ref) in
      let keys :=
        match l !! key with
        | Some expiry => if isExpired now expiry then [key] else []
        | None => [key]
        end in
      (Ok tt,
       MkTracker (leaseDuration t) (<[ref := <[key := (now + leaseDuration t)%Z]> l]> (exact t)),
       keys)
  | fields => (Err fields, t, [])
  end.

(** [GetObservers] for the reference of an object: the keys, and the state
    without the ones that expired. *)
Definition GetObservers (now : Z) (ref : Reference) (t : tracker)
    : list NamespacedName * tracker :=
  match exact t !! ref with
  | None => ([], t)
  | Some s =>
      let live := filter (fun ke => isExpired now ke.2 = false) s in
      ((map_to_list live).*1,
       MkTracker (leaseDuration t)
         (if decide (live = ∅) then delete ref (exact t) else <[ref := live]> (exact t)))
  end.

(** [OnChanged]: the callback is called with each observer. *)
Definition OnChanged {A} (reference : A -> Reference) (now : Z) (obj : delivered A) (t : tracker)
    : list NamespacedName * tracker :=
  match DeletionHandlingAccessor obj with
  | None => ([], t)
  | Some a => GetObservers now (reference a) t
  end.

Definition OnDeletedObserver (key : NamespacedName) (t : tracker) : tracker :=
  MkTracker (leaseDuration t)
    (filter (fun rs => rs.2 <> ∅) ((fun s => delete key s) <$> exact t)).

(** ** As leases *)

(** The source of the key is told of changes of the object until then. *)
Definition watching (t : tracker) (ref : Reference) (key : NamespacedName) (at_ : Z) : Prop :=
  exists expiry, exact t !! ref ≫= (fun s => s !! key) = Some expiry /\ (at_ <= expiry)%Z.

Lemma isExpired_false now e : isExpired now e = false <-> (now <= e)%Z.
Proof. unfold isExpired. lia. Qed.

Lemma watching_dec t ref key at_ : watching t ref key at_ \/ ~ watching t ref key at_.
Proof.
  unfold watching. destruct (exact t !! ref ≫= _) as [e|]; [|right; by intros (?&?&?)].
  destruct (Z.le_gt_cases at_ e); [left; by exists e|right; intros (?&[= <-]&?); lia].
Qed.

Lemma TrackReference_valid now ref key t :
  invalid_fields ref = [] ->
  exists t' keys, TrackReference now ref key t = (Ok tt, t', keys) /\
    leaseDuration t' = leaseDuration t /\
    (forall ref' key' at_, watching t' ref' key' at_ <->
       if decide (ref' = ref /\ key' = key) then (at_ <= now + leaseDuration t)%Z
       else watching t ref' key' at_) /\
    (watching t ref key now /\ keys = [] \/ ~ watching t ref key now /\ keys = [key]).
Proof.
  intros Hv. unfold TrackReference. rewrite Hv. eexists _, _. split_and!; [done..| |].
  - intros ref' key' at_. unfold watching. cbn [exact].
    destruct (decide (ref' = ref)) as [->|Hr].
    + rewrite lookup_insert_eq. cbn [mbind option_bind]. destruct (decide (key' = key)) as [->|Hk].
      * rewrite decide_True by done. rewrite lookup_insert_eq. split; [by intros (?&[= <-]&?)|eauto].
      * rewrite decide_False by naive_solver. rewrite lookup_insert_ne by done.
        destruct (exact t !! ref) as [s|]; cbn; [done|]. by rewrite lookup_empty.
    + rewrite decide_False by naive_solver. by rewrite lookup_insert_ne.
  - unfold watching. destruct (exact t !! ref) as [s|]; cbn.
    + destruct (s !! key) as [e|]; [|right; split; [by intros (?&?&?)|done]].
      destruct (isExpired now e) eqn:E.
      * right. split; [|done]. intros (?&[= <-]&?%isExpired_false). congruence.
      * left. apply isExpired_false in E. eauto.
    + rewrite lookup_empty. right. split; [by intros (?&?&?)|done].
Qed.

Lemma GetObservers_spec now ref t :
  let '(keys, t') := GetObservers now ref t in
  leaseDuration t' = leaseDuration t /\ NoDup keys /\
  (forall key, key ∈ keys <-> watching t ref key now) /\
  (forall ref' key at_, (now <= at_)%Z -> watching t' ref' key at_ <-> watching t ref' key at_).
Proof.
  unfold GetObservers. destruct (exact t !! ref) as [s|] eqn:Es.
  2: { split_and!; [done|constructor| |done]. intros key. rewrite elem_of_nil. unfold watching.
       rewrite Es. cbn. split; [done|]. by intros (?&?&?). }
  set (live := filter _ s). cbn [leaseDuration]. split_and!; [done|apply NoDup_fst_map_to_list| |].
  - intros key. unfold watching. rewrite Es. cbn. rewrite list_elem_of_fmap. split.
    + intros ([k e]&->&[Hk He]%elem_of_map_to_list%map_lookup_filter_Some). exists e.
      split; [done|]. by apply isExpired_false.
    + intros (e&Hk&He%isExpired_false). exists (key, e). split; [done|].
      apply elem_of_map_to_list, map_lookup_filter_Some. done.
  - intros ref' key at_ Hat. unfold watching. cbn [exact].
    assert (forall at_, (now <= at_)%Z -> (exists e, live !! key = Some e /\ (at_ <= e)%Z) <->
      (exists e, s !! key = Some e /\ (at_ <= e)%Z)) as Hlive.
    { intros a Ha. split; intros (e&He&Hle); exists e.
      - by apply map_lookup_filter_Some in He as [? _].
      - split; [|done]. apply map_lookup_filter_Some. split; [done|]. apply isExpired_false. cbn. lia. }
    destruct (decide (ref' = ref)) as [->|Hr].
    + rewrite Es. cbn [mbind option_bind]. rewrite <- Hlive by done.
      destruct (decide (live = ∅)) as [->|]; [rewrite lookup_delete_eq|by rewrite lookup_insert_eq].
      cbn. rewrite lookup_empty. split; by intros (?&?&?).
    + destruct (decide (live = ∅)); [by rewrite lookup_delete_ne|by rewrite lookup_insert_ne].
Qed.

Lemma OnDeletedObserver_spec key t ref key' at_ :
  watching (OnDeletedObserver key t) ref key' at_ <-> key' <> key /\ watching t ref key' at_.
Proof.
  unfold watching, OnDeletedObserver. cbn [exact].
  assert (forall e, filter (fun rs => rs.2 <> ∅) ((fun s => delete key s) <$> exact t) !! ref
      ≫= (fun s => s !! key') = Some e <->
    key' <> key /\ exact t !! ref ≫= (fun s => s !! key') = Some e) as E.
  { intros e. rewrite !bind_Some. split.
    - intros (s&[Hs _]%map_lookup_filter_Some&He). rewrite lookup_fmap in Hs.
      apply fmap_Some in Hs as (s'&Hs'&->). apply lookup_delete_Some in He as [? He]. split; [done|]. eauto.
    - intros (Hne&s&Hs&He). exists (delete key s). rewrite lookup_delete_ne by done. split; [|done].
      apply map_lookup_filter_Some. rewrite lookup_fmap, Hs. split; [done|]. cbn. intros Hemp.
      assert (delete key s !! key' = Some e) as Hd by by rewrite lookup_delete_ne.
      rewrite Hemp, lookup_empty in Hd. done. }
  split.
  - intros (e&[Hne He]%E&Hle). eauto.
  - intros (Hne&e&He&Hle). exists e. split; [by apply E|done].
Qed.

(** ** Histories *)

Inductive tracker_op :=
| Track (ref : Reference) (key : NamespacedName)
| Changed (ref : Reference)
| ObserverDeleted (key : NamespacedName).

(** One call, and the keys it hands to the callback. *)
Definition tracker_step (now : Z) (op : tracker_op) (t : tracker)
    : tracker * list NamespacedName :=
  match op with
  | Track ref key => let '(_, t, keys) := TrackReference now ref key t in (t, keys)
  | Changed ref => let '(keys, t) := GetObservers now ref t in (t, keys)
  | ObserverDeleted key => (OnDeletedObserver key t, [])
  end.

Fixpoint tracker_run (ops : list (Z * tracker_op)) (t : tracker) : tracker :=
  match ops with
  | [] => t
  | (now, op) :: ops => tracker_run ops (tracker_step now op t).1
  end.

(** A call keeps the leases that run on: nothing but the deletion of the source
    ends one early. *)
Lemma tracker_step_keeps now op t ref key until :
  (now <= until <= now + leaseDuration t)%Z -> op <> ObserverDeleted key ->
  watching t ref key until ->
  watching (tracker_step now op t).1 ref key until /\
  leaseDuration (tracker_step now op t).1 = leaseDuration t.
Proof.
  intros Hu Hop Hw. destruct op as [r k|r|k]; cbn [tracker_step].
  - destruct (invalid_fields r) as [|f fs] eqn:Ev.
    + destruct (TrackReference_valid now r k t Ev) as (t'&keys&->&Hl&Ht&_). cbn.
      split; [|done]. apply Ht. destruct (decide _); [lia|done].
    + unfold TrackReference. by rewrite Ev.
  - pose proof (GetObservers_spec now r t) as Hg. destruct (GetObservers now r t) as [keys t'].
    destruct Hg as (Hl&_&_&Ht). split; [|done]. apply Ht; [lia|done].
  - split; [|done]. apply OnDeletedObserver_spec. split; [congruence|done].
Qed.

Lemma tracker_run_keeps ops t ref key since until :
  Forall (fun nop => since <= nop.1 <= until /\ nop.2 <> ObserverDeleted key)%Z ops ->
  (until <= since + leaseDuration t)%Z -> watching t ref key until ->
  watching (tracker_run ops t) ref key until /\
  leaseDuration (tracker_run ops t) = leaseDuration t.
Proof.
  revert t. induction ops as [|[now op] ops IH]; intros t Hall Hu Hw; [done|]. cbn [tracker_run].
  apply Forall_cons in Hall as [[Hnow Hop] Hall]. cbn in Hnow, Hop.
  destruct (tracker_step_keeps now op t ref key until) as [Hw1 Hl1]; [lia|done..|].
  destruct (IH (tracker_step now op t).1) as [Hw2 Hl2]; [done|lia|done|]. split; [done|lia].
Qed.

(** A source that tracked an object hears of a change of it while its lease runs. *)
Lemma observed_until t ref key now until ops :
  invalid_fields ref = [] -> (now <= until <= now + leaseDuration t)%Z ->
  Forall (fun nop => now <= nop.1 <= until /\ nop.2 <> ObserverDeleted key)%Z ops ->
  key ∈ (GetObservers until ref (tracker_run ops (tracker_step now (Track ref key) t).1)).1.
Proof.
  intros Hv Hu Hall.
  destruct (TrackReference_valid now ref key t Hv) as (t'&keys&E&Hl&Ht&_).
  cbn [tracker_step]. rewrite E. cbn [fst].
  destruct (tracker_run_keeps ops t' ref key now until Hall) as [Hw _]; [lia| |].
  { apply Ht. rewrite decide_True by done. lia. }
  pose proof (GetObservers_spec until ref (tracker_run ops t')) as Hg.
  destruct (GetObservers until ref (tracker_run ops t')) as [ks ?]. apply Hg, Hw.
Qed.

(** ** Theorem *)

(** The tracker refines a table of leases.  Tracking a valid reference gives the
    source a lease on the object from now on, in place of the one it had, and
    calls back at once exactly when it had none; an invalid one changes nothing.
    A change is reported to each source with a lease, once, and to no other; it
    takes away no lease that still runs, and the end of a source takes its own.
    So whoever tracked an object hears of each change of it up to the end of the
    lease, whatever else the tracker was asked meanwhile. *)
Theorem tracker_refines_leases t ref key now :
  (forall ref' key' at_, invalid_fields ref = [] ->
     let '(r, t', keys) := TrackReference now ref key t in
     r = Ok tt /\
     (watching t' ref' key' at_ <->
        if decide (ref' = ref /\ key' = key) then (at_ <= now + leaseDuration t)%Z
        else watching t ref' key' at_) /\
     (key' ∈ keys <-> key' = key /\ ~ watching t ref key now)) /\
  (invalid_fields ref <> [] -> TrackReference now ref key t = (Err (invalid_fields ref), t, [])) /\
  (let '(keys, t') := GetObservers now ref t in
   NoDup keys /\ (forall key, key ∈ keys <-> watching t ref key now) /\
   (forall ref' key at_, (now <= at_)%Z -> watching t' ref' key at_ <-> watching t ref' key at_)) /\
  (forall ref' key' at_, watching (OnDeletedObserver key t) ref' key' at_ <->
     key' <> key /\ watching t ref' key' at_) /\
  (forall ops until, invalid_fields ref = [] -> (now <= until <= now + leaseDuration t)%Z ->
     Forall (fun nop => now <= nop.1 <= until /\ nop.2 <> ObserverDeleted key)%Z ops ->
     key ∈ (GetObservers until ref (tracker_run ops (tracker_step now (Track ref key) t).1)).1).
Proof.
  split_and!.
  - intros ref' key' at_ Hv. destruct (TrackReference_valid now ref key t Hv) as (t'&keys&->&_&Ht&Hk).
    split; [done|]. split; [apply Ht|].
    destruct Hk as [[Hw ->]|[Hw ->]]; rewrite ?elem_of_nil, ?list_elem_of_singleton; naive_solver.
  - intros Hv. unfold TrackReference. by destruct (invalid_fields ref).
  - pose proof (GetObservers_spec now ref t) as Hg. destruct (GetObservers now ref t) as [keys t'].
    naive_solver.
  - apply OnDeletedObserver_spec.
  - intros ops until. by apply observed_until.
Qed.

(** ** Witnesses *)

Definition sample_reference : Reference :=
  MkReference "eventing.knative.dev/v1" "Broker" "default" "default".

(** Another source tracks the same broker and is deleted meanwhile. *)
Lemma tracker_refines_leases_witness :
  let demo := MkNamespacedName "default" "demo" in
  let other := MkNamespacedName "default" "other" in
  let t := newTracker 10 in
  demo ∈ (GetObservers 30 sample_reference
    (tracker_run [(5%Z, Track sample_reference other); (7%Z, ObserverDeleted other)]
       (tracker_step 0 (Track sample_reference demo) t).1)).1.
Proof.
  cbv zeta.
  destruct (tracker_refines_leases (newTracker 10) sample_reference (MkNamespacedName "default" "demo") 0)
    as (_&_&_&_&Hops).
  apply Hops.
  - vm_compute. reflexivity.
  - split; vm_compute; discriminate.
  - repeat constructor; first [vm_compute; discriminate | discriminate].
Defined.
