(* ===== verification/Resolver.v ===== *)
(** * The sink resolver (knative.dev/pkg/resolver/addressable_resolver.go)

    How a destination becomes a URL: a URI of its own, or the address of the
    object it refers to, from a cache an informer per resource keeps, whose events
    go to the tracker (Tracker.v).  The resolver is made by
    [NewURIResolverFromTracker] without resolvers of its own, as [NewController]
    does.

    The objects behind the informers are an interface; so is how the path of a
    relative URL is joined to another's.  An error is a value that says what
    failed; its text, which prints Go structs, is left out. *)

From S2P Require Import Prelude GoStrings CondSet Types Api Lifecycle Names Deployment Reconcile.
From S2P Require Import KindReconciler Leader Wiring Tracker.
Local Open Scope string_scope.
Local Open Scope list_scope.

(** ** Data *)

Record Addressable := MkAddressable {
  adName : option string;
  adURL : option URL;
  adCACerts : option string;
  adAudience : option string
}.

Record AddressableType := MkAddressableType {
  atAPIVersion : string;
  atKind : string;
  atNamespace : string;
  atName : string;
  atAddress : option Addressable;
  atAddresses : list Addressable
}.

Record GroupVersionResource := MkGVR { gvrGroup : string; gvrVersion : string; gvrResource : string }.

#[export] Instance GroupVersionResource_eq_dec : EqDecision GroupVersionResource.
Proof. solve_decision. Defined.
#[export] Program Instance GroupVersionResource_countable : Countable GroupVersionResource :=
  inj_countable' (fun g => (gvrGroup g, gvrVersion g, gvrResource g)) (fun '(g, v, r) => MkGVR g v r) _.
Next Obligation. by intros []. Qed.

(** What a resolution needs from outside: whether the informer of a resource comes
    up, what its cache holds, the environment and the lines of /etc/resolv.conf,
    if it can be read, and the path of a relative URL against a base. *)
Class Targets := {
  informer_error : GroupVersionResource -> option string;
  cached : GroupVersionResource -> string -> string -> result string AddressableType;
  clusterDomainEnv : string;
  resolv_conf : option (list string);
  joined_path : URL -> URL -> string * string
}.

Inductive resolve_error :=
| TrackFailed (fields : list string)
| ListerFailed (msg : string)
| ObjectFailed (msg : string)
| AddressNotSet
| AddressNotFound (name : string)
| URLMissing
| HostnameMissing
| AbsoluteURINotAllowed
| URINotAbsolute
| MissingRefAndURI
| RefIsNil.

(** ** Names of resources *)

Definition FromAPIVersionAndKind (apiVersion kind : string) : GroupVersionKind :=
  match ParseGroupVersion apiVersion with
  | Some gv => MkGVK (gvGroup gv) (gvVersion gv) kind
  | None => MkGVK "" "" kind
  end.

Definition ToAPIVersionAndKind (g : GroupVersionKind) : string * string :=
  if String.eqb (gvkGroup g) "" && String.eqb (gvkVersion g) "" && String.eqb (gvkKind g) ""
  then ("", "")
  else (GroupVersion_String (MkGroupVersion (gvkGroup g) (gvkVersion g)), gvkKind g).

Definition UnsafeGuessKindToResource (g : GroupVersionKind) : GroupVersionResource :=
  if String.eqb (gvkKind g) "" then MkGVR "" "" ""
  else
    let singular := to_lower (gvkKind g) in
    MkGVR (gvkGroup g) (gvkVersion g)
      (if has_suffix singular "endpoints" then singular
       else if has_suffix singular "s" then singular +:+ "es"
       else if has_suffix singular "y" then
         String.substring 0 (String.length singular - 1) singular +:+ "ies"
       else singular +:+ "s").

(** [kmeta.ObjectReference] of a cached object, as a reference of the tracker. *)
Definition object_reference (o : AddressableType) : Reference :=
  let '(apiVersion, kind) := ToAPIVersionAndKind (FromAPIVersionAndKind (atAPIVersion o) (atKind o)) in
  MkReference apiVersion kind (atNamespace o) (atName o).

(** [getClusterDomainName] over the lines of the file: the rest of the first
    search domain that starts with svc. *)
Definition trim_dot (s : string) : string :=
  if has_suffix s "." then String.substring 0 (String.length s - 1) s else s.

Fixpoint svc_domain (elements : list string) : option string :=
  match elements with
  | [] => None
  | e :: elements =>
      match strip_prefix "svc." e with Some r => Some (trim_dot r) | None => svc_domain elements end
  end.

Fixpoint search_domain (lines : list string) : string :=
  match lines with
  | [] => "cluster.local"
  | line :: lines =>
      match split " " line with
      | "search" :: elements =>
          match svc_domain elements with Some d => d | None => search_domain lines end
      | _ => search_domain lines
      end
  end.

Definition GetClusterDomainName `{Targets} : string :=
  match resolv_conf with
  | None => "cluster.local"
  | Some lines => if String.eqb clusterDomainEnv "" then search_domain lines else clusterDomainEnv
  end.

Definition GetServiceHostname `{Targets} (name namespace : string) : string :=
  name +:+ "." +:+ namespace +:+ ".svc." +:+ GetClusterDomainName.

(** ** URLs *)

(** [ResolveReference] of net/url. *)
Definition ResolveReference `{Targets} (u ref : URL) : URL :=
  let scheme := if String.eqb (uScheme ref) "" then uScheme u else uScheme ref in
  let '(path, raw) := joined_path u ref in
  if negb (String.eqb (uScheme ref) "") || negb (String.eqb (uHost ref) "")
     || bool_decide (is_Some (uUser ref)) then
    MkURL scheme (uOpaque ref) (uUser ref) (uHost ref) path raw (uOmitHost ref) (uForceQuery ref)
      (uRawQuery ref) (uFragment ref) (uRawFragment ref)
  else if negb (String.eqb (uOpaque ref) "") then
    MkURL scheme (uOpaque ref) None "" "" (uRawPath ref) (uOmitHost ref) (uForceQuery ref)
      (uRawQuery ref) (uFragment ref) (uRawFragment ref)
  else
    let same := String.eqb (uPath ref) "" && negb (uForceQuery ref) && String.eqb (uRawQuery ref) "" in
    let query := if same then uRawQuery u else uRawQuery ref in
    let '(fragment, rawFragment) :=
      if same && String.eqb (uFragment ref) "" then (uFragment u, uRawFragment u)
      else (uFragment ref, uRawFragment ref) in
    if String.eqb (uPath ref) "" && negb (String.eqb (uOpaque u) "") then
      MkURL scheme (uOpaque u) None "" "" (uRawPath ref) (uOmitHost ref) (uForceQuery ref)
        query fragment rawFragment
    else
      MkURL scheme (uOpaque ref) (uUser u) (uHost u) path raw (uOmitHost ref) (uForceQuery ref)
        query fragment rawFragment.

(** ** The resolver *)

(** Its tracker, and the informers it has started (the cache of
    [CachedInformerFactory]), each with the handler that tells the tracker. *)
Record URIResolver := MkURIResolver {
  rsTracker : tracker;
  rsInformers : gset GroupVersionResource
}.

Definition NewURIResolverFromTracker (t : tracker) : URIResolver := MkURIResolver t ∅.

(** What a call returns, leaves, and enqueues. *)
Record resolution (A : Type) := MkResolution {
  rnResult : result resolve_error A;
  rnResolver : URIResolver;
  rnEnqueued : list NamespacedName
}.
Arguments MkResolution {A} _ _ _.
Arguments rnResult {A} _.
Arguments rnResolver {A} _.
Arguments rnEnqueued {A} _.

Definition given (s : option string) : bool :=
  match s with Some s => negb (String.eqb s "") | None => false end.

Section resolver.
Context `{Targets}.

(** [selectAddress] for a reference. *)
Definition selectAddress (r : KReference) (o : AddressableType) : result resolve_error Addressable :=
  match atAddresses o, atAddress o with
  | [], None => Err AddressNotSet
  | addresses, address =>
      if given (krAddress r) then
        match List.find (fun a => bool_decide (adName a = krAddress r)) addresses with
        | Some a => Ok a
        | None => Err (AddressNotFound (default "" (krAddress r)))
        end
      else match addresses, address with
           | a :: _, _ | [], Some a => Ok a
           | [], None => Err AddressNotSet
           end
  end.

(** The address an object gives a destination that refers to it. *)
Definition address_of (dest : Destination) (r : KReference) (o : AddressableType)
    : result resolve_error Addressable :=
  if String.eqb (krAPIVersion r) "v1" && String.eqb (krKind r) "Service" then
    Ok (MkAddressable (krAddress r)
          (Some (mk_url (if given (dCACerts dest) then "https" else "http")
                   (GetServiceHostname (krName r) (krNamespace r)) ""))
          (dCACerts dest) (dAudience dest))
  else
    match selectAddress r o with
    | Err e => Err e
    | Ok addr =>
        match adURL addr with
        | None => Err URLMissing
        | Some u =>
            if String.eqb (uHost u) "" then Err HostnameMissing
            else Ok (MkAddressable (adName addr) (adURL addr)
                       (if given (dCACerts dest) then dCACerts dest else adCACerts addr)
                       (if given (dAudience dest) then dAudience dest else adAudience addr))
        end
    end.

(** The lister of a resource: an informer that came up is kept, one that failed
    is tried again the next time. *)
Definition listerFactory (gvr : GroupVersionResource) (rs : URIResolver)
    : result resolve_error (string -> string -> result string AddressableType) * URIResolver :=
  if decide (gvr ∈ rsInformers rs) then (Ok (cached gvr), rs)
  else match informer_error gvr with
       | Some msg => (Err (ListerFailed msg), rs)
       | None => (Ok (cached gvr), MkURIResolver (rsTracker rs) ({[gvr]} ∪ rsInformers rs))
       end.

Definition tracked_reference (r : KReference) : Reference :=
  MkReference (krAPIVersion r) (krKind r) (krNamespace r) (krName r).

Definition resource_of (r : KReference) : GroupVersionResource :=
  UnsafeGuessKindToResource (FromAPIVersionAndKind (krAPIVersion r) (krKind r)).

Definition addressableFromDestinationRef (now : Z) (dest : Destination) (parent : YipYapSource)
    (rs : URIResolver) : resolution Addressable :=
  match dRef dest with
  | None => MkResolution (Err RefIsNil) rs []
  | Some r =>
      let '(tracked, t, keys) :=
        TrackReference now (tracked_reference r) (source_key parent) (rsTracker rs) in
      let rs := MkURIResolver t (rsInformers rs) in
      match tracked with
      | Err fields => MkResolution (Err (TrackFailed fields)) rs keys
      | Ok _ =>
          let '(lister, rs) := listerFactory (resource_of r) rs in
          match lister with
          | Err e => MkResolution (Err e) rs keys
          | Ok get =>
              match get (krNamespace r) (krName r) with
              | Err msg => MkResolution (Err (ObjectFailed msg)) rs keys
              | Ok o => MkResolution (address_of dest r o) rs keys
              end
          end
      end
  end.

Definition AddressableFromDestinationV1 (now : Z) (dest : Destination) (parent : YipYapSource)
    (rs : URIResolver) : resolution Addressable :=
  match dRef dest, dURI dest with
  | Some _, uri =>
      let res := addressableFromDestinationRef now dest parent rs in
      match rnResult res, uri with
      | Ok addr, Some uri =>
          if IsAbs uri then MkResolution (Err AbsoluteURINotAllowed) (rnResolver res) (rnEnqueued res)
          else MkResolution
                 (Ok (MkAddressable (adName addr) ((fun u => ResolveReference u uri) <$> adURL addr)
                        (adCACerts addr) (adAudience addr)))
                 (rnResolver res) (rnEnqueued res)
      | _, _ => res
      end
  | None, Some uri =>
      if negb (IsAbs uri) || String.eqb (uHost uri) ""
      then MkResolution (Err URINotAbsolute) rs []
      else MkResolution (Ok (MkAddressable None (Some uri) (dCACerts dest) (dAudience dest))) rs []
  | None, None => MkResolution (Err MissingRefAndURI) rs []
  end.

Definition URIFromDestinationV1 (now : Z) (dest : Destination) (parent : YipYapSource)
    (rs : URIResolver) : resolution (option URL) :=
  let res := AddressableFromDestinationV1 now dest parent rs in
  MkResolution (match rnResult res with Ok a => Ok (adURL a) | Err e => Err e end)
    (rnResolver res) (rnEnqueued res).
End resolver.

(** ** Lemmas *)

(** A valid apiVersion survives the way through group and version, so the objects
    of a valid reference are reported under it. *)
Lemma framed_nonempty inner edge : framed inner edge "" = false.
Proof. done. Qed.

Lemma api_version_roundtrip apiVersion kind :
  IsLabelKey apiVersion = true -> kind <> "" ->
  ToAPIVersionAndKind (FromAPIVersionAndKind apiVersion kind) = (apiVersion, kind).
Proof.
  intros Hv Hk. unfold IsLabelKey in Hv. pose proof (join_split "/" apiVersion) as Hj.
  unfold FromAPIVersionAndKind, ParseGroupVersion.
  destruct (String.eqb_spec apiVersion "") as [->|_]; [done|].
  destruct (String.eqb_spec apiVersion "/") as [->|_]; [done|]. cbn [orb].
  assert (forall g v, ToAPIVersionAndKind (MkGVK g v kind) = (GroupVersion_String (MkGroupVersion g v), kind))
    as Hto.
  { intros g v. unfold ToAPIVersionAndKind. cbn [gvkKind gvkGroup gvkVersion].
    destruct (String.eqb_spec kind ""); [done|]. by rewrite andb_false_r. }
  destruct (split "/" apiVersion) as [|p [|q [|]]] eqn:E; try done; cbn [gvGroup gvVersion];
    rewrite Hto; f_equal; unfold GroupVersion_String; cbn [gvGroup gvVersion]; [done|].
  apply andb_true_iff in Hv as [Hv _]. apply andb_true_iff in Hv as [Hp _].
  by destruct (String.eqb p "").
Qed.

Lemma valid_kind ref : invalid_fields ref = [] ->
  IsLabelKey (refAPIVersion ref) = true /\ refKind ref <> "".
Proof.
  unfold invalid_fields. destruct (IsLabelKey _); [|done]. split; [done|].
  intros E. by rewrite E in *.
Qed.

(** The object a valid reference is about. *)
Definition refers_to (r : KReference) (o : AddressableType) : Prop :=
  atAPIVersion o = krAPIVersion r /\ atKind o = krKind r /\
  atNamespace o = krNamespace r /\ atName o = krName r.

Lemma object_reference_tracked r o :
  invalid_fields (tracked_reference r) = [] -> refers_to r o ->
  object_reference o = tracked_reference r.
Proof.
  intros [Hv Hk]%valid_kind (Ea&Ek&Ens&En). unfold object_reference.
  rewrite Ea, Ek, Ens, En. cbn in Hv, Hk. by rewrite api_version_roundtrip.
Qed.

Section lemmas.
Context `{Targets}.

Lemma address_of_url dest r o a :
  address_of dest r o = Ok a -> exists u, adURL a = Some u /\
    (uHost u <> "" \/ krAPIVersion r = "v1" /\ krKind r = "Service").
Proof.
  unfold address_of. destruct (String.eqb_spec (krAPIVersion r) "v1");
    [destruct (String.eqb_spec (krKind r) "Service")|]; cbn [andb].
  - intros [= <-]. eexists. split; [done|]. by right.
  - destruct (selectAddress r o) as [b|]; [|done]. destruct (adURL b) as [u|] eqn:E; [|done].
    destruct (String.eqb_spec (uHost u) ""); [done|]. intros [= <-]. exists u. cbn. auto.
  - destruct (selectAddress r o) as [b|]; [|done]. destruct (adURL b) as [u|] eqn:E; [|done].
    destruct (String.eqb_spec (uHost u) ""); [done|]. intros [= <-]. exists u. cbn. auto.
Qed.

(** The host of a service is never empty. *)
Lemma GetServiceHostname_nonempty name ns : GetServiceHostname name ns <> "".
Proof. unfold GetServiceHostname. destruct name; done. Qed.

Lemma address_of_host dest r o a :
  address_of dest r o = Ok a -> exists u, adURL a = Some u /\ uHost u <> "".
Proof.
  intros Ha. destruct (address_of_url _ _ _ _ Ha) as (u&Hu&[Hh|[E1 E2]]); [by exists u|].
  exists u. split; [done|]. unfold address_of in Ha. rewrite E1, E2 in Ha. cbn in Ha.
  injection Ha as <-. cbn in Hu. injection Hu as <-. apply GetServiceHostname_nonempty.
Qed.

(** The lister a reference gets. *)
Definition informer_up (rs : URIResolver) (gvr : GroupVersionResource) : Prop :=
  gvr ∈ rsInformers rs \/ informer_error gvr = None.

Lemma listerFactory_spec gvr rs :
  let '(l, rs') := listerFactory gvr rs in
  rsTracker rs' = rsTracker rs /\ rsInformers rs ⊆ rsInformers rs' /\
  ((informer_up rs gvr /\ l = Ok (cached gvr) /\ gvr ∈ rsInformers rs') \/
   (~ informer_up rs gvr /\ exists msg, l = Err (ListerFailed msg))).
Proof.
  unfold listerFactory, informer_up. destruct (decide (gvr ∈ rsInformers rs)); [naive_solver|].
  destruct (informer_error gvr) as [msg|].
  - split_and!; [done..|]. right. split; [naive_solver|eauto].
  - cbn. split_and!; [done|set_solver|]. left. split_and!; [auto|done|set_solver].
Qed.

(** A reference, resolved. *)
Lemma addressable_ref now dest parent rs r :
  dRef dest = Some r -> invalid_fields (tracked_reference r) = [] ->
  let res := addressableFromDestinationRef now dest parent rs in
  rsTracker (rnResolver res) = (tracker_step now (Track (tracked_reference r) (source_key parent)) (rsTracker rs)).1 /\
  rnEnqueued res = (tracker_step now (Track (tracked_reference r) (source_key parent)) (rsTracker rs)).2 /\
  (informer_up rs (resource_of r) -> resource_of r ∈ rsInformers (rnResolver res)) /\
  (forall a, rnResult res = Ok a <-> informer_up rs (resource_of r) /\
     exists o, cached (resource_of r) (krNamespace r) (krName r) = Ok o /\ address_of dest r o = Ok a).
Proof.
  intros Hr Hv. cbv zeta. unfold addressableFromDestinationRef. rewrite Hr. cbn [tracker_step].
  destruct (TrackReference_valid now (tracked_reference r) (source_key parent) (rsTracker rs) Hv)
    as (t'&keys&->&_).
  pose proof (listerFactory_spec (resource_of r) (MkURIResolver t' (rsInformers rs))) as Hl.
  destruct (listerFactory _ _) as [l rs']. destruct Hl as (Ht&_&[(Hup&->&Hin)|(Hup&msg&->)]).
  - destruct (cached (resource_of r) (krNamespace r) (krName r)) as [o|m] eqn:Ec;
      cbn [rnResolver rnEnqueued rnResult fst snd]; rewrite Ht; split_and!; try done.
    + intros a. split; [|by intros (_&o'&[= <-]&?)]. intros Ha. split; [done|]. by exists o.
    + intros a. split; [done|]. by intros (_&o'&?&?).
  - cbn [rnResolver rnEnqueued rnResult fst snd]. rewrite Ht. split_and!; try done.
    intros a. split; [done|]. by intros [? _].
Qed.

Lemma addressable_refused now dest parent rs r :
  dRef dest = Some r -> invalid_fields (tracked_reference r) <> [] ->
  AddressableFromDestinationV1 now dest parent rs
  = MkResolution (Err (TrackFailed (invalid_fields (tracked_reference r)))) rs [].
Proof.
  intros Hr Hv. unfold AddressableFromDestinationV1, addressableFromDestinationRef, TrackReference.
  rewrite Hr. destruct (invalid_fields _) as [|f fs]; [done|]. cbn. destruct rs. cbn.
  by destruct (dURI dest).
Qed.

Lemma addressable_given now dest parent rs r :
  dRef dest = Some r ->
  let res := AddressableFromDestinationV1 now dest parent rs in
  let ref := addressableFromDestinationRef now dest parent rs in
  rnResolver res = rnResolver ref /\ rnEnqueued res = rnEnqueued ref /\
  forall a, rnResult res = Ok a <-> exists b, rnResult ref = Ok b /\
    match dURI dest with
    | None => a = b
    | Some rel => uScheme rel = "" /\
        a = MkAddressable (adName b) ((fun u => ResolveReference u rel) <$> adURL b) (adCACerts b) (adAudience b)
    end.
Proof.
  intros Hr. cbv zeta. unfold AddressableFromDestinationV1. rewrite Hr.
  destruct (rnResult (addressableFromDestinationRef now dest parent rs)) as [b|e] eqn:E;
    destruct (dURI dest) as [rel|] eqn:Eu.
  - unfold IsAbs. destruct (String.eqb_spec (uScheme rel) ""); cbn; split_and!; try done;
      intros a; split; try done.
    + intros [= <-]. by exists b.
    + by intros (b'&[= <-]&_&->).
    + by intros (b'&_&?&_).
  - rewrite E. split_and!; [done..|]. intros a. split; [intros [= <-]; by exists b|].
    by intros (b'&[= <-]&->).
  - rewrite E. split_and!; [done..|]. intros a. split; [done|]. by intros (b'&?&_).
  - rewrite E. split_and!; [done..|]. intros a. split; [done|]. by intros (b'&?&_).
Qed.

(** A relative URL without a user, a host or an opaque part keeps the host. *)
Lemma ResolveReference_host base rel :
  uScheme rel = "" -> uHost rel = "" -> uUser rel = None -> uOpaque rel = "" -> uOpaque base = "" ->
  uHost (ResolveReference base rel) = uHost base.
Proof.
  intros Es Eh Eu Eo Eb. unfold ResolveReference. destruct (joined_path base rel).
  rewrite Es, Eh, Eu, Eo, Eb. cbn. rewrite andb_false_r.
  destruct (_ && String.eqb (uFragment rel) ""); done.
Qed.

(** The URL of a reference. *)
Lemma ref_resolution now dest parent rs r :
  dRef dest = Some r ->
  let resolves := rnResult (URIFromDestinationV1 now dest parent rs) in
  resolves <> Ok None /\
  forall u, resolves = Ok (Some u) <->
    exists o a base, invalid_fields (tracked_reference r) = [] /\ informer_up rs (resource_of r) /\
      cached (resource_of r) (krNamespace r) (krName r) = Ok o /\
      address_of dest r o = Ok a /\ adURL a = Some base /\ uHost base <> "" /\
      match dURI dest with
      | None => u = base
      | Some rel => uScheme rel = "" /\ u = ResolveReference base rel
      end.
Proof.
  intros Er. cbv zeta. unfold URIFromDestinationV1. cbn [rnResult].
  destruct (decide (invalid_fields (tracked_reference r) = [])) as [Hv|Hv].
  2: { rewrite (addressable_refused now dest parent rs r Er Hv). cbn [rnResult].
       split; [done|]. intros u. split; [done|]. by intros (o&a&base&?&_). }
  destruct (addressable_given now dest parent rs r Er) as (_&_&Hres).
  destruct (addressable_ref now dest parent rs r Er Hv) as (_&_&_&Href).
  assert (forall a, rnResult (AddressableFromDestinationV1 now dest parent rs) = Ok a <->
    exists o b base, informer_up rs (resource_of r) /\
      cached (resource_of r) (krNamespace r) (krName r) = Ok o /\ address_of dest r o = Ok b /\
      adURL b = Some base /\ uHost base <> "" /\
      match dURI dest with
      | None => a = b
      | Some rel => uScheme rel = "" /\
          a = MkAddressable (adName b) (Some (ResolveReference base rel)) (adCACerts b) (adAudience b)
      end) as Hok.
  { intros a. rewrite Hres. split.
    - intros (b&Hb&Ha). apply Href in Hb as (Hup&o&Ho&Hb).
      destruct (address_of_host dest r o b Hb) as (base&Hbase&Hh).
      exists o, b, base. split_and!; [done..|]. by rewrite Hbase in Ha.
    - intros (o&b&base&Hup&Ho&Hb&Hbase&_&Ha). exists b. split; [apply Href; eauto|].
      by rewrite Hbase. }
  split.
  - destruct (rnResult (AddressableFromDestinationV1 now dest parent rs)) as [a|e]; [|done].
    destruct (proj1 (Hok a) eq_refl) as (o&b&base&_&_&_&Hb&_&Ha).
    destruct (dURI dest); [destruct Ha as [_ ->]; done|by rewrite Ha, Hb].
  - intros u. split.
    + destruct (rnResult (AddressableFromDestinationV1 now dest parent rs)) as [a|e]; [|done].
      intros [= Ea]. destruct (proj1 (Hok a) eq_refl) as (o&b&base&Hup&Ho&Hb&Hbase&Hh&Ha).
      exists o, b, base. split_and!; [done..|]. destruct (dURI dest) as [rel|]; [|congruence].
      destruct Ha as [? ->]. by injection Ea as <-.
    + intros (o&b&base&_&Hup&Ho&Hb&Hbase&Hh&Hu).
      rewrite (proj2 (Hok (match dURI dest with
                           | None => b
                           | Some _ => MkAddressable (adName b) (Some u) (adCACerts b) (adAudience b)
                           end))).
      * destruct (dURI dest); [done|]. by rewrite Hu, Hbase.
      * exists o, b, base. split_and!; [done..|]. destruct (dURI dest); [|done].
        by destruct Hu as [? ->].
Qed.
End lemmas.

(** ** Theorems *)

(** C31. What a sink resolves to.  Without a reference it is the URI, which must be
    absolute with a host.  With one, the reference must be one the tracker takes,
    the informer of its resource up, the object in its cache, and the object must
    give an address with a host, a service the name of the cluster; a URI beside
    it is resolved against that address and must be relative.  Nothing else
    resolves, nothing resolves to no URL at all, and as long as a relative URI
    brings no user, host or opaque part of its own, and the address has no opaque
    part, the host is that of the address, so never empty.  A URI such as
    [//other/x], which has a host, takes the place of the address's. *)
Theorem sink_resolution `{Targets} now dest parent rs u :
  let resolves := rnResult (URIFromDestinationV1 now dest parent rs) in
  resolves <> Ok None /\
  (resolves = Ok (Some u) <->
     (dRef dest = None /\ dURI dest = Some u /\ uScheme u <> "" /\ uHost u <> "") \/
     (exists r o a base, dRef dest = Some r /\ invalid_fields (tracked_reference r) = [] /\
        informer_up rs (resource_of r) /\
        cached (resource_of r) (krNamespace r) (krName r) = Ok o /\
        address_of dest r o = Ok a /\ adURL a = Some base /\ uHost base <> "" /\
        match dURI dest with
        | None => u = base
        | Some rel => uScheme rel = "" /\ u = ResolveReference base rel /\
            (uHost rel = "" -> uUser rel = None -> uOpaque rel = "" -> uOpaque base = "" ->
             uHost u = uHost base)
        end)).
Proof.
  cbv zeta. destruct (dRef dest) as [r|] eqn:Er.
  - destruct (ref_resolution now dest parent rs r Er) as [Hne Hiff]. split; [done|].
    rewrite Hiff. split.
    + intros (o&a&base&Hv&Hup&Ho&Ha&Hb&Hh&Hu). right. exists r, o, a, base. split_and!; [done..|].
      destruct (dURI dest) as [rel|]; [|done]. destruct Hu as [Es ->]. split_and!; [done..|].
      by apply ResolveReference_host.
    + intros [[? _]|(r'&o&a&base&[= <-]&Hv&Hup&Ho&Ha&Hb&Hh&Hu)]; [done|].
      exists o, a, base. split_and!; [done..|]. destruct (dURI dest); [|done]. naive_solver.
  - unfold URIFromDestinationV1, AddressableFromDestinationV1. rewrite Er.
    destruct (dURI dest) as [v|] eqn:Eu.
    + unfold IsAbs. destruct (String.eqb_spec (uScheme v) ""), (String.eqb_spec (uHost v) ""); cbn;
        (split; [done|]); (split; [try done|]); try (intros [= <-]; by left);
        intros [(_&[= <-]&?&?)|(r&o&a&base&?&_)]; done.
    + split; [done|]. split; [done|]. by intros [(_&?&_)|(r&o&a&base&?&_)].
Qed.

(** C32. The webhook and the resolver agree on sinks that are a URI: one that the
    webhook accepts resolves to itself, whatever the state of the cluster, and is
    not tracked, and one that resolves is accepted unless its certificates are
    not.  They do not agree on references: with a relative URI beside it the
    webhook accepts any reference, without looking at it, even one the resolver
    refuses in every state. *)
Theorem webhook_and_resolver `{CertLib, Targets} ctx now parent rs dest :
  (dRef dest = None ->
   (Destination_Validate ctx dest = None <->
      ca_valid (dCACerts dest) /\
      exists u, dURI dest = Some u /\
        URIFromDestinationV1 now dest parent rs = MkResolution (Ok (Some u)) rs [])) /\
  (forall r rel, dRef dest = Some r -> dURI dest = Some rel -> uScheme rel = "" ->
   ca_valid (dCACerts dest) ->
   Destination_Validate ctx dest = None /\
   (krName r = "" \/ krAPIVersion r = "" \/ krKind r = "" ->
    exists fields, URIFromDestinationV1 now dest parent rs = MkResolution (Err (TrackFailed fields)) rs [])).
Proof.
  split.
  - intros Er. rewrite Destination_Validate_nil. unfold destination_valid.
    unfold URIFromDestinationV1, AddressableFromDestinationV1. rewrite Er.
    destruct (dURI dest) as [u|]; cbn.
    + unfold IsAbs. destruct (String.eqb_spec (uScheme u) ""), (String.eqb_spec (uHost u) ""); cbn;
        (split; [try naive_solver|]); intros (?&u'&[= <-]&?); try done.
    + split; [done|]. by intros (_&u'&?&_).
  - intros r rel Er Eu Es Hca. rewrite Destination_Validate_nil. unfold destination_valid.
    rewrite Er, Eu. split; [done|]. intros Hbad.
    assert (invalid_fields (tracked_reference r) <> []) as Hv.
    { intros Hv. pose proof (valid_kind _ Hv) as [Hl Hk]. unfold invalid_fields in Hv. cbn in *.
      destruct Hbad as [E|[E|E]]; [|by rewrite E in Hl|done].
      rewrite E, !app_nil in Hv. by destruct Hv as (_&_&_&_&?). }
    exists (invalid_fields (tracked_reference r)). unfold URIFromDestinationV1.
    by rewrite (addressable_refused now dest parent rs r Er Hv).
Qed.

(** *** The resolver in the reconciler *)

(** What the reconciler sees of a resolution: the URL, or the text of the
    error. *)
Definition resolve_with `{Targets} (print : resolve_error -> string) (now : Z) (parent : YipYapSource)
    (rs : URIResolver) (dest : Destination) : result string URL :=
  match rnResult (URIFromDestinationV1 now dest parent rs) with
  | Ok (Some u) => Ok u
  | Ok None => Err ""
  | Err e => Err (print e)
  end.

Definition resolver_kube `{Targets} (print : resolve_error -> string) (now : Z) (rs : URIResolver)
    (k : Kube) : Kube := {|
  lister_get := @lister_get k;
  kube_write := @kube_write k;
  Reconcile.URIFromDestinationV1 dest parent := resolve_with print now parent rs dest
|}.

(** The tracker of a source after a resolution of its sink. *)
Lemma resolution_tracks `{Targets} now dest parent rs r :
  dRef dest = Some r -> invalid_fields (tracked_reference r) = [] ->
  let res := URIFromDestinationV1 now dest parent rs in
  let call := tracker_step now (Track (tracked_reference r) (source_key parent)) (rsTracker rs) in
  rsTracker (rnResolver res) = call.1 /\ rnEnqueued res = call.2 /\
  (informer_up rs (resource_of r) -> resource_of r ∈ rsInformers (rnResolver res)).
Proof.
  intros Hr Hv. cbv zeta. unfold URIFromDestinationV1. cbn [rnResolver rnEnqueued].
  destruct (addressable_given now dest parent rs r Hr) as (->&->&_).
  destruct (addressable_ref now dest parent rs r Hr Hv) as (->&->&Hin&_). done.
Qed.

(** A change of the object a sink refers to, while the lease runs. *)
Lemma sink_change_observed `{Targets} now until dest parent rs r o ops obj :
  dRef dest = Some r -> invalid_fields (tracked_reference r) = [] -> refers_to r o ->
  DeletionHandlingAccessor obj = Some o ->
  (now <= until <= now + leaseDuration (rsTracker rs))%Z ->
  Forall (fun nop => now <= nop.1 <= until /\ nop.2 <> ObserverDeleted (source_key parent))%Z ops ->
  source_key parent ∈ (OnChanged object_reference until obj
    (tracker_run ops (rsTracker (rnResolver (URIFromDestinationV1 now dest parent rs))))).1.
Proof.
  intros Hr Hv Ho Hobj Hu Hops. destruct (resolution_tracks now dest parent rs r Hr Hv) as (->&_&_).
  unfold OnChanged. rewrite Hobj, (object_reference_tracked r o Hv Ho).
  apply (observed_until (rsTracker rs)); done.
Qed.

(** C21. A sink is watched.  Once a source resolved a reference the tracker takes, and
    the informer of its resource is up, the informer reports to the tracker, and
    up to the end of the lease every event on the object, its deletion and a
    missed deletion included, enqueues the source, whatever other sources asked
    meanwhile.  A source that was not watching the object yet is enqueued at once
    too, for what changed before it did; one that was is not. *)
Theorem sinks_are_watched `{Targets} now dest parent rs r o :
  dRef dest = Some r -> invalid_fields (tracked_reference r) = [] -> refers_to r o ->
  let key := source_key parent in
  let res := URIFromDestinationV1 now dest parent rs in
  (informer_up rs (resource_of r) -> resource_of r ∈ rsInformers (rnResolver res)) /\
  (forall ops until obj,
     DeletionHandlingAccessor obj = Some o ->
     (now <= until <= now + leaseDuration (rsTracker rs))%Z ->
     Forall (fun nop => now <= nop.1 <= until /\ nop.2 <> ObserverDeleted key)%Z ops ->
     key ∈ (OnChanged object_reference until obj (tracker_run ops (rsTracker (rnResolver res)))).1) /\
  (rnEnqueued res = [key] <-> ~ watching (rsTracker rs) (tracked_reference r) key now) /\
  (rnEnqueued res = [] <-> watching (rsTracker rs) (tracked_reference r) key now).
Proof.
  intros Hr Hv Ho key res. destruct (resolution_tracks now dest parent rs r Hr Hv) as (_&Hk&Hin).
  split; [done|]. split; [intros; by eapply sink_change_observed|].
  unfold res. rewrite Hk. cbn [tracker_step].
  destruct (TrackReference_valid now (tracked_reference r) (source_key parent) (rsTracker rs) Hv)
    as (t'&keys&->&_&_&Hkeys). cbn [snd]. naive_solver.
Qed.

(** The environment of the container tells the sink. *)
Lemma adapter_env_sink `{UrlLib} src u u' :
  adapter_env src (Some u) = adapter_env src (Some u') -> url_String u = url_String u'.
Proof.
  unfold adapter_env, URL_String. intros E.
  repeat (destruct (spFilter _)); repeat (destruct (spCloudEventOverrides _));
    repeat case_match; simplify_eq/=; done.
Qed.

Lemma wanted_name `{UrlLib} image src u u' d d' :
  wanted image src u d -> wanted image src u' d' -> dpName d = dpName d'.
Proof.
  unfold wanted, MakeAdapterDeployment. destruct (ChildName _ _) as [name|]; [|done]. cbn.
  by intros [= <-] [= <-].
Qed.

Lemma resolve_with_address `{Targets} print now parent rs dest r o a u :
  dRef dest = Some r -> dURI dest = None ->
  invalid_fields (tracked_reference r) = [] -> informer_up rs (resource_of r) ->
  cached (resource_of r) (krNamespace r) (krName r) = Ok o ->
  address_of dest r o = Ok a -> adURL a = Some u -> resolve_with print now parent rs dest = Ok u.
Proof.
  intros Hr Hu Hv Hup Ho Ha Hau. unfold resolve_with.
  destruct (ref_resolution now dest parent rs r Hr) as [_ Hiff].
  destruct (address_of_host _ _ _ _ Ha) as (v&Hv'&Hh). assert (v = u) as -> by congruence.
  rewrite (proj2 (Hiff u)); [done|]. exists o, a, u. by rewrite Hu.
Qed.

(** C22. A new address reaches the adapter.  When the object a sink refers to, by a
    reference alone that the tracker takes and whose informer is up, shows
    another address, with another text, than the one the settled Deployment of the source
    was made for, the next reconciliation updates that Deployment, and nothing
    else, to the template with the new address as its sink; with an API server that
    fills in defaults, the stored Deployment then has one container, with the environment
    for the new address.  A further reconciliation leaves the cluster as it is, and writes
    nothing exactly when the server has filled in nothing of the template and the replicas. *)
Theorem new_addresses_reach_the_adapter `{UrlLib, Targets} clock store print now rs image src r o a
    u u' d d' c s s' :
  dRef (sink_destination src) = Some r -> dURI (sink_destination src) = None ->
  invalid_fields (tracked_reference r) = [] -> informer_up rs (resource_of r) ->
  cached (resource_of r) (krNamespace r) (krName r) = Ok o ->
  address_of (sink_destination src) r o = Ok a -> adURL a = Some u' ->
  url_String u <> url_String u' -> wanted image src u d -> wanted image src u' d' ->
  well_named c -> settled store src d c -> defaulting store ->
  let resolve := resolve_with print now src rs in
  let (o1, c1) := reconcile_in clock store resolve image src c s in
  let (o2, c2) := reconcile_in clock store resolve image src c1 s' in
  (exists cur, oWrites o1 = [WUpdate (omNamespace (yMeta src)) cur] /\
     dpName cur = dpName d' /\ dpTemplate cur = dpTemplate d') /\
  (forall k, k <> wanted_key src d' -> c1 !! k = c !! k) /\
  settled store src d' c1 /\
  (exists cur ct, c1 !! wanted_key src d' = Some cur /\
     psContainers (ptSpec (dpTemplate cur)) = [ct] /\ ctEnv ct = adapter_env src (Some u')) /\
  c2 = c1 /\
  (oWrites o2 = [] <->
     exists cur, c1 !! wanted_key src d' = Some cur /\
       dpTemplate cur = dpTemplate d' /\ dpReplicas cur = dpReplicas d').
Proof.
  intros Hr Hu Hv Hup Ho Ha Hau' Hne Hd Hd' Hc Hset Hdf.
  assert (resolve_with print now src rs (sink_destination src) = Ok u') as Hres
    by by eapply resolve_with_address.
  destruct (settled_container store image src u d c Hd Hdf Hset) as (cur&ct&Hcur&Hct&_&Henv).
  assert (wanted_key src d = wanted_key src d') as Hkey
    by (unfold wanted_key; by rewrite (wanted_name image src u u' d d')).
  rewrite Hkey in Hcur.
  assert (drifted d' cur = true) as Hdr.
  { destruct (drifted d' cur) eqn:E; [done|]. apply drifted_spec in E as [E _]. destruct Hne.
    apply (adapter_env_sink src). rewrite <- Henv. rewrite E in Hct.
    destruct (wanted_container image src u' d' Hd') as (ct'&Hct'&_&Henv'). congruence. }
  pose proof (df_name store Hdf) as Hname.
  pose proof (reconcile_in_writes clock store _ image src u' d' Hres Hd' c s Hc) as [_ Hw1].
  pose proof (reconcile_in_cluster clock store _ image src u' d' Hres Hd' Hname c s Hc) as [Hc1 _].
  pose proof (reconcile_in_settles clock store _ image src u' d' Hres Hd' Hname c s Hdf Hc)
    as (_&Hs1&Ho1).
  cbv zeta. destruct (reconcile_in _ _ _ _ _ c s) as [o1 c1]. cbn [fst snd] in *.
  pose proof (reconcile_in_again clock store _ image src u' d' Hres Hd' Hname c1 s' Hdf Hc1 Hs1)
    as (_&Hc2&Hw2&_).
  destruct (reconcile_in _ _ _ _ _ c1 s') as [o2 c2]. cbn [fst snd] in *.
  rewrite Hcur, Hdr in Hw1. apply Hc in Hcur.
  destruct (settled_container store image src u' d' c1 Hd' Hdf Hs1) as (cur1&ct1&?&?&_&?).
  split_and!; try done; [|by exists cur1, ct1].
  exists (with_template (dpTemplate d') (dpReplicas d') cur). split_and!; [done|exact Hcur|done].
Qed.

(** ** Witnesses *)

(** A broker with an address, in the only cache there is. *)
Definition sample_broker (u : URL) : AddressableType :=
  MkAddressableType "eventing.knative.dev/v1" "Broker" "default" "default" None
    [MkAddressable (Some "http") (Some u) None None].

Definition sample_targets (u : URL) : Targets := {|
  informer_error gvr :=
    if String.eqb (gvrResource gvr) "brokers" then None else Some "the server could not find the resource";
  cached _ ns name :=
    if String.eqb ns "default" && String.eqb name "default" then Ok (sample_broker u)
    else Err "not found";
  clusterDomainEnv := "";
  resolv_conf := Some ["nameserver 10.96.0.10"; "search default.svc.local svc.cluster.test. local"];
  joined_path base rel := (uPath rel, "")
|}.

Definition sample_resolver : URIResolver := NewURIResolverFromTracker (newTracker 36000).
Definition new_url : URL := mk_url "https" "broker-ingress.tls.svc" "/default/default".

Lemma sink_resolution_witness :
  rnResult (URIFromDestinationV1 (H := sample_targets new_url) 0 (sink_destination sample_source)
    sample_source sample_resolver) = Ok (Some new_url) /\
  rnResult (URIFromDestinationV1 (H := sample_targets new_url) 0
    (MkDestination (Some (MkKReference "Service" "default" "default" "v1" "" None)) None None None)
    sample_source sample_resolver) <> Ok None.
Proof.
  split.
  - apply (sink_resolution (H := sample_targets new_url)). right.
    exists (MkKReference "Broker" "default" "default" "eventing.knative.dev/v1" "" None),
      (sample_broker new_url), (MkAddressable (Some "http") (Some new_url) None None), new_url.
    repeat split; try (vm_compute; reflexivity); [right; vm_compute; reflexivity|discriminate].
  - apply (sink_resolution (H := sample_targets new_url) 0 _ sample_source sample_resolver new_url).
Defined.

(** Four hours after the sink was resolved the broker changes. *)
Lemma sinks_are_watched_witness :
  let key := source_key sample_source in
  let res := URIFromDestinationV1 (H := sample_targets sample_url) 0 (sink_destination sample_source)
               sample_source sample_resolver in
  rnEnqueued res = [key] /\
  key ∈ (OnChanged object_reference 14400 (Object (sample_broker new_url)) (rsTracker (rnResolver res))).1.
Proof.
  cbv zeta.
  destruct (sinks_are_watched (H := sample_targets sample_url) 0 (sink_destination sample_source)
    sample_source sample_resolver
    (MkKReference "Broker" "default" "default" "eventing.knative.dev/v1" "" None)
    (sample_broker new_url)) as (_&Hops&Hnew&_).
  - reflexivity.
  - vm_compute. reflexivity.
  - repeat split.
  - split.
    + apply Hnew. intros (e&He&_). vm_compute in He. discriminate.
    + apply (Hops [] 14400%Z); [reflexivity|split; vm_compute; discriminate|constructor].
Defined.

(** A reference nobody can follow passes the webhook with a relative URI beside it. *)
Lemma webhook_and_resolver_witness :
  let dest := MkDestination (Some (MkKReference "" "" "" "" "" None)) (Some (mk_url "" "" "/events"))
                None None in
  Destination_Validate (H := no_cert_lib) background dest = None /\
  exists fields, URIFromDestinationV1 (H := sample_targets sample_url) 0 dest sample_source sample_resolver
    = MkResolution (Err (TrackFailed fields)) sample_resolver [].
Proof.
  cbv zeta.
  destruct (webhook_and_resolver (H := no_cert_lib) (H0 := sample_targets sample_url) background 0
    sample_source sample_resolver
    (MkDestination (Some (MkKReference "" "" "" "" "" None)) (Some (mk_url "" "" "/events")) None None))
    as [_ Href].
  destruct (Href _ _ eq_refl eq_refl eq_refl I) as [Hv Hbad]. split; [exact Hv|].
  apply Hbad. left. reflexivity.
Defined.

Definition new_deployment : Deployment :=
  default sample_deployment
    (MakeAdapterDeployment (H := plain_url_lib) sample_source (Some new_url) sample_image).

(** The address of the broker changes under a settled source. *)
Lemma new_addresses_reach_the_adapter_witness :
  let c : cluster := {[ ("default", dpName sample_deployment) := default_deployment sample_deployment ]} in
  let resolve := resolve_with (H := sample_targets new_url) (fun _ => "unresolved") 0 sample_source
                   sample_resolver in
  let r := reconcile_in (H := plain_url_lib) Z.of_nat default_deployment resolve sample_image sample_source c
             start in
  settled default_deployment sample_source new_deployment r.2.
Proof.
  cbv zeta.
  pose proof (new_addresses_reach_the_adapter (H := plain_url_lib) (H0 := sample_targets new_url)
    Z.of_nat default_deployment (fun _ => "unresolved") 0 sample_resolver sample_image sample_source
    (MkKReference "Broker" "default" "default" "eventing.knative.dev/v1" "" None)
    (sample_broker new_url) (MkAddressable (Some "http") (Some new_url) None None)
    sample_url new_url sample_deployment new_deployment
    {[ ("default", dpName sample_deployment) := default_deployment sample_deployment ]} start start) as Hc.
  cbv zeta in Hc.
  destruct (reconcile_in (H := plain_url_lib) Z.of_nat default_deployment _ _ _
    {[ ("default", dpName sample_deployment) := default_deployment sample_deployment ]} start) as [o1 c1].
  destruct (reconcile_in (H := plain_url_lib) Z.of_nat default_deployment _ _ _ c1 start) as [o2 c2].
  destruct Hc as (_&_&Hs&_).
  - reflexivity.
  - reflexivity.
  - vm_compute. reflexivity.
  - right. vm_compute. reflexivity.
  - vm_compute. reflexivity.
  - vm_compute. reflexivity.
  - reflexivity.
  - vm_compute. discriminate.
  - exact sample_wanted.
  - vm_compute. reflexivity.
  - apply map_Forall_singleton. reflexivity.
  - eexists. split; [apply lookup_singleton_eq|]. right. exists sample_deployment.
    split; apply drifted_refl.
  - exact default_deployment_defaulting.
  - exact Hs.
Defined.
