(* ===== verification/ControlLoop.v ===== *)
(** * From a change to a run (controller.go of the reconciler, knative.dev/pkg/controller)

    Composes the handlers that [NewController] installs (Wiring.v), the promotion
    of a bucket (Leader.v), the work queue with its workers (TwoLane.v) and what a
    worker does with the key it ran (Wiring.v): what changes a source, a
    Deployment it owns or the object its sink refers to is followed by a run of that source. *)

From S2P Require Import Prelude GoStrings GoTime Types Api Names Deployment Reconcile KindReconciler.
From S2P Require Import Leader Controller Wiring Workqueue TwoLane Tracker Resolver.
Local Open Scope string_scope.
Local Open Scope list_scope.

(** ** What enqueues keys *)




(** ** What a worker does with its key *)


(** ** Lemmas *)





(** What the runs of a source ask of the resolver holds of the real one. *)
Lemma resolver_kube_ignores_status `{Targets} print now rs k :
  resolver_ignores_status (resolver_kube print now rs k).
Proof. intros d y st. reflexivity. Qed.

(** ** Theorems *)



(** ** Witnesses *)





