(* ===== verification/Process.v ===== *)
(** * The controller process (cmd/controller/main.go)

    [main] is one call of [sharedmain.Main] with [NewController]: build the
    clients and the controller, start the informers and wait for their caches,
    then run the controller next to the profiling server and the health probes
    until a signal, or one of them, ends it (sharedmain/main.go, with
    [StartInformers], [StartAll] and [RunContext] of controller.go and
    health_check.go, all of knative.dev/pkg).

    The goroutines interleave with those of the work queue (TwoLane.v): a state
    holds where each of them is, and a label is one step of one of them.  The
    workers are those of [TwoLane.init]; before [RunContext] launches them their
    steps cannot be taken.  The setup before the informers start (Injection.v),
    the ConfigMap watcher, metrics, and how an elector elects are not modelled:
    that an elector is built or not, and that a server fails to listen, are
    labels. *)

From S2P Require Import Prelude Workqueue Wiring TwoLane Leader.
Local Open Scope list_scope.

Section process.
Context {T : Type} `{Countable T}.

(** ** The state *)

(** Where the main goroutine is: in the loop of [StartInformers], at the informer
    [i], whose condition was found false at least once or not; waiting for the
    context of the group; in [eg.Wait]; returned; or in [Fatalw], with the index
    of the message.  [Dead] is the end another goroutine puts to the process: the
    signal handler's (signals.go), or the elector's (leaderelection/context.go). *)
Inductive death := SecondSignal | PromoteFailed.

Inductive main_pc :=
| Syncing (i : nat) (polled : bool)
| Serving
| Awaiting
| Exited
| Fatal (i : nat)
| Dead (cause : death).

(** Where [RunContext] is: not called yet; waiting for the context, the workers
    launched; in its deferred function, shutting the queue down and waiting for
    its length to be zero, or waiting for the goroutines; or returned.  [failed]
    is whether it returns an error. *)
Inductive run_pc :=
| Uncalled
| Running
| Draining (failed : bool)
| Joining (failed : bool)
| Returned (failed : bool).

(** A goroutine of the group that listens: [Down failed] once it returned. *)
Inductive server := Up | Down (failed : bool).

Record process := MkProcess {
  (** whether the cache of each informer has synced *)
  informers : list bool;
  main : main_pc;
  (** whether the signal came, which cancels the context *)
  signalled : bool;
  controller : run_pc;
  (** whether the elector runs *)
  elector : bool;
  pprof : server;
  probes : server;
  workQueue : state T
}.

Definition boot (n_informers threadiness : nat) : process :=
  MkProcess (replicate n_informers false) (Syncing 0 false) false Uncalled false Up Up
    (init threadiness).

Definition set_informers (l : list bool) (p : process) : process :=
  MkProcess l (main p) (signalled p) (controller p) (elector p) (pprof p) (probes p) (workQueue p).
Definition set_main (m : main_pc) (p : process) : process :=
  MkProcess (informers p) m (signalled p) (controller p) (elector p) (pprof p) (probes p)
    (workQueue p).
Definition set_signalled (p : process) : process :=
  MkProcess (informers p) (main p) true (controller p) (elector p) (pprof p) (probes p)
    (workQueue p).
Definition set_controller (c : run_pc) (e : bool) (p : process) : process :=
  MkProcess (informers p) (main p) (signalled p) c e (pprof p) (probes p) (workQueue p).
Definition set_servers (pp pr : server) (p : process) : process :=
  MkProcess (informers p) (main p) (signalled p) (controller p) (elector p) pp pr (workQueue p).
Definition set_workQueue (s : state T) (p : process) : process :=
  MkProcess (informers p) (main p) (signalled p) (controller p) (elector p) (pprof p) (probes p) s.

(** ** The main goroutine *)

(** One evaluation of the condition of [WaitForCacheSync] at the informer [i]; past
    the last one, [StartInformers] returns and the goroutines of the group start. *)
Definition poll_caches (p : process) : option process :=
  match main p with
  | Syncing i _ =>
      Some (match informers p !! i with
            | Some true => set_main (Syncing (S i) false) p
            | Some false => set_main (Syncing i true) p
            | None => set_main Serving p
            end)
  | _ => None
  end.

(** [WaitForCacheSync] gives up when the channel is closed, but not before a first
    evaluation. *)
Definition abandon_start (p : process) : option process :=
  match main p with
  | Syncing i true => if signalled p then Some (set_main (Fatal i) p) else None
  | _ => None
  end.

(** Whether the group has started the controller and the probes. *)
Definition started (p : process) : bool :=
  match main p with Serving | Awaiting => true | _ => false end.

(** Whether the context of the group is done: with its parent, or when a function
    of the group returned an error. *)
Definition group_done (p : process) : bool :=
  signalled p
  || match controller p with Returned true => true | _ => false end
  || match pprof p with Down true => true | _ => false end
  || match probes p with Down true => true | _ => false end.

(** The main goroutine goes on to [pprof.Shutdown] and [eg.Wait]. *)
Definition stop_serving (p : process) : option process :=
  match main p with
  | Serving => if group_done p then Some (set_main Awaiting p) else None
  | _ => None
  end.

Definition wait_group (p : process) : option process :=
  match main p, controller p, pprof p, probes p with
  | Awaiting, Returned _, Down _, Down _ => Some (set_main Exited p)
  | _, _, _, _ => None
  end.

(** ** The servers *)

(** [server.ListenAndServe] of the probes fails, or returns because of the
    signal, which [ServeHealthProbes] does not count as an error. *)
Definition probes_return (failed : bool) (p : process) : option process :=
  match probes p with
  | Up => if started p && (failed || signalled p) then Some (set_servers (pprof p) (Down failed) p)
          else None
  | Down _ => None
  end.

(** [pprof.ListenAndServe] fails, or returns [ErrServerClosed] after [Shutdown];
    both are errors to the group. *)
Definition pprof_return (closed : bool) (p : process) : option process :=
  match pprof p, main p with
  | Up, Awaiting => Some (set_servers (Down true) (probes p) p)
  | Up, _ => if closed then None else Some (set_servers (Down true) (probes p) p)
  | Down _, _ => None
  end.

(** What a GET of /health or of /readiness is answered with: nothing, when nobody
    listens. *)
Definition health (p : process) : option Z :=
  match probes p with
  | Up => if started p then Some (if signalled p then 500 else 200)%Z else None
  | Down _ => None
  end.

(** ** The controller (RunContext) *)

(** The elector is built or not; when it is, the elector and the workers run. *)
Definition build_elector (ok : bool) (p : process) : option process :=
  match controller p with
  | Uncalled =>
      if started p
      then Some (if ok then set_controller Running true p
                 else set_controller (Draining true) (elector p) p)
      else None
  | _ => None
  end.

Definition run_cancelled (p : process) : option process :=
  match controller p with
  | Running => if signalled p then Some (set_controller (Draining false) (elector p) p) else None
  | _ => None
  end.

(** [Len] of the two-lane queue. *)
Definition tlq_Len (s : state T) : nat :=
  Len (lnQueue (fastLane s)) + Len (lnQueue (slowLane s)) + Len (consumerQueue s).

(** [ShutDown] has returned and the loop over [Len] ends. *)
Definition run_drained (p : process) : option process :=
  match controller p with
  | Draining failed =>
      if (shut (workQueue p) =? 3)%nat && (tlq_Len (workQueue p) =? 0)%nat
      then Some (set_controller (Joining failed) (elector p) p) else None
  | _ => None
  end.

Definition is_gone (wk : worker T) : bool := match wk with Gone => true | _ => false end.

(** [sg.Wait]: no worker was launched when the elector could not be built. *)
Definition run_returns (p : process) : option process :=
  match controller p with
  | Joining failed =>
      if negb (elector p) && (failed || forallb is_gone (workers (workQueue p)))
      then Some (set_controller (Returned failed) false p) else None
  | _ => None
  end.

(** The elector was built, and with it the goroutines that promote. *)
Definition elector_built (p : process) : bool :=
  match controller p with
  | Running | Draining false | Joining false | Returned false => true
  | _ => false
  end.

(** The elector won a bucket, and [Promote] failed: [Fatalf]. *)
Definition promotion_fails (p : process) : option process :=
  if elector_built p then Some (set_main (Dead PromoteFailed) p) else None.

(** The handler of [SetupSignalHandler]: the first signal cancels the context, the
    second is [os.Exit(1)]. *)
Definition receive_signal (p : process) : process :=
  if signalled p then set_main (Dead SecondSignal) p else set_signalled p.

Definition launched (p : process) : bool :=
  match controller p with Running | Draining false | Joining false => true | _ => false end.
Definition shutting (p : process) : bool :=
  match controller p with Draining _ => true | _ => false end.

Definition is_worker (la : label T) : bool :=
  match la with LGet _ _ | LExit _ | LAct _ _ _ | LDone _ => true | _ => false end.
Definition is_shut (la : label T) : bool := match la with LShut => true | _ => false end.

(** A step of the queue, its handlers and its workers: only the deferred function
    of [RunContext] shuts the queue down. *)
Definition queue_step (la : label T) (p : process) : option process :=
  if (is_worker la && negb (launched p)) || (is_shut la && negb (shutting p)) then None
  else s ← step (workQueue p) la; Some (set_workQueue s p).

(** ** Steps *)

Inductive event :=
| PSynced (i : nat)
| PSignal
| PPromoteFails
| PPoll
| PGiveUp
| PElector (ok : bool)
| PElectorReturns
| PCancelled
| PDrained
| PReturn
| PPprof (closed : bool)
| PProbes (failed : bool)
| PStopServing
| PExit
| PQueue (la : label T).

Definition over (p : process) : bool :=
  match main p with Exited | Fatal _ | Dead _ => true | _ => false end.

(** [main] returns, or a goroutine calls [os.Exit(1)]: [Fatalw], [Fatalf] do. *)
Definition exit_status (p : process) : option Z :=
  match main p with
  | Exited => Some 0%Z
  | Fatal _ | Dead _ => Some 1%Z
  | _ => None
  end.

Definition pstep (p : process) (e : event) : option process :=
  if over p then None
  else
    match e with
    | PSynced i => Some (set_informers (<[i := true]> (informers p)) p)
    | PSignal => Some (receive_signal p)
    | PPromoteFails => promotion_fails p
    | PPoll => poll_caches p
    | PGiveUp => abandon_start p
    | PElector ok => build_elector ok p
    | PElectorReturns =>
        if elector p then Some (set_controller (controller p) false p) else None
    | PCancelled => run_cancelled p
    | PDrained => run_drained p
    | PReturn => run_returns p
    | PPprof closed => pprof_return closed p
    | PProbes failed => probes_return failed p
    | PStopServing => stop_serving p
    | PExit => wait_group p
    | PQueue la => queue_step la p
    end.

Fixpoint prun (es : list event) (p : process) : option process :=
  match es with
  | [] => Some p
  | e :: es => p ← pstep p e; prun es p
  end.

Definition preachable (n_informers threadiness : nat) (p : process) : Prop :=
  exists es, prun es (boot n_informers threadiness) = Some p.
End process.

Arguments process T {_ _} : assert.
Arguments event T : clear implicits.

(** The program: the informers of sources and of Deployments, and the workers of
    [DefaultThreadsPerController]. *)
Definition DefaultThreadsPerController : nat := 2.
Definition controller_main : process NamespacedName := boot 2 DefaultThreadsPerController.

Section theorems.
Context {T : Type} `{Countable T}.
Implicit Types (p : process T) (s : state T) (x : T).

(** ** The invariant *)

Definition all_synced p : Prop := Forall (fun b => b = true) (informers p).

Definition main_ok p : Prop :=
  match main p with
  | Syncing i _ => (forall j, j < i -> informers p !! j = Some true) /\ controller p = Uncalled
  | Serving | Awaiting => all_synced p
  | Exited => all_synced p /\ (exists failed, controller p = Returned failed) /\ probes p <> Up
  | Fatal _ => controller p = Uncalled /\ signalled p = true
  | Dead SecondSignal => signalled p = true
  | Dead PromoteFailed => all_synced p /\ elector_built p = true
  end.

Definition controller_ok (n : nat) p : Prop :=
  match controller p with
  | Uncalled | Draining true | Joining true | Returned true =>
      workers (workQueue p) = replicate n Waiting
  | Running => True
  | Draining false | Joining false => signalled p = true
  | Returned false =>
      signalled p = true /\ Forall (fun wk => wk = Gone) (workers (workQueue p))
  end.

Record process_ok (n : nat) p : Prop := {
  po_queue : state_ok (workQueue p);
  po_main : main_ok p;
  po_controller : controller_ok n p;
  po_probes : probes p = Down false -> signalled p = true
}.

Lemma boot_ok k n : process_ok n (@boot T _ _ k n).
Proof. split; [apply init_ok|split; [intros j Hj; lia|done]|done..]. Qed.

Lemma synced_insert i p : all_synced p -> all_synced (set_informers (<[i := true]> (informers p)) p).
Proof. intros Hp. by apply Forall_insert. Qed.

Lemma synced_below p :
  (forall j, j < length (informers p) -> informers p !! j = Some true) -> all_synced p.
Proof.
  intros Hj. apply Forall_lookup_2. intros j b Hb.
  rewrite (Hj j) in Hb by by eapply lookup_lt_Some. by injection Hb.
Qed.

Lemma poll_caches_ok n p p' : process_ok n p -> poll_caches p = Some p' -> process_ok n p'.
Proof.
  intros [Hq Hm Hc Hp]. unfold main_ok, poll_caches in *.
  destruct (main p) as [i b| | | | |] eqn:Em; try done. destruct Hm as [Hi Hu].
  destruct (informers p !! i) as [[]|] eqn:Ei; intros [= <-]; split; cbn; try done; split_and?; try done.
  - intros j Hj. destruct (decide (j = i)) as [->|]; [done|]. apply Hi. lia.
  - apply synced_below. intros j Hj. apply Hi. apply lookup_ge_None in Ei. cbn in Hj. lia.
Qed.

(** The workers move by their own steps only. *)
Lemma workers_step s la s' :
  step s la = Some s' -> is_worker la = false -> workers s' = workers s.
Proof.
  intros Hstep Hw.
  destruct la as [x|x|x d|t| |f|f| |f| |x| |w x|w|w a b|w]; try done; cbn [step] in Hstep;
    unfold shut_step, consumer_top, consumer_both, receive_fast, receive_slow, loop_receive,
      loop_fire, loop_exit, addAfter in Hstep; repeat (case_match; simplify_eq); simplify_option_eq;
    done.
Qed.

Lemma queue_step_ok n la p p' : process_ok n p -> queue_step la p = Some p' -> process_ok n p'.
Proof.
  intros [Hq Hm Hc Hp]. unfold queue_step. destruct (_ || _) eqn:Eg; [done|].
  destruct (step (workQueue p) la) as [s|] eqn:Es; [|done]. intros [= <-].
  split; [by eapply step_ok|done| |done].
  apply orb_false_iff in Eg as [Ew _]. unfold controller_ok, launched in *. cbn.
  assert (is_worker la = false -> workers s = workers (workQueue p)) as Hsame
    by (intros; by eapply workers_step).
  destruct (controller p) as [| |[]|[]|[]]; try done; rewrite andb_true_r in Ew;
    rewrite Hsame by done; done.
Qed.

Lemma gone_all (l : list (worker T)) : forallb is_gone l = true -> Forall (fun wk => wk = Gone) l.
Proof.
  rewrite forallb_forall, Forall_forall.
  intros Hl wk Hwk%list_elem_of_In. apply Hl in Hwk. by destruct wk.
Qed.

Lemma started_synced n p : process_ok n p -> started p = true -> all_synced p.
Proof. intros [_ Hm _ _]. unfold main_ok, started in *. by destruct (main p). Qed.

(** Before the group starts [RunContext] is not called, so a step of it is one of
    a process that has started. *)
Lemma called_started n p :
  process_ok n p -> over p = false -> controller p <> Uncalled -> started p = true.
Proof.
  intros [_ Hm _ _] Ho Hu. unfold main_ok, started, over in *.
  destruct (main p); try done. by destruct Hm.
Qed.

Lemma set_controller_ok n c e p :
  process_ok n p -> started p = true -> controller_ok n (set_controller c e p) ->
  process_ok n (set_controller c e p).
Proof.
  intros [Hq Hm Hc Hp] Hs Hc'. split; try done. unfold main_ok, started in *. cbn.
  by destruct (main p).
Qed.

Lemma build_elector_ok n ok p p' :
  process_ok n p -> build_elector ok p = Some p' -> process_ok n p'.
Proof.
  intros Hok. unfold build_elector. destruct (controller p) eqn:Ec; try done.
  destruct (started p) eqn:Es; [|done]. pose proof (po_controller _ _ Hok) as Hc.
  unfold controller_ok in Hc. rewrite Ec in Hc.
  intros [= <-]. destruct ok; by apply set_controller_ok.
Qed.

Lemma run_context_ok n p p' :
  process_ok n p -> over p = false ->
  run_cancelled p = Some p' \/ run_drained p = Some p' \/ run_returns p = Some p' ->
  process_ok n p'.
Proof.
  intros Hok Ho Hs. pose proof (po_controller _ _ Hok) as Hc. unfold controller_ok in Hc.
  assert (controller p <> Uncalled) as Hu by
    (intros Hu; unfold run_cancelled, run_drained, run_returns in Hs; rewrite Hu in Hs; naive_solver).
  pose proof (called_started _ _ Hok Ho Hu) as Hst.
  destruct Hs as [Hs|[Hs|Hs]]; unfold run_cancelled, run_drained, run_returns in Hs;
    destruct (controller p) as [| |f|f|f]; try done.
  - destruct (signalled p) eqn:E; [|done]. injection Hs as <-. by apply set_controller_ok.
  - destruct (_ && _); [|done]. injection Hs as <-. apply set_controller_ok; [done..|]. by destruct f.
  - destruct (_ && _) eqn:E; [|done]. injection Hs as <-. apply set_controller_ok; [done..|].
    destruct f; [done|]. split; [done|]. apply andb_true_iff in E as [_ E]. by apply gone_all.
Qed.

Lemma elector_returns_ok n p : process_ok n p -> process_ok n (set_controller (controller p) false p).
Proof. intros [Hq Hm Hc Hp]. by split. Qed.

Lemma set_servers_ok n pp pr p :
  process_ok n p -> pr <> Up \/ probes p = pr -> (pr = Down false -> signalled p = true) ->
  process_ok n (set_servers pp pr p).
Proof.
  intros [Hq Hm Hc Hp] Hpr Hdown. split; try done. unfold main_ok in *. cbn.
  destruct (main p); try done. destruct Hm as (?&?&?). split_and!; try done. naive_solver.
Qed.

Lemma servers_ok n b p p' :
  process_ok n p -> probes_return b p = Some p' \/ pprof_return b p = Some p' -> process_ok n p'.
Proof.
  intros Hok [Hs|Hs].
  - unfold probes_return in Hs. destruct (probes p) eqn:Ep; [|done].
    destruct (started p && (b || signalled p)) eqn:E; [|done]. injection Hs as <-.
    apply andb_true_iff in E as [_ E].
    apply set_servers_ok; [done|by left|]. intros [= ->]. by destruct (signalled p).
  - assert (p' = set_servers (Down true) (probes p) p) as ->
      by (unfold pprof_return in Hs; destruct (pprof p), (main p), b; congruence).
    apply set_servers_ok; [done|by right|apply Hok].
Qed.

Lemma main_steps_ok n p p' :
  process_ok n p -> abandon_start p = Some p' \/ stop_serving p = Some p' \/ wait_group p = Some p' ->
  process_ok n p'.
Proof.
  intros [Hq Hm Hc Hp] Hs. unfold abandon_start, stop_serving, wait_group, main_ok in *.
  destruct (main p) as [i [|]| | | | |]; try (destruct Hs as [?|[?|?]]; done).
  - destruct Hs as [Hs|[?|?]]; [|done..]. destruct (signalled p) eqn:E; [|done].
    injection Hs as <-. split; try done. split; [apply Hm|done].
  - destruct Hs as [?|[Hs|?]]; [done| |done]. destruct (group_done p); [|done].
    injection Hs as <-. by split.
  - destruct Hs as [?|[?|Hs]]; [done..|].
    destruct (controller p) eqn:Ec, (pprof p), (probes p) eqn:Ep; try done; injection Hs as <-.
    split; try done; [|cbn; rewrite Ep; exact Hp].
    unfold main_ok. cbn. rewrite Ec, Ep. eauto.
Qed.

Lemma informer_synced_ok n i p :
  process_ok n p -> process_ok n (set_informers (<[i := true]> (informers p)) p).
Proof.
  intros [Hq Hm Hc Hp]. split; try done. unfold main_ok in *. cbn.
  destruct (main p); try by apply synced_insert.
  - destruct Hm as [Hi Hu]. split; [|done]. intros j Hj. specialize (Hi _ Hj).
    destruct (decide (i = j)) as [->|]; [|by rewrite list_lookup_insert_ne].
    apply list_lookup_insert_eq. by eapply lookup_lt_Some.
  - destruct Hm as (?&?&?). split; [by apply synced_insert|done].
  - done.
  - destruct cause; [done|]. destruct Hm as [? ?]. split; [by apply synced_insert|done].
Qed.

Lemma signalled_ok n p : process_ok n p -> process_ok n (set_signalled p).
Proof.
  intros [Hq Hm Hc Hp]. unfold main_ok, controller_ok in *. split; try done.
  - unfold main_ok. cbn. destruct (main p) as [| | | | |[]]; try done. by destruct Hm.
  - unfold controller_ok. cbn. destruct (controller p) as [| |[]|[]|[]]; try done. by destruct Hc.
Qed.

Lemma signal_ok n p : process_ok n p -> process_ok n (receive_signal p).
Proof.
  intros Hok. unfold receive_signal. destruct (signalled p) eqn:E; [|by apply signalled_ok].
  destruct Hok as [Hq Hm Hc Hp]. by split.
Qed.

Lemma promotion_fails_ok n p p' :
  process_ok n p -> over p = false -> promotion_fails p = Some p' -> process_ok n p'.
Proof.
  intros Hok Ho. unfold promotion_fails. destruct (elector_built p) eqn:E; [|done]. intros [= <-].
  assert (all_synced p) as Hs.
  { eapply started_synced, called_started; [done..|]. intros Hu.
    unfold elector_built in E. by rewrite Hu in E. }
  destruct Hok as [Hq Hm Hc Hp]. by split.
Qed.

Lemma pstep_ok n p e p' : process_ok n p -> pstep p e = Some p' -> process_ok n p'.
Proof.
  intros Hok. unfold pstep. destruct (over p) eqn:Eo; [done|]. intros Hs. destruct e.
  - injection Hs as <-. by apply informer_synced_ok.
  - injection Hs as <-. by apply signal_ok.
  - by eapply promotion_fails_ok.
  - by eapply poll_caches_ok.
  - eapply main_steps_ok; eauto.
  - by eapply build_elector_ok.
  - destruct (elector p); [|done]. injection Hs as <-. by apply elector_returns_ok.
  - eapply run_context_ok; eauto.
  - eapply run_context_ok; eauto.
  - eapply run_context_ok; eauto.
  - eapply servers_ok; eauto.
  - eapply servers_ok; eauto.
  - eapply main_steps_ok; eauto.
  - eapply main_steps_ok; eauto.
  - by eapply queue_step_ok.
Qed.

Lemma prun_ok n es p p' : process_ok n p -> prun es p = Some p' -> process_ok n p'.
Proof.
  revert p. induction es as [|e es IH]; intros p Hok Hr; cbn [prun] in Hr; [by injection Hr as <-|].
  destruct (pstep p e) eqn:E; [|done]. eapply IH; [|exact Hr]. by eapply pstep_ok.
Qed.

Lemma preachable_ok k n p : preachable k n p -> process_ok n p.
Proof. intros [es Hr]. eapply prun_ok; [apply boot_ok|exact Hr]. Qed.

(** ** Start and end *)

(** C20. No worker takes a key before the cache of every informer has synced; the
    start is given up, with status 1, only because of a signal, and then no worker
    ever ran.  A process that exits with status 0 has been told to, its workers have
    returned, and no key that was in a lane is left behind; or else no elector could be
    built and no worker ever ran, and even then it stays until a signal or until its
    probes fail.  Any other end is abrupt, with status 1 and whatever was left in the
    lanes: a second signal, at any time after the first, or a promotion that
    failed in an elector that was built, hence after every cache has synced. *)
Theorem workers_wait_for_caches k n p :
  preachable k n p ->
  (forall w x p', pstep p (PQueue (LGet w x)) = Some p' -> all_synced p) /\
  (forall i, main p = Fatal i ->
     signalled p = true /\ workers (workQueue p) = replicate n Waiting) /\
  (exit_status p = Some 0%Z ->
     (signalled p = true /\ Forall (fun wk => wk = Gone) (workers (workQueue p)) /\
      (workers (workQueue p) <> [] -> forall x, ~ in_lanes x (workQueue p)))
     \/ (controller p = Returned true /\ workers (workQueue p) = replicate n Waiting /\
         (signalled p = true \/ probes p = Down true))) /\
  (exit_status p = Some 1%Z ->
     (exists i, main p = Fatal i) \/ (main p = Dead SecondSignal /\ signalled p = true) \/
     (main p = Dead PromoteFailed /\ all_synced p /\ elector_built p = true)) /\
  (exit_status p = None -> signalled p = true ->
     exists p', pstep p PSignal = Some p' /\ exit_status p' = Some 1%Z /\ workQueue p' = workQueue p).
Proof.
  intros Hok%preachable_ok. split_and!.
  - intros w x p' Hs. unfold pstep in Hs. destruct (over p) eqn:Eo; [done|].
    unfold queue_step in Hs. cbn [is_worker is_shut andb] in Hs. rewrite orb_false_r in Hs.
    destruct (launched p) eqn:El; [|done]. unfold launched in El.
    eapply started_synced, called_started; try done. intros Hu. by rewrite Hu in El.
  - intros i Em. destruct Hok as [_ Hm Hc _]. unfold main_ok in Hm. rewrite Em in Hm.
    destruct Hm as [Hu Hsig]. unfold controller_ok in Hc. by rewrite Hu in Hc.
  - intros Ex. assert (main p = Exited) as Em by (unfold exit_status in Ex; by destruct (main p)).
    destruct Hok as [Hq Hm Hc Hp]. unfold main_ok in Hm. rewrite Em in Hm.
    destruct Hm as (_&[[] Ec]&Hup); unfold controller_ok in Hc; rewrite Ec in Hc.
    + right. split_and!; [done..|]. destruct (probes p) as [|[]]; [done|by right|left; by apply Hp].
    + left. destruct Hc. split_and!; [done..|]. intros Hne x. by apply gone_clears_lanes.
  - intros Ex. destruct Hok as [_ Hm _ _]. unfold main_ok, exit_status in *.
    destruct (main p) as [| | | |i|[]]; try done; eauto.
  - intros Ex Hsig. exists (set_main (Dead SecondSignal) p).
    unfold pstep, receive_signal. assert (over p = false) as ->.
    { unfold over, exit_status in *. by destruct (main p). }
    by rewrite Hsig.
Qed.

(** Once every cache has synced, the main goroutine goes on to start the group, and
    the controller can launch its workers. *)
Theorem the_process_comes_up k n p i b :
  preachable k n p -> main p = Syncing i b -> all_synced p ->
  exists m p', prun (replicate m PPoll ++ [PElector true]) p = Some p' /\
    main p' = Serving /\ controller p' = Running /\ launched p' = true /\
    workQueue p' = workQueue p.
Proof.
  intros Hok%preachable_ok Em Hall.
  remember (length (informers p) - i) as d eqn:Ed. revert p i b Hok Em Hall Ed.
  induction d as [|d IH]; intros p i b Hok Em Hall Ed.
  - exists 1, (set_controller Running true (set_main Serving p)). split; [|done].
    pose proof (po_main _ _ Hok) as Hm. unfold main_ok in Hm. rewrite Em in Hm. destruct Hm as [_ Hu].
    cbn. unfold pstep, over. rewrite Em. unfold poll_caches. rewrite Em.
    rewrite lookup_ge_None_2 by lia. cbn. unfold build_elector. cbn. by rewrite Hu.
  - destruct (informers p !! i) as [c|] eqn:Ei; [|apply lookup_ge_None in Ei; lia].
    assert (c = true) as -> by exact (Forall_lookup_1 _ _ _ _ Hall Ei).
    assert (pstep p PPoll = Some (set_main (Syncing (S i) false) p)) as Hs
      by (unfold pstep, over, poll_caches; by rewrite Em, Ei).
    destruct (IH (set_main (Syncing (S i) false) p) (S i) false) as (m&p'&Hr&Hrest);
      [by eapply pstep_ok|done|done|cbn; lia|].
    exists (S m), p'. split; [|done]. cbn [replicate app prun]. by rewrite Hs.
Qed.

(** ** An elector that cannot be built *)

(** The head of the consumer queue stays when no worker takes it. *)
Lemma consumer_keeps s la s' x :
  step s la = Some s' -> is_worker la = false ->
  x ∈ queue (consumerQueue s) -> x ∈ queue (consumerQueue s').
Proof.
  intros Hstep Hw Hx. destruct (consumer_step _ _ _ Hstep) as [[_ [rest ->]]|(w&y&->&_)]; [|done].
  apply elem_of_app. by left.
Qed.

(** [RunContext] waits for the length of a queue that no worker takes from. *)
Definition stuck x p : Prop := controller p = Draining true /\ x ∈ queue (consumerQueue (workQueue p)).

Lemma stuck_step x p e p' : pstep p e = Some p' -> stuck x p ->
  stuck x p' /\ workers (workQueue p') = workers (workQueue p).
Proof.
  intros Hs [Hc Hx]. unfold pstep in Hs. destruct (over p) eqn:Eo; [done|].
  destruct e; unfold stuck.
  - by injection Hs as <-.
  - injection Hs as <-. unfold receive_signal. by destruct (signalled p).
  - unfold promotion_fails, elector_built in Hs. by rewrite Hc in Hs.
  - unfold poll_caches in Hs. destruct (main p); try done.
    by destruct (informers p !! _) as [[]|]; injection Hs as <-.
  - unfold abandon_start in Hs. destruct (main p) as [? []| | | | |]; try done.
    destruct (signalled p); [|done]. by injection Hs as <-.
  - unfold build_elector in Hs. by rewrite Hc in Hs.
  - destruct (elector p); [|done]. by injection Hs as <-.
  - unfold run_cancelled in Hs. by rewrite Hc in Hs.
  - unfold run_drained, tlq_Len, Len in Hs. rewrite Hc in Hs.
    destruct (queue (consumerQueue (workQueue p))) as [|y q]; [by apply not_elem_of_nil in Hx|].
    cbn [length] in Hs. rewrite Nat.add_succ_r, andb_false_r in Hs. done.
  - unfold run_returns in Hs. by rewrite Hc in Hs.
  - unfold pprof_return in Hs. destruct (pprof p), (main p) eqn:Em, closed; try done;
      injection Hs as <-; cbn; by rewrite ?Em.
  - unfold probes_return in Hs. destruct (probes p); [|done].
    destruct (started p && _); [|done]. by injection Hs as <-.
  - unfold stop_serving in Hs. destruct (main p); try done.
    destruct (group_done p); [|done]. by injection Hs as <-.
  - unfold wait_group in Hs. rewrite Hc in Hs. by destruct (main p).
  - unfold queue_step, launched in Hs. rewrite Hc in Hs. cbn [negb] in Hs. rewrite andb_true_r in Hs.
    destruct (is_worker la) eqn:Ew; [done|]. destruct (is_shut la && _); [done|]. cbn [orb] in Hs.
    destruct (step (workQueue p) la) as [s|] eqn:Es; [|done]. injection Hs as <-. cbn.
    split_and!; [done|by eapply consumer_keeps|by eapply workers_step].
Qed.

Lemma draining_started n p :
  process_ok n p -> controller p = Draining true ->
  started p = true \/ main p = Dead SecondSignal /\ signalled p = true.
Proof.
  intros [_ Hm _ _] Hc. unfold main_ok, started, elector_built in *. rewrite Hc in Hm.
  destruct (main p) as [| | | | |[]]; naive_solver.
Qed.

Lemma stuck_run x es p p' : prun es p = Some p' -> stuck x p ->
  stuck x p' /\ workers (workQueue p') = workers (workQueue p).
Proof.
  revert p. induction es as [|e es IH]; intros p Hr Hx; cbn [prun] in Hr; [by injection Hr as <-|].
  destruct (pstep p e) as [q|] eqn:E; [|done]. destruct (stuck_step _ _ _ _ E Hx) as [Hq <-].
  by apply IH.
Qed.

(** What the probes depend on changes by the signal and by a failure only. *)
Definition probed p : Prop := signalled p = false /\ probes p = Up.

Lemma probed_step p e p' :
  pstep p e = Some p' -> e <> PSignal -> e <> PProbes true -> probed p -> probed p'.
Proof.
  intros Hs Hsig Hpr [Hf Hup]. unfold pstep in Hs. destruct (over p); [done|].
  destruct e; unfold promotion_fails, poll_caches, abandon_start, build_elector, run_cancelled, run_drained, run_returns,
    pprof_return, probes_return, stop_serving, wait_group, queue_step in Hs;
    repeat (case_match; simplify_eq/=; try done); simplify_option_eq; try done.
  match goal with E : started p && _ = true |- _ => rewrite Hf, orb_false_r in E end.
  destruct failed; [done|]. by rewrite andb_false_r in *.
Qed.

(** When no elector can be built while a key is in the queue, the deferred function
    of [RunContext] waits for workers that were never launched: whatever happens
    next, a signal included, no worker takes a key, [RunContext] does not return
    and the process does not exit, unless a second signal ends it.  Until the signal the
    probes go on answering that all is well. *)
Theorem failed_elector_hangs k n p x es p' :
  preachable k n p -> controller p = Draining true -> x ∈ queue (consumerQueue (workQueue p)) ->
  prun es p = Some p' ->
  controller p' = Draining true /\ workers (workQueue p') = replicate n Waiting /\
  (started p' = true \/ main p' = Dead SecondSignal /\ signalled p' = true) /\
  (signalled p = false -> probes p = Up -> PSignal ∉ es -> PProbes true ∉ es ->
   health p' = Some 200%Z).
Proof.
  intros Hok%preachable_ok Hc Hx Hr.
  destruct (stuck_run x _ _ _ Hr) as [[Hc' _] Hw]; [done|].
  pose proof (draining_started _ _ (prun_ok _ _ _ _ Hok Hr) Hc') as Hs.
  split_and!; [done| |done|].
  - rewrite Hw. pose proof (po_controller _ _ Hok) as Hcc. unfold controller_ok in Hcc.
    by rewrite Hc in Hcc.
  - intros Hf Hup Hsig Hpr. assert (probed p') as [Hf' Hup'].
    { clear -Hf Hup Hsig Hpr Hr. assert (probed p) as Hp by done. clear Hf Hup. revert p Hr Hp.
      induction es as [|e es IH]; intros p Hr Hp; cbn [prun] in Hr; [by injection Hr as <-|].
      apply not_elem_of_cons in Hsig as [Hsig1 Hsig], Hpr as [Hpr1 Hpr].
      destruct (pstep p e) eqn:E; [|done]. eapply IH; [done..|]. by eapply probed_step. }
    destruct Hs as [Hs|[_ Hsig']]; [|congruence].
    unfold health. by rewrite Hup', Hs, Hf'.
Qed.
End theorems.

(** ** Witnesses *)

Section witnesses.

Definition source_key : NamespacedName := MkNamespacedName "default" "demo".

(** The caches sync while a source is found, and the group starts. *)
Definition come_up : list (event NamespacedName) :=
  [PPoll; PSynced 0; PQueue (LEnqueue source_key); PPoll; PSynced 1; PPoll; PPoll].

(** The key travels to the consumer queue. *)
Definition travel : list (event NamespacedName) :=
  map PQueue [LLaneGet true; LLaneDone true; LTop].

(** A signal while the key is reconciled: the queue is shut down, the goroutines
    return one after the other. *)
Definition wind_down : list (event NamespacedName) :=
  [PSignal; PCancelled; PStopServing; PPprof true; PProbes false; PElectorReturns]
  ++ map PQueue [LShut; LShut; LShut; LAct 0 Forget 0; LDone 0; LLaneGet true; LLaneGet false;
                 LTop; LTop; LBoth false; LTop; LExit 0; LExit 1]
  ++ [PDrained; PReturn; PExit].

Definition process_after (es : list (event NamespacedName)) : process NamespacedName :=
  default controller_main (prun es controller_main).

Lemma preachable_after es :
  present (prun es controller_main) = true -> preachable 2 2 (process_after es).
Proof. intros [p Hr]%present_Some. exists es. unfold process_after. by rewrite Hr. Qed.

(** A whole life: a key is reconciled, the process is told to stop and exits. *)
Lemma workers_wait_for_caches_witness :
  let p := process_after (come_up ++ [PElector true] ++ travel
             ++ [PQueue (LGet 0 source_key)] ++ wind_down) in
  main p = Exited /\ ~ in_lanes source_key (workQueue p).
Proof.
  intros p. destruct (workers_wait_for_caches 2 2 p) as (_&_&Hexit&_).
  - apply preachable_after. vm_compute. reflexivity.
  - assert (main p = Exited) as Em by (vm_compute; reflexivity). split; [exact Em|].
    destruct Hexit as [(_&_&Hnone)|[Hc _]];
      [vm_compute; reflexivity| |vm_compute in Hc; discriminate Hc].
    apply Hnone. vm_compute. discriminate.
Defined.

Lemma the_process_comes_up_witness :
  let p := process_after [PPoll; PSynced 1; PSynced 0] in
  exists m p', prun (replicate m PPoll ++ [PElector true]) p = Some p' /\ launched p' = true.
Proof.
  intros p. destruct (the_process_comes_up 2 2 p 0 true) as (m&p'&Hr&_&_&Hl&_).
  - apply preachable_after. vm_compute. reflexivity.
  - reflexivity.
  - vm_compute. repeat constructor.
  - exists m, p'. split; [exact Hr|exact Hl].
Defined.

(** The elector cannot be built while the key is in the consumer queue. *)
Lemma failed_elector_hangs_witness :
  let p := process_after (come_up ++ travel ++ [PElector false]) in
  exists p', prun (map PQueue [LShut; LShut; LShut; LLaneGet true; LLaneGet false; LTop]) p = Some p' /\
    health p' = Some 200%Z /\ started p' = true.
Proof.
  intros p.
  destruct (present_Some (prun (map PQueue [LShut; LShut; LShut; LLaneGet true; LLaneGet false; LTop]) p))
    as [p' Hr]; [vm_compute; reflexivity|].
  exists p'. split; [exact Hr|].
  destruct (failed_elector_hangs 2 2 p source_key
    (map PQueue [LShut; LShut; LShut; LLaneGet true; LLaneGet false; LTop]) p') as (_&_&Hs&Hh).
  - apply preachable_after. vm_compute. reflexivity.
  - vm_compute. reflexivity.
  - vm_compute. left.
  - exact Hr.
  - split; [|destruct Hs as [Hs|[Hs _]]; [exact Hs|]].
    2:{ assert (default Exited (main <$> prun (map PQueue
          [LShut; LShut; LShut; LLaneGet true; LLaneGet false; LTop]) p) = Serving) as Em
          by (vm_compute; reflexivity). rewrite Hr in Em. cbn in Em. congruence. }
    apply Hh; [reflexivity|reflexivity|..]; intros (la&E&_)%list_elem_of_fmap; discriminate E.
Defined.
End witnesses.
