(* ===== verification/Lister.v ===== *)
(** * The cache and the lister of the sources

    The indexer of a shared informer (tools/cache of client-go: store.go and
    thread_safe_store.go) with its one index, by namespace, and the lister over
    it (pkg/client/listers/sources/v1alpha1 and the generic lister of
    client-go).  The cache refines a map from namespace and name to the
    resource.

    Selectors are not modelled: the controller lists everything. *)

From S2P Require Import Prelude GoStrings CondSet Types Api Lifecycle KindReconciler.
From S2P Require Import Names Deployment Reconcile Leader Contents Controller Wiring.
Local Open Scope string_scope.
Local Open Scope list_scope.

(** ** The store *)

Definition MetaNamespaceKeyFunc (y : YipYapSource) : string :=
  if String.eqb (omNamespace (yMeta y)) "" then omName (yMeta y)
  else omNamespace (yMeta y) +:+ "/" +:+ omName (yMeta y).

(** [MetaNamespaceIndexFunc] gives one value. *)
Definition MetaNamespaceIndexFunc (y : YipYapSource) : string := omNamespace (yMeta y).

Abbreviation index := (gmap string (gset string)).

Record threadSafeMap := MkThreadSafeMap { tsItems : gmap string YipYapSource; tsIndex : index }.

Definition keys_at (idx : index) (value : string) : gset string := default ∅ (idx !! value).

Definition addKeyToIndex (key value : string) (idx : index) : index :=
  <[value := {[key]} ∪ keys_at idx value]> idx.

Definition deleteKeyFromIndex (key value : string) (idx : index) : index :=
  match idx !! value with
  | None => idx
  | Some set =>
      let set := set ∖ {[key]} in
      if bool_decide (set = ∅) then delete value idx else <[value := set]> idx
  end.

(** The objects are absent for a creation and for a deletion. *)
Definition updateSingleIndex (oldObj newObj : option YipYapSource) (key : string) (idx : index)
    : index :=
  let old := MetaNamespaceIndexFunc <$> oldObj in
  let new := MetaNamespaceIndexFunc <$> newObj in
  if bool_decide (is_Some old /\ old = new) then idx
  else
    let idx := match old with Some v => deleteKeyFromIndex key v idx | None => idx end in
    match new with Some v => addKeyToIndex key v idx | None => idx end.

Definition ts_Update (key : string) (obj : YipYapSource) (m : threadSafeMap) : threadSafeMap :=
  MkThreadSafeMap (<[key := obj]> (tsItems m))
    (updateSingleIndex (tsItems m !! key) (Some obj) key (tsIndex m)).

Definition ts_Delete (key : string) (m : threadSafeMap) : threadSafeMap :=
  match tsItems m !! key with
  | Some obj =>
      MkThreadSafeMap (delete key (tsItems m)) (updateSingleIndex (Some obj) None key (tsIndex m))
  | None => m
  end.

Definition ts_Replace (items : gmap string YipYapSource) : threadSafeMap :=
  MkThreadSafeMap items
    (foldl (fun idx e => updateSingleIndex None (Some e.2) e.1 idx) ∅ (map_to_list items)).

(** The items of an index; a key without an item is a nil interface, whose
    type assertion panics. *)
Definition ts_Index (value : string) (m : threadSafeMap) : option (list YipYapSource) :=
  mapM (fun key => tsItems m !! key) (elements (keys_at (tsIndex m) value)).

Definition ts_List (m : threadSafeMap) : list YipYapSource := map snd (map_to_list (tsItems m)).

(** What the reflector does with the cache. *)
Inductive cache_op :=
| CacheAdd (y : YipYapSource)
| CacheDelete (y : YipYapSource)
| CacheReplace (l : list YipYapSource).

Definition cache_step (m : threadSafeMap) (o : cache_op) : threadSafeMap :=
  match o with
  | CacheAdd y => ts_Update (MetaNamespaceKeyFunc y) y m
  | CacheDelete y => ts_Delete (MetaNamespaceKeyFunc y) m
  | CacheReplace l =>
      ts_Replace (foldl (fun items y => <[MetaNamespaceKeyFunc y := y]> items) ∅ l)
  end.

Definition empty_cache : threadSafeMap := MkThreadSafeMap ∅ ∅.

(** ** The lister *)

Record ResourceIndexer := MkResourceIndexer { riResource : GroupResource; riNamespace : string }.

Definition NewYipYapSourceLister : ResourceIndexer := MkResourceIndexer (Resource "yipyapsource") "".

Definition YipYapSources (s : ResourceIndexer) (namespace : string) : ResourceIndexer :=
  MkResourceIndexer (riResource s) namespace.

Definition Get (l : ResourceIndexer) (name : string) (m : threadSafeMap)
    : result api_error YipYapSource :=
  let key := if String.eqb (riNamespace l) "" then name else riNamespace l +:+ "/" +:+ name in
  match tsItems m !! key with Some y => Ok y | None => Err ApiNotFound end.

(** [List] of everything, [None] for the panic. *)
Definition List (l : ResourceIndexer) (m : threadSafeMap) : option (list YipYapSource) :=
  if String.eqb (riNamespace l) "" then Some (ts_List m) else ts_Index (riNamespace l) m.

(** ** The specification: a map by namespace and name *)

Definition spec_key (y : YipYapSource) : string * string :=
  (omNamespace (yMeta y), omName (yMeta y)).

Definition spec_step (m : gmap (string * string) YipYapSource) (o : cache_op)
    : gmap (string * string) YipYapSource :=
  match o with
  | CacheAdd y => <[spec_key y := y]> m
  | CacheDelete y => delete (spec_key y) m
  | CacheReplace l => foldl (fun m y => <[spec_key y := y]> m) ∅ l
  end.

(** Names of the API server hold no slash. *)
Definition well_named (y : YipYapSource) : Prop :=
  no_slash (omNamespace (yMeta y)) /\ no_slash (omName (yMeta y)).

Definition op_objects (o : cache_op) : list YipYapSource :=
  match o with CacheAdd y | CacheDelete y => [y] | CacheReplace l => l end.

(** ** Lemmas: the index *)

Lemma keys_at_add key v idx v' :
  keys_at (addKeyToIndex key v idx) v'
  = if decide (v' = v) then {[key]} ∪ keys_at idx v else keys_at idx v'.
Proof.
  unfold addKeyToIndex, keys_at at 1. case_decide as E; [subst|].
  - by rewrite lookup_insert_eq.
  - by rewrite lookup_insert_ne.
Qed.

Lemma keys_at_delete key v idx v' :
  keys_at (deleteKeyFromIndex key v idx) v'
  = if decide (v' = v) then keys_at idx v ∖ {[key]} else keys_at idx v'.
Proof.
  unfold deleteKeyFromIndex. destruct (idx !! v) as [set|] eqn:E.
  - case_bool_decide as Hs; unfold keys_at; case_decide as Ev; subst;
      rewrite ?lookup_delete_eq, ?lookup_delete_ne, ?lookup_insert_eq, ?lookup_insert_ne, ?E
        by done; set_solver.
  - case_decide as Ev; [subst|done]. unfold keys_at. rewrite E. set_solver.
Qed.

Definition index_ok (items : gmap string YipYapSource) (idx : index) : Prop :=
  forall v k, k ∈ keys_at idx v <->
    exists y, items !! k = Some y /\ MetaNamespaceIndexFunc y = v.

Definition set_item (key : string) (new : option YipYapSource)
    (items : gmap string YipYapSource) : gmap string YipYapSource :=
  match new with Some y => <[key := y]> items | None => delete key items end.

(** One update keeps the index in step with the items. *)
Lemma updateSingleIndex_ok items idx key new :
  index_ok items idx ->
  index_ok (set_item key new items) (updateSingleIndex (items !! key) new key idx).
Proof.
  intros Hok v k. unfold updateSingleIndex.
  assert (forall k' y, set_item key new items !! k' = Some y <->
    (k' = key /\ new = Some y) \/ (k' <> key /\ items !! k' = Some y)) as Hset.
  { intros k' y. unfold set_item. destruct (decide (k' = key)) as [->|Hne].
    - destruct new; rewrite ?lookup_insert_eq, ?lookup_delete_eq; naive_solver.
    - destruct new; rewrite ?lookup_insert_ne, ?lookup_delete_ne by done; naive_solver. }
  setoid_rewrite Hset. case_bool_decide as Hopt.
  - destruct (items !! key) as [y0|] eqn:Ek; [|by destruct Hopt as [[? ?] _]].
    destruct new as [y1|]; [|by destruct Hopt]. cbn in Hopt. destruct Hopt as [_ [= Heq]].
    rewrite (Hok v k). destruct (decide (k = key)) as [->|]; naive_solver.
  - set (idx1 := match _ <$> items !! key with Some v => deleteKeyFromIndex key v idx | None => idx end).
    assert (forall v k, k ∈ keys_at idx1 v <->
      k <> key /\ exists y, items !! k = Some y /\ MetaNamespaceIndexFunc y = v) as Hidx1.
    { intros v' k'. subst idx1. destruct (items !! key) as [y0|] eqn:Ek; cbn.
      - rewrite keys_at_delete. case_decide as Ev.
        + subst. rewrite elem_of_difference, elem_of_singleton, (Hok _ k'). naive_solver.
        + rewrite (Hok v' k'). split; [|by intros [_ ?]]. intros (y&Hy&Hv). split; [|by exists y].
          intros ->. congruence.
      - rewrite (Hok v' k'). split; [|by intros [_ ?]]. intros (y&Hy&Hv). split; [|by exists y].
        intros ->. congruence. }
    destruct new as [y1|]; cbn.
    + rewrite keys_at_add. case_decide as Ev; [subst; rewrite elem_of_union, elem_of_singleton|];
        rewrite Hidx1; naive_solver.
    + rewrite Hidx1. naive_solver.
Qed.

Lemma ts_Replace_ok items : index_ok items (tsIndex (ts_Replace items)).
Proof.
  cbn [ts_Replace tsIndex].
  assert (forall l items0 idx, index_ok items0 idx -> NoDup (map fst l) ->
    (forall k, k ∈ map fst l -> items0 !! k = None) ->
    index_ok (list_to_map l ∪ items0)
      (foldl (fun idx e => updateSingleIndex None (Some e.2) e.1 idx) idx l)) as Hgen.
  { intros l. induction l as [|[k y] l IH]; intros items0 idx Hok Hnd Hfresh; cbn.
    - by rewrite map_empty_union.
    - apply NoDup_cons in Hnd as [Hk Hnd].
      assert (items0 !! k = None) as Hnone by (apply Hfresh; left).
      assert (list_to_map (M := gmap string YipYapSource) l !! k = None) as Hl
        by (by apply not_elem_of_list_to_map_1).
      rewrite <- insert_union_l, insert_union_r by done. apply IH; [|done|].
      + pose proof (updateSingleIndex_ok items0 idx k (Some y) Hok) as Hone.
        rewrite Hnone in Hone. exact Hone.
      + intros k' Hk'. rewrite lookup_insert_ne by (by intros <-). apply Hfresh. by right. }
  rewrite <- (map_union_empty items) at 1. rewrite <- (list_to_map_to_list items) at 1.
  apply Hgen; [|apply NoDup_fst_map_to_list|done].
  intros v k. unfold keys_at. rewrite lookup_empty. cbn. set_solver.
Qed.

(** ** Lemmas: the items *)

Lemma key_split y :
  well_named y -> SplitMetaNamespaceKey (MetaNamespaceKeyFunc y) = Some (spec_key y).
Proof.
  intros [Hns Hn]. exact (safeKey_split (MkNamespacedName (omNamespace (yMeta y))
    (omName (yMeta y))) Hns Hn).
Qed.

Lemma key_inj y y' :
  well_named y -> well_named y' ->
  MetaNamespaceKeyFunc y = MetaNamespaceKeyFunc y' <-> spec_key y = spec_key y'.
Proof.
  intros Hy Hy'. split; intros E.
  - pose proof (key_split y Hy) as H1. rewrite E, (key_split y' Hy') in H1. congruence.
  - unfold spec_key, MetaNamespaceKeyFunc in *. injection E as -> ->. done.
Qed.

(** The items hold the resources of the map, under their keys. *)
Record items_rel (items : gmap string YipYapSource) (m : gmap (string * string) YipYapSource)
    : Prop := {
  ir_items : forall k y, items !! k = Some y <->
    k = MetaNamespaceKeyFunc y /\ m !! spec_key y = Some y;
  ir_spec : forall p y, m !! p = Some y -> spec_key y = p /\ well_named y
}.

Lemma items_rel_empty : items_rel ∅ ∅.
Proof. split; intros *; rewrite ?lookup_empty; naive_solver. Qed.

Lemma items_rel_insert items m y0 :
  well_named y0 -> items_rel items m ->
  items_rel (<[MetaNamespaceKeyFunc y0 := y0]> items) (<[spec_key y0 := y0]> m).
Proof.
  intros Hy0 [Hi Hs]. split.
  - intros k y. destruct (decide (spec_key y = spec_key y0)) as [E|E].
    + rewrite E, lookup_insert_eq. split.
      * intros Hk. destruct (decide (k = MetaNamespaceKeyFunc y0)) as [->|Hne].
        -- rewrite lookup_insert_eq in Hk. injection Hk as <-. done.
        -- rewrite lookup_insert_ne in Hk by done. apply Hi in Hk as [-> Hy].
           destruct Hne. apply key_inj; try done. by apply (Hs _ _ Hy).
      * intros [-> [= <-]]. by rewrite lookup_insert_eq.
    + rewrite (lookup_insert_ne m) by done. rewrite <- Hi.
      destruct (decide (k = MetaNamespaceKeyFunc y0)) as [->|Hne];
        [rewrite lookup_insert_eq|by rewrite lookup_insert_ne].
      split; [by intros [= <-]|]. intros Hk. apply Hi in Hk as [Hk Hy].
      destruct E. symmetry. apply key_inj; try done. by apply (Hs _ _ Hy).
  - intros p y. destruct (decide (p = spec_key y0)) as [->|];
      [rewrite lookup_insert_eq; by intros [= <-]|].
    rewrite lookup_insert_ne by done. apply Hs.
Qed.

Lemma items_rel_delete items m y0 :
  well_named y0 -> items_rel items m ->
  items_rel (delete (MetaNamespaceKeyFunc y0) items) (delete (spec_key y0) m).
Proof.
  intros Hy0 [Hi Hs]. split.
  - intros k y. rewrite !lookup_delete_Some, Hi. split.
    + intros (Hne&->&Hy). split; [done|]. split; [|done]. intros E. destruct Hne.
      apply key_inj; try done. by apply (Hs _ _ Hy).
    + intros (->&Hne&Hy). split; [|done]. intros E. destruct Hne.
      apply key_inj; try done. by apply (Hs _ _ Hy).
  - intros p y. rewrite lookup_delete_Some. intros [_ Hy]. by apply Hs.
Qed.

Record cache_rel (c : threadSafeMap) (m : gmap (string * string) YipYapSource) : Prop := {
  cr_items : items_rel (tsItems c) m;
  cr_index : index_ok (tsItems c) (tsIndex c)
}.

Lemma cache_step_rel c m o :
  Forall well_named (op_objects o) -> cache_rel c m -> cache_rel (cache_step c o) (spec_step m o).
Proof.
  intros Hwn [Hi Hx]. destruct o as [y|y|l]; cbn [cache_step spec_step op_objects] in *.
  - rewrite Forall_singleton in Hwn. split; cbn [ts_Update tsItems tsIndex]; [by apply items_rel_insert|].
    by apply (updateSingleIndex_ok (tsItems c) (tsIndex c) (MetaNamespaceKeyFunc y) (Some y)).
  - rewrite Forall_singleton in Hwn. pose proof (items_rel_delete _ _ y Hwn Hi) as Hd.
    unfold ts_Delete. destruct (tsItems c !! MetaNamespaceKeyFunc y) as [y'|] eqn:E.
    + split; [done|]. cbn [tsItems tsIndex]. rewrite <- E.
      by apply (updateSingleIndex_ok (tsItems c) (tsIndex c) (MetaNamespaceKeyFunc y) None).
    + split; [|done]. by rewrite delete_id in Hd.
  - split; [|apply ts_Replace_ok]. cbn [tsItems ts_Replace].
    assert (forall items m, items_rel items m ->
      items_rel (foldl (fun items y => <[MetaNamespaceKeyFunc y := y]> items) items l)
        (foldl (fun m y => <[spec_key y := y]> m) m l)) as Hfold; [|by apply Hfold, items_rel_empty].
    clear Hi Hx. induction Hwn as [|y l Hy _ IH]; intros items m' Hrel; cbn; [done|].
    by apply IH, items_rel_insert.
Qed.

Lemma cache_steps_rel ops :
  Forall (fun o => Forall well_named (op_objects o)) ops ->
  cache_rel (foldl cache_step empty_cache ops) (foldl spec_step ∅ ops).
Proof.
  intros Hops.
  assert (cache_rel empty_cache ∅) as Hrel
    by (split; [apply items_rel_empty|]; intros v k; unfold keys_at; cbn;
        rewrite lookup_empty; cbn; set_solver).
  revert Hrel. generalize empty_cache as c. generalize (∅ : gmap (string * string) YipYapSource) as m.
  induction Hops as [|o ops Ho _ IH]; intros m c Hrel; cbn; [done|].
  by apply IH, cache_step_rel.
Qed.

(** A store in which no resource has two keys. *)
Definition keys_unique (c : threadSafeMap) : Prop :=
  forall k k' y, tsItems c !! k = Some y -> tsItems c !! k' = Some y -> k = k'.

Lemma mapM_items (items : gmap string YipYapSource) ks l y :
  Forall2 (fun k y => items !! k = Some y) ks l ->
  y ∈ l <-> exists k, k ∈ ks /\ items !! k = Some y.
Proof.
  induction 1 as [|k y' ks l Hk _ IH]; [set_solver|].
  rewrite elem_of_cons, IH. setoid_rewrite elem_of_cons. naive_solver.
Qed.

Lemma ts_List_spec c :
  keys_unique c ->
  NoDup (ts_List c) /\ forall y, y ∈ ts_List c <-> exists k, tsItems c !! k = Some y.
Proof.
  intros Hinj. unfold ts_List. split.
  - apply NoDup_fmap_2_strong; [|apply NoDup_map_to_list].
    intros [k y] [k' y'] Hk Hk' E. cbn in E. subst.
    apply elem_of_map_to_list in Hk, Hk'. f_equal. by eapply Hinj.
  - intros y. rewrite list_elem_of_fmap. split.
    + intros ([k y']&->&Hk). apply elem_of_map_to_list in Hk. by exists k.
    + intros [k Hk]. exists (k, y). split; [done|]. by apply elem_of_map_to_list.
Qed.

(** The index leads to the items of the namespace, each once, without a panic. *)
Lemma ts_Index_spec c ns :
  keys_unique c -> index_ok (tsItems c) (tsIndex c) ->
  exists l, ts_Index ns c = Some l /\ NoDup l /\
    forall y, y ∈ l <-> (exists k, tsItems c !! k = Some y) /\ MetaNamespaceIndexFunc y = ns.
Proof.
  intros Hinj Hx. unfold ts_Index.
  destruct (mapM (fun key => tsItems c !! key) (elements (keys_at (tsIndex c) ns))) as [l|] eqn:E;
    last first.
  { apply mapM_None in E. apply Exists_exists in E as (k&Hk&Hnone).
    apply elem_of_elements, Hx in Hk as (y&Hy&_). congruence. }
  exists l. split; [done|]. apply mapM_Some in E. split.
  - pose proof (NoDup_elements (keys_at (tsIndex c) ns)) as Hnd. revert Hnd.
    clear -E Hinj. induction E as [|k y ks l Hk HF IH]; [by constructor|].
    intros [Hnk Hnd]%NoDup_cons. apply NoDup_cons. split; [|auto].
    intros (k'&Hin&Hk')%(mapM_items _ _ _ _ HF). by rewrite (Hinj k k' y Hk Hk') in Hnk.
  - intros y. rewrite (mapM_items _ _ _ _ E). setoid_rewrite elem_of_elements. split.
    + intros (k&Hk&Hy). apply Hx in Hk as (y'&Hy'&<-).
      assert (y' = y) as -> by congruence. split; [by exists k|done].
    + intros [[k Hk] Hns]. exists k. split; [|done]. apply Hx. by exists y.
Qed.

Lemma items_rel_Get c m ns name :
  items_rel (tsItems c) m -> no_slash ns -> no_slash name ->
  Get (YipYapSources NewYipYapSourceLister ns) name c
  = match m !! (ns, name) with Some y => Ok y | None => Err ApiNotFound end.
Proof.
  intros [Hi Hs] Hns Hname. unfold Get. cbn [YipYapSources riNamespace].
  set (key := if String.eqb ns "" then name else _).
  assert (SplitMetaNamespaceKey key = Some (ns, name)) as Hkey
    by exact (safeKey_split (MkNamespacedName ns name) Hns Hname).
  destruct (tsItems c !! key) as [y|] eqn:E.
  - apply Hi in E as [E Hy]. destruct (Hs _ _ Hy) as [_ Hwn].
    rewrite E, (key_split y Hwn) in Hkey.
    assert ((ns, name) = spec_key y) as -> by congruence. by rewrite Hy.
  - destruct (m !! (ns, name)) as [y|] eqn:Hy; [|done].
    destruct (Hs _ _ Hy) as [Hsk Hwn]. rewrite <- Hsk in Hy.
    assert (tsItems c !! MetaNamespaceKeyFunc y = Some y) as Hk by (by apply Hi).
    assert (key = MetaNamespaceKeyFunc y) as ->; [|congruence].
    unfold key, MetaNamespaceKeyFunc. unfold spec_key in Hsk. by injection Hsk as -> ->.
Qed.

(** ** Theorems *)

(** C29. The lister over the cache is a map from namespace and name: after any
    additions, updates, deletions and replacements of well-named resources,
    [Get] finds exactly the resource last stored under the two names, also
    under the key the queue hands out for it; [List] of a namespace finds
    through the index exactly its resources, each once, and never panics; and
    [List] without a namespace finds all. *)
Theorem lister_refines_map ops :
  Forall (fun o => Forall well_named (op_objects o)) ops ->
  let c := foldl cache_step empty_cache ops in
  let m := foldl spec_step ∅ ops in
  (forall ns name, no_slash ns -> no_slash name ->
     Get (YipYapSources NewYipYapSourceLister ns) name c
     = match m !! (ns, name) with Some y => Ok y | None => Err ApiNotFound end) /\
  (forall p y, m !! p = Some y -> SplitMetaNamespaceKey (MetaNamespaceKeyFunc y) = Some p) /\
  (forall ns, exists l, List (YipYapSources NewYipYapSourceLister ns) c = Some l /\ NoDup l /\
     forall y, y ∈ l <-> m !! spec_key y = Some y /\ (ns = "" \/ omNamespace (yMeta y) = ns)).
Proof.
  intros Hops c m. destruct (cache_steps_rel ops Hops) as [Hrel Hx]. fold c m in Hrel, Hx.
  pose proof (ir_items _ _ Hrel) as Hi.
  assert (forall y, (exists k, tsItems c !! k = Some y) <-> m !! spec_key y = Some y) as Hstored.
  { intros y. setoid_rewrite Hi. naive_solver. }
  assert (keys_unique c) as Hinj by (intros k k' y [-> _]%Hi [-> _]%Hi; done).
  split; [|split].
  - intros ns name. by apply items_rel_Get.
  - intros p y Hy. destruct (ir_spec _ _ Hrel _ _ Hy) as [<- Hwn]. by apply key_split.
  - intros ns. unfold List. cbn [YipYapSources riNamespace].
    destruct (String.eqb_spec ns "") as [->|Hne].
    + exists (ts_List c). split; [done|]. destruct (ts_List_spec c Hinj) as [Hnd Hl].
      split; [done|]. intros y. rewrite Hl, Hstored. tauto.
    + destruct (ts_Index_spec c ns Hinj Hx) as (l&->&Hnd&Hl). exists l. split; [done|].
      split; [done|]. intros y. rewrite Hl, Hstored. unfold MetaNamespaceIndexFunc. tauto.
Qed.

(** ** Witnesses *)

Definition renamed (ns name : string) : YipYapSource :=
  MkYipYapSource (MkObjectMeta name ns "uid" 1 "1" None [] no_rest) sample_spec empty_status.

Definition sample_cache_ops : list cache_op :=
  [CacheReplace [renamed "a" "x"; renamed "b" "x"]; CacheAdd (renamed "a" "y");
   CacheDelete (renamed "b" "x")].

Lemma lister_refines_map_witness :
  let c := foldl cache_step empty_cache sample_cache_ops in
  Get (YipYapSources NewYipYapSourceLister "a") "y" c = Ok (renamed "a" "y") /\
  Get (YipYapSources NewYipYapSourceLister "b") "x" c = Err ApiNotFound /\
  exists l, List (YipYapSources NewYipYapSourceLister "a") c = Some l /\ NoDup l.
Proof.
  destruct (lister_refines_map sample_cache_ops) as (Hget&_&Hlist).
  - repeat constructor.
  - split; [rewrite Hget by reflexivity; vm_compute; reflexivity|].
    split; [rewrite Hget by reflexivity; vm_compute; reflexivity|].
    destruct (Hlist "a") as (l&Hl&Hnd&_). exists l. split; [exact Hl|exact Hnd].
Defined.
