(* ===== verification/Heap.v ===== *)
(** * Pointers, slices and deep copies

    The rest of the development gives Go structs as values.  Where the code
    depends on what is shared, a struct holds locations of a heap: typed
    pointers, slices (a window of a backing array) and maps.

    The class [Copyable] is what a type promises: what an object denotes, the
    locations reachable from it, its [DeepCopyInto], and that a deep copy
    denotes the same value, allocates only, and reaches new locations only.
    The combinators below build it for pointers, slices, maps, pairs and
    lists; DeepCopy.v instantiates it at the generated functions. *)

From S2P Require Import Prelude GoStrings CondSet Types.
Local Open Scope string_scope.
Local Open Scope list_scope.

Definition loc : Type := positive.

(** A pointer to an [X]; [None] is nil. *)
Record ptr (X : Type) := Ptr { ptr_loc : option loc }.
Arguments Ptr {X} _.
Arguments ptr_loc {X} _.

Record slice (X : Type) := Slice { sl_array : option loc; sl_offset : nat; sl_len : nat }.
Arguments Slice {X} _ _ _.
Arguments sl_array {X} _.
Arguments sl_offset {X} _.
Arguments sl_len {X} _.

Record gomap (X : Type) := GoMap { map_loc : option loc }.
Arguments GoMap {X} _.
Arguments map_loc {X} _.

(** ** The structs *)

(** The other fields of a URL, and its [*url.Userinfo]. *)
Record go_URL := MkGoURL { guFields : URL; guUser : ptr string }.

Record go_KReference := MkGoKReference {
  gkKind : string;
  gkNamespace : string;
  gkName : string;
  gkAPIVersion : string;
  gkGroup : string;
  gkAddress : ptr string
}.

Record go_Destination := MkGoDestination {
  gdRef : ptr go_KReference;
  gdURI : ptr go_URL;
  gdCACerts : ptr string;
  gdAudience : ptr string
}.

Record go_CloudEventOverrides := MkGoOverrides { goExtensions : gomap string }.

Record go_SourceSpec := MkGoSourceSpec {
  gsSink : go_Destination;
  gsCloudEventOverrides : ptr go_CloudEventOverrides
}.

Record go_Filter := MkGoFilter {
  gfTypes : slice string;
  gfMonitorIDs : slice string;
  gfSeverities : slice string
}.

Record go_Spec := MkGoSpec {
  gpSourceSpec : go_SourceSpec;
  gpAPIKeyRef : APIKeyReference;
  gpBaseURL : string;
  gpFilter : ptr go_Filter;
  gpMode : string;
  gpServiceAccountName : string
}.

(** [duckv1.Status], [duckv1.SourceStatus]. *)
Record go_DuckStatus := MkGoDuckStatus {
  gtObservedGeneration : Z;
  gtConditions : slice Condition;
  gtAnnotations : gomap string
}.

Record go_AuthStatus := MkGoAuthStatus {
  gaServiceAccountName : ptr string;
  gaServiceAccountNames : slice string
}.

Record go_SourceStatus := MkGoSourceStatus {
  gtStatus : go_DuckStatus;
  gtSinkURI : ptr go_URL;
  gtCloudEventAttributes : slice CloudEventAttributes;
  gtSinkCACerts : ptr string;
  gtSinkAudience : ptr string;
  gtAuth : ptr go_AuthStatus
}.

Record go_Status := MkGoStatus {
  gtSourceStatus : go_SourceStatus;
  gtDeploymentName : string;
  gtLastEventTime : ptr Z;
  gtEventCount : Z
}.

Record go_OwnerReference := MkGoOwnerReference {
  gwAPIVersion : string;
  gwKind : string;
  gwName : string;
  gwUID : string;
  gwController : ptr bool;
  gwBlockOwnerDeletion : ptr bool
}.

Record go_FieldsV1 := MkGoFieldsV1 { gvRaw : slice ascii }.

Record go_ManagedFieldsEntry := MkGoManagedFields {
  gnManager : string;
  gnOperation : string;
  gnAPIVersion : string;
  gnTime : ptr Z;
  gnFieldsType : string;
  gnFieldsV1 : ptr go_FieldsV1;
  gnSubresource : string
}.

Record go_ObjectMeta := MkGoObjectMeta {
  gmName : string;
  gmGenerateName : string;
  gmNamespace : string;
  gmSelfLink : string;
  gmUID : string;
  gmResourceVersion : string;
  gmGeneration : Z;
  gmCreationTimestamp : Z;
  gmDeletionTimestamp : ptr Z;
  gmDeletionGracePeriodSeconds : ptr Z;
  gmLabels : gomap string;
  gmAnnotations : gomap string;
  gmOwnerReferences : slice go_OwnerReference;
  gmFinalizers : slice string;
  gmManagedFields : slice go_ManagedFieldsEntry
}.

Record go_YipYapSource := MkGoYipYapSource {
  gyMeta : go_ObjectMeta;
  gySpec : go_Spec;
  gyStatus : go_Status
}.

Record go_List := MkGoList { glItems : slice go_YipYapSource }.

(** ** The heap *)

Inductive cell :=
| CString (s : string)
| CInt (t : Z)  (* a time, or an int64 *)
| CStrings (l : list string)
| CBool (b : bool)
| CBytes (l : list ascii)
| CMap (m : gmap string string)
| COwners (l : list go_OwnerReference)
| CFieldsV1 (f : go_FieldsV1)
| CManagedFields (l : list go_ManagedFieldsEntry)
| CAuth (a : go_AuthStatus)
| CConditions (l : list Condition)
| CAttributes (l : list CloudEventAttributes)
| CURL (u : go_URL)
| CKReference (k : go_KReference)
| CDestination (d : go_Destination)
| COverrides (o : go_CloudEventOverrides)
| CFilter (f : go_Filter)
| CSource (y : go_YipYapSource)
| CSources (l : list go_YipYapSource)
| CList (l : go_List)
| CAPIKey (k : APIKeyReference)
| CSpec (s : go_Spec)
| CStatus (s : go_Status).

Abbreviation heap := (gmap loc cell).

(** The values that have a location of their own. *)
Class Stored (X : Type) := {
  to_cell : X -> cell;
  of_cell : cell -> option X;
  of_to_cell x : of_cell (to_cell x) = Some x
}.

Definition read `{Stored X} (h : heap) (l : loc) : option X := c ← h !! l; of_cell c.
Definition write `{Stored X} (l : loc) (x : X) (h : heap) : heap := <[l := to_cell x]> h.

(** An action on the heap. *)
Definition heapM (A : Type) : Type := heap -> A * heap.
#[export] Instance heapM_ret : MRet heapM := fun _ a h => (a, h).
#[export] Instance heapM_bind : MBind heapM := fun _ _ k m h => let '(a, h) := m h in k a h.

(** [new], with the value stored. *)
Definition new `{Stored X} (x : X) : heapM loc := fun h =>
  let l := fresh (dom h) in (l, write l x h).

(** ** Copyable types *)

Class Copyable (T V : Type) := {
  denote : heap -> T -> option V;
  locs : heap -> T -> gset loc;
  DeepCopyInto : T -> heapM T;
  denote_frame h h2 x v :
    denote h x = Some v -> (forall l, l ∈ locs h x -> h2 !! l = h !! l) ->
    denote h2 x = Some v /\ locs h2 x = locs h x;
  denote_dom h x v : denote h x = Some v -> locs h x ⊆ dom h;
  copy_spec h x v :
    denote h x = Some v ->
    exists x' h', DeepCopyInto x h = (x', h') /\ h ⊆ h' /\ denote h' x' = Some v /\
      locs h' x' ## dom h
}.

(** A larger heap changes nothing. *)
Lemma denote_mono `{Copyable T V} h h2 x v :
  denote h x = Some v -> h ⊆ h2 -> denote h2 x = Some v /\ locs h2 x = locs h x.
Proof.
  intros Hd Hs. apply denote_frame; [done|]. intros l Hl.
  apply (denote_dom _ _ _ Hd), elem_of_dom in Hl as [c Hc].
  rewrite Hc. by eapply lookup_weaken.
Qed.

Lemma dom_mono (h h2 : heap) : h ⊆ h2 -> dom h ⊆ dom h2.
Proof. apply subseteq_dom. Qed.

(** Values without pointers. *)
Section plain.
Context {T : Type}.
Lemma plain_frame (h h2 : heap) (x v : T) :
  Some x = Some v -> (forall l, l ∈ (∅ : gset loc) -> h2 !! l = h !! l) ->
  Some x = Some v /\ (∅ : gset loc) = ∅.
Proof. done. Qed.
Lemma plain_dom (h : heap) (x v : T) : Some x = Some v -> (∅ : gset loc) ⊆ dom h.
Proof. set_solver. Qed.
Lemma plain_spec (h : heap) (x v : T) :
  Some x = Some v ->
  exists x' h', (x, h) = (x', h') /\ h ⊆ h' /\ Some x' = Some v /\ (∅ : gset loc) ## dom h.
Proof. intros E. exists x, h. split_and!; [done|done|done|set_solver]. Qed.

Definition plain : Copyable T T := {|
  denote _ x := Some x;
  locs _ _ := ∅;
  DeepCopyInto x h := (x, h);
  denote_frame := plain_frame;
  denote_dom := plain_dom;
  copy_spec := plain_spec
|}.
End plain.

#[export] Instance string_copyable : Copyable string string := plain.
#[export] Instance Z_copyable : Copyable Z Z := plain.
#[export] Instance bool_copyable : Copyable bool bool := plain.
#[export] Instance ascii_copyable : Copyable ascii ascii := plain.
#[export] Instance URL_fields_copyable : Copyable URL URL := plain.
#[export] Instance APIKeyReference_copyable : Copyable APIKeyReference APIKeyReference := plain.
#[export] Instance Condition_copyable : Copyable Condition Condition := plain.
#[export] Instance Attributes_copyable : Copyable CloudEventAttributes CloudEventAttributes := plain.

(** Two fields, copied one after the other. *)
Section pair.
Context `{Copyable T V, Copyable T' V'}.

Definition pair_denote (h : heap) (x : T * T') : option (V * V') :=
  v ← denote h x.1; v' ← denote h x.2; Some (v, v').
Definition pair_locs (h : heap) (x : T * T') : gset loc := locs h x.1 ∪ locs h x.2.
Definition pair_copy (x : T * T') : heapM (T * T') :=
  a ← DeepCopyInto x.1; b ← DeepCopyInto x.2; mret (a, b).

Lemma pair_denote_Some h x v :
  pair_denote h x = Some v <-> denote h x.1 = Some v.1 /\ denote h x.2 = Some v.2.
Proof.
  unfold pair_denote. destruct v as [a b]. cbn.
  destruct (denote h x.1), (denote h x.2); cbn; naive_solver.
Qed.

Lemma pair_frame h h2 x v :
  pair_denote h x = Some v -> (forall l, l ∈ pair_locs h x -> h2 !! l = h !! l) ->
  pair_denote h2 x = Some v /\ pair_locs h2 x = pair_locs h x.
Proof.
  rewrite !pair_denote_Some. unfold pair_locs. intros [H1 H2] Hl.
  destruct (denote_frame _ h2 _ _ H1) as [-> ->]; [set_solver|].
  destruct (denote_frame _ h2 _ _ H2) as [-> ->]; [set_solver|]. done.
Qed.

Lemma pair_dom h x v : pair_denote h x = Some v -> pair_locs h x ⊆ dom h.
Proof.
  rewrite pair_denote_Some. intros [H1%denote_dom H2%denote_dom]. unfold pair_locs. set_solver.
Qed.

Lemma pair_spec h x v :
  pair_denote h x = Some v ->
  exists x' h', pair_copy x h = (x', h') /\ h ⊆ h' /\ pair_denote h' x' = Some v /\
    pair_locs h' x' ## dom h.
Proof.
  rewrite pair_denote_Some. intros [H1 H2]. unfold pair_copy, mbind, heapM_bind, mret, heapM_ret.
  destruct (copy_spec _ _ _ H1) as (a&h1&->&Hs1&Hd1&Hl1).
  destruct (denote_mono _ h1 _ _ H2 Hs1) as [H2' _].
  destruct (copy_spec _ _ _ H2') as (b&h2&->&Hs2&Hd2&Hl2).
  destruct (denote_mono _ h2 _ _ Hd1 Hs2) as [Hd1' El1].
  exists (a, b), h2. pose proof (dom_mono _ _ Hs1). split_and!; [done|by trans h1| |].
  - by rewrite pair_denote_Some.
  - unfold pair_locs. cbn. rewrite El1. set_solver.
Qed.

#[export] Instance pair_copyable : Copyable (T * T') (V * V') := {|
  denote := pair_denote;
  locs := pair_locs;
  DeepCopyInto := pair_copy;
  denote_frame := pair_frame;
  denote_dom := pair_dom;
  copy_spec := pair_spec
|}.
End pair.

Lemma denote_pair `{Copyable T V, Copyable T' V'} h (a : T) (b : T') (v : V) (w : V') :
  denote h (a, b) = Some (v, w) <-> denote h a = Some v /\ denote h b = Some w.
Proof. apply (pair_denote_Some h (a, b) (v, w)). Qed.

(** The elements of an array, in order. *)
Section elements.
Context `{Copyable T V}.

Fixpoint list_denote (h : heap) (l : list T) : option (list V) :=
  match l with
  | [] => Some []
  | x :: l => v ← denote h x; vs ← list_denote h l; Some (v :: vs)
  end.
Fixpoint list_locs (h : heap) (l : list T) : gset loc :=
  match l with [] => ∅ | x :: l => locs h x ∪ list_locs h l end.
Fixpoint list_copy (l : list T) : heapM (list T) :=
  match l with
  | [] => mret []
  | x :: l => x ← DeepCopyInto x; l ← list_copy l; mret (x :: l)
  end.

Lemma list_denote_cons h x l vs :
  list_denote h (x :: l) = Some vs <->
  exists v vs', vs = v :: vs' /\ denote h x = Some v /\ list_denote h l = Some vs'.
Proof.
  cbn. destruct (denote h x) as [v|], (list_denote h l) as [vs'|]; cbn; split; try done;
    try (intros (?&?&?&?&?); done).
  - intros [= <-]. eauto.
  - intros (?&?&->&[= ->]&[= ->]). done.
Qed.

Lemma list_frame h h2 l vs :
  list_denote h l = Some vs -> (forall k, k ∈ list_locs h l -> h2 !! k = h !! k) ->
  list_denote h2 l = Some vs /\ list_locs h2 l = list_locs h l.
Proof.
  revert vs. induction l as [|x l IH]; intros vs; [done|].
  rewrite !list_denote_cons. cbn [list_locs]. intros (v&vs'&->&Hx&Hl) Hk.
  destruct (denote_frame _ h2 _ _ Hx) as [Hx' ->]; [set_solver|].
  destruct (IH _ Hl) as [Hl' ->]; [set_solver|]. eauto 6.
Qed.

Lemma list_dom h l vs : list_denote h l = Some vs -> list_locs h l ⊆ dom h.
Proof.
  revert vs. induction l as [|x l IH]; intros vs; [set_solver|].
  rewrite list_denote_cons. cbn [list_locs]. intros (v&vs'&_&Hx%denote_dom&Hl%IH). set_solver.
Qed.

Lemma list_spec h l vs :
  list_denote h l = Some vs ->
  exists l' h', list_copy l h = (l', h') /\ h ⊆ h' /\ list_denote h' l' = Some vs /\
    list_locs h' l' ## dom h.
Proof.
  revert h vs. induction l as [|x l IH]; intros h vs.
  { intros [= <-]. exists [], h. split_and!; [done|done|done|set_solver]. }
  rewrite list_denote_cons. intros (v&vs'&->&Hx&Hl).
  cbn [list_copy]. unfold mbind, heapM_bind, mret, heapM_ret.
  destruct (copy_spec _ _ _ Hx) as (x'&h1&->&Hs1&Hd1&Hl1).
  assert (list_denote h1 l = Some vs') as Hlm.
  { apply (list_frame h); [done|]. intros k Hk. apply (list_dom _ _ _ Hl), elem_of_dom in Hk as [c Hc].
    rewrite Hc. by eapply lookup_weaken. }
  destruct (IH _ _ Hlm) as (l'&h2&->&Hs2&Hd2&Hl2).
  destruct (denote_mono _ h2 _ _ Hd1 Hs2) as [Hd1' El1].
  pose proof (dom_mono _ _ Hs1).
  exists (x' :: l'), h2. split_and!; [done|by trans h1| |].
  - rewrite list_denote_cons. eauto.
  - cbn [list_locs]. rewrite El1. set_solver.
Qed.

#[export] Instance list_copyable : Copyable (list T) (list V) := {|
  denote := list_denote;
  locs := list_locs;
  DeepCopyInto := list_copy;
  denote_frame := list_frame;
  denote_dom := list_dom;
  copy_spec := list_spec
|}.
End elements.

(** ** Locations

    What a location holds, through a view of it: all of it for a pointer, the
    window of a slice. *)

Section box.
Context `{Stored X, Copyable X V} (view : X -> option X).

Definition box_read (h : heap) (l : loc) : option X := x ← read h l; view x.
Definition box_denote (h : heap) (l : loc) : option V := x ← box_read h l; denote h x.
Definition box_locs (h : heap) (l : loc) : gset loc :=
  {[l]} ∪ match box_read h l with Some x => locs h x | None => ∅ end.
(** [out := new(X); in.DeepCopyInto(out)]: the copy, in a new location. *)
Definition box_copy (l : loc) : heapM loc := fun h =>
  match box_read h l with
  | Some x => (x' ← DeepCopyInto x; new x') h
  | None => (l, h)
  end.

Lemma box_denote_Some h l v :
  box_denote h l = Some v <-> exists x, box_read h l = Some x /\ denote h x = Some v.
Proof.
  unfold box_denote. destruct (box_read h l) as [x|]; cbn; [|naive_solver].
  split; [eauto|]. by intros (?&[= ->]&?).
Qed.

Lemma box_read_eq h h2 l : h2 !! l = h !! l -> box_read h2 l = box_read h l.
Proof. unfold box_read, read. by intros ->. Qed.

Lemma box_frame h h2 l v :
  box_denote h l = Some v -> (forall k, k ∈ box_locs h l -> h2 !! k = h !! k) ->
  box_denote h2 l = Some v /\ box_locs h2 l = box_locs h l.
Proof.
  rewrite !box_denote_Some. intros (x&Hr&Hd) Hk. unfold box_locs in *. rewrite Hr in Hk.
  rewrite (box_read_eq h h2) by (apply Hk; set_solver). rewrite Hr.
  destruct (denote_frame _ h2 _ _ Hd) as [Hd' ->]; [set_solver|]. eauto.
Qed.

Lemma box_dom h l v : box_denote h l = Some v -> box_locs h l ⊆ dom h.
Proof.
  rewrite box_denote_Some. intros (x&Hr&Hd%denote_dom). unfold box_locs. rewrite Hr.
  assert (l ∈ dom h); [|set_solver]. apply elem_of_dom. unfold box_read, read in Hr.
  by destruct (h !! l) as [c|]; [exists c|].
Qed.

Lemma box_spec h l v :
  box_denote h l = Some v ->
  exists x' l' h', box_copy l h = (l', h') /\ h ⊆ h' /\ read h' l' = Some x' /\
    denote h' x' = Some v /\ (l' ∉ dom h) /\ locs h' x' ## dom h.
Proof.
  rewrite box_denote_Some. intros (x&Hr&Hd). unfold box_copy. rewrite Hr.
  unfold mbind, heapM_bind, new.
  destruct (copy_spec _ _ _ Hd) as (x'&h1&->&Hs1&Hd1&Hl1).
  pose proof (is_fresh (dom h1)) as Hf. pose proof (dom_mono _ _ Hs1) as Hdom.
  assert (h1 ⊆ write (fresh (dom h1)) x' h1) as Hs2
    by (apply insert_subseteq, not_elem_of_dom, Hf).
  destruct (denote_mono _ _ _ _ Hd1 Hs2) as [Hd2 El].
  eexists x', _, _. split; [reflexivity|]. split_and!; [by trans h1| |done| |].
  - unfold read, write. rewrite lookup_insert_eq. apply of_to_cell.
  - set_solver.
  - by rewrite El.
Qed.
End box.

(** Pointers. *)
Section pointer.
Context `{Stored X, Copyable X V}.

Definition ptr_denote (h : heap) (p : ptr X) : option (option V) :=
  match ptr_loc p with None => Some None | Some l => Some <$> box_denote Some h l end.
Definition ptr_locs (h : heap) (p : ptr X) : gset loc :=
  match ptr_loc p with None => ∅ | Some l => box_locs Some h l end.
(** [if in.P != nil { *out = new(X); in.P.DeepCopyInto( *out) }]. *)
Definition ptr_copy (p : ptr X) : heapM (ptr X) :=
  match ptr_loc p with
  | None => mret (Ptr None)
  | Some l => l' ← box_copy Some l; mret (Ptr (Some l'))
  end.

Lemma ptr_frame h h2 p v :
  ptr_denote h p = Some v -> (forall k, k ∈ ptr_locs h p -> h2 !! k = h !! k) ->
  ptr_denote h2 p = Some v /\ ptr_locs h2 p = ptr_locs h p.
Proof.
  unfold ptr_denote, ptr_locs. destruct (ptr_loc p) as [l|]; [|done].
  intros (w&Hw&->)%fmap_Some Hk. destruct (box_frame Some h h2 l w Hw Hk) as [-> ->]. done.
Qed.

Lemma ptr_dom h p v : ptr_denote h p = Some v -> ptr_locs h p ⊆ dom h.
Proof.
  unfold ptr_denote, ptr_locs. destruct (ptr_loc p) as [l|]; [|set_solver].
  intros (w&Hw&->)%fmap_Some. by eapply box_dom.
Qed.

Lemma ptr_spec h p v :
  ptr_denote h p = Some v ->
  exists p' h', ptr_copy p h = (p', h') /\ h ⊆ h' /\ ptr_denote h' p' = Some v /\
    ptr_locs h' p' ## dom h.
Proof.
  unfold ptr_denote at 1, ptr_copy. destruct (ptr_loc p) as [l|].
  2:{ intros [= <-]. exists (Ptr None), h. split_and!; [done|done|done|]. cbn. set_solver. }
  intros (w&Hw&->)%fmap_Some. unfold mbind, heapM_bind, mret, heapM_ret.
  destruct (box_spec Some h l w Hw) as (x'&l'&h'&->&Hs&Hr&Hd&Hn&Hl).
  exists (Ptr (Some l')), h'. split_and!; [done|done| |].
  - unfold ptr_denote. cbn. unfold box_denote, box_read. rewrite Hr. cbn. by rewrite Hd.
  - unfold ptr_locs, box_locs, box_read. cbn. rewrite Hr. cbn. set_solver.
Qed.

#[export] Instance ptr_copyable : Copyable (ptr X) (option V) := {|
  denote := ptr_denote;
  locs := ptr_locs;
  DeepCopyInto := ptr_copy;
  denote_frame := ptr_frame;
  denote_dom := ptr_dom;
  copy_spec := ptr_spec
|}.
End pointer.

(** Maps: nil reads as the empty map. *)
#[export] Instance map_stored : Stored (gmap string string) := {|
  to_cell := CMap;
  of_cell c := match c with CMap m => Some m | _ => None end;
  of_to_cell _ := eq_refl
|}.
#[export] Instance map_plain : Copyable (gmap string string) (gmap string string) := plain.

(** A type that copies like another one, through two functions. *)
Section via.
Context {T V A W : Type} `{Copyable A W}.
Context (to : T -> A) (from : A -> T) (value : W -> V) (copy : T -> heapM T).
Context (to_from : forall a, to (from a) = a).
Context (copy_eq : forall x h, copy x h = (a ← DeepCopyInto (to x); mret (from a)) h).

Definition via_denote (h : heap) (x : T) : option V := value <$> denote h (to x).
Definition via_locs (h : heap) (x : T) : gset loc := locs h (to x).

Lemma via_frame h h2 x v :
  via_denote h x = Some v -> (forall l, l ∈ via_locs h x -> h2 !! l = h !! l) ->
  via_denote h2 x = Some v /\ via_locs h2 x = via_locs h x.
Proof.
  unfold via_denote, via_locs. intros (w&Hw&->)%fmap_Some Hl.
  destruct (denote_frame _ h2 _ _ Hw Hl) as [-> ->]. done.
Qed.

Lemma via_dom h x v : via_denote h x = Some v -> via_locs h x ⊆ dom h.
Proof. unfold via_denote, via_locs. intros (w&Hw&->)%fmap_Some. by eapply denote_dom. Qed.

Lemma via_spec h x v :
  via_denote h x = Some v ->
  exists x' h', copy x h = (x', h') /\ h ⊆ h' /\ via_denote h' x' = Some v /\
    via_locs h' x' ## dom h.
Proof.
  unfold via_denote at 1. intros (w&Hw&->)%fmap_Some.
  destruct (copy_spec _ _ _ Hw) as (a&h'&E&Hs&Hd&Hl).
  exists (from a), h'. rewrite copy_eq. unfold mbind, heapM_bind, mret, heapM_ret. rewrite E.
  split_and!; [done|done| |].
  - unfold via_denote. by rewrite to_from, Hd.
  - unfold via_locs. by rewrite to_from.
Qed.

Definition via : Copyable T V := {|
  denote := via_denote;
  locs := via_locs;
  DeepCopyInto := copy;
  denote_frame := via_frame;
  denote_dom := via_dom;
  copy_spec := via_spec
|}.
End via.

(** [if in.M != nil { *out = make(map...); for k, v := range *in {...} }]. *)
Definition map_copy (m : gomap string) : heapM (gomap string) :=
  p ← ptr_copy (Ptr (X := gmap string string) (map_loc m)); mret (GoMap (ptr_loc p)).

#[export, refine] Instance gomap_copyable : Copyable (gomap string) (gmap string string) :=
  via (fun m => Ptr (X := gmap string string) (map_loc m)) (fun p => GoMap (ptr_loc p))
    (default ∅) map_copy _ _.
Proof. - by intros []. - done. Defined.

(** Slices: nil reads as the empty list.  The copy has an array of its own, of
    the length of the window. *)
Section slices.
Context `{Stored (list X), Copyable X V}.

Definition window (s : slice X) (l : list X) : option (list X) :=
  if (sl_offset s + sl_len s <=? length l)%nat then Some (take (sl_len s) (drop (sl_offset s) l))
  else None.

Definition slice_denote (h : heap) (s : slice X) : option (list V) :=
  match sl_array s with None => Some [] | Some l => box_denote (window s) h l end.
Definition slice_locs (h : heap) (s : slice X) : gset loc :=
  match sl_array s with None => ∅ | Some l => box_locs (window s) h l end.
(** [if in.S != nil { *out = make([]X, len( *in)); copy each }]. *)
Definition slice_copy (s : slice X) : heapM (slice X) :=
  match sl_array s with
  | None => mret (Slice None 0 0)
  | Some l => l' ← box_copy (window s) l; mret (Slice (Some l') 0 (sl_len s))
  end.

Lemma list_denote_length h l vs : list_denote h l = Some vs -> length vs = length l.
Proof.
  revert vs. induction l as [|x l IH]; intros vs; [by intros [= <-]|].
  rewrite list_denote_cons. intros (v&vs'&->&_&Hl). cbn. by rewrite (IH _ Hl).
Qed.

Lemma window_length s l l' : window s l = Some l' -> length l' = sl_len s.
Proof.
  unfold window. destruct (Nat.leb_spec (sl_offset s + sl_len s) (length l)); [|done].
  intros [= <-]. rewrite length_take, length_drop. lia.
Qed.

Lemma slice_frame h h2 s v :
  slice_denote h s = Some v -> (forall k, k ∈ slice_locs h s -> h2 !! k = h !! k) ->
  slice_denote h2 s = Some v /\ slice_locs h2 s = slice_locs h s.
Proof.
  unfold slice_denote, slice_locs. destruct (sl_array s) as [l|]; [|done].
  intros Hw Hk. destruct (box_frame (window s) h h2 l v Hw Hk) as [-> ->]. done.
Qed.

Lemma slice_dom h s v : slice_denote h s = Some v -> slice_locs h s ⊆ dom h.
Proof.
  unfold slice_denote, slice_locs. destruct (sl_array s) as [l|]; [|set_solver].
  intros Hw. by eapply (box_dom (window s)).
Qed.

Lemma slice_spec h s v :
  slice_denote h s = Some v ->
  exists s' h', slice_copy s h = (s', h') /\ h ⊆ h' /\ slice_denote h' s' = Some v /\
    slice_locs h' s' ## dom h.
Proof.
  unfold slice_denote at 1, slice_copy. destruct (sl_array s) as [l|].
  2:{ intros [= <-]. exists (Slice None 0 0), h. split_and!; [done|done|done|]. cbn. set_solver. }
  intros Hw. unfold mbind, heapM_bind, mret, heapM_ret.
  destruct (box_spec (window s) h l v Hw) as (x'&l'&h'&->&Hs&Hr&Hd&Hn&Hl).
  apply box_denote_Some in Hw as (x&Hx&Hdx). unfold box_read in Hx.
  destruct (read h l) as [y|]; [|done]. apply window_length in Hx.
  pose proof (list_denote_length _ _ _ Hdx) as E1. pose proof (list_denote_length _ _ _ Hd) as E2.
  exists (Slice (Some l') 0 (sl_len s)), h'.
  assert (window (Slice (Some l') 0 (sl_len s)) x' = Some x') as Ew.
  { unfold window. cbn [sl_offset sl_len Nat.add]. replace (sl_len s <=? length x')%nat with true.
    - rewrite drop_0, take_ge; [done|lia].
    - symmetry. apply Nat.leb_le. lia. }
  split_and!; [done|done| |].
  - unfold slice_denote. cbn [sl_array]. unfold box_denote, box_read. rewrite Hr.
    cbn [mbind option_bind]. by rewrite Ew.
  - unfold slice_locs. cbn [sl_array]. unfold box_locs, box_read. rewrite Hr.
    cbn [mbind option_bind]. rewrite Ew. set_solver.
Qed.

#[export] Instance slice_copyable : Copyable (slice X) (list V) := {|
  denote := slice_denote;
  locs := slice_locs;
  DeepCopyInto := slice_copy;
  denote_frame := slice_frame;
  denote_dom := slice_dom;
  copy_spec := slice_spec
|}.
End slices.

(** [if in == nil { return nil }; out := new(T); in.DeepCopyInto(out)]. *)
Definition DeepCopy `{Stored X, Copyable X V} (p : ptr X) : heapM (ptr X) := ptr_copy p.

(** A copy shares nothing: it denotes the same value, what is written through
    either does not show through the other. *)
Record isolated `{Copyable T V} (h h' : heap) (x x' : T) (v : V) : Prop := {
  iso_old : h ⊆ h';
  iso_same : denote h' x' = Some v;
  iso_disjoint : locs h' x' ## locs h' x;
  iso_through_copy h2 :
    (forall l, l ∉ locs h' x' -> h2 !! l = h' !! l) -> denote h2 x = Some v;
  iso_through_original h2 :
    (forall l, l ∉ locs h' x -> h2 !! l = h' !! l) -> denote h2 x' = Some v
}.

Lemma copy_isolated `{Copyable T V} h x v :
  denote h x = Some v ->
  exists x' h', DeepCopyInto x h = (x', h') /\ isolated h h' x x' v.
Proof.
  intros Hd. destruct (copy_spec _ _ _ Hd) as (x'&h'&E&Hs&Hd'&Hl).
  exists x', h'. split; [done|].
  destruct (denote_mono _ h' _ _ Hd Hs) as [Hdx El]. pose proof (denote_dom _ _ _ Hd) as Hdom.
  assert (locs h' x' ## locs h' x) as Hdis by (rewrite El; set_solver).
  split; [done|done|done| |]; intros h2 H2.
  - apply (denote_frame h'); [done|]. intros l Hin. apply H2. set_solver.
  - apply (denote_frame h'); [done|]. intros l Hin. apply H2. set_solver.
Qed.
