(* ===== verification/DeepCopy.v ===== *)
(** * The generated deep copies (zz_generated.deepcopy.go)

    [DeepCopyInto] of the types of v1alpha1 and of the duck types they embed,
    field by field, on the heap of Heap.v, each an instance of [Copyable].
    What follows from it: the copy of a cached resource the reconciler works on
    shares nothing with the cache, and the one the resolver gets shares nothing
    with the source. *)

From S2P Require Import Prelude GoStrings CondSet Types Lifecycle Names Deployment Reconcile Heap.
Local Open Scope string_scope.
Local Open Scope list_scope.

(** ** Cells *)

#[export] Instance string_stored : Stored string :=
  {| to_cell := CString; of_cell c := match c with CString s => Some s | _ => None end;
     of_to_cell _ := eq_refl |}.
#[export] Instance time_stored : Stored Z :=
  {| to_cell := CInt; of_cell c := match c with CInt t => Some t | _ => None end;
     of_to_cell _ := eq_refl |}.
#[export] Instance bool_stored : Stored bool :=
  {| to_cell := CBool; of_cell c := match c with CBool b => Some b | _ => None end;
     of_to_cell _ := eq_refl |}.
#[export] Instance bytes_stored : Stored (list ascii) :=
  {| to_cell := CBytes; of_cell c := match c with CBytes l => Some l | _ => None end;
     of_to_cell _ := eq_refl |}.
#[export] Instance Owners_stored : Stored (list go_OwnerReference) :=
  {| to_cell := COwners; of_cell c := match c with COwners l => Some l | _ => None end;
     of_to_cell _ := eq_refl |}.
#[export] Instance FieldsV1_stored : Stored go_FieldsV1 :=
  {| to_cell := CFieldsV1; of_cell c := match c with CFieldsV1 f => Some f | _ => None end;
     of_to_cell _ := eq_refl |}.
#[export] Instance ManagedFields_stored : Stored (list go_ManagedFieldsEntry) :=
  {| to_cell := CManagedFields; of_cell c := match c with CManagedFields l => Some l | _ => None end;
     of_to_cell _ := eq_refl |}.
#[export] Instance Auth_stored : Stored go_AuthStatus :=
  {| to_cell := CAuth; of_cell c := match c with CAuth a => Some a | _ => None end;
     of_to_cell _ := eq_refl |}.
#[export] Instance strings_stored : Stored (list string) :=
  {| to_cell := CStrings; of_cell c := match c with CStrings l => Some l | _ => None end;
     of_to_cell _ := eq_refl |}.
#[export] Instance conditions_stored : Stored (list Condition) :=
  {| to_cell := CConditions; of_cell c := match c with CConditions l => Some l | _ => None end;
     of_to_cell _ := eq_refl |}.
#[export] Instance attributes_stored : Stored (list CloudEventAttributes) :=
  {| to_cell := CAttributes; of_cell c := match c with CAttributes l => Some l | _ => None end;
     of_to_cell _ := eq_refl |}.
#[export] Instance URL_stored : Stored go_URL :=
  {| to_cell := CURL; of_cell c := match c with CURL u => Some u | _ => None end;
     of_to_cell _ := eq_refl |}.
#[export] Instance KReference_stored : Stored go_KReference :=
  {| to_cell := CKReference; of_cell c := match c with CKReference k => Some k | _ => None end;
     of_to_cell _ := eq_refl |}.
#[export] Instance Destination_stored : Stored go_Destination :=
  {| to_cell := CDestination; of_cell c := match c with CDestination d => Some d | _ => None end;
     of_to_cell _ := eq_refl |}.
#[export] Instance Overrides_stored : Stored go_CloudEventOverrides :=
  {| to_cell := COverrides; of_cell c := match c with COverrides o => Some o | _ => None end;
     of_to_cell _ := eq_refl |}.
#[export] Instance Filter_stored : Stored go_Filter :=
  {| to_cell := CFilter; of_cell c := match c with CFilter f => Some f | _ => None end;
     of_to_cell _ := eq_refl |}.
#[export] Instance Source_stored : Stored go_YipYapSource :=
  {| to_cell := CSource; of_cell c := match c with CSource y => Some y | _ => None end;
     of_to_cell _ := eq_refl |}.
#[export] Instance Sources_stored : Stored (list go_YipYapSource) :=
  {| to_cell := CSources; of_cell c := match c with CSources l => Some l | _ => None end;
     of_to_cell _ := eq_refl |}.
#[export] Instance List_stored : Stored go_List :=
  {| to_cell := CList; of_cell c := match c with CList l => Some l | _ => None end;
     of_to_cell _ := eq_refl |}.

#[export] Instance APIKey_stored : Stored APIKeyReference :=
  {| to_cell := CAPIKey; of_cell c := match c with CAPIKey k => Some k | _ => None end;
     of_to_cell _ := eq_refl |}.
#[export] Instance Spec_stored : Stored go_Spec :=
  {| to_cell := CSpec; of_cell c := match c with CSpec s => Some s | _ => None end;
     of_to_cell _ := eq_refl |}.
#[export] Instance Status_stored : Stored go_Status :=
  {| to_cell := CStatus; of_cell c := match c with CStatus s => Some s | _ => None end;
     of_to_cell _ := eq_refl |}.

(** The obligations of [via]: the tuple of the fields and back, and the copy
    one field at a time. *)
Ltac destruct_pairs := repeat match goal with p : (_ * _)%type |- _ => destruct p end.
Ltac copy_tuple := intros; destruct_pairs; reflexivity.
Ltac copy_fields :=
  let x := fresh in let h := fresh in
  intros x h; destruct x;
  cbn; unfold pair_copy, mbind, heapM_bind, mret, heapM_ret; cbn;
  repeat (match goal with
  | |- context [match ?m with pair _ _ => _ end] => destruct m
  end; cbn);
  reflexivity.

(** ** The duck types *)

Definition set_user (user : option string) (u : URL) : URL :=
  MkURL (uScheme u) (uOpaque u) user (uHost u) (uPath u) (uRawPath u) (uOmitHost u)
    (uForceQuery u) (uRawQuery u) (uFragment u) (uRawFragment u).

Definition URL_DeepCopyInto (u : go_URL) : heapM go_URL :=
  user ← DeepCopyInto (guUser u);
  mret (MkGoURL (guFields u) user).

#[export, refine] Instance URL_copyable : Copyable go_URL URL :=
  via (fun u => (guFields u, guUser u)) (fun a => MkGoURL a.1 a.2)
    (fun v => set_user v.2 v.1) URL_DeepCopyInto _ _.
Proof. - copy_tuple. - copy_fields. Defined.

Definition KReference_DeepCopyInto (k : go_KReference) : heapM go_KReference :=
  address ← DeepCopyInto (gkAddress k);
  mret (MkGoKReference (gkKind k) (gkNamespace k) (gkName k) (gkAPIVersion k) (gkGroup k) address).

#[export, refine] Instance KReference_copyable : Copyable go_KReference KReference :=
  via (fun k => ((gkKind k, gkNamespace k, gkName k), (gkAPIVersion k, gkGroup k), gkAddress k))
    (fun a => let '((kind, ns, name), (v, g), address) := a in MkGoKReference kind ns name v g address)
    (fun a => let '((kind, ns, name), (v, g), address) := a in MkKReference kind ns name v g address)
    KReference_DeepCopyInto _ _.
Proof. - copy_tuple. - copy_fields. Defined.

Definition Destination_DeepCopyInto (d : go_Destination) : heapM go_Destination :=
  ref ← DeepCopyInto (gdRef d);
  uri ← DeepCopyInto (gdURI d);
  caCerts ← DeepCopyInto (gdCACerts d);
  audience ← DeepCopyInto (gdAudience d);
  mret (MkGoDestination ref uri caCerts audience).

#[export, refine] Instance Destination_copyable : Copyable go_Destination Destination :=
  via (fun d => (gdRef d, gdURI d, gdCACerts d, gdAudience d))
    (fun a => let '(r, u, c, au) := a in MkGoDestination r u c au)
    (fun a => let '(r, u, c, au) := a in MkDestination r u c au) Destination_DeepCopyInto _ _.
Proof. - copy_tuple. - copy_fields. Defined.

Definition CloudEventOverrides_DeepCopyInto (o : go_CloudEventOverrides)
    : heapM go_CloudEventOverrides :=
  extensions ← DeepCopyInto (goExtensions o);
  mret (MkGoOverrides extensions).

#[export, refine] Instance Overrides_copyable
    : Copyable go_CloudEventOverrides (gmap string string) :=
  via goExtensions MkGoOverrides id CloudEventOverrides_DeepCopyInto _ _.
Proof. - copy_tuple. - copy_fields. Defined.

Definition SourceSpec_DeepCopyInto (s : go_SourceSpec) : heapM go_SourceSpec :=
  sink ← DeepCopyInto (gsSink s);
  overrides ← DeepCopyInto (gsCloudEventOverrides s);
  mret (MkGoSourceSpec sink overrides).

#[export, refine] Instance SourceSpec_copyable
    : Copyable go_SourceSpec (Destination * option (gmap string string)) :=
  via (fun s => (gsSink s, gsCloudEventOverrides s)) (fun a => MkGoSourceSpec a.1 a.2) id
    SourceSpec_DeepCopyInto _ _.
Proof. - copy_tuple. - copy_fields. Defined.

Definition DuckStatus_DeepCopyInto (s : go_DuckStatus) : heapM go_DuckStatus :=
  conditions ← DeepCopyInto (gtConditions s);
  annotations ← DeepCopyInto (gtAnnotations s);
  mret (MkGoDuckStatus (gtObservedGeneration s) conditions annotations).

#[export, refine] Instance DuckStatus_copyable
    : Copyable go_DuckStatus (Z * list Condition * gmap string string) :=
  via (fun s => (gtObservedGeneration s, gtConditions s, gtAnnotations s))
    (fun a => let '(g, c, an) := a in MkGoDuckStatus g c an) id DuckStatus_DeepCopyInto _ _.
Proof. - copy_tuple. - copy_fields. Defined.

Definition AuthStatus_DeepCopyInto (a : go_AuthStatus) : heapM go_AuthStatus :=
  name ← DeepCopyInto (gaServiceAccountName a);
  names ← DeepCopyInto (gaServiceAccountNames a);
  mret (MkGoAuthStatus name names).

#[export, refine] Instance AuthStatus_copyable : Copyable go_AuthStatus AuthStatus :=
  via (fun a => (gaServiceAccountName a, gaServiceAccountNames a))
    (fun a => let '(n, ns) := a in MkGoAuthStatus n ns)
    (fun a => let '(n, ns) := a in MkAuthStatus n ns) AuthStatus_DeepCopyInto _ _.
Proof. - copy_tuple. - copy_fields. Defined.

Definition SourceStatus_DeepCopyInto (s : go_SourceStatus) : heapM go_SourceStatus :=
  status ← DeepCopyInto (gtStatus s);
  sinkURI ← DeepCopyInto (gtSinkURI s);
  attributes ← DeepCopyInto (gtCloudEventAttributes s);
  caCerts ← DeepCopyInto (gtSinkCACerts s);
  audience ← DeepCopyInto (gtSinkAudience s);
  auth ← DeepCopyInto (gtAuth s);
  mret (MkGoSourceStatus status sinkURI attributes caCerts audience auth).

#[export, refine] Instance SourceStatus_copyable : Copyable go_SourceStatus
    (Z * list Condition * gmap string string * option URL * list CloudEventAttributes *
     option string * option string * option AuthStatus) :=
  via (fun s => (gtStatus s, gtSinkURI s, gtCloudEventAttributes s, gtSinkCACerts s,
                 gtSinkAudience s, gtAuth s))
    (fun a => let '(s, u, at_, c, au, ath) := a in MkGoSourceStatus s u at_ c au ath) id
    SourceStatus_DeepCopyInto _ _.
Proof. - copy_tuple. - copy_fields. Defined.

(** ** Object metadata (metav1) *)

Definition OwnerReference_DeepCopyInto (o : go_OwnerReference) : heapM go_OwnerReference :=
  controller ← DeepCopyInto (gwController o);
  block ← DeepCopyInto (gwBlockOwnerDeletion o);
  mret (MkGoOwnerReference (gwAPIVersion o) (gwKind o) (gwName o) (gwUID o) controller block).

#[export, refine] Instance OwnerReference_copyable : Copyable go_OwnerReference OwnerReference :=
  via (fun o => (gwAPIVersion o, gwKind o, gwName o, gwUID o, gwController o,
                 gwBlockOwnerDeletion o))
    (fun a => let '(v, k, n, u, c, b) := a in MkGoOwnerReference v k n u c b)
    (fun a => let '(v, k, n, u, c, b) := a in MkOwnerReference v k n u c b)
    OwnerReference_DeepCopyInto _ _.
Proof. - copy_tuple. - copy_fields. Defined.

Definition FieldsV1_DeepCopyInto (f : go_FieldsV1) : heapM go_FieldsV1 :=
  raw ← DeepCopyInto (gvRaw f);
  mret (MkGoFieldsV1 raw).

#[export, refine] Instance FieldsV1_copyable : Copyable go_FieldsV1 (list ascii) :=
  via gvRaw MkGoFieldsV1 id FieldsV1_DeepCopyInto _ _.
Proof. - copy_tuple. - copy_fields. Defined.

Definition ManagedFieldsEntry_DeepCopyInto (e : go_ManagedFieldsEntry)
    : heapM go_ManagedFieldsEntry :=
  time ← DeepCopyInto (gnTime e);
  fields ← DeepCopyInto (gnFieldsV1 e);
  mret (MkGoManagedFields (gnManager e) (gnOperation e) (gnAPIVersion e) time (gnFieldsType e)
          fields (gnSubresource e)).

#[export, refine] Instance ManagedFieldsEntry_copyable
    : Copyable go_ManagedFieldsEntry ManagedFieldsEntry :=
  via (fun e => (gnManager e, gnOperation e, gnAPIVersion e, gnTime e, gnFieldsType e,
                 gnFieldsV1 e, gnSubresource e))
    (fun a => let '(m, o, v, t, ft, f, s) := a in MkGoManagedFields m o v t ft f s)
    (fun a => let '(m, o, v, t, ft, f, s) := a in MkManagedFields m o v t ft f s)
    ManagedFieldsEntry_DeepCopyInto _ _.
Proof. - copy_tuple. - copy_fields. Defined.

Definition ObjectMeta_DeepCopyInto (m : go_ObjectMeta) : heapM go_ObjectMeta :=
  creation ← DeepCopyInto (gmCreationTimestamp m);
  deletion ← DeepCopyInto (gmDeletionTimestamp m);
  grace ← DeepCopyInto (gmDeletionGracePeriodSeconds m);
  labels ← DeepCopyInto (gmLabels m);
  annotations ← DeepCopyInto (gmAnnotations m);
  owners ← DeepCopyInto (gmOwnerReferences m);
  finalizers ← DeepCopyInto (gmFinalizers m);
  managed ← DeepCopyInto (gmManagedFields m);
  mret (MkGoObjectMeta (gmName m) (gmGenerateName m) (gmNamespace m) (gmSelfLink m) (gmUID m)
          (gmResourceVersion m) (gmGeneration m) creation deletion grace labels annotations owners
          finalizers managed).

(** The plain fields, and the copied ones. *)
Definition meta_value
    (a : (string * string * string * string * string * string * Z * Z) *
         (option Z * option Z * gmap string string * gmap string string * list OwnerReference *
          list string * list ManagedFieldsEntry)) : ObjectMeta :=
  let '((n, gn, ns, sl, u, rv, g, ct), (d, gr, lb, an, ow, f, mf)) := a in
  MkObjectMeta n ns u g rv d f (MkObjectMetaRest gn sl ct gr lb an ow mf).

#[export, refine] Instance ObjectMeta_copyable : Copyable go_ObjectMeta ObjectMeta :=
  via (fun m => ((gmName m, gmGenerateName m, gmNamespace m, gmSelfLink m, gmUID m,
                  gmResourceVersion m, gmGeneration m, gmCreationTimestamp m),
                 (gmDeletionTimestamp m, gmDeletionGracePeriodSeconds m, gmLabels m, gmAnnotations m,
                  gmOwnerReferences m, gmFinalizers m, gmManagedFields m)))
    (fun a => let '((n, gn, ns, sl, u, rv, g, ct), (d, gr, lb, an, ow, f, mf)) := a in
              MkGoObjectMeta n gn ns sl u rv g ct d gr lb an ow f mf)
    meta_value ObjectMeta_DeepCopyInto _ _.
Proof. - copy_tuple. - copy_fields. Defined.

(** ** The types of v1alpha1 *)

Definition APIKeyReference_DeepCopyInto (k : APIKeyReference) : heapM APIKeyReference := mret k.

Definition Filter_DeepCopyInto (f : go_Filter) : heapM go_Filter :=
  types ← DeepCopyInto (gfTypes f);
  monitorIDs ← DeepCopyInto (gfMonitorIDs f);
  severities ← DeepCopyInto (gfSeverities f);
  mret (MkGoFilter types monitorIDs severities).

#[export, refine] Instance Filter_copyable : Copyable go_Filter YipYapSourceFilter :=
  via (fun f => (gfTypes f, gfMonitorIDs f, gfSeverities f))
    (fun a => let '(t, m, s) := a in MkGoFilter t m s)
    (fun a => let '(t, m, s) := a in MkFilter t m s) Filter_DeepCopyInto _ _.
Proof. - copy_tuple. - copy_fields. Defined.

Definition Spec_DeepCopyInto (s : go_Spec) : heapM go_Spec :=
  source ← DeepCopyInto (gpSourceSpec s);
  filter ← DeepCopyInto (gpFilter s);
  mret (MkGoSpec source (gpAPIKeyRef s) (gpBaseURL s) filter (gpMode s) (gpServiceAccountName s)).

#[export, refine] Instance Spec_copyable : Copyable go_Spec YipYapSourceSpec :=
  via (fun s => (gpSourceSpec s, gpAPIKeyRef s, gpBaseURL s, gpFilter s, gpMode s,
                 gpServiceAccountName s))
    (fun a => let '(s, k, b, f, m, sa) := a in MkGoSpec s k b f m sa)
    (fun a => let '((sink, ov), k, b, f, m, sa) := a in MkSpec sink ov k b f m sa)
    Spec_DeepCopyInto _ _.
Proof. - copy_tuple. - copy_fields. Defined.

Definition Status_DeepCopyInto (s : go_Status) : heapM go_Status :=
  source ← DeepCopyInto (gtSourceStatus s);
  last ← DeepCopyInto (gtLastEventTime s);
  mret (MkGoStatus source (gtDeploymentName s) last (gtEventCount s)).

#[export, refine] Instance Status_copyable : Copyable go_Status YipYapSourceStatus :=
  via (fun s => (gtSourceStatus s, gtDeploymentName s, gtLastEventTime s, gtEventCount s))
    (fun a => let '(s, n, t, c) := a in MkGoStatus s n t c)
    (fun a => let '((g, cs, an, u, at_, ca, au, ath), n, t, c) := a in
              MkStatus g cs an u at_ ca au ath n t c)
    Status_DeepCopyInto _ _.
Proof. - copy_tuple. - copy_fields. Defined.

Definition Source_DeepCopyInto (y : go_YipYapSource) : heapM go_YipYapSource :=
  meta ← DeepCopyInto (gyMeta y);
  spec ← DeepCopyInto (gySpec y);
  status ← DeepCopyInto (gyStatus y);
  mret (MkGoYipYapSource meta spec status).

#[export, refine] Instance Source_copyable : Copyable go_YipYapSource YipYapSource :=
  via (fun y => (gyMeta y, gySpec y, gyStatus y))
    (fun a => let '(m, s, st) := a in MkGoYipYapSource m s st)
    (fun a => let '(m, s, st) := a in MkYipYapSource m s st) Source_DeepCopyInto _ _.
Proof. - copy_tuple. - copy_fields. Defined.

Definition List_DeepCopyInto (l : go_List) : heapM go_List :=
  items ← DeepCopyInto (glItems l);
  mret (MkGoList items).

#[export, refine] Instance List_copyable : Copyable go_List (list YipYapSource) :=
  via glItems MkGoList id List_DeepCopyInto _ _.
Proof. - copy_tuple. - copy_fields. Defined.

Definition Source_DeepCopy : ptr go_YipYapSource -> heapM (ptr go_YipYapSource) := DeepCopy.
Definition List_DeepCopy : ptr go_List -> heapM (ptr go_List) := DeepCopy.
Definition Filter_DeepCopy : ptr go_Filter -> heapM (ptr go_Filter) := DeepCopy.
Definition APIKeyReference_DeepCopy : ptr APIKeyReference -> heapM (ptr APIKeyReference) := DeepCopy.
Definition Spec_DeepCopy : ptr go_Spec -> heapM (ptr go_Spec) := DeepCopy.
Definition Status_DeepCopy : ptr go_Status -> heapM (ptr go_Status) := DeepCopy.

(** [DeepCopyObject]: an interface value, nil for a nil pointer. *)
Definition as_object {X} (c : ptr X) : option (ptr X) :=
  match ptr_loc c with Some _ => Some c | None => None end.
Definition Source_DeepCopyObject (y : ptr go_YipYapSource) : heapM (option (ptr go_YipYapSource)) :=
  c ← Source_DeepCopy y; mret (as_object c).
Definition List_DeepCopyObject (l : ptr go_List) : heapM (option (ptr go_List)) :=
  c ← List_DeepCopy l; mret (as_object c).

(** ** The destination of [ReconcileKind]

    [dest := src.Spec.Sink.DeepCopy()], and the namespace written through
    [dest.Ref]. *)
Definition update `{Stored X} (l : loc) (f : X -> X) : heapM unit := fun h =>
  (tt, match read h l with Some x => write l (f x) h | None => h end).

Definition default_namespace (ns : string) (k : go_KReference) : go_KReference :=
  if String.eqb (gkNamespace k) "" then
    MkGoKReference (gkKind k) ns (gkName k) (gkAPIVersion k) (gkGroup k) (gkAddress k)
  else k.

Definition resolve_destination (y : go_YipYapSource) : heapM (ptr go_Destination) :=
  d ← DeepCopyInto (gsSink (gpSourceSpec (gySpec y)));
  l ← new d;
  _ ← (match ptr_loc (gdRef d) with
       | Some lr => update lr (default_namespace (gmNamespace (gyMeta y)))
       | None => mret tt
       end);
  mret (Ptr (Some l)).

(** ** Lemmas *)

Lemma read_Some `{Stored X} h l x : read h l = Some x -> exists c, h !! l = Some c /\ of_cell c = Some x.
Proof. unfold read. destruct (h !! l) as [c|]; [|done]. eauto. Qed.

Lemma denote_ptr `{Stored X, Copyable X V} h l x (v : V) :
  read h l = Some x -> denote h x = Some v -> denote h (Ptr (X := X) (Some l)) = Some (Some v).
Proof.
  intros Hr Hd. unfold denote at 1, ptr_copyable, ptr_denote. cbn [ptr_loc].
  unfold box_denote, box_read. rewrite Hr. cbn [mbind option_bind]. by rewrite Hd.
Qed.

Lemma denote_ptr_inv `{Stored X, Copyable X V} h p (v : option V) :
  denote h p = Some v ->
  match ptr_loc p with
  | None => v = None
  | Some l => exists x w, read h l = Some x /\ denote h x = Some w /\ v = Some w
  end.
Proof.
  unfold denote at 1, ptr_copyable, ptr_denote. destruct (ptr_loc p) as [l|]; [|by intros [= <-]].
  intros (w&(x&Hr&Hd)%box_denote_Some&->)%fmap_Some. exists x, w. split_and!; [|done|done].
  unfold box_read in Hr. by destruct (read h l).
Qed.

(** Writing a reference changes no string and no URL. *)
Section other_cells.
Context (h : heap) (lr : loc) (k k' : go_KReference) (Hk : read h lr = Some k).

Lemma read_other `{Stored X} l (x : X) :
  (of_cell (X := X) (CKReference k) = None) ->
  read h l = Some x -> read (write lr k' h) l = Some x.
Proof.
  intros Hne (c&Hc&Hx)%read_Some. unfold read, write.
  destruct (decide (l = lr)) as [->|Hl]; [|by rewrite lookup_insert_ne, Hc by done].
  apply read_Some in Hk as (c'&Hc'&Hx'). destruct c'; try done. cbn in Hx'. congruence.
Qed.

Lemma string_ptr_other (p : ptr string) v :
  denote h p = Some v -> denote (write lr k' h) p = Some v.
Proof.
  intros Hp%denote_ptr_inv. destruct p as [[l|]]; cbn [ptr_loc] in Hp; [|by subst].
  destruct Hp as (x&w&Hr&Hd&->). eapply denote_ptr; [by apply read_other|done].
Qed.

Lemma URL_ptr_other (p : ptr go_URL) v :
  denote h p = Some v -> denote (write lr k' h) p = Some v.
Proof.
  intros Hp%denote_ptr_inv. destruct p as [[l|]]; cbn [ptr_loc] in Hp; [|by subst].
  destruct Hp as (x&w&Hr&Hd&->). eapply denote_ptr; [by apply read_other|].
  apply fmap_Some in Hd as ([f u]&[Hf Hu]%pair_denote_Some&->).
  apply fmap_Some. exists (f, u). split; [|done]. apply pair_denote_Some. split; [done|].
  by apply string_ptr_other.
Qed.
End other_cells.

Lemma denote_Destination h d v :
  denote h d = Some v <->
  denote h (gdRef d) = Some (dRef v) /\ denote h (gdURI d) = Some (dURI v) /\
  denote h (gdCACerts d) = Some (dCACerts v) /\ denote h (gdAudience d) = Some (dAudience v).
Proof.
  unfold denote at 1, Destination_copyable, via, via_denote. rewrite fmap_Some. split.
  - intros ([[[r u] c] a]&[[[Hr Hu]%pair_denote_Some Hc]%pair_denote_Some Ha]%pair_denote_Some&->).
    done.
  - intros (Hr&Hu&Hc&Ha). exists (dRef v, dURI v, dCACerts v, dAudience v).
    split; [|by destruct v]. by rewrite !denote_pair.
Qed.

Lemma Ref_locs h d lr : ptr_loc (gdRef d) = Some lr -> lr ∈ locs h d.
Proof.
  intros E. unfold locs at 1, Destination_copyable, via, via_locs.
  unfold locs at 1, pair_copyable, pair_locs. cbn [fst]. apply elem_of_union_l.
  unfold locs at 1, pair_locs. cbn [fst]. apply elem_of_union_l.
  unfold locs at 1, pair_locs. cbn [fst]. apply elem_of_union_l.
  unfold locs at 1, ptr_copyable, ptr_locs. rewrite E. unfold box_locs. set_solver.
Qed.

Lemma denote_KReference h k v :
  denote h k = Some v <->
  (gkKind k, gkNamespace k, gkName k, gkAPIVersion k, gkGroup k)
    = (krKind v, krNamespace v, krName v, krAPIVersion v, krGroup v) /\
  denote h (gkAddress k) = Some (krAddress v).
Proof.
  unfold denote at 1, KReference_copyable, via, via_denote. rewrite fmap_Some. split.
  - intros ([[[[kd ns] n] [ap g]] a]&[[[[Hk Hns]%pair_denote_Some Hn]%pair_denote_Some
      [Hap Hg]%pair_denote_Some]%pair_denote_Some Ha]%pair_denote_Some&->).
    cbn in *. split; [congruence|done].
  - intros ([= E1 E2 E3 E4 E5]&Ha).
    exists ((krKind v, krNamespace v, krName v), (krAPIVersion v, krGroup v), krAddress v).
    split; [|by destruct v]. rewrite !denote_pair. cbn. by rewrite E1, E2, E3, E4, E5.
Qed.

Lemma denote_via {T V A W} `{Copyable A W} (to : T -> A) from (value : W -> V) copy e1 e2 h x v :
  denote (Copyable := via to from value copy e1 e2) h x = Some v <->
  exists w, denote h (to x) = Some w /\ v = value w.
Proof. apply fmap_Some. Qed.

Lemma denote_sink h y v :
  denote h y = Some v ->
  denote h (gsSink (gpSourceSpec (gySpec y))) = Some (spSink (ySpec v)) /\
  gmNamespace (gyMeta y) = omNamespace (yMeta v).
Proof.
  intros ([[m s] st]&[[Hm Hs]%denote_pair _]%denote_pair&->)%denote_via.
  apply denote_via in Hm as ([[[[[[[[n gn] ns] sl] u] rv] g] ct] copied]&Hm&->).
  apply denote_via in Hs as ([[[[[[sk ov] k] b] f] mo] sa]&Hs&->).
  cbv beta in Hs, Hm. rewrite !denote_pair in Hs. rewrite !denote_pair in Hm.
  destruct Hs as [[[[[Hs _] _] _] _] _].
  apply denote_via in Hs as ([sk' ov']&[Hk _]%denote_pair&[= -> ->]).
  destruct Hm as [[[[[[[_ Hn] _] _] _] _] _] _]. split; [exact Hk|].
  destruct copied as [[[[[[? ?] ?] ?] ?] ?] ?]. by injection Hn.
Qed.

(** Writing the namespace through the reference of a destination. *)
Lemma namespace_written h d lr k ns v kv :
  ptr_loc (gdRef d) = Some lr -> read h lr = Some k -> denote h k = Some kv ->
  denote h d = Some v -> dRef v = Some kv ->
  denote (write lr (default_namespace ns k) h) d
  = Some (if String.eqb (krNamespace kv) "" then
            MkDestination
              (Some (MkKReference (krKind kv) ns (krName kv) (krAPIVersion kv) (krGroup kv)
                       (krAddress kv))) (dURI v) (dCACerts v) (dAudience v)
          else v).
Proof.
  intros Hp Hk Hkv (_&Hu&Hca&Hau)%denote_Destination Hv.
  apply denote_KReference in Hkv as [Hf Ha]. set (k' := default_namespace ns k).
  assert (denote (write lr k' h) (gdRef d) = Some (Some (if String.eqb (krNamespace kv) ""
    then MkKReference (krKind kv) ns (krName kv) (krAPIVersion kv) (krGroup kv) (krAddress kv)
    else kv))) as Hr.
  { destruct d as [[lr'] u ca au]. cbn [gdRef ptr_loc] in Hp |- *. subst lr'.
    apply (denote_ptr _ lr k'); [unfold read, write; by rewrite lookup_insert_eq|].
    apply denote_KReference. unfold k', default_namespace.
    injection Hf as F1 F2 F3 F4 F5. rewrite F2.
    destruct (String.eqb (krNamespace kv) "");
      (split; [cbn; congruence|by apply (string_ptr_other h lr k)]). }
  apply denote_Destination.
  destruct (String.eqb (krNamespace kv) ""); cbn [dRef dURI dCACerts dAudience];
    rewrite ?Hv; (split_and!; [exact Hr|by apply (URL_ptr_other h lr k)|
      by apply (string_ptr_other h lr k)..]).
Qed.

(** ** Theorems *)

(** C14. The copy of a cached resource is faithful and shares nothing: it
    denotes the same resource, no pointer, slice or map of it is one of the
    original's, whatever the run writes through the copy leaves the cached
    resource as it was, and the other way round. *)
Theorem DeepCopy_isolates h p y :
  denote h p = Some (Some y) ->
  exists p' h', Source_DeepCopy p h = (p', h') /\ isolated h h' p p' (Some y).
Proof. intros Hd. exact (copy_isolated h p _ Hd). Qed.

(** The same for a list of resources, element by element. *)
Theorem List_DeepCopy_isolates h p l :
  denote h p = Some (Some l) ->
  exists p' h', List_DeepCopy p h = (p', h') /\ isolated h h' p p' (Some l).
Proof. intros Hd. exact (copy_isolated h p _ Hd). Qed.

(** The destination given to the resolver: the namespace filled in through
    the copied reference reaches the destination only.  What it denotes is
    [sink_destination], and the source denotes what it did. *)
Theorem destination_is_a_copy h y src :
  denote h y = Some src ->
  exists d h', resolve_destination y h = (d, h') /\
    denote h' d = Some (Some (sink_destination src)) /\ denote h' y = Some src.
Proof.
  intros Hy. destruct (denote_sink h y src Hy) as [Hs Hns].
  destruct (copy_spec _ _ _ Hs) as (d&h1&E1&Hs1&Hd1&Hl1).
  unfold resolve_destination. unfold mbind at 1, heapM_bind at 1. rewrite E1.
  unfold mbind at 1, heapM_bind at 1, new. cbv beta iota zeta.
  set (l := fresh (dom h1)). assert (l ∉ dom h1) as Hf by apply is_fresh.
  assert (h1 ⊆ write l d h1) as Hs2 by (by apply insert_subseteq, not_elem_of_dom).
  assert (read (write l d h1) l = Some d) as Hl by (unfold read, write; by rewrite lookup_insert_eq).
  destruct (denote_mono _ _ _ _ Hd1 Hs2) as [Hd2 _].
  set (h2 := write l d h1) in *.
  assert (h ⊆ h2) as Hs3 by (by trans h1).
  apply denote_Destination in Hd1 as (Hr1&_). apply denote_ptr_inv in Hr1.
  unfold sink_destination. destruct (ptr_loc (gdRef d)) as [lr|] eqn:Elr.
  2:{ rewrite Hr1. eexists _, h2. split; [reflexivity|].
      split; [by eapply denote_ptr|by apply (denote_mono h)]. }
  destruct Hr1 as (k&kv&Hk1&Hkd1&Hkv). cbv zeta. rewrite Hkv.
  unfold mbind, heapM_bind, mret, heapM_ret, update.
  pose proof (read_Some _ _ _ Hk1) as (c&Hc&Hck).
  assert (lr <> l) as Hne by (intros ->; apply Hf, elem_of_dom; by exists c).
  assert (read h2 lr = Some k) as Hk2
    by (unfold read, h2, write; by rewrite lookup_insert_ne, Hc by done).
  rewrite Hk2.
  eexists _, (write lr (default_namespace (gmNamespace (gyMeta y)) k) h2).
  split; [reflexivity|]. rewrite Hns. split.
  - eapply denote_ptr; [|apply (namespace_written h2 d lr k _ (spSink (ySpec src)) kv);
      [done|done|by apply (denote_mono h1)|done|done]].
    unfold read, write. by rewrite lookup_insert_ne.
  - apply (denote_frame h2); [by apply (denote_mono h)|]. intros j Hj.
    apply lookup_insert_ne. intros ->.
    apply (denote_mono _ _ _ _ Hy) in Hs3 as [_ Eloc]. rewrite Eloc in Hj.
    apply (denote_dom _ _ _ Hy) in Hj. apply (Hl1 j); [|done]. by apply Ref_locs.
Qed.

(** ** Witnesses *)

(** [sample_source] on a heap; its types are a window of a longer array. *)
Definition go_sample : go_YipYapSource :=
  MkGoYipYapSource
    (MkGoObjectMeta "demo" "" "default" "" "123e4567-e89b-12d3-a456-426614174000" "17" 3
       (-62135596800) (Ptr None) (Ptr None) (GoMap None) (GoMap None) (Slice None 0 0)
       (Slice None 0 0) (Slice None 0 0))
    (MkGoSpec
       (MkGoSourceSpec (MkGoDestination (Ptr (Some 1%positive)) (Ptr None) (Ptr None) (Ptr None))
          (Ptr (Some 2%positive)))
       (MkAPIKeyReference "yipyap-key" "api-key") "https://console.yipyap.run"
       (Ptr (Some 4%positive)) "poll" "")
    (MkGoStatus
       (MkGoSourceStatus (MkGoDuckStatus 0 (Slice None 0 0) (GoMap None)) (Ptr None)
          (Slice None 0 0) (Ptr None) (Ptr None) (Ptr None)) "" (Ptr None) 0).

Definition sample_heap : heap := list_to_map [
  (1%positive, CKReference (MkGoKReference "Broker" "" "default" "eventing.knative.dev/v1" ""
                              (Ptr None)));
  (2%positive, COverrides (MkGoOverrides (GoMap (Some 3%positive))));
  (3%positive, CMap {[ "environment" := "prod" ]});
  (4%positive, CFilter (MkGoFilter (Slice (Some 5%positive) 1 2) (Slice (Some 6%positive) 0 1)
                          (Slice (Some 7%positive) 0 1)));
  (5%positive, CStrings ["unseen"; "run.yipyap.alert.*"; "run.yipyap.monitor.down.v1"; "unseen"]);
  (6%positive, CStrings ["m1"]);
  (7%positive, CStrings ["critical"]);
  (8%positive, CSource go_sample);
  (9%positive, CSources [go_sample; go_sample]);
  (10%positive, CList (MkGoList (Slice (Some 9%positive) 0 2)))].

Definition sample_ptr : ptr go_YipYapSource := Ptr (Some 8%positive).

Lemma DeepCopy_isolates_witness :
  denote sample_heap sample_ptr = Some (Some sample_source) /\
  exists p' h', Source_DeepCopy sample_ptr sample_heap = (p', h') /\
    denote h' p' = Some (Some sample_source) /\
    denote (delete 1%positive h') p' = Some (Some sample_source).
Proof.
  assert (denote sample_heap sample_ptr = Some (Some sample_source)) as Hd
    by (vm_compute; reflexivity).
  split; [exact Hd|].
  destruct (DeepCopy_isolates sample_heap sample_ptr sample_source Hd) as (p'&h'&E&Hi).
  exists p', h'. split; [exact E|]. split; [apply Hi|].
  apply (iso_through_original _ _ _ _ _ Hi). intros l Hl. apply lookup_delete_ne. intros <-.
  apply Hl. destruct (denote_mono _ h' _ _ Hd (iso_old _ _ _ _ _ Hi)) as [_ ->].
  vm_compute. reflexivity.
Defined.

Lemma List_DeepCopy_isolates_witness :
  exists p' h', List_DeepCopy (Ptr (Some 10%positive)) sample_heap = (p', h') /\
    denote h' p' = Some (Some [sample_source; sample_source]).
Proof.
  destruct (List_DeepCopy_isolates sample_heap (Ptr (Some 10%positive))
    [sample_source; sample_source]) as (p'&h'&E&Hi).
  - vm_compute. reflexivity.
  - exists p', h'. split; [exact E|apply Hi].
Defined.

Lemma destination_is_a_copy_witness :
  exists d h', resolve_destination go_sample sample_heap = (d, h') /\
    (exists v, denote h' d = Some (Some v) /\ krNamespace <$> dRef v = Some "default") /\
    denote h' go_sample = Some sample_source.
Proof.
  destruct (destination_is_a_copy sample_heap go_sample sample_source) as (d&h'&E&Hd&Hy).
  - vm_compute. reflexivity.
  - exists d, h'. split; [exact E|]. split; [|exact Hy]. eexists. split; [exact Hd|]. reflexivity.
Defined.
