(* ===== verification/GoHttp.v ===== *)
(** * Requests: [net/http], [net/url] queries and [path.Join]

    What the clients use to build a request: header keys in canonical form,
    query strings, joined paths; and the interface [HttpClient] to the HTTP
    client itself.  URL parsing and printing stay behind [UrlLib] (Types.v).

    Main result: a query that is encoded parses back to the same values. *)

From S2P Require Import Prelude GoStrings GoPath GoJson Types.
Local Open Scope string_scope.
Local Open Scope list_scope.

(** ** Paths *)

(** One component in [path.Clean]; the cleaned components are in reverse. *)
Definition clean_step (rooted : bool) (out : list string) (c : string) : list string :=
  if String.eqb c "" || String.eqb c "." then out
  else if String.eqb c ".." then
    match out with
    | last :: out' => if String.eqb last ".." then c :: out else out'
    | [] => if rooted then [] else [c]
    end
  else c :: out.

Definition path_Clean (p : string) : string :=
  if String.eqb p "" then "." else
  let rooted := has_prefix p "/" in
  let out := join "/" (reverse (foldl (clean_step rooted) [] (split "/" p))) in
  if rooted then "/" +:+ out else if String.eqb out "" then "." else out.

Definition path_Join (elems : list string) : string :=
  match filter (fun e => e <> "") elems with
  | [] => ""
  | es => path_Clean (join "/" es)
  end.

(** [cleanPath] of net/http. *)
Definition cleanPath (p : string) : string :=
  if String.eqb p "" then "/" else
  let p := if has_prefix p "/" then p else "/" +:+ p in
  let np := path_Clean p in
  if has_suffix p "/" && negb (String.eqb np "/") then np +:+ "/" else np.

Example join1 : path_Join [""; "/api/v1/cloudevents/poll"] = "/api/v1/cloudevents/poll".
Proof. reflexivity. Qed.
Example join2 : path_Join ["/base/../x/"; "/api/v1"] = "/x/api/v1".
Proof. reflexivity. Qed.

(** ** Queries *)

Abbreviation Values := (gmap string (list string)).

Definition unreserved (c : ascii) : bool :=
  is_alnum c || Ascii.eqb c "-" || Ascii.eqb c "_" || Ascii.eqb c "." || Ascii.eqb c "~".

Definition upper_hex (n : nat) : ascii := upper_byte (hex_digit n).

Definition escape_byte (c : ascii) : string :=
  if unreserved c then String c ""
  else if Ascii.eqb c " " then "+"
  else String "%" (String (upper_hex (nat_of_ascii c / 16))
                     (String (upper_hex (nat_of_ascii c mod 16)) "")).

Fixpoint QueryEscape (s : string) : string :=
  match s with "" => "" | String c r => escape_byte c +:+ QueryEscape r end.

(** [unescape] in query mode; [None] for a malformed escape. *)
Fixpoint QueryUnescape (s : string) : option string :=
  match s with
  | "" => Some ""
  | String c r =>
      if Ascii.eqb c "%" then
        match r with
        | String a (String b r) =>
            a ← hex_val a; b ← hex_val b;
            String (ascii_of_nat (Z.to_nat (a * 16 + b))) <$> QueryUnescape r
        | _ => None
        end
      else String (if Ascii.eqb c "+" then " "%char else c) <$> QueryUnescape r
  end.

Definition value_of (v : Values) (k : string) : list string := default [] (v !! k).

Definition values_Add (k x : string) (v : Values) : Values := <[k := value_of v k ++ [x]]> v.
Definition values_Set (k x : string) (v : Values) : Values := <[k := [x]]> v.

(** The key and value of one setting, if it is well formed. *)
Definition parse_setting (p : string) : option (string * string) :=
  if string_contains ";" p || String.eqb p "" then None
  else
    let '(k, rest) := span_char "=" p in
    k ← QueryUnescape k;
    x ← QueryUnescape match rest with String _ r => r | "" => "" end;
    Some (k, x).

(** [ParseQuery], malformed settings skipped, as [URL.Query] uses it. *)
Definition ParseQuery (q : string) : Values :=
  foldl (fun v p => match parse_setting p with Some (k, x) => values_Add k x v | None => v end)
    ∅ (split "&" q).

Definition setting (k x : string) : string := QueryEscape k +:+ "=" +:+ QueryEscape x.

Definition entry_less (a b : string * list string) : bool := str_ltb a.1 b.1.

(** The settings of a query in the order [Encode] prints them. *)
Definition settings (l : list (string * list string)) : list (string * string) :=
  flat_map (fun kv => map (fun x => (kv.1, x)) kv.2) l.

Definition values_Encode (v : Values) : string :=
  join "&" (map (fun kx => setting kx.1 kx.2) (settings (go_sort entry_less (map_to_list v)))).

Definition URL_Query (u : URL) : Values := ParseQuery (uRawQuery u).

Definition with_path (p : string) (u : URL) : URL :=
  MkURL (uScheme u) (uOpaque u) (uUser u) (uHost u) p (uRawPath u) (uOmitHost u)
    (uForceQuery u) (uRawQuery u) (uFragment u) (uRawFragment u).
Definition with_query (q : string) (u : URL) : URL :=
  MkURL (uScheme u) (uOpaque u) (uUser u) (uHost u) (uPath u) (uRawPath u) (uOmitHost u)
    (uForceQuery u) q (uFragment u) (uRawFragment u).

(** ** Headers and requests *)

(** [validHeaderFieldByte]: the bytes of a token. *)
Definition token_byte (c : ascii) : bool :=
  is_alnum c ||
  bool_decide (c ∈ ["!"; "#"; "$"; "%"; "&"; "'"; "*"; "+"; "-"; "."; "^"; "_"; "`"; "|"; "~"]%char).

Fixpoint canonical_bytes (upper : bool) (s : string) : string :=
  match s with
  | "" => ""
  | String c r =>
      String (if upper then upper_byte c else lower_byte c) (canonical_bytes (Ascii.eqb c "-") r)
  end.

(** [textproto.CanonicalMIMEHeaderKey]. *)
Definition CanonicalHeaderKey (s : string) : string :=
  if string_forallb token_byte s then canonical_bytes true s else s.

Abbreviation Header := (gmap string string).

Definition header_Set (k v : string) (h : Header) : Header := <[CanonicalHeaderKey k := v]> h.

Record Request := MkRequest {
  rqMethod : string;
  rqURL : URL;
  rqHeader : Header;
  rqBody : string
}.

Record Response := MkResponse { rsStatus : Z; rsBody : string }.

(** [io.ReadAll] of an [io.LimitReader]. *)
Definition read_limited (n : Z) (body : string) : string := String.substring 0 (Z.to_nat n) body.
#[global] Arguments read_limited : simpl never.

(** The HTTP client: a response, or a transport error. *)
Class HttpClient := { client_Do : Request -> result string Response }.

(** [http.NewRequestWithContext]: the URL is parsed again. *)
Definition NewRequest `{UrlLib} (method url body : string) : result string Request :=
  u ← url_Parse url; Ok (MkRequest method u ∅ body).

(** The GET the hint and the two event clients send: the API path joined to
    the base URL, a query, the API key and the accepted type. *)
Definition api_request `{UrlLib} (base_url api_path api_key accept : string)
    (query : URL -> URL) : result string Request :=
  u ← url_Parse base_url;
  let u := query (with_path (path_Join [uPath u; api_path]) u) in
  req ← NewRequest "GET" (url_String u) "";
  Ok (MkRequest (rqMethod req) (rqURL req)
        (header_Set "Accept" accept (header_Set "Authorization" ("Bearer " +:+ api_key) (rqHeader req)))
        (rqBody req)).

(** ** Queries round trip *)

Definition query_byte (c : ascii) : bool := unreserved c || Ascii.eqb c "+" || Ascii.eqb c "%".

Lemma upper_hex_spec n :
  (n < 16)%nat -> hex_val (upper_hex n) = Some (Z.of_nat n) /\ is_alnum (upper_hex n) = true.
Proof. intros Hn. do 16 (destruct n as [|n]; [done|]). lia. Qed.

Lemma byte_div_mod c : (nat_of_ascii c / 16 < 16)%nat /\ (nat_of_ascii c mod 16 < 16)%nat.
Proof.
  pose proof (nat_ascii_bounded c). split; [|apply Nat.mod_upper_bound; lia].
  apply Nat.Div0.div_lt_upper_bound. lia.
Qed.

Lemma escape_byte_ok c : string_forallb query_byte (escape_byte c) = true.
Proof.
  unfold escape_byte. destruct (unreserved c) eqn:E; [simpl; unfold query_byte; by rewrite E|].
  destruct (Ascii.eqb c " "); [done|].
  destruct (byte_div_mod c) as [[_ H1]%upper_hex_spec [_ H2]%upper_hex_spec].
  cbn [string_forallb]. unfold query_byte, unreserved. by rewrite H1, H2.
Qed.

Lemma QueryEscape_ok s : string_forallb query_byte (QueryEscape s) = true.
Proof. induction s as [|c s IH]; [done|]. simpl. by rewrite string_forallb_app, escape_byte_ok. Qed.

Lemma forallb_no_char f c s :
  string_forallb f s = true -> f c = false -> string_contains c s = false.
Proof.
  intros Hf Hc. induction s as [|d s IH]; [done|]. simpl in *.
  apply andb_true_iff in Hf as [Hd Hf]. rewrite IH by done.
  destruct (Ascii.eqb_spec c d) as [<-|]; [congruence|done].
Qed.

Lemma unescape_step c r :
  QueryUnescape (escape_byte c +:+ r) = String c <$> QueryUnescape r.
Proof.
  unfold escape_byte. destruct (unreserved c) eqn:E.
  - simpl. destruct (Ascii.eqb_spec c "%") as [->|]; [done|].
    destruct (Ascii.eqb_spec c "+") as [->|]; done.
  - destruct (Ascii.eqb_spec c " ") as [->|]; [done|].
    destruct (byte_div_mod c) as [[H1 _]%upper_hex_spec [H2 _]%upper_hex_spec].
    cbn [String.append QueryUnescape]. change (Ascii.eqb "%" "%") with true. cbv iota.
    rewrite H1, H2. cbn [mbind option_bind]. f_equal. f_equal.
    replace (Z.to_nat _) with (nat_of_ascii c); [by rewrite ascii_nat_embedding|].
    pose proof (Nat.div_mod_eq (nat_of_ascii c) 16). lia.
Qed.

Lemma QueryUnescape_Escape s : QueryUnescape (QueryEscape s) = Some s.
Proof. induction s as [|c s IH]; [done|]. simpl. by rewrite unescape_step, IH. Qed.

Lemma span_char_app c a r :
  string_contains c a = false -> span_char c (a +:+ String c r) = (a, String c r).
Proof.
  induction a as [|d a IH]; simpl; [by rewrite Ascii.eqb_refl|].
  intros [Hd Ha]%orb_false_iff. rewrite Ascii.eqb_sym, Hd, IH by done. done.
Qed.

Lemma setting_no c k x : query_byte c = false -> c <> "="%char -> string_contains c (setting k x) = false.
Proof.
  intros Hc Hne. unfold setting. rewrite !string_contains_app.
  rewrite (forallb_no_char query_byte c (QueryEscape k)),
    (forallb_no_char query_byte c (QueryEscape x)) by (done || apply QueryEscape_ok).
  cbn [string_contains]. by rewrite (proj2 (Ascii.eqb_neq c "=") Hne), ?orb_false_r.
Qed.

Lemma parse_setting_setting k x : parse_setting (setting k x) = Some (k, x).
Proof.
  unfold parse_setting. rewrite (setting_no ";") by done. cbn [orb].
  destruct (String.eqb_spec (setting k x) "") as [E|_].
  { apply (f_equal (string_contains "=")) in E. unfold setting in E.
    rewrite !string_contains_app in E. simpl in E. by rewrite orb_true_r in E. }
  unfold setting. cbn [String.append]. rewrite span_char_app by (apply (forallb_no_char query_byte); [apply QueryEscape_ok|done]).
  rewrite !QueryUnescape_Escape. done.
Qed.

#[export] Instance not_less_entry_trans : Transitive (not_less entry_less).
Proof.
  intros x y z. unfold not_less, entry_less. rewrite !str_ltb_not_le.
  intros H1 H2. by trans y.1.
Qed.

Definition add_setting (v : Values) (kx : string * string) : Values := values_Add kx.1 kx.2 v.

Lemma add_settings_key k xs v :
  xs <> [] -> foldl add_setting v (map (fun x => (k, x)) xs) = <[k := value_of v k ++ xs]> v.
Proof.
  intros Hne. revert v. induction xs as [|x xs IH]; intros v; [done|]. simpl.
  destruct xs as [|y xs]; [done|]. rewrite IH by done.
  unfold add_setting, values_Add, value_of. simpl. rewrite lookup_insert_eq. simpl.
  by rewrite insert_insert_eq, <- app_assoc.
Qed.

Lemma add_settings l v :
  NoDup l.*1 -> Forall (fun kv => kv.2 <> []) l -> (forall k, k ∈ l.*1 -> v !! k = None) ->
  foldl add_setting v (settings l) = list_to_map l ∪ v.
Proof.
  revert v. induction l as [|[k xs] l IH]; intros v Hnd Hne Hv; simpl.
  { by rewrite (left_id_L ∅ (∪)). }
  apply NoDup_cons in Hnd as [Hk Hnd]. apply Forall_cons in Hne as [Hxs Hne].
  unfold settings. cbn [flat_map fst snd]. rewrite foldl_app.
  rewrite add_settings_key by done. fold (settings l). simpl in Hk.
  unfold value_of. rewrite (Hv k) by (left). cbn [default app].
  rewrite IH; [|done|done|].
  - rewrite <- insert_union_r; [|by apply not_elem_of_list_to_map]. by rewrite insert_union_l.
  - intros k' Hk'. rewrite lookup_insert_ne; [|by intros ->]. apply Hv. by right.
Qed.

Lemma ParseQuery_settings l :
  ParseQuery (join "&" (map (fun kx => setting kx.1 kx.2) l)) = foldl add_setting ∅ l.
Proof.
  unfold ParseQuery. destruct (decide (l = [])) as [->|Hne]; [done|].
  rewrite (split_join "&").
  - generalize (∅ : Values). induction l as [|[k x] l IH]; intros v; [done|]. simpl.
    rewrite parse_setting_setting. destruct (decide (l = [])) as [->|]; [done|]. by apply IH.
  - by destruct l.
  - apply Forall_forall. intros p ((k&x)&->&_)%list_elem_of_fmap. by apply setting_no.
Qed.

Lemma ParseQuery_Encode v :
  map_Forall (fun _ xs => xs <> []) v -> ParseQuery (values_Encode v) = v.
Proof.
  intros Hv. unfold values_Encode. rewrite ParseQuery_settings.
  pose proof (go_sort_perm entry_less (map_to_list v)) as Hp.
  assert (NoDup (go_sort entry_less (map_to_list v)).*1) as Hnd
    by (rewrite Hp; apply NoDup_fst_map_to_list).
  rewrite add_settings; [|done| |intros; apply lookup_empty].
  - by rewrite (right_id_L ∅ (∪)), (list_to_map_proper _ _ Hnd Hp), list_to_map_to_list.
  - rewrite Hp. apply map_Forall_to_list in Hv. eapply Forall_impl; [exact Hv|]. by intros [].
Qed.

(** No key of a query is without values. *)
Definition nonempty_values (v : Values) : Prop := map_Forall (fun _ xs => xs <> []) v.

Lemma nonempty_Add k x v : nonempty_values v -> nonempty_values (values_Add k x v).
Proof. intros Hv. apply map_Forall_insert_2; [by destruct (value_of v k)|done]. Qed.

Lemma nonempty_Set k x v : nonempty_values v -> nonempty_values (values_Set k x v).
Proof. intros Hv. by apply map_Forall_insert_2. Qed.

Lemma nonempty_ParseQuery q : nonempty_values (ParseQuery q).
Proof.
  unfold ParseQuery. assert (nonempty_values ∅) as H0 by apply map_Forall_empty.
  revert H0. generalize (∅ : Values). induction (split "&" q) as [|p ps IH]; intros v Hv; [done|].
  simpl. apply IH. destruct (parse_setting p) as [[k x]|]; [by apply nonempty_Add|done].
Qed.
