(* ===== verification/Config.v ===== *)
(** * The adapter's configuration (cmd/receive-adapter/source/config.go)

    [LoadConfig] as a function of the environment lookup.  An error is a
    constructor with the values its message quotes. *)

From S2P Require Import Prelude GoStrings GoPath GoTime GoJson.
Local Open Scope string_scope.
Local Open Scope list_scope.

(** ** Data *)

Record Config := MkConfig {
  cfgSink : string;
  cfgCEOverrides : gmap string string;
  cfgAPIKey : string;
  cfgBaseURL : string;
  cfgEventFilters : list string;
  cfgMode : string;
  cfgPollInterval : Z;
  cfgCursorPath : string;
  cfgHealthAddr : string;
  cfgCRModeFilePath : string
}.

Inductive config_error :=
| SinkRequired
| APIKeyRequired
| BadOverrides
| BadPollInterval (raw : string) (e : duration_error)
| BadMode (mode : string).

#[export] Instance config_error_eq_dec : EqDecision config_error.
Proof. solve_decision. Defined.

(** ** Operations *)

Definition defaultStr (v def : string) : string := if String.eqb v "" then def else v.

Definition parseEventFilters (raw : string) : list string :=
  filter (fun f => f <> "") (map trim_space (split "," raw)).

(** [json.Unmarshal] into a [ceOverridesEnvelope]; [None] is an error. *)
Definition envelope_member (acc : option (option (gmap string string))) (kv : string * json)
    : option (option (gmap string string)) :=
  exts ← acc; if is_field "extensions" kv.1 then read_map exts kv.2 else Some exts.

Definition unmarshal_envelope (raw : string) : option (option (gmap string string)) :=
  match decode_whole raw with
  | Ok JNull => Some None
  | Ok (JObj kvs) => foldl envelope_member (Some None) kvs
  | _ => None
  end.

Definition LoadConfig (getenv : string -> string) : result config_error Config :=
  let sink := getenv "K_SINK" in
  let api_key := getenv "YIPYAP_API_KEY" in
  let mode := getenv "YIPYAP_MODE" in
  if String.eqb sink "" then Err SinkRequired
  else if String.eqb api_key "" then Err APIKeyRequired
  else
    overrides ←
      (let raw := getenv "K_CE_OVERRIDES" in
       if String.eqb raw "" then Ok ∅
       else match unmarshal_envelope raw with
            | None => Err BadOverrides
            | Some exts => Ok (default ∅ exts)
            end);
    interval ←
      (let raw := getenv "YIPYAP_POLL_INTERVAL" in
       if String.eqb raw "" then Ok (5 * Second)%Z
       else map_err (BadPollInterval raw) (ParseDuration raw));
    if bool_decide (mode ∈ [""; "poll"; "stream"]) then
      Ok (MkConfig sink overrides api_key
            (defaultStr (getenv "YIPYAP_BASE_URL") "https://console.yipyap.run")
            (parseEventFilters (getenv "YIPYAP_EVENT_FILTER")) mode interval
            (defaultStr (getenv "YIPYAP_CURSOR_PATH") "/var/run/yipyap/cursor")
            (defaultStr (getenv "YIPYAP_HEALTH_ADDR") ":8080") "/etc/yipyap/source-mode")
    else Err (BadMode mode).

(** ** Event filters *)

(** The entries [parseEventFilters] can produce. *)
Definition clean_filter (f : string) : Prop :=
  f <> "" /\ trimmed f = true /\ string_contains "," f = false.

Lemma string_contains_rev c s : string_contains c (String.rev s) = string_contains c s.
Proof.
  induction s as [|d s IH]; [done|].
  rewrite rev_cons_str, string_contains_app, IH. simpl. by rewrite orb_false_r, orb_comm.
Qed.

Lemma trim_start_contains c encs s :
  string_contains c s = false -> string_contains c (trim_start encs s) = false.
Proof.
  destruct (trim_start_suffix encs s) as [p Hp]. intros Hs. rewrite Hp in Hs.
  rewrite string_contains_app in Hs. by apply orb_false_iff in Hs as [_ ?].
Qed.

Lemma trim_space_contains c s :
  string_contains c s = false -> string_contains c (trim_space s) = false.
Proof.
  intros Hs. unfold trim_space, trim_right, trim_left.
  rewrite string_contains_rev. apply trim_start_contains. rewrite string_contains_rev.
  by apply trim_start_contains.
Qed.

Lemma parseEventFilters_clean raw : Forall clean_filter (parseEventFilters raw).
Proof.
  apply Forall_forall. intros f Hf. unfold parseEventFilters in Hf.
  apply list_elem_of_filter in Hf as [Hne (p&->&Hp)%list_elem_of_fmap].
  split_and!; [done|apply trimmed_trim_space|].
  apply trim_space_contains. by eapply split_no_sep.
Qed.

Lemma map_trim_clean fs : Forall clean_filter fs -> map trim_space fs = fs.
Proof.
  induction 1 as [|f fs (_&Ht&_) _ IH]; simpl; [done|]. by rewrite IH, trim_space_trimmed.
Qed.

Lemma parseEventFilters_join fs :
  Forall clean_filter fs -> parseEventFilters (join "," fs) = fs.
Proof.
  intros Hfs. destruct (decide (fs = [])) as [->|Hne]; [reflexivity|].
  unfold parseEventFilters. rewrite (split_join "," fs) by
    first [done | eapply Forall_impl; [exact Hfs|]; by intros f (_&_&?)].
  rewrite map_trim_clean by done.
  induction Hfs as [|f fs (Hf&_&_) Hfs IH]; [done|].
  rewrite filter_cons, decide_True by done. f_equal.
  destruct (decide (fs = [])) as [->|]; [done|]. by apply IH.
Qed.

(** ** Overrides *)

Lemma unmarshal_marshal_overrides m :
  utf8_map m ->
  unmarshal_envelope ("{" +:+ marshal_string "extensions" +:+ ":" +:+ marshal_map m +:+ "}")
  = Some (Some m).
Proof.
  intros Hm. unfold unmarshal_envelope.
  assert (decode_whole ("{" +:+ marshal_string "extensions" +:+ ":" +:+ marshal_map m +:+ "}")
    = Ok (JObj [("extensions", JObj (str_members (go_sort key_less (map_to_list m))))])) as ->.
  { unfold decode_whole.
    set (s := "{" +:+ marshal_string "extensions" +:+ ":" +:+ marshal_map m +:+ "}").
    assert (exists fuel, json_fuel s = S (S fuel) /\ (String.length (marshal_map m) < fuel)%nat)
      as (fuel&->&Hf).
    { exists (2 * String.length s)%nat. split; [unfold json_fuel; lia|].
      unfold s. rewrite !length_app_str. simpl. lia. }
    change (parse_value (S (S fuel)) max_depth (skip_ws s)) with
      ('(kvs, r) ←
         ('(v, r) ← parse_value fuel (max_depth - 1) (marshal_map m +:+ "}");
          match skip_ws r with
          | String c r =>
              if Ascii.eqb c "," then
                '(kvs, r) ← parse_members fuel (max_depth - 1) (skip_ws r);
                Ok (("extensions", v) :: kvs, r)
              else if Ascii.eqb c "}" then Ok ([("extensions", v)], r)
              else Err JSyntax
          | "" => Err JSyntax
          end);
       Ok (JObj kvs, r)).
    rewrite parse_marshal_map by (done || lia). reflexivity. }
  cbn [foldl envelope_member]. change (is_field "extensions" "extensions") with true.
  apply read_map_sorted.
Qed.

(** A mode of another kind is rejected, whatever the rest is. *)
Lemma LoadConfig_bad_mode getenv :
  getenv "YIPYAP_MODE" ∉ [""; "poll"; "stream"] -> is_ok (LoadConfig getenv) = false.
Proof.
  intros Hm. unfold LoadConfig. destruct (String.eqb _ _); [done|].
  destruct (String.eqb _ _); [done|].
  destruct (if String.eqb (getenv "K_CE_OVERRIDES") "" then _ else _); [|done].
  destruct (if String.eqb (getenv "YIPYAP_POLL_INTERVAL") "" then _ else _); [|done].
  cbn [mbind result_bind]. by rewrite bool_decide_false.
Qed.

(** ** Theorems *)

(** C30. The configuration is accepted exactly when the sink and the API key are
    given, the overrides and the poll interval are absent or well formed, and
    the mode is empty, poll or stream.  Then every field is told by its variable: the
    sink, the key and the mode are it; the base URL, the cursor path and the health
    address are it or their documented default; the overrides are the extensions of
    the envelope, none without one; the interval is the duration parsed, in its
    range, five seconds without one; the event filters are the parts of the list, each
    clean; and the path of the mode file is fixed. *)
Theorem LoadConfig_accepts_iff getenv :
  (is_ok (LoadConfig getenv) = true <->
     getenv "K_SINK" <> "" /\ getenv "YIPYAP_API_KEY" <> "" /\
     (getenv "K_CE_OVERRIDES" = "" \/ is_Some (unmarshal_envelope (getenv "K_CE_OVERRIDES"))) /\
     (getenv "YIPYAP_POLL_INTERVAL" = "" \/
      is_ok (ParseDuration (getenv "YIPYAP_POLL_INTERVAL")) = true) /\
     (getenv "YIPYAP_MODE" = "" \/ getenv "YIPYAP_MODE" = "poll" \/
      getenv "YIPYAP_MODE" = "stream")) /\
  (forall cfg, LoadConfig getenv = Ok cfg ->
     cfgSink cfg = getenv "K_SINK" /\ cfgAPIKey cfg = getenv "YIPYAP_API_KEY" /\
     cfgMode cfg = getenv "YIPYAP_MODE" /\
     cfgBaseURL cfg = defaultStr (getenv "YIPYAP_BASE_URL") "https://console.yipyap.run" /\
     cfgCursorPath cfg = defaultStr (getenv "YIPYAP_CURSOR_PATH") "/var/run/yipyap/cursor" /\
     cfgHealthAddr cfg = defaultStr (getenv "YIPYAP_HEALTH_ADDR") ":8080" /\
     cfgCRModeFilePath cfg = "/etc/yipyap/source-mode" /\
     (getenv "K_CE_OVERRIDES" = "" -> cfgCEOverrides cfg = ∅) /\
     (getenv "K_CE_OVERRIDES" <> "" ->
        exists exts, unmarshal_envelope (getenv "K_CE_OVERRIDES") = Some exts /\
          cfgCEOverrides cfg = default ∅ exts) /\
     in_int64 (cfgPollInterval cfg) /\
     (getenv "YIPYAP_POLL_INTERVAL" = "" -> cfgPollInterval cfg = (5 * Second)%Z) /\
     (getenv "YIPYAP_POLL_INTERVAL" <> "" ->
        ParseDuration (getenv "YIPYAP_POLL_INTERVAL") = Ok (cfgPollInterval cfg)) /\
     cfgEventFilters cfg = parseEventFilters (getenv "YIPYAP_EVENT_FILTER") /\
     Forall clean_filter (cfgEventFilters cfg)).
Proof.
  unfold LoadConfig.
  destruct (String.eqb_spec (getenv "K_SINK") "") as [E1|E1]; [split; [split; [done|tauto]|done]|].
  destruct (String.eqb_spec (getenv "YIPYAP_API_KEY") "") as [E2|E2];
    [split; [split; [done|tauto]|done]|].
  set (ov := if String.eqb (getenv "K_CE_OVERRIDES") "" then _ else _).
  assert (is_ok ov = true <-> getenv "K_CE_OVERRIDES" = "" \/
    is_Some (unmarshal_envelope (getenv "K_CE_OVERRIDES"))) as Hov.
  { subst ov. destruct (String.eqb_spec (getenv "K_CE_OVERRIDES") ""); [tauto|].
    destruct (unmarshal_envelope _); simpl; split; try done; [eauto|].
    intros [?|[? ?]]; done. }
  set (iv := if String.eqb (getenv "YIPYAP_POLL_INTERVAL") "" then _ else _).
  assert (is_ok iv = true <-> getenv "YIPYAP_POLL_INTERVAL" = "" \/
    is_ok (ParseDuration (getenv "YIPYAP_POLL_INTERVAL")) = true) as Hiv.
  { subst iv. destruct (String.eqb_spec (getenv "YIPYAP_POLL_INTERVAL") ""); [tauto|].
    destruct (ParseDuration _); simpl; tauto. }
  assert (forall z, iv = Ok z -> in_int64 z /\
    (getenv "YIPYAP_POLL_INTERVAL" = "" -> z = (5 * Second)%Z) /\
    (getenv "YIPYAP_POLL_INTERVAL" <> "" ->
       ParseDuration (getenv "YIPYAP_POLL_INTERVAL") = Ok z)) as Hz.
  { subst iv. destruct (String.eqb_spec (getenv "YIPYAP_POLL_INTERVAL") "").
    - by intros z [= <-].
    - destruct (ParseDuration _) as [d|] eqn:Ed; [|done]. intros z [= <-].
      split; [by apply ParseDuration_range in Ed|by split]. }
  assert (forall m, ov = Ok m -> (getenv "K_CE_OVERRIDES" = "" -> m = ∅) /\
    (getenv "K_CE_OVERRIDES" <> "" -> exists exts,
       unmarshal_envelope (getenv "K_CE_OVERRIDES") = Some exts /\ m = default ∅ exts)) as Hom.
  { subst ov. destruct (String.eqb_spec (getenv "K_CE_OVERRIDES") "").
    - by intros m [= <-].
    - destruct (unmarshal_envelope _) as [exts|]; [|done]. intros m [= <-]. split; [done|eauto]. }
  destruct ov as [o|e]; [|split; [split; [done|]; intros (_&_&H%Hov&_); done|done]].
  destruct iv as [z|e]; [|split; [split; [done|]; intros (_&_&_&H%Hiv&_); done|done]].
  cbn [mbind result_bind].
  assert (getenv "YIPYAP_MODE" ∈ [""; "poll"; "stream"] <-> getenv "YIPYAP_MODE" = "" \/
    getenv "YIPYAP_MODE" = "poll" \/ getenv "YIPYAP_MODE" = "stream") as Hm.
  { rewrite !elem_of_cons, elem_of_nil. tauto. }
  case_bool_decide as Hmode; cbn [is_ok].
  - split; [split; [|done]; intros _; split_and!; [done|done|by apply Hov|by apply Hiv|by apply Hm]|].
    intros cfg [= <-]. simpl. destruct (Hz z eq_refl) as (?&?&?), (Hom o eq_refl).
    split_and!; try done. apply parseEventFilters_clean.
  - split; [|done]. split; [done|]. intros (_&_&_&_&H). by apply Hm in H.
Qed.

(** The filter variable round trips: joining clean filters with commas and
    parsing gives them back, what parsing produces is always clean, and so
    parsing is idempotent. *)
Theorem event_filters_roundtrip :
  (forall fs, Forall clean_filter fs -> parseEventFilters (join "," fs) = fs) /\
  (forall raw, Forall clean_filter (parseEventFilters raw)) /\
  (forall raw, parseEventFilters (join "," (parseEventFilters raw)) = parseEventFilters raw).
Proof.
  split; [apply parseEventFilters_join|]. split; [apply parseEventFilters_clean|].
  intros raw. apply parseEventFilters_join, parseEventFilters_clean.
Qed.

(** ** A sample configuration and the witnesses *)

Definition sample_config : Config :=
  MkConfig "http://sink" ∅ "key" "https://console.yipyap.run" [] "" (5 * Second)
    "/var/run/yipyap/cursor" ":8080" "/etc/yipyap/source-mode".

Lemma event_filters_roundtrip_witness :
  parseEventFilters "run.yipyap.alert.*,run.yipyap.monitor.down.v1"
  = ["run.yipyap.alert.*"; "run.yipyap.monitor.down.v1"].
Proof.
  apply (proj1 event_filters_roundtrip
    ["run.yipyap.alert.*"; "run.yipyap.monitor.down.v1"]).
  repeat constructor; discriminate.
Defined.
