(* ===== verification/Mode.v ===== *)
(** * Mode resolution (cmd/receive-adapter/source/mode.go)

    [ResolveMode] consults four layers in turn: the environment, the file the
    controller writes, the server's hint, the default.  The file system is a
    reader ([read_file], [None] for any error) and the network the interface
    [HttpClient].  [strings.ToLower] is applied byte by byte: the results are
    only compared with ASCII words that no other character folds to. *)

From S2P Require Import Prelude GoStrings GoTime GoJson Types GoHttp Config.
Local Open Scope string_scope.
Local Open Scope list_scope.

(** ** Data *)

Record ModeResolution := MkModeResolution {
  mrMode : string;
  mrPollInterval : Z;
  mrRefreshAfter : Z;
  mrSource : string
}.

Definition defaultRefreshAfter : Z := 5 * Minute.

Record sourceConfigHint := MkHint {
  RecommendedMode : string;
  PollIntervalSeconds : Z;
  RefreshAfterSeconds : Z
}.

Inductive hint_error :=
| HintRequest (msg : string)
| HintTransport (msg : string)
| HintStatus (code : Z) (body : string)
| HintDecode.

(** ** Operations *)

Definition hint_member (acc : option sourceConfigHint) (kv : string * json)
    : option sourceConfigHint :=
  h ← acc;
  if is_field "recommended_mode" kv.1 then
    m ← read_string (RecommendedMode h) kv.2;
    Some (MkHint m (PollIntervalSeconds h) (RefreshAfterSeconds h))
  else if is_field "poll_interval_seconds" kv.1 then
    n ← read_int (PollIntervalSeconds h) kv.2;
    Some (MkHint (RecommendedMode h) n (RefreshAfterSeconds h))
  else if is_field "refresh_after_seconds" kv.1 then
    n ← read_int (RefreshAfterSeconds h) kv.2;
    Some (MkHint (RecommendedMode h) (PollIntervalSeconds h) n)
  else Some h.

Definition decode_hint (body : string) : option sourceConfigHint :=
  match decode_first body with
  | Ok JNull => Some (MkHint "" 0 0)
  | Ok (JObj kvs) => foldl hint_member (Some (MkHint "" 0 0)) kvs
  | _ => None
  end.

Definition fetchServerHint `{UrlLib, HttpClient} (cfg : Config)
    : result hint_error sourceConfigHint :=
  req ← map_err HintRequest
    (api_request (cfgBaseURL cfg) "/api/v1/knative/source-config" (cfgAPIKey cfg)
       "application/json" (fun u => u));
  resp ← map_err HintTransport (client_Do req);
  if negb (rsStatus resp =? 200)%Z then Err (HintStatus (rsStatus resp) (read_limited 65536 (rsBody resp)))
  else match decode_hint (rsBody resp) with
       | Some h => Ok h
       | None => Err HintDecode
       end.

Definition resolutionFromHint (h : sourceConfigHint) (cfg : Config) : ModeResolution :=
  MkModeResolution
    (if String.eqb (to_lower (trim_space (RecommendedMode h))) "stream" then "stream" else "poll")
    (if (0 <? PollIntervalSeconds h)%Z then seconds64 (PollIntervalSeconds h)
     else cfgPollInterval cfg)
    (if (0 <? RefreshAfterSeconds h)%Z then seconds64 (RefreshAfterSeconds h)
     else defaultRefreshAfter)
    "server".

Section resolve.
Context `{UrlLib, HttpClient} (read_file : string -> option string).

Definition readCRModeFile (p : string) : option string :=
  b ← read_file p;
  let s := to_lower (trim_space b) in
  if String.eqb s "" then None else Some s.

(** Layers 3 and 4. *)
Definition resolve_server (cfg : Config) : ModeResolution :=
  match fetchServerHint cfg with
  | Ok hint => resolutionFromHint hint cfg
  | Err _ => MkModeResolution "poll" (cfgPollInterval cfg) defaultRefreshAfter "default"
  end.

(** Layer 2. *)
Definition resolve_cr (cfg : Config) : ModeResolution :=
  let crPath := defaultStr (cfgCRModeFilePath cfg) "/etc/yipyap/source-mode" in
  match readCRModeFile crPath with
  | Some m =>
      if String.eqb m "poll" || String.eqb m "stream" then
        MkModeResolution m (cfgPollInterval cfg) defaultRefreshAfter "cr"
      else resolve_server cfg
  | None => resolve_server cfg
  end.

(** The error carries the invalid mode. *)
Definition ResolveMode (cfg : Config) : result string ModeResolution :=
  let m := to_lower (trim_space (cfgMode cfg)) in
  if String.eqb m "poll" then
    Ok (MkModeResolution "poll" (cfgPollInterval cfg) defaultRefreshAfter "env")
  else if String.eqb m "stream" then
    Ok (MkModeResolution "stream" 0 defaultRefreshAfter "env")
  else if String.eqb m "" || String.eqb m "auto" then Ok (resolve_cr cfg)
  else Err (cfgMode cfg).
End resolve.

(** ** The precedence chain as a specification

    Each layer may have an opinion; the first one that has decides. *)

Definition normalize_mode (s : string) : option string :=
  let m := to_lower (trim_space s) in
  if bool_decide (m ∈ ["poll"; "stream"]) then Some m else None.

Definition hint_opinion `{UrlLib, HttpClient} (cfg : Config) : option string :=
  match fetchServerHint cfg with
  | Ok h => Some (if String.eqb (to_lower (trim_space (RecommendedMode h))) "stream"
                  then "stream" else "poll")
  | Err _ => None
  end.

Definition cr_opinion (read_file : string -> option string) (cfg : Config) : option string :=
  b ← read_file (defaultStr (cfgCRModeFilePath cfg) "/etc/yipyap/source-mode");
  normalize_mode b.

(** The layers, in order, with their names. *)
Definition layers `{UrlLib, HttpClient} (read_file : string -> option string) (cfg : Config)
    : list (string * option string) :=
  [("env", normalize_mode (cfgMode cfg)); ("cr", cr_opinion read_file cfg);
   ("server", hint_opinion cfg); ("default", Some "poll")].

Fixpoint first_opinion (l : list (string * option string)) : option (string * string) :=
  match l with
  | [] => None
  | (name, Some m) :: _ => Some (name, m)
  | (_, None) :: l => first_opinion l
  end.

(** ** Theorems *)

Section precedence.
Context `{UrlLib, HttpClient} (read_file : string -> option string).

Lemma normalize_mode_cases s :
  let m := to_lower (trim_space s) in
  normalize_mode s = (if String.eqb m "poll" then Some "poll"
                      else if String.eqb m "stream" then Some "stream" else None).
Proof.
  unfold normalize_mode. cbv zeta. generalize (to_lower (trim_space s)). intros m.
  destruct (String.eqb_spec m "poll") as [->|Np]; [done|].
  destruct (String.eqb_spec m "stream") as [->|Ns]; [done|].
  rewrite bool_decide_false; [done|]. rewrite !elem_of_cons, elem_of_nil. tauto.
Qed.

Lemma resolve_server_opinion cfg :
  first_opinion [("server", hint_opinion cfg); ("default", Some "poll")]
  = Some (mrSource (resolve_server cfg), mrMode (resolve_server cfg)).
Proof.
  unfold hint_opinion, resolve_server, resolutionFromHint.
  by destruct (fetchServerHint cfg).
Qed.

Lemma resolve_cr_opinion cfg :
  first_opinion [("cr", cr_opinion read_file cfg); ("server", hint_opinion cfg);
                 ("default", Some "poll")]
  = Some (mrSource (resolve_cr read_file cfg), mrMode (resolve_cr read_file cfg)).
Proof.
  unfold cr_opinion, resolve_cr, readCRModeFile.
  destruct (read_file _) as [b|]; [|apply resolve_server_opinion].
  cbn [mbind option_bind]. rewrite normalize_mode_cases.
  destruct (String.eqb_spec (to_lower (trim_space b)) "poll") as [E|Np]; [by rewrite E|].
  destruct (String.eqb_spec (to_lower (trim_space b)) "stream") as [E|Ns]; [by rewrite E|].
  destruct (String.eqb_spec (to_lower (trim_space b)) "") as [E|Ne]; [apply resolve_server_opinion|].
  rewrite (proj2 (String.eqb_neq _ _) Np), (proj2 (String.eqb_neq _ _) Ns).
  apply resolve_server_opinion.
Qed.

Lemma ResolveMode_opinion cfg r :
  ResolveMode read_file cfg = Ok r ->
  first_opinion (layers read_file cfg) = Some (mrSource r, mrMode r).
Proof.
  unfold ResolveMode, layers. pose proof (resolve_cr_opinion cfg) as Hcr.
  cbn [first_opinion] in *. rewrite normalize_mode_cases.
  destruct (String.eqb (to_lower (trim_space (cfgMode cfg))) "poll"); [by intros [= <-]|].
  destruct (String.eqb (to_lower (trim_space (cfgMode cfg))) "stream"); [by intros [= <-]|].
  destruct (_ || _); [|done]. intros [= <-]. exact Hcr.
Qed.

Lemma first_opinion_poll_or_stream cfg name m :
  first_opinion (layers read_file cfg) = Some (name, m) -> m = "poll" \/ m = "stream".
Proof.
  assert (forall s m, normalize_mode s = Some m -> m = "poll" \/ m = "stream") as Hn.
  { intros s m'. rewrite normalize_mode_cases. repeat case_match; intros [= <-]; auto. }
  unfold layers. cbn [first_opinion].
  destruct (normalize_mode (cfgMode cfg)) as [e|] eqn:E; [intros [= _ <-]; by apply Hn in E|].
  unfold cr_opinion. destruct (read_file _) as [b|]; cbn [mbind option_bind].
  - destruct (normalize_mode b) as [e|] eqn:E2; [intros [= _ <-]; by apply Hn in E2|].
    unfold hint_opinion. destruct (fetchServerHint cfg); intros [= _ <-]; [case_match|]; auto.
  - unfold hint_opinion. destruct (fetchServerHint cfg); intros [= _ <-]; [case_match|]; auto.
Qed.
End precedence.

(** C33. Precedence: the mode and the source a resolution reports are those of
    the first layer with an opinion, in the order environment, controller
    file, server hint, default; the mode is always poll or stream; and the
    only failure is an environment mode that, lower-cased and trimmed, is none
    of the empty string, auto, poll and stream. *)
Theorem mode_precedence `{UrlLib, HttpClient} read_file cfg :
  match ResolveMode read_file cfg with
  | Ok r =>
      first_opinion (layers read_file cfg) = Some (mrSource r, mrMode r) /\
      (mrMode r = "poll" \/ mrMode r = "stream")
  | Err m =>
      m = cfgMode cfg /\
      to_lower (trim_space (cfgMode cfg)) ∉ [""; "auto"; "poll"; "stream"]
  end.
Proof.
  destruct (ResolveMode read_file cfg) as [r|m] eqn:E.
  - pose proof (ResolveMode_opinion read_file cfg r E) as Hf.
    split; [done|]. by eapply first_opinion_poll_or_stream.
  - revert E. unfold ResolveMode. generalize (to_lower (trim_space (cfgMode cfg))). intros m'.
    destruct (String.eqb_spec m' "poll"); [done|]. destruct (String.eqb_spec m' "stream"); [done|].
    destruct (String.eqb_spec m' ""); [done|]. destruct (String.eqb_spec m' "auto"); [done|].
    intros [= <-]. split; [done|]. rewrite !elem_of_cons, elem_of_nil. tauto.
Qed.

(** A configuration that [LoadConfig] accepted always resolves; and when
    its mode is poll or stream, neither the controller's file nor the network
    can change anything in the resolution. *)
Theorem loaded_config_resolves getenv cfg :
  LoadConfig getenv = Ok cfg ->
  (forall `{UrlLib, HttpClient} read_file, is_ok (ResolveMode read_file cfg) = true) /\
  (cfgMode cfg <> "" ->
   forall (U : UrlLib) (C : HttpClient) (U' : UrlLib) (C' : HttpClient) read_file read_file',
     @ResolveMode U C read_file cfg = @ResolveMode U' C' read_file' cfg).
Proof.
  intros Hl. assert (cfgMode cfg = "" \/ cfgMode cfg = "poll" \/ cfgMode cfg = "stream") as Hm.
  { revert Hl. unfold LoadConfig. repeat (destruct (String.eqb _ _); [done|]).
    destruct (if String.eqb (getenv "K_CE_OVERRIDES") "" then _ else _); [|done].
    destruct (if String.eqb (getenv "YIPYAP_POLL_INTERVAL") "" then _ else _); [|done].
    cbn [mbind result_bind]. case_bool_decide as Hm; [|done]. intros [= <-]. simpl.
    rewrite !elem_of_cons, elem_of_nil in Hm. tauto. }
  split.
  - intros. unfold ResolveMode. by destruct Hm as [->|[->| ->]].
  - intros Hne U C U' C' rf rf'. unfold ResolveMode. by destruct Hm as [?|[->| ->]].
Qed.

(** The durations of a server hint: a positive number of seconds up to
    9223372036 is taken exactly and a missing or non-positive one gives the
    configured interval and the default refresh; every result is a 64-bit
    duration. *)
Theorem hint_durations h cfg :
  let r := resolutionFromHint h cfg in
  in_int64 (cfgPollInterval cfg) ->
  (0 < PollIntervalSeconds h <= 9223372036 ->
     mrPollInterval r = PollIntervalSeconds h * Second /\ 0 < mrPollInterval r)%Z /\
  ((PollIntervalSeconds h <= 0)%Z -> mrPollInterval r = cfgPollInterval cfg) /\
  (0 < RefreshAfterSeconds h <= 9223372036 ->
     mrRefreshAfter r = RefreshAfterSeconds h * Second /\ 0 < mrRefreshAfter r)%Z /\
  ((RefreshAfterSeconds h <= 0)%Z -> mrRefreshAfter r = defaultRefreshAfter) /\
  in_int64 (mrPollInterval r) /\ in_int64 (mrRefreshAfter r).
Proof.
  cbv zeta. intros Hcfg. unfold resolutionFromHint. cbn [mrPollInterval mrRefreshAfter].
  split_and!.
  - intros Hn. rewrite (proj2 (Z.ltb_lt 0 _)) by lia. rewrite seconds64_exact by lia.
    unfold Second. lia.
  - intros Hn. by rewrite (proj2 (Z.ltb_ge 0 _)) by lia.
  - intros Hn. rewrite (proj2 (Z.ltb_lt 0 _)) by lia. rewrite seconds64_exact by lia.
    unfold Second. lia.
  - intros Hn. by rewrite (proj2 (Z.ltb_ge 0 _)) by lia.
  - case_match; [apply wrap64_range|done].
  - case_match; [apply wrap64_range|by vm_compute].
Qed.

(** ** Witnesses *)

Definition sample_env (name : string) : string :=
  if String.eqb name "K_SINK" then "http://sink"
  else if String.eqb name "YIPYAP_API_KEY" then "key"
  else if String.eqb name "YIPYAP_MODE" then "stream"
  else "".

Lemma loaded_config_resolves_witness :
  exists cfg, LoadConfig sample_env = Ok cfg /\
    @ResolveMode plain_url_lib {| client_Do := fun _ => Err "down" |} (fun _ => None) cfg
    = @ResolveMode plain_url_lib {| client_Do := fun _ => Ok (MkResponse 200 "{}") |}
        (fun _ => Some "poll") cfg.
Proof.
  eexists. split; [vm_compute; reflexivity|].
  apply (proj2 (loaded_config_resolves sample_env _ ltac:(vm_compute; reflexivity))).
  vm_compute. discriminate.
Defined.

Lemma hint_durations_witness :
  let h := MkHint "poll" 30 0 in
  mrPollInterval (resolutionFromHint h sample_config) = 30000000000%Z /\
  mrRefreshAfter (resolutionFromHint h sample_config) = defaultRefreshAfter.
Proof.
  cbv zeta. destruct (hint_durations (MkHint "poll" 30 0) sample_config) as (Hp&_&_&Hr&_).
  - split; vm_compute; discriminate.
  - split; [|apply Hr; vm_compute; discriminate].
    rewrite (proj1 (Hp ltac:(split; [reflexivity|vm_compute; discriminate]))). reflexivity.
Defined.
