(* ===== verification/Handoff.v ===== *)
(** * From the resource to the adapter

    The controller and the adapter meet in the container's environment: what
    [MakeAdapterDeployment] renders (Deployment.v), [LoadConfig] reads
    (Config.v).  The theorems say which specs survive the trip, and that the
    ones the defaulting webhook produces do not. *)

From S2P Require Import Prelude GoStrings GoPath GoTime GoJson CondSet Types Api Names Deployment Config.
Local Open Scope string_scope.
Local Open Scope list_scope.

(** The environment the kubelet gives the container: the rendered variables,
    the key read from its secret. *)
Definition container_env `{UrlLib} (secret : string -> string -> string)
    (src : YipYapSource) (sink : option URL) : string -> string :=
  env_lookup secret (adapter_env src sink).

Section handoff.
Context `{UrlLib} (secret : string -> string -> string).

Lemma container_env_values src sink :
  container_env secret src sink "K_SINK" = URL_String sink /\
  container_env secret src sink "YIPYAP_API_KEY"
    = secret (akName (spAPIKeyRef (ySpec src))) (akKey (spAPIKeyRef (ySpec src))) /\
  container_env secret src sink "YIPYAP_BASE_URL" = spBaseURL (ySpec src) /\
  container_env secret src sink "YIPYAP_MODE" = spMode (ySpec src) /\
  container_env secret src sink "YIPYAP_EVENT_FILTER" = join "," (filter_types (ySpec src)) /\
  container_env secret src sink "K_CE_OVERRIDES"
    = (if bool_decide (override_map (ySpec src) = ∅) then ""
       else marshal_overrides (override_map (ySpec src))) /\
  container_env secret src sink "YIPYAP_POLL_INTERVAL" = "" /\
  container_env secret src sink "YIPYAP_CURSOR_PATH" = "" /\
  container_env secret src sink "YIPYAP_HEALTH_ADDR" = "".
Proof.
  unfold container_env. split_and!; rewrite env_lookup_spec; try reflexivity.
Qed.

(** With a sink, a key and overrides in order, the mode decides. *)
Lemma container_LoadConfig src sink :
  let spec := ySpec src in
  let key := secret (akName (spAPIKeyRef spec)) (akKey (spAPIKeyRef spec)) in
  URL_String sink <> "" -> key <> "" -> utf8_map (override_map spec) ->
  LoadConfig (container_env secret src sink) =
    if bool_decide (spMode spec ∈ [""; "poll"; "stream"])
    then Ok (MkConfig (URL_String sink) (override_map spec) key
               (default_str (spBaseURL spec) "https://console.yipyap.run")
               (parseEventFilters (join "," (filter_types spec))) (spMode spec) (5 * Second)%Z
               "/var/run/yipyap/cursor" ":8080" "/etc/yipyap/source-mode")
    else Err (BadMode (spMode spec)).
Proof.
  cbv zeta. intros Hsink Hkey Hm.
  destruct (container_env_values src sink) as (E1&E2&E3&E4&E5&E6&E7&E8&E9).
  unfold LoadConfig. rewrite E1, E2, E3, E4, E5, E6, E7, E8, E9.
  rewrite (proj2 (String.eqb_neq _ _) Hsink), (proj2 (String.eqb_neq _ _) Hkey).
  destruct (bool_decide (override_map _ = _)) eqn:Eo.
  - apply bool_decide_eq_true in Eo. rewrite Eo. reflexivity.
  - change (String.eqb (marshal_overrides (override_map (ySpec src))) "") with false.
    unfold marshal_overrides. rewrite unmarshal_marshal_overrides by done. reflexivity.
Qed.

(** The mode the defaulting webhook writes is one the adapter refuses. *)
Lemma auto_never_loads src sink :
  spMode (ySpec src) = YipYapSourceModeAuto ->
  is_ok (LoadConfig (container_env secret src sink)) = false.
Proof.
  intros Hauto. destruct (container_env_values src sink) as (_&_&_&E4&_).
  apply LoadConfig_bad_mode. rewrite E4, Hauto. set_solver.
Qed.
End handoff.

(** ** Theorems *)


(** C4. The default mode never starts: after the webhook's defaulting, a source
    that leaves the mode empty (or says auto, the documented value) is rendered
    with YIPYAP_MODE=auto, which [LoadConfig] rejects whatever the sink, the
    secret and the rest of the spec are; with those in order, the rejection is
    that of the mode. *)
Theorem default_mode_never_loads `{UrlLib} secret ctx src sink src' :
  spMode (ySpec src) = "" \/ spMode (ySpec src) = YipYapSourceModeAuto ->
  SetDefaults ctx (Some src) = Some src' ->
  is_ok (LoadConfig (container_env secret src' sink)) = false /\
  (URL_String sink <> "" ->
   secret (akName (spAPIKeyRef (ySpec src'))) (akKey (spAPIKeyRef (ySpec src'))) <> "" ->
   utf8_map (override_map (ySpec src')) ->
   LoadConfig (container_env secret src' sink) = Err (BadMode "auto")).
Proof.
  intros Hmode [= <-].
  set (src' := with_spec src _).
  assert (spMode (ySpec src') = "auto") as Hauto.
  { subst src'. simpl. by destruct Hmode as [-> | ->]. }
  split; [by apply auto_never_loads|]. intros Hsink Hkey Hm.
  rewrite container_LoadConfig by done. by rewrite Hauto.
Qed.

(** A source whose type globs hold a comma, blanks around one, and nothing but
    blanks. *)
Definition comma_source : YipYapSource :=
  with_spec sample_source
    (MkSpec (spSink sample_spec) None (spAPIKeyRef sample_spec) ""
       (Some (MkFilter ["a,b"; " c "; "  "] [] [])) "poll" "").

(** A type glob may hold a comma or blanks: the webhook accepts such a
    filter, and the adapter gets a different one (the comma splits the glob in
    two, the blanks are trimmed, a blank glob disappears). *)
Theorem comma_globs_change `{UrlLib, CertLib} secret sink :
  Validate background comma_source = None /\
  parseEventFilters (container_env secret comma_source sink "YIPYAP_EVENT_FILTER")
    = ["a"; "b"; "c"] /\
  filter_types (ySpec comma_source) = ["a,b"; " c "; "  "].
Proof.
  split; [|split].
  - unfold Validate. rewrite FieldError.ViaField_None. apply Spec_Validate_nil. split; simpl.
    + done.
    + right; right; left.
    + split; [|constructor]. repeat constructor; intros name;
        apply (proj2 (glob_ok_iff _)); vm_compute; reflexivity.
    + split_and!; try done. by left.
  - destruct (container_env_values secret comma_source sink) as (_&_&_&_&->&_).
    vm_compute. reflexivity.
  - reflexivity.
Qed.

(** ** Witnesses *)

Definition sample_secret (name key : string) : string :=
  if String.eqb name "yipyap-key" && String.eqb key "api-key" then "sk-1" else "".

Definition auto_source : YipYapSource :=
  with_spec sample_source
    (MkSpec (spSink sample_spec) (spCloudEventOverrides sample_spec) (spAPIKeyRef sample_spec) ""
       (spFilter sample_spec) "" "").


Lemma default_mode_never_loads_witness :
  exists src', SetDefaults background (Some auto_source) = Some src' /\
    Validate (H := no_cert_lib) background src' = None /\
    LoadConfig (container_env (H := plain_url_lib) sample_secret src' (Some sample_url))
    = Err (BadMode "auto").
Proof.
  eexists. split; [reflexivity|]. split; [vm_compute; reflexivity|].
  apply (proj2 (default_mode_never_loads (H := plain_url_lib) sample_secret background auto_source
    (Some sample_url) _ (or_introl eq_refl) eq_refl)).
  - vm_compute. discriminate.
  - vm_compute. discriminate.
  - apply map_Forall_singleton. split; vm_compute; reflexivity.
Defined.
