(* ===== verification/Sink.v ===== *)
(** * The sink client (cmd/receive-adapter/source/sink.go)

    A CloudEvent as the accessors of the SDK see it: the attributes, the
    extensions by name, the data.  [SetExtension] is the SDK's, for both
    versions of the specification.  [Send] returns its error and the event as
    the caller is left with it, since the extensions are set on the map the
    caller's copy shares.  Go iterates over a map in no particular order: the
    overrides and the extensions come as lists in an arbitrary order, and the
    order is shown not to matter. *)

From S2P Require Import Prelude GoStrings GoTime GoJson Types GoHttp Config.
Local Open Scope string_scope.
Local Open Scope list_scope.

(** ** Events *)

(** An extension value of an event decoded from JSON. *)
Inductive ext_value :=
| XBool (b : bool)
| XInt (z : Z)
| XString (s : string).

(** [fmt.Sprint]. *)
Definition Sprint (v : ext_value) : string :=
  match v with
  | XBool b => if b then "true" else "false"
  | XInt z => append_int z 0
  | XString s => s
  end.

Record Event := MkEvent {
  evSpecVersion : string;
  evID : string;
  evSource : string;
  evType : string;
  evTime : Time;
  evSubject : string;
  evDataContentType : string;
  evExtensions : gmap string ext_value;
  evData : option string
}.

Definition with_extensions (exts : gmap string ext_value) (ev : Event) : Event :=
  MkEvent (evSpecVersion ev) (evID ev) (evSource ev) (evType ev) (evTime ev) (evSubject ev)
    (evDataContentType ev) exts (evData ev).

Definition CloudEventsVersionV1 : string := "1.0".
Definition CloudEventsVersionV03 : string := "0.3".

Definition specV1Attributes : list string :=
  ["id"; "source"; "type"; "datacontenttype"; "subject"; "time"; "specversion"; "dataschema"].
Definition specV03Attributes : list string :=
  ["type"; "source"; "subject"; "id"; "time"; "schemaurl"; "datacontenttype";
   "datacontentencoding"].

(** [validateExtensionName] (the SDK's length limit is off by default). *)
Definition validateExtensionName (key : string) : bool :=
  negb (String.eqb key "") && string_forallb is_alnum key.

(** [Event.SetExtension] with a string value: the SDK only records an error for
    a name it refuses. *)
Definition SetExtension (name value : string) (ev : Event) : Event :=
  if String.eqb (evSpecVersion ev) CloudEventsVersionV03 then
    if bool_decide (to_lower name ∈ specV03Attributes) then ev
    else with_extensions (<[name := XString value]> (evExtensions ev)) ev
  else if negb (validateExtensionName name) then ev
  else if bool_decide (to_lower name ∈ specV1Attributes) then ev
  else with_extensions (<[to_lower name := XString value]> (evExtensions ev)) ev.

(** ** Operations *)

Record SinkClient := MkSinkClient {
  scSink : string;
  scOverrides : list (string * string)
}.

(** The client of a configuration, its overrides in iteration order. *)
Definition NewSinkClient (cfg : Config) : SinkClient :=
  MkSinkClient (cfgSink cfg) (map_to_list (cfgCEOverrides cfg)).

Definition apply_overrides (overrides : list (string * string)) (ev : Event) : Event :=
  foldl (fun ev kv => SetExtension kv.1 kv.2 ev) ev overrides.

(** [strings.ToUpper] of the first byte: a lone byte above 127 is not a rune. *)
Definition canonicalHeaderKey (k : string) : string :=
  match k with
  | "" => ""
  | String c r => (if is_ascii_byte c then String (upper_byte c) "" else replacement) +:+ r
  end.

Definition truncate (b : string) (max : nat) : string :=
  if (String.length b <=? max)%nat then b else String.substring 0 max b +:+ "...".

Definition set_extension_headers (exts : list (string * ext_value)) (h : Header) : Header :=
  foldl (fun h kv => header_Set ("Ce-" +:+ canonicalHeaderKey kv.1) (Sprint kv.2) h) h exts.

Definition event_headers (ev : Event) (h : Header) : Header :=
  let h := header_Set "Ce-Specversion" (evSpecVersion ev) h in
  let h := header_Set "Ce-Id" (evID ev) h in
  let h := header_Set "Ce-Source" (evSource ev) h in
  let h := header_Set "Ce-Type" (evType ev) h in
  let h := if IsZero (evTime ev) then h
           else header_Set "Ce-Time" (FormatRFC3339Nano (evTime ev)) h in
  let h := if String.eqb (evSubject ev) "" then h else header_Set "Ce-Subject" (evSubject ev) h in
  let ct := if String.eqb (evDataContentType ev) "" then "application/json"
            else evDataContentType ev in
  let h := header_Set "Content-Type" ct h in
  set_extension_headers (map_to_list (evExtensions ev)) h.

Inductive send_error :=
| BuildRequest (msg : string)
| SinkTransport (msg : string)
| SinkRetryable (code : Z) (body : string)
| SinkPermanent (code : Z) (body : string).

Section send.
Context `{UrlLib, HttpClient}.

Definition buildBinaryRequest (sinkURL : string) (ev : Event) : result string Request :=
  u ← url_Parse sinkURL;
  req ← NewRequest "POST" (url_String u) (default "" (evData ev));
  Ok (MkRequest (rqMethod req) (rqURL req) (event_headers ev (rqHeader req)) (rqBody req)).

(** The switch over the status. *)
Definition classify (resp : Response) : result send_error unit :=
  let body := truncate (read_limited 4096 (rsBody resp)) 256 in
  let code := rsStatus resp in
  if (200 <=? code)%Z && (code <? 300)%Z then Ok tt
  else if (code =? 408)%Z || (code =? 429)%Z || (500 <=? code)%Z then Err (SinkRetryable code body)
  else Err (SinkPermanent code body).

Definition Send (s : SinkClient) (ev : Event) : result send_error unit * Event :=
  let ev := apply_overrides (scOverrides s) ev in
  (req ← map_err BuildRequest (buildBinaryRequest (scSink s) ev);
   resp ← map_err SinkTransport (client_Do req);
   classify resp, ev).
End send.

(** Would a later attempt have a chance?  What the error text says. *)
Definition retryable (e : send_error) : bool :=
  match e with SinkTransport _ | SinkRetryable _ _ => true | _ => false end.

(** ** Overrides *)

(** The names the SDK accepts in a version 1.0 event, as it stores them. *)
Definition valid_ext (k : string) : Prop :=
  validateExtensionName k = true /\ to_lower k = k /\ k ∉ specV1Attributes.

(** What an override stores in a version 1.0 event, if anything. *)
Definition effective (kv : string * string) : option (string * ext_value) :=
  if validateExtensionName kv.1 && negb (bool_decide (to_lower kv.1 ∈ specV1Attributes))
  then Some (to_lower kv.1, XString kv.2) else None.

Lemma SetExtension_v1 kv ev :
  evSpecVersion ev = CloudEventsVersionV1 ->
  SetExtension kv.1 kv.2 ev =
    match effective kv with
    | Some (k, v) => with_extensions (<[k := v]> (evExtensions ev)) ev
    | None => ev
    end.
Proof.
  intros Hv. unfold SetExtension, effective. rewrite Hv.
  change (String.eqb CloudEventsVersionV1 CloudEventsVersionV03) with false.
  destruct (validateExtensionName kv.1); simpl; [|done]. by case_bool_decide.
Qed.

Lemma with_extensions_id ev : with_extensions (evExtensions ev) ev = ev.
Proof. by destruct ev. Qed.

Lemma with_extensions_twice e1 e2 ev :
  with_extensions e1 (with_extensions e2 ev) = with_extensions e1 ev.
Proof. done. Qed.

(** The overrides of a version 1.0 event, as one update of its extensions. *)
Lemma apply_overrides_v1 l ev :
  evSpecVersion ev = CloudEventsVersionV1 ->
  apply_overrides l ev =
    with_extensions (foldl (fun m kv => <[kv.1 := kv.2]> m) (evExtensions ev)
                       (omap effective l)) ev.
Proof.
  revert ev. induction l as [|kv l IH]; intros ev Hv; simpl; [by rewrite with_extensions_id|].
  rewrite SetExtension_v1 by done.
  destruct (effective kv) as [[k v]|]; simpl; [|by apply IH].
  rewrite IH by done. done.
Qed.

Lemma foldl_insert_list {V} (l : list (string * V)) (m : gmap string V) :
  NoDup l.*1 -> foldl (fun m kv => <[kv.1 := kv.2]> m) m l = list_to_map l ∪ m.
Proof.
  revert m. induction l as [|[k v] l IH]; intros m Hnd; simpl; [by rewrite (left_id_L ∅ (∪))|].
  apply NoDup_cons in Hnd as [Hk Hnd]. rewrite IH by done. simpl.
  rewrite <- insert_union_r; [by rewrite insert_union_l|by apply not_elem_of_list_to_map].
Qed.

(** Names that stay distinct in lower case. *)
Definition distinct_names (l : list (string * string)) : Prop :=
  NoDup (map (fun kv => to_lower kv.1) l).

Lemma effective_nodup l : distinct_names l -> NoDup (omap effective l).*1.
Proof.
  unfold distinct_names. induction l as [|kv l IH]; simpl; [constructor|].
  intros [Hk Hnd]%NoDup_cons. destruct (effective kv) as [[k v]|] eqn:E; [|by apply IH].
  simpl. constructor; [|by apply IH].
  intros ((k'&v')&Hk'&(kv'&Hin&He)%list_elem_of_omap)%list_elem_of_fmap. simpl in Hk'. subst k'.
  apply Hk. unfold effective in E, He.
  destruct (_ && _) in E; [|done]. destruct (_ && _) in He; [|done].
  injection E as <- <-. injection He as He _. rewrite <- He.
  apply list_elem_of_fmap. by exists kv'.
Qed.

(** ** Extension headers *)

Lemma lower_alnum_byte c : is_alnum c = true -> lower_byte c = c -> upper_byte c <> "-"%char /\
  token_byte (upper_byte c) = true /\ token_byte c = true /\ is_ascii_byte c = true /\
  Ascii.eqb c "-" = false /\ lower_byte (upper_byte c) = c /\ upper_byte (upper_byte c) = upper_byte c.
Proof. destruct c as [[] [] [] [] [] [] [] []]; intros Ha Hl; try discriminate Ha; try discriminate Hl; by vm_compute. Qed.

Lemma string_map_cons f c s : string_map f (String c s) = String (f c) (string_map f s).
Proof. done. Qed.

Lemma canonical_bytes_lower r :
  string_forallb is_alnum r = true -> to_lower r = r -> canonical_bytes false r = r /\
  string_forallb token_byte r = true.
Proof.
  unfold to_lower. induction r as [|c r IH]; [done|]. cbn [string_forallb canonical_bytes].
  rewrite string_map_cons. intros [Hc Hr]%andb_true_iff [= El Er].
  destruct (lower_alnum_byte c Hc El) as (_&_&->&_&->&_&_). destruct (IH Hr Er) as [-> ->].
  by rewrite El.
Qed.

(** The header of an extension: its name with a capital. *)
Lemma extension_header_key k :
  valid_ext k -> exists c r, k = String c r /\
    CanonicalHeaderKey ("Ce-" +:+ canonicalHeaderKey k) = "Ce-" +:+ String (upper_byte c) r /\
    lower_byte (upper_byte c) = c.
Proof.
  intros (Hv&Hl&_). unfold validateExtensionName in Hv.
  apply andb_true_iff in Hv as [Hne Ha]. destruct k as [|c r]; [done|]. exists c, r.
  split; [done|]. cbn [string_forallb] in Ha. apply andb_true_iff in Ha as [Hc Hr].
  unfold to_lower in Hl. rewrite string_map_cons in Hl. injection Hl as El Er.
  destruct (lower_alnum_byte c Hc El) as (Hd&Ht&_&Has&_&Hlu&Huu).
  destruct (canonical_bytes_lower r Hr Er) as [Hcb Htok].
  split; [|done]. unfold canonicalHeaderKey. rewrite Has. cbn [String.append].
  unfold CanonicalHeaderKey.
  assert (string_forallb token_byte (String "C" (String "e" (String "-" (String (upper_byte c) r))))
    = true) as ->.
  { cbn [string_forallb]. by rewrite Ht, Htok. }
  cbn [canonical_bytes]. change (Ascii.eqb "C" "-") with false. change (Ascii.eqb "e" "-") with false.
  change (Ascii.eqb "-" "-") with true. cbv iota.
  rewrite (proj2 (Ascii.eqb_neq _ _) Hd), Huu, Hcb. done.
Qed.

Definition ext_key (k : string) : string := CanonicalHeaderKey ("Ce-" +:+ canonicalHeaderKey k).

Lemma ext_key_inj k k' : valid_ext k -> valid_ext k' -> ext_key k = ext_key k' -> k = k'.
Proof.
  unfold ext_key.
  intros (c&r&->&->&Hc)%extension_header_key (c'&r'&->&->&Hc')%extension_header_key [= E ->].
  f_equal. by rewrite <- Hc, E.
Qed.

(** It is none of the headers of the attributes. *)
Definition attribute_names : list string :=
  ["id"; "source"; "type"; "subject"; "time"; "specversion"].

Lemma attribute_header_key a :
  In a attribute_names -> a ∈ specV1Attributes /\
  exists d q, a = String d q /\
    CanonicalHeaderKey ("Ce-" +:+ canonicalHeaderKey a) = "Ce-" +:+ String (upper_byte d) q /\
    lower_byte (upper_byte d) = d.
Proof.
  intros Ha. split.
  - apply list_elem_of_In. simpl in *. tauto.
  - simpl in Ha. repeat (destruct Ha as [<-|Ha]; [by eexists _, _|]). done.
Qed.

Lemma ext_key_fixed k a :
  valid_ext k -> In a attribute_names -> ext_key k <> CanonicalHeaderKey ("Ce-" +:+ canonicalHeaderKey a).
Proof.
  intros Hk [Ha (d&q&->&Ea&Hd)]%attribute_header_key E. unfold ext_key in E.
  destruct (extension_header_key k Hk) as (c&r&->&Ek&Hc). rewrite Ek, Ea in E.
  injection E as E ->. destruct Hk as (_&_&Hn). apply Hn. by rewrite <- Hc, E, Hd.
Qed.

(** The headers of the extensions: exactly theirs, the others kept. *)
Lemma extension_headers (l : list (string * ext_value)) h :
  NoDup l.*1 -> Forall (fun kv => valid_ext kv.1) l ->
  (forall k v, (k, v) ∈ l -> set_extension_headers l h !! ext_key k = Some (Sprint v)) /\
  (forall key, (forall k v, (k, v) ∈ l -> ext_key k <> key) ->
     set_extension_headers l h !! key = h !! key).
Proof.
  revert h. induction l as [|[k v] l IH]; intros h Hnd Hval; [by split; [set_solver|]|].
  apply NoDup_cons in Hnd as [Hk Hnd]. apply Forall_cons in Hval as [Hkv Hval]. simpl in Hk, Hkv.
  cbn [set_extension_headers foldl fst snd].
  fold (set_extension_headers l (header_Set ("Ce-" +:+ canonicalHeaderKey k) (Sprint v) h)).
  destruct (IH (header_Set ("Ce-" +:+ canonicalHeaderKey k) (Sprint v) h) Hnd Hval) as [IH1 IH2].
  assert (forall k' v', (k', v') ∈ l -> ext_key k' <> ext_key k) as Hdiff.
  { intros k' v' Hin E. rewrite Forall_forall in Hval.
    apply ext_key_inj in E as ->; [|by apply (Hval (k', v'))|done].
    apply Hk. by apply (list_elem_of_fmap_2 fst _ (k, v')). }
  split.
  - intros k' v' [[= -> ->]|Hin]%elem_of_cons; [|by apply IH1].
    rewrite IH2 by (intros; eauto). apply lookup_insert_eq.
  - intros key Hkey. rewrite IH2 by (intros k' v' Hin; apply (Hkey k' v'); by right).
    unfold header_Set. rewrite lookup_insert_ne; [done|].
    apply (Hkey k v). by left.
Qed.

(** ** Theorems *)

(** Overrides are layered onto a version 1.0 event, whatever the iteration
    order: with names that differ in lower case, every acceptable name carries
    the override's value, every other extension its old one, the other
    attributes and the data are untouched, and any reordering of the overrides
    gives the same event. *)
Theorem overrides_layered ev l :
  evSpecVersion ev = CloudEventsVersionV1 -> distinct_names l ->
  (forall k v name x, (k, v) ∈ l -> effective (k, v) = Some (name, x) ->
     evExtensions (apply_overrides l ev) !! name = Some (XString v)) /\
  (forall name, (forall k v x, (k, v) ∈ l -> effective (k, v) <> Some (name, x)) ->
     evExtensions (apply_overrides l ev) !! name = evExtensions ev !! name) /\
  with_extensions ∅ (apply_overrides l ev) = with_extensions ∅ ev /\
  (forall l', l' ≡ₚ l -> apply_overrides l' ev = apply_overrides l ev).
Proof.
  intros Hv Hd. pose proof (effective_nodup l Hd) as Hnd.
  rewrite (apply_overrides_v1 l ev Hv). rewrite foldl_insert_list by done.
  assert (forall name x, (list_to_map (omap effective l) : gmap string ext_value) !! name = Some x <->
    exists k v, (k, v) ∈ l /\ effective (k, v) = Some (name, x)) as Hlk.
  { intros name x. rewrite <- elem_of_list_to_map by done. rewrite list_elem_of_omap.
    split; [intros ([k v]&?&?); eauto|intros (k&v&?&?); by exists (k, v)]. }
  split_and!.
  - intros k v name x Hin He. cbn [evExtensions with_extensions].
    assert (x = XString v) as -> by (unfold effective in He; destruct (_ && _) in He; [|done];
      by injection He as _ <-).
    apply lookup_union_Some_l, Hlk. eauto.
  - intros name Hno. cbn [evExtensions with_extensions]. apply lookup_union_r.
    destruct (list_to_map (omap effective l) !! name) as [x|] eqn:E; [|done].
    apply Hlk in E as (k&v&Hin&He). by destruct (Hno k v x Hin).
  - done.
  - intros l' Hp. rewrite apply_overrides_v1 by done.
    assert (distinct_names l') as Hd' by (unfold distinct_names; by rewrite Hp).
    rewrite foldl_insert_list by (by apply effective_nodup).
    f_equal. f_equal. apply list_to_map_proper; [by apply effective_nodup|]. by rewrite Hp.
Qed.

(** The request of a version 1.0 event: with extension names as the SDK
    stores them, every attribute is in its own header with its exact value
    (the time only when set, the subject only when not empty, the content
    type defaulted), every extension is in the header of its capitalised name,
    and the body is the data. *)
Theorem binary_request_headers `{UrlLib} sink ev req :
  map_Forall (fun k _ => valid_ext k) (evExtensions ev) ->
  buildBinaryRequest sink ev = Ok req ->
  rqMethod req = "POST" /\ rqBody req = default "" (evData ev) /\
  rqHeader req !! "Ce-Specversion" = Some (evSpecVersion ev) /\
  rqHeader req !! "Ce-Id" = Some (evID ev) /\
  rqHeader req !! "Ce-Source" = Some (evSource ev) /\
  rqHeader req !! "Ce-Type" = Some (evType ev) /\
  rqHeader req !! "Ce-Time"
    = (if IsZero (evTime ev) then None else Some (FormatRFC3339Nano (evTime ev))) /\
  rqHeader req !! "Ce-Subject"
    = (if String.eqb (evSubject ev) "" then None else Some (evSubject ev)) /\
  rqHeader req !! "Content-Type"
    = Some (defaultStr (evDataContentType ev) "application/json") /\
  (forall k v, evExtensions ev !! k = Some v -> rqHeader req !! ext_key k = Some (Sprint v)).
Proof.
  intros Hval. unfold buildBinaryRequest, NewRequest.
  destruct (url_Parse sink) as [u|]; [|done]. cbn [mbind result_bind].
  destruct (url_Parse (url_String u)) as [u'|]; [|done]. cbn [mbind result_bind].
  intros [= <-]. cbn [rqMethod rqBody rqHeader].
  unfold event_headers.
  set (h := header_Set "Content-Type" _ _).
  destruct (extension_headers (map_to_list (evExtensions ev)) h) as [Hext Hother].
  { apply NoDup_fst_map_to_list. }
  { apply map_Forall_to_list in Hval. eapply Forall_impl; [exact Hval|]. by intros []. }
  assert (forall k v, (k, v) ∈ map_to_list (evExtensions ev) -> valid_ext k) as Hvk.
  { intros k v Hin%elem_of_map_to_list. by apply (Hval k v). }
  assert (forall a, In a attribute_names ->
    set_extension_headers (map_to_list (evExtensions ev)) h
      !! CanonicalHeaderKey ("Ce-" +:+ canonicalHeaderKey a)
    = h !! CanonicalHeaderKey ("Ce-" +:+ canonicalHeaderKey a)) as Hattr.
  { intros a Ha. apply Hother. intros k v Hin. apply ext_key_fixed; [by eapply Hvk|done]. }
  assert (set_extension_headers (map_to_list (evExtensions ev)) h !! "Content-Type"
    = h !! "Content-Type") as Hct.
  { apply Hother. intros k v Hin E.
    destruct (extension_header_key k (Hvk k v Hin)) as (c&r&_&Ek&_). unfold ext_key in E.
    by rewrite Ek in E. }
  assert (forall k, k ∈ ["Ce-Specversion"; "Ce-Id"; "Ce-Source"; "Ce-Type"; "Ce-Time";
    "Ce-Subject"; "Content-Type"] -> set_extension_headers (map_to_list (evExtensions ev)) h !! k
    = h !! k) as Hfix.
  { intros k Hk. repeat (apply elem_of_cons in Hk as [->|Hk];
      [first [exact Hct | apply (Hattr "specversion") | apply (Hattr "id")
              | apply (Hattr "source") | apply (Hattr "type") | apply (Hattr "time")
              | apply (Hattr "subject")]; simpl; tauto|]).
    by apply elem_of_nil in Hk. }
  split_and!; try done.
  all: try (rewrite Hfix by (apply (bool_decide_unpack _); vm_compute; exact I); unfold h, header_Set;
    destruct (IsZero (evTime ev)), (String.eqb (evSubject ev) "");
    repeat (rewrite lookup_insert_ne by discriminate || rewrite lookup_insert_eq); reflexivity).
  intros k v Hk. apply Hext. by apply elem_of_map_to_list.
Qed.

(** The verdict of a delivery: nothing but a 2xx answer to the request is a
    success; a transport failure, 408, 429 and everything from 500 up are
    retryable; any other status, and a request that cannot be built, are not. *)
Theorem send_verdict `{UrlLib, HttpClient} s ev :
  let r := (Send s ev).1 in
  match buildBinaryRequest (scSink s) (Send s ev).2 with
  | Err m => r = Err (BuildRequest m)
  | Ok req =>
      match client_Do req with
      | Err m => r = Err (SinkTransport m) /\ retryable (SinkTransport m) = true
      | Ok resp =>
          (is_ok r = true <-> (200 <= rsStatus resp < 300)%Z) /\
          (forall e, r = Err e -> retryable e = true <->
             rsStatus resp = 408%Z \/ rsStatus resp = 429%Z \/ (500 <= rsStatus resp)%Z)
      end
  end.
Proof.
  cbv zeta. unfold Send. cbn [fst snd].
  destruct (buildBinaryRequest _ _) as [req|m]; [|done]. cbn [map_err mbind result_bind].
  destruct (client_Do req) as [resp|m]; [|done]. cbn [map_err mbind result_bind].
  unfold classify.
  assert (forall c b, ~ (200 <= rsStatus resp < 300)%Z ->
    (let r := if (rsStatus resp =? 408)%Z || (rsStatus resp =? 429)%Z || (500 <=? rsStatus resp)%Z
              then Err (SinkRetryable c b) else Err (SinkPermanent c b) in
     (is_ok (E := send_error) (A := unit) r = true <-> (200 <= rsStatus resp < 300)%Z) /\
     (forall e, r = Err e -> retryable e = true <->
        rsStatus resp = 408%Z \/ rsStatus resp = 429%Z \/ (500 <= rsStatus resp)%Z))) as Hfail.
  { intros c b Hn. cbv zeta.
    destruct (Z.eqb_spec (rsStatus resp) 408), (Z.eqb_spec (rsStatus resp) 429),
      (Z.leb_spec 500 (rsStatus resp)); cbn [orb is_ok];
      (split; [split; [done|lia]|intros er [= <-]; cbn [retryable]; split; (done || lia)]). }
  destruct (Z.leb_spec 200 (rsStatus resp)), (Z.ltb_spec (rsStatus resp) 300); cbn [andb];
    try (apply Hfail; lia).
  split; [split; [intros _; lia|done]|done].
Qed.

(** ** Witnesses *)

Definition sample_event : Event :=
  MkEvent "1.0" "evt-1" "/orgs/acme" "run.yipyap.alert.fired.v1" (MkTime 1767225599 0) ""
    "application/json" {[ "alertref" := XString "a-7" ]} (Some "{}").

Definition sample_overrides : list (string * string) :=
  [("Environment", "prod"); ("not-a-name", "x"); ("type", "y")].

Lemma overrides_layered_witness :
  evExtensions (apply_overrides sample_overrides sample_event) !! "environment"
    = Some (XString "prod") /\
  evExtensions (apply_overrides sample_overrides sample_event) !! "alertref"
    = Some (XString "a-7") /\
  apply_overrides (rev sample_overrides) sample_event = apply_overrides sample_overrides sample_event.
Proof.
  destruct (overrides_layered sample_event sample_overrides eq_refl) as (Hs&Ho&_&Hp).
  - apply (bool_decide_eq_true_1 (NoDup _)). vm_compute. reflexivity.
  - split; [|split].
    + apply (Hs "Environment" "prod" "environment" (XString "prod")); [left|reflexivity].
    + rewrite Ho; [reflexivity|].
      intros k v x Hin. unfold sample_overrides in Hin.
      repeat (apply elem_of_cons in Hin as [[= -> ->]|Hin]; [vm_compute; discriminate|]).
      apply elem_of_nil in Hin. destruct Hin.
    + apply Hp. symmetry. apply Permutation_rev.
Defined.

Lemma binary_request_headers_witness :
  exists req, buildBinaryRequest (H := plain_url_lib) "http://sink/in" sample_event = Ok req /\
    rqHeader req !! "Ce-Id" = Some "evt-1" /\ rqHeader req !! "Ce-Alertref" = Some "a-7" /\
    rqHeader req !! "Ce-Time" = Some "2025-12-31T23:59:59Z" /\ rqHeader req !! "Ce-Subject" = None.
Proof.
  destruct (buildBinaryRequest (H := plain_url_lib) "http://sink/in" sample_event) as [req|e] eqn:E;
    [|discriminate E].
  exists req. split; [reflexivity|].
  destruct (binary_request_headers (H := plain_url_lib) "http://sink/in" sample_event req
    ltac:(apply map_Forall_singleton; split_and!; [reflexivity|reflexivity|];
      apply (bool_decide_eq_true_1 (_ ∉ _)); vm_compute; reflexivity)
    E) as (_&_&_&Hid&_&_&Ht&Hs&_&He).
  split; [exact Hid|]. split; [exact (He "alertref" (XString "a-7") ltac:(reflexivity))|].
  split; [rewrite Ht; vm_compute; reflexivity|rewrite Hs; reflexivity].
Defined.
