(* ===== verification/Poll.v ===== *)
(** * The poll client (cmd/receive-adapter/source/poll.go)

    One fetch, one tick of the loop of [Run], and the cursor file.  Everything
    a tick meets is in its environment ([tick_env]): the HTTP client, what the
    sink answers to each event, and what the file system does.  The cursor is
    written through a temporary file; the states of the directory in between
    are recorded, as those a crash would leave.  The SDK's decoder can panic, on
    an envelope it does not expect; nothing recovers from that, so a fetch, a tick
    and a session end there.

    Main results: a crash leaves the old cursor or the new one; the persisted
    cursor never passes an event the sink has not accepted, over any run of
    sessions, failures and crashes. *)

From S2P Require Import Prelude GoStrings GoTime GoJson Types GoHttp Config Sink.
Local Open Scope string_scope.
Local Open Scope list_scope.

(** [json.Unmarshal] into a CloudEvent, the SDK's: an event, an error, or a panic
    ([consumeDataAsBytes] slices the cached data without looking at its length). *)
Inductive decoding :=
| Decoded (ev : Event)
| Malformed
| DecodePanics.

Class EventCodec := { event_Unmarshal : string -> decoding }.

Definition decoded_event (d : decoding) : option Event :=
  match d with Decoded ev => Some ev | _ => None end.

(** ** Fetching *)

Record PollClient := MkPollClient {
  pcBaseURL : string;
  pcAPIKey : string;
  pcFilters : list string;
  pcInterval : Z;
  pcCursorPath : string
}.

Definition NewPollClient (cfg : Config) : PollClient :=
  MkPollClient (cfgBaseURL cfg) (cfgAPIKey cfg) (cfgEventFilters cfg)
    (if (cfgPollInterval cfg <=? 0)%Z then 5 * Second else cfgPollInterval cfg)
    (cfgCursorPath cfg).

Inductive fetch_error :=
| FetchRequest (msg : string)
| FetchTransport (msg : string)
| FetchStatus (code : Z) (body : string)
| FetchDecode
| FetchPanics (raw : string).

(** The struct of [fetch]: the raw events and the next cursor. *)
Definition payload_member (acc : option (list string * string)) (kv : string * json)
    : option (list string * string) :=
  '(events, next) ← acc;
  if is_field "events" kv.1 then
    events ← read_raws events kv.2; Some (events, next)
  else if is_field "next_cursor" kv.1 then
    next ← read_string next kv.2; Some (events, next)
  else Some (events, next).

Definition decode_payload (body : string) : option (list string * string) :=
  match decode_first body with
  | Ok JNull => Some ([], "")
  | Ok (JObj kvs) => foldl payload_member (Some ([], "")) kvs
  | _ => None
  end.

(** One filter parameter per glob, after those of the base URL. *)
Definition add_filters (filters : list string) (q : Values) : Values :=
  foldl (fun q f => values_Add "filter" f q) q filters.

Definition poll_query (filters : list string) (cursor : string) (u : URL) : Values :=
  let q := add_filters filters (URL_Query u) in
  if String.eqb cursor "" then q else values_Set "since" cursor q.

Section fetch.
Context `{UrlLib, EventCodec}.

Definition poll_request (p : PollClient) (cursor : string) : result string Request :=
  api_request (pcBaseURL p) "/api/v1/cloudevents/poll" (pcAPIKey p) "application/json"
    (fun u => with_query (values_Encode (poll_query (pcFilters p) cursor u)) u).

(** The loop over the raw events, which skips the malformed ones. *)
Fixpoint decode_events (raws : list string) : result string (list Event) :=
  match raws with
  | [] => Ok []
  | raw :: raws =>
      match event_Unmarshal raw with
      | Decoded ev => events ← decode_events raws; Ok (ev :: events)
      | Malformed => decode_events raws
      | DecodePanics => Err raw
      end
  end.

(** The next cursor and the events that decode. *)
Definition fetch `{HttpClient} (p : PollClient) (cursor : string)
    : result fetch_error (string * list Event) :=
  req ← map_err FetchRequest (poll_request p cursor);
  resp ← map_err FetchTransport (client_Do req);
  if negb (rsStatus resp =? 200)%Z then Err (FetchStatus (rsStatus resp) (read_limited 65536 (rsBody resp)))
  else match decode_payload (rsBody resp) with
       | None => Err FetchDecode
       | Some (raws, next) => events ← map_err FetchPanics (decode_events raws); Ok (next, events)
       end.
End fetch.

(** ** The cursor file

    A file is a directory and an entry name in it ([inl]), and a directory is its
    path ([inr]). *)

Abbreviation dir_state := (gmap ((string * string) + string) string).

(** [filepath.Base] and [filepath.Dir]. *)
Fixpoint drop_slashes (r : string) : string :=
  match r with
  | String c r' => if Ascii.eqb c "/" then drop_slashes r' else r
  | "" => ""
  end.
Definition path_Base (p : string) : string :=
  if String.eqb p "" then "." else
  match String.rev (drop_slashes (String.rev p)) with
  | "" => "/"
  | p => List.last (split "/" p) ""
  end.
Definition path_Dir (p : string) : string :=
  match rev (split "/" p) with
  | _ :: r => path_Clean (join "/" (rev ("" :: r)))
  | [] => "."
  end.

Definition file_of (path : string) : (string * string) + string :=
  inl (path_Dir path, path_Base path).

(** The file [os.CreateTemp] makes for a random part. *)
Definition temp_of (path rnd : string) : (string * string) + string :=
  inl (path_Dir path, path_Base path +:+ "." +:+ rnd +:+ ".tmp").

(** The directories [os.MkdirAll] makes sure of, the outermost first. *)
Definition parents (dir : string) : list string :=
  let parts := split "/" dir in
  filter (fun d => d ∉ [""; "."; "/"])
    (map (fun k => join "/" (take k parts)) (seq 1 (length parts))).

Definition make_dirs (dirs : list string) (fs : dir_state) : dir_state :=
  foldl (fun fs d => <[inr d := ""]> fs) fs dirs.

(** What the system calls of one [writeCursor] do. *)
Record fs_oracle := MkFsOracle {
  foMkdirAll : option nat;        (* [Some n] when it fails after n directories *)
  foCreateTemp : option string;   (* the random part *)
  foWriteString : option nat;     (* [Some n] when it fails after n bytes *)
  foClose : bool;
  foRename : bool;
  foRemove : bool                 (* of the temporary file, after a failure *)
}.

Inductive cursor_error := MkdirFailed | CreateFailed | WriteFailed | CloseFailed | RenameFailed.

(** [tmp.WriteString], byte after byte. *)
Definition partial_writes (tmp : (string * string) + string) (cursor : string) (n : nat)
    (fs : dir_state) : list dir_state :=
  map (fun k => <[tmp := String.substring 0 k cursor]> fs) (seq 0 (S n)).

(** [os.MkdirAll], directory after directory. *)
Definition partial_dirs (dirs : list string) (fs : dir_state) : list dir_state :=
  map (fun k => make_dirs (take k dirs) fs) (seq 0 (S (length dirs))).

(** The deferred [os.Remove], whose error is ignored. *)
Definition clean_up (o : fs_oracle) (tmp : (string * string) + string) (fs : dir_state) : dir_state :=
  if foRemove o then delete tmp fs else fs.

(** [writeCursor]: the error, the directory after it, and the directories in
    between, in order. *)
Definition writeCursor (o : fs_oracle) (path cursor : string) (fs : dir_state)
    : option cursor_error * dir_state * list dir_state :=
  if String.eqb path "" then (None, fs, [])
  else
    let dirs := parents (path_Dir path) in
    match foMkdirAll o with
    | Some n => (Some MkdirFailed, make_dirs (take n dirs) fs, partial_dirs (take n dirs) fs)
    | None =>
        let making := partial_dirs dirs fs in
        let fs := make_dirs dirs fs in
        match foCreateTemp o with
        | None => (Some CreateFailed, fs, making)
        | Some rnd =>
            let tmp := temp_of path rnd in
            let written n := making ++ partial_writes tmp cursor n (<[tmp := ""]> fs) in
            match foWriteString o with
            | Some n =>
                (Some WriteFailed, clean_up o tmp (<[tmp := String.substring 0 n cursor]> fs),
                 written n)
            | None =>
                let fs := <[tmp := cursor]> fs in
                let mid := written (String.length cursor) in
                if negb (foClose o) then (Some CloseFailed, clean_up o tmp fs, mid)
                else if negb (foRename o) then (Some RenameFailed, clean_up o tmp fs, mid)
                else (None, <[file_of path := cursor]> (delete tmp fs), mid)
            end
        end
    end.

(** [readCursor] as [Run] uses it: a missing file, and any error, read as no
    cursor. *)
Definition readCursor (readable : bool) (path : string) (fs : dir_state) : string :=
  if String.eqb path "" then ""
  else if readable then default "" (fs !! file_of path) else "".

(** ** One tick *)

(** The events the sink accepted, up to the first it refused, and whether it
    refused none. *)
Fixpoint emit_all (emit : Event -> bool) (events : list Event) : list Event * bool :=
  match events with
  | [] => ([], true)
  | ev :: events =>
      if emit ev then let '(done, ok) := emit_all emit events in (ev :: done, ok) else ([], false)
  end.

Record tick_env := MkTickEnv {
  teHttp : HttpClient;
  teEmit : Event -> bool;
  teFs : fs_oracle
}.

(** The loop's variables: the cursor in memory and the directory. *)
Record poll_state := MkPollState { plCursor : string; plFs : dir_state }.

Section run.
Context `{UrlLib, EventCodec}.

(** One [tick.C] case of [Run]: the new state, the accepted events, and the
    envelope on which the decoder panicked. *)
Definition poll_tick (p : PollClient) (env : tick_env) (s : poll_state)
    : poll_state * list Event * option string :=
  match fetch (H1 := teHttp env) p (plCursor s) with
  | Err (FetchPanics raw) => (s, [], Some raw)
  | Err _ => (s, [], None)
  | Ok (next, events) =>
      let '(done, allOK) := emit_all (teEmit env) events in
      if negb allOK then (s, done, None)
      else if negb (String.eqb next "") && negb (String.eqb next (plCursor s)) then
        let '(_, fs, _) := writeCursor (teFs env) (pcCursorPath p) next (plFs s) in
        (MkPollState next fs, done, None)
      else (s, done, None)
  end.

(** The ticks of a session, up to the first that panics. *)
Fixpoint poll_ticks (p : PollClient) (envs : list tick_env) (s : poll_state)
    : poll_state * list Event * option string :=
  match envs with
  | [] => (s, [], None)
  | env :: envs =>
      let '(s, new, panic) := poll_tick p env s in
      match panic with
      | Some raw => (s, new, Some raw)
      | None => let '(s, rest, panic) := poll_ticks p envs s in (s, new ++ rest, panic)
      end
  end.

(** [Run] over the ticks of a session, from the state of the directory. *)
Definition poll_run (p : PollClient) (readable : bool) (fs : dir_state) (envs : list tick_env)
    : poll_state * list Event * option string :=
  poll_ticks p envs (MkPollState (readCursor readable (pcCursorPath p) fs) fs).
End run.

(** ** The cursor file: lemmas *)

(** The random part is new: no file has the name of the temporary one. *)
Definition fresh (o : fs_oracle) (path : string) (fs : dir_state) : Prop :=
  forall rnd, foCreateTemp o = Some rnd -> fs !! temp_of path rnd = None.

Lemma temp_ne_file path rnd : temp_of path rnd <> file_of path.
Proof.
  unfold temp_of, file_of. intros [= E]. apply (f_equal String.length) in E.
  rewrite !length_app_str in E. simpl in E. lia.
Qed.

Lemma make_dirs_files dirs fs f : make_dirs dirs fs !! inl f = fs !! inl f.
Proof.
  unfold make_dirs. revert fs. induction dirs as [|d dirs IH]; intros fs; [done|]. cbn [foldl].
  rewrite IH. by apply lookup_insert_ne.
Qed.

Lemma make_dirs_others dirs fs d : d ∉ dirs -> make_dirs dirs fs !! inr d = fs !! inr d.
Proof.
  unfold make_dirs. revert fs. induction dirs as [|d' dirs IH]; intros fs Hd; [done|]. cbn [foldl].
  apply not_elem_of_cons in Hd as [Hne Hd]. rewrite IH by done.
  apply lookup_insert_ne. congruence.
Qed.

Lemma partial_dirs_files dirs fs st f : st ∈ partial_dirs dirs fs -> st !! inl f = fs !! inl f.
Proof. intros (k&->&_)%list_elem_of_fmap. apply make_dirs_files. Qed.

Lemma partial_writes_file path rnd cursor n fs st :
  st ∈ partial_writes (temp_of path rnd) cursor n fs -> st !! file_of path = fs !! file_of path.
Proof. intros (k&->&_)%list_elem_of_fmap. apply lookup_insert_ne, temp_ne_file. Qed.

(** A clean-up touches the temporary file only. *)
Lemma clean_up_others o tmp v fs k :
  k <> tmp -> clean_up o tmp (<[tmp := v]> fs) !! k = fs !! k.
Proof.
  intros Hne. unfold clean_up. destruct (foRemove o);
    by rewrite ?lookup_delete_ne, lookup_insert_ne.
Qed.

(** What a write changes: on success the file of the cursor; on a failure no
    file but the temporary one, if it could not be removed; and directories. *)
Record written (o : fs_oracle) (path cursor : string) (e : option cursor_error)
    (fs fs' : dir_state) : Prop := {
  wr_file : fs' !! file_of path = match e with None => Some cursor | Some _ => fs !! file_of path end;
  wr_temp : forall rnd, foCreateTemp o = Some rnd -> fs !! temp_of path rnd = None ->
    fs' !! temp_of path rnd <> None -> e <> None /\ foRemove o = false;
  wr_files : forall f, inl f <> file_of path ->
    (forall rnd, foCreateTemp o = Some rnd -> inl f <> temp_of path rnd) ->
    fs' !! inl f = fs !! inl f;
  wr_dirs : forall d, d ∉ parents (path_Dir path) -> fs' !! inr d = fs !! inr d
}.

Lemma written_dirs o path cursor e n fs :
  written o path cursor (Some e) fs (make_dirs (take n (parents (path_Dir path))) fs).
Proof.
  split.
  - apply make_dirs_files.
  - intros rnd _ Hn. unfold temp_of. by rewrite make_dirs_files.
  - intros f _ _. apply make_dirs_files.
  - intros d Hd. apply make_dirs_others. intros (i&Hi%list_elem_of_lookup_2&_)%elem_of_take. done.
Qed.

Lemma written_failed o path cursor e rnd v fs :
  foCreateTemp o = Some rnd ->
  written o path cursor (Some e) fs
    (clean_up o (temp_of path rnd) (<[temp_of path rnd := v]>
      (make_dirs (parents (path_Dir path)) fs))).
Proof.
  intros Er. pose proof (temp_ne_file path rnd) as Ht. split.
  - rewrite clean_up_others by done. apply make_dirs_files.
  - intros rnd' E _. assert (rnd' = rnd) as -> by congruence. unfold clean_up.
    destruct (foRemove o); [by rewrite lookup_delete_eq|done].
  - intros f _ Hf. rewrite clean_up_others by eauto. apply make_dirs_files.
  - intros d Hd. rewrite clean_up_others by done. by apply make_dirs_others.
Qed.

Lemma written_done o path cursor rnd fs :
  foCreateTemp o = Some rnd ->
  written o path cursor None fs
    (<[file_of path := cursor]> (delete (temp_of path rnd) (<[temp_of path rnd := cursor]>
      (make_dirs (parents (path_Dir path)) fs)))).
Proof.
  intros Er. pose proof (temp_ne_file path rnd) as Ht. split.
  - apply lookup_insert_eq.
  - intros rnd' E _ Hn. assert (rnd' = rnd) as -> by congruence. destruct Hn.
    rewrite lookup_insert_ne by done. apply lookup_delete_eq.
  - intros f Hf Htf. specialize (Htf rnd Er).
    rewrite lookup_insert_ne, lookup_delete_ne, lookup_insert_ne by congruence.
    apply make_dirs_files.
  - intros d Hd. rewrite lookup_insert_ne, lookup_delete_ne, lookup_insert_ne by done.
    by apply make_dirs_others.
Qed.

Lemma writeCursor_written o path cursor fs :
  path <> "" ->
  let '(e, fs', mid) := writeCursor o path cursor fs in
  written o path cursor e fs fs' /\
  Forall (fun st => st !! file_of path = fs !! file_of path) mid.
Proof.
  intros Hne. unfold writeCursor. rewrite (proj2 (String.eqb_neq _ _) Hne).
  assert (forall dirs, Forall (fun st => st !! file_of path = fs !! file_of path)
    (partial_dirs dirs fs)) as Hdirs
    by (intros dirs; apply Forall_forall; intros st Hst; eapply partial_dirs_files, Hst).
  destruct (foMkdirAll o) as [n|]; [split; [apply written_dirs|apply Hdirs]|].
  destruct (foCreateTemp o) as [rnd|] eqn:Er.
  2:{ split; [|apply Hdirs].
      rewrite <- (firstn_all (parents (path_Dir path))). apply written_dirs. }
  assert (forall n, Forall (fun st => st !! file_of path = fs !! file_of path)
    (partial_dirs (parents (path_Dir path)) fs ++ partial_writes (temp_of path rnd) cursor n
      (<[temp_of path rnd := ""]> (make_dirs (parents (path_Dir path)) fs)))) as Hmid.
  { intros n. apply Forall_app_2; [apply Hdirs|]. apply Forall_forall.
    intros st ->%partial_writes_file. rewrite lookup_insert_ne by apply temp_ne_file.
    apply make_dirs_files. }
  destruct (foWriteString o); [split; [by apply written_failed|apply Hmid]|].
  destruct (foClose o); [|split; [by apply written_failed|apply Hmid]].
  destruct (foRename o); [|split; [by apply written_failed|apply Hmid]].
  split; [by apply written_done|apply Hmid].
Qed.

Lemma writeCursor_file o path cursor fs :
  let '(e, fs', mid) := writeCursor o path cursor fs in
  fs' !! file_of path
    = (match e with
       | None => if String.eqb path "" then fs !! file_of path else Some cursor
       | Some _ => fs !! file_of path
       end) /\
  Forall (fun st => st !! file_of path = fs !! file_of path) mid.
Proof.
  destruct (String.eqb_spec path "") as [->|Hne]; [done|].
  pose proof (writeCursor_written o path cursor fs Hne) as Hw.
  destruct (writeCursor o path cursor fs) as [[e fs'] mid]. destruct Hw as [Hw Hmid].
  split; [apply (wr_file _ _ _ _ _ _ Hw)|done].
Qed.

(** ** At-least-once delivery

    The server's log is a list of raw envelopes, and a cursor stands for a
    position in it. *)

Lemma emit_all_spec emit events done ok :
  emit_all emit events = (done, ok) ->
  (forall ev, ev ∈ done -> emit ev = true) /\
  done `prefix_of` events /\ (ok = true <-> done = events).
Proof.
  revert done ok. induction events as [|ev events IH]; intros done ok; simpl.
  { intros [= <- <-]. split_and!; [set_solver|done|done]. }
  destruct (emit ev) eqn:E.
  - destruct (emit_all emit events) as [d o]. intros [= <- <-].
    destruct (IH d o eq_refl) as (H1&H2&H3). split_and!.
    + intros x [->|Hx]%elem_of_cons; auto.
    + by apply prefix_cons.
    + rewrite H3. split; [by intros ->|by intros [= ->]].
  - intros [= <- <-]. split_and!; [set_solver|apply prefix_nil|done].
Qed.

Section at_least_once.
Context `{UrlLib, EventCodec} (p : PollClient) (log : list string) (pos : string -> nat).

Definition slice (a b : nat) : list string := take (b - a) (drop a log).

(** What the answer to a fetch must be: the events from the position of the
    cursor sent to that of the cursor returned, when one is returned. *)
Definition honest (env : tick_env) (cursor : string) : Prop :=
  forall next events,
    fetch (H1 := teHttp env) p cursor = Ok (next, events) -> next <> "" ->
    (pos cursor <= pos next)%nat /\
    events = omap (decoded_event ∘ event_Unmarshal) (slice (pos cursor) (pos next)).

(** The adapter, its disk and what the sink has accepted. *)
Record sys := MkSys {
  sysMem : option string;
  sysFs : dir_state;
  sysDelivered : list Event
}.

(** A process starts, ticks, stops, or crashes at some point of a tick: after
    some of the emissions, or while the cursor is being written.  A tick on which
    the decoder panics ends the process. *)
Inductive sys_step (s : sys) : sys -> Prop :=
| step_start readable :
    sysMem s = None ->
    sys_step s (MkSys (Some (readCursor readable (pcCursorPath p) (sysFs s))) (sysFs s)
                  (sysDelivered s))
| step_tick env c :
    sysMem s = Some c -> honest env c ->
    sys_step s
      (let '(st, new, panic) := poll_tick p env (MkPollState c (sysFs s)) in
       MkSys (match panic with None => Some (plCursor st) | Some _ => None end) (plFs st)
         (sysDelivered s ++ new))
| step_stop : sys_step s (MkSys None (sysFs s) (sysDelivered s))
| step_crash_emitting env c k :
    sysMem s = Some c ->
    sys_step s
      (MkSys None (sysFs s)
         (sysDelivered s ++ take k (poll_tick p env (MkPollState c (sysFs s))).1.2))
| step_crash_writing env c next events st :
    sysMem s = Some c -> honest env c ->
    fetch (H1 := teHttp env) p c = Ok (next, events) -> next <> "" ->
    emit_all (teEmit env) events = (events, true) ->
    st ∈ (writeCursor (teFs env) (pcCursorPath p) next (sysFs s)).1.2
         :: (writeCursor (teFs env) (pcCursorPath p) next (sysFs s)).2 ->
    sys_step s (MkSys None st (sysDelivered s ++ events)).

(** Every event before a position has been accepted. *)
Definition covered (n : nat) (delivered : list Event) : Prop :=
  forall i raw ev, (i < n)%nat -> log !! i = Some raw -> event_Unmarshal raw = Decoded ev ->
    ev ∈ delivered.

Definition disk_cursor (fs : dir_state) : string := default "" (fs !! file_of (pcCursorPath p)).

Record sys_inv (s : sys) : Prop := {
  inv_disk : covered (pos (disk_cursor (sysFs s))) (sysDelivered s);
  inv_mem : forall c, sysMem s = Some c -> covered (pos c) (sysDelivered s)
}.

Lemma covered_mono n d d' : covered n d -> (forall ev, ev ∈ d -> ev ∈ d') -> covered n d'.
Proof. intros Hc Hd i raw ev Hi Hl Hu. by apply Hd, (Hc i raw). Qed.

Lemma covered_app n d d' : covered n d -> covered n (d ++ d').
Proof. intros Hc. eapply covered_mono; [exact Hc|set_solver]. Qed.

(** Delivering a slice extends what is covered to its end. *)
Lemma covered_slice a b d :
  (a <= b)%nat -> covered a d -> covered b (d ++ omap (decoded_event ∘ event_Unmarshal) (slice a b)).
Proof.
  intros Hab Hc i raw ev Hi Hl Hu. apply elem_of_app.
  destruct (decide (i < a)%nat) as [Hia|Hia]; [left; by apply (Hc i raw)|right].
  apply list_elem_of_omap. exists raw. split; [|cbn; by rewrite Hu].
  apply list_elem_of_lookup. exists (i - a)%nat. unfold slice.
  rewrite lookup_take_lt by lia. rewrite lookup_drop. by replace (a + (i - a))%nat with i by lia.
Qed.

Lemma written_covered o next fs st delivered :
  covered (pos (disk_cursor fs)) delivered -> covered (pos next) delivered ->
  st ∈ (writeCursor o (pcCursorPath p) next fs).1.2
       :: (writeCursor o (pcCursorPath p) next fs).2 ->
  covered (pos (disk_cursor st)) delivered.
Proof.
  intros Hold Hnew Hst. pose proof (writeCursor_file o (pcCursorPath p) next fs) as Hw.
  destruct (writeCursor o (pcCursorPath p) next fs) as [[e fs'] mid]. cbn [fst snd] in *.
  destruct Hw as [Hfs' Hmid]. unfold disk_cursor in *.
  apply elem_of_cons in Hst as [->|Hst].
  - rewrite Hfs'. destruct e; [done|]. by destruct (String.eqb _ _).
  - rewrite Forall_forall in Hmid. by rewrite (Hmid st Hst).
Qed.

Lemma poll_tick_covered env c fs delivered :
  honest env c -> covered (pos c) delivered -> covered (pos (disk_cursor fs)) delivered ->
  let '(st, new, _) := poll_tick p env (MkPollState c fs) in
  covered (pos (plCursor st)) (delivered ++ new) /\
  covered (pos (disk_cursor (plFs st))) (delivered ++ new).
Proof.
  intros Hh Hc Hd. unfold poll_tick. cbn [plCursor plFs].
  destruct (fetch p c) as [[next events]|e] eqn:Ef.
  2:{ destruct e; rewrite app_nil_r; done. }
  destruct (emit_all (teEmit env) events) as [done ok] eqn:Ee.
  apply emit_all_spec in Ee as (_&_&Hok).
  destruct ok; cbn [negb].
  2:{ split; by apply covered_app. }
  assert (done = events) as -> by (by apply Hok).
  destruct (String.eqb_spec next "") as [_|Hne]; cbn [negb andb].
  { split; by apply covered_app. }
  destruct (String.eqb_spec next c) as [_|_]; cbn [negb].
  { split; by apply covered_app. }
  destruct (Hh next events Ef Hne) as [Hle ->].
  pose proof (written_covered (teFs env) next fs) as Hw.
  destruct (writeCursor _ _ _ _) as [[e fs'] mid]. cbn [fst snd plCursor plFs] in *.
  pose proof (covered_slice _ _ _ Hle Hc) as Hnew. split; [done|].
  apply Hw; [by apply covered_app|done|left].
Qed.

Lemma sys_step_inv s s' : sys_inv s -> pos "" = 0%nat -> sys_step s s' -> sys_inv s'.
Proof.
  intros [Hdisk Hmem] Hpos Hstep. destruct Hstep as [readable Hm|env c Hm Hh| |env c k Hm|env c next events st Hm Hh Hf Hne He Hst].
  - split; [done|]. cbn [sysMem sysDelivered]. intros c [= <-]. unfold readCursor.
    assert (covered (pos "") (sysDelivered s)) as Hnil by (rewrite Hpos; intros i raw ev Hi; lia).
    destruct (String.eqb _ _); [done|]. by destruct readable.
  - pose proof (poll_tick_covered env c (sysFs s) (sysDelivered s) Hh (Hmem c Hm) Hdisk) as Ht.
    destruct (poll_tick _ _ _) as [[st new] [raw|]]; destruct Ht as [H1 H2]; split; try done.
    cbn [sysMem sysDelivered]. by intros c' [= <-].
  - split; [done|]. done.
  - split; [by apply covered_app|]. done.
  - destruct (Hh next events Hf Hne) as [Hle ->].
    pose proof (covered_slice _ _ _ Hle (Hmem c Hm)) as Hnew.
    split; [|done]. cbn [sysFs sysDelivered].
    eapply written_covered; [by apply covered_app|exact Hnew|exact Hst].
Qed.
End at_least_once.

(** ** The query *)

Lemma add_filters_spec filters q k :
  value_of (add_filters filters q) k
  = if String.eqb k "filter" then value_of q "filter" ++ filters else value_of q k.
Proof.
  unfold add_filters. revert q. induction filters as [|f filters IH]; intros q; simpl.
  { destruct (String.eqb_spec k "filter") as [->|]; [by rewrite app_nil_r|done]. }
  rewrite IH. unfold values_Add, value_of.
  destruct (String.eqb_spec k "filter") as [E|Hne].
  - rewrite lookup_insert_eq. simpl. by rewrite <- app_assoc.
  - by rewrite lookup_insert_ne.
Qed.

Lemma add_filters_nonempty filters q : nonempty_values q -> nonempty_values (add_filters filters q).
Proof.
  unfold add_filters. revert q. induction filters as [|f filters IH]; intros q Hq; [done|].
  simpl. by apply IH, nonempty_Add.
Qed.

(** ** Theorems *)

(** C24. The cursor file is replaced atomically, through a temporary file of a name
    that is new: whatever system call of
    [writeCursor] fails, and wherever a crash interrupts it, the file holds the
    old cursor or the new one; it holds the new one, and reads back as it,
    exactly when the call reports success.  A reported failure leaves the cursor
    as it was.  No other file changes for good, but for the temporary one, which
    stays after a failure when it cannot be removed either, and the directories
    of the path, which stay once made. *)
Theorem cursor_write_atomic o path cursor fs :
  path <> "" -> fresh o path fs ->
  let '(e, fs', mid) := writeCursor o path cursor fs in
  Forall (fun st => st !! file_of path = fs !! file_of path) mid /\
  (e = None -> fs' !! file_of path = Some cursor /\ readCursor true path fs' = cursor) /\
  (e <> None -> fs' !! file_of path = fs !! file_of path) /\
  (forall f, inl f <> file_of path -> fs' !! inl f <> fs !! inl f ->
     e <> None /\ foRemove o = false /\
     exists rnd, foCreateTemp o = Some rnd /\ inl f = temp_of path rnd) /\
  (forall d, fs' !! inr d <> fs !! inr d -> d ∈ parents (path_Dir path)).
Proof.
  intros Hne Hfresh. pose proof (writeCursor_written o path cursor fs Hne) as Hw.
  destruct (writeCursor o path cursor fs) as [[e fs'] mid].
  destruct Hw as [[Hfile Htemp Hfiles Hdirs] Hmid]. split_and!; [done|..].
  - intros ->. split; [done|]. unfold readCursor.
    by rewrite (proj2 (String.eqb_neq _ _) Hne), Hfile.
  - intros He. rewrite Hfile. by destruct e.
  - intros f Hf Hch. destruct (foCreateTemp o) as [rnd|] eqn:Er.
    2:{ destruct Hch. apply Hfiles; [done|]. intros ? [=]. }
    destruct (decide (inl f = temp_of path rnd)) as [E|Hn].
    + destruct (Htemp rnd) as [? ?]; [done|by apply Hfresh|rewrite <- E|].
      { rewrite E in Hch. by rewrite (Hfresh rnd Er) in Hch; rewrite E. }
      split_and!; eauto.
    + destruct Hch. apply Hfiles; [done|]. by intros rnd' [= <-].
  - intros d Hd. destruct (decide (d ∈ parents (path_Dir path))); [done|]. by destruct Hd; apply Hdirs.
Qed.

(** C3. At-least-once delivery: from a first boot, over any sequence of
    sessions, ticks, failed fetches, refused events, failed or torn cursor
    writes, unreadable cursors and crashes, with a server that answers from
    its log, every decodable event before the position of the cursor on disk,
    and of the one in memory, has been accepted by the sink. *)
Theorem poll_at_least_once `{UrlLib, EventCodec} p log pos fs s :
  pos "" = 0%nat -> fs !! file_of (pcCursorPath p) = None ->
  rtc (sys_step p log pos) (MkSys None fs []) s ->
  covered log (pos (disk_cursor p (sysFs s))) (sysDelivered s) /\
  (forall c, sysMem s = Some c -> covered log (pos c) (sysDelivered s)).
Proof.
  intros Hpos Hfs Hrtc. enough (sys_inv p log pos s) as [? ?] by done.
  assert (sys_inv p log pos (MkSys None fs [])) as Hinit.
  { split; [|done]. cbn [sysFs]. unfold disk_cursor. rewrite Hfs. simpl. rewrite Hpos.
    intros i raw ev Hi. lia. }
  revert Hinit. induction Hrtc as [|s0 s1 s2 Hstep _ IH]; [done|].
  intros Hinv. apply IH. by eapply sys_step_inv.
Qed.

(** What a tick does to the cursor: when every event of the batch is
    accepted, a new cursor is taken over in memory and, if the write succeeds,
    on disk; as soon as one event is refused, the cursor and the disk stay,
    and nothing after the refused event is sent: an event the sink always
    refuses holds back every later one. *)
Theorem poll_tick_cursor `{UrlLib, EventCodec} p env c fs next events :
  fetch (H1 := teHttp env) p c = Ok (next, events) ->
  let '(st, done, panic) := poll_tick p env (MkPollState c fs) in
  panic = None /\
  (Forall (fun ev => teEmit env ev = true) events -> next <> "" -> next <> c ->
     done = events /\ plCursor st = next /\
     ((writeCursor (teFs env) (pcCursorPath p) next fs).1.1 = None -> pcCursorPath p <> "" ->
      plFs st !! file_of (pcCursorPath p) = Some next)) /\
  (forall before ev after, events = before ++ ev :: after ->
     Forall (fun e => teEmit env e = true) before -> teEmit env ev = false ->
     done = before /\ st = MkPollState c fs).
Proof.
  intros Hf. unfold poll_tick. cbn [plCursor plFs]. rewrite Hf.
  assert (forall before after, Forall (fun ev => teEmit env ev = true) before ->
    emit_all (teEmit env) (before ++ after) =
      let '(d, ok) := emit_all (teEmit env) after in (before ++ d, ok)) as Happ.
  { intros before after. induction 1 as [|ev before Hev _ IH]; simpl;
      [by destruct (emit_all _ after)|].
    rewrite Hev, IH. by destruct (emit_all _ after). }
  destruct (emit_all (teEmit env) events) as [done ok] eqn:Ee.
  assert (forall before ev after, events = before ++ ev :: after ->
    Forall (fun e => teEmit env e = true) before -> teEmit env ev = false ->
    done = before /\ ok = false) as Hbad.
  { intros before ev after -> Hb Hev. rewrite Happ in Ee by done. simpl in Ee.
    rewrite Hev in Ee. injection Ee as <- <-. by rewrite app_nil_r. }
  assert (Forall (fun ev => teEmit env ev = true) events -> done = events /\ ok = true) as Hgood.
  { intros Hall. rewrite <- (app_nil_r events), Happ in Ee by done. simpl in Ee.
    injection Ee as <- <-. by rewrite app_nil_r. }
  destruct ok; cbn [negb].
  2:{ split_and!; [done|by intros Hall; destruct (Hgood Hall)|].
      intros before ev after E Hb Hev. by destruct (Hbad before ev after E Hb Hev) as [-> _]. }
  assert (forall before ev after, events = before ++ ev :: after ->
    Forall (fun e => teEmit env e = true) before -> teEmit env ev = false -> False) as Hno.
  { intros before ev after E Hb Hev. by destruct (Hbad before ev after E Hb Hev). }
  pose proof (writeCursor_file (teFs env) (pcCursorPath p) next fs) as Hw.
  destruct (String.eqb_spec next "") as [->|Hne]; cbn [negb andb].
  { split_and!; [done..|]. intros ?????? . exfalso. eauto. }
  destruct (String.eqb_spec next c) as [->|Hnc]; cbn [negb].
  { split_and!; [done..|]. intros. exfalso. eauto. }
  destruct (writeCursor _ _ _ _) as [[e fs'] mid]. cbn [fst snd plCursor plFs] in *.
  split_and!; [done| |intros; exfalso; eauto].
  intros Hall _ _. destruct (Hgood Hall) as [-> _]. split_and!; try done.
  intros -> Hp. destruct Hw as [Hw _]. by rewrite (proj2 (String.eqb_neq _ _) Hp) in Hw.
Qed.

(** The poll request asks for what the configuration says: parsed back, its
    query has the parameters of the base URL, one filter parameter per glob in
    order, and the cursor as since when there is one. *)
Theorem poll_query_params filters cursor u :
  let q := ParseQuery (values_Encode (poll_query filters cursor u)) in
  (cursor <> "" -> value_of q "since" = [cursor]) /\
  (cursor = "" -> value_of q "since" = value_of (URL_Query u) "since") /\
  value_of q "filter" = value_of (URL_Query u) "filter" ++ filters /\
  (forall k, k <> "since" -> k <> "filter" -> value_of q k = value_of (URL_Query u) k).
Proof.
  cbv zeta. assert (nonempty_values (poll_query filters cursor u)) as Hne.
  { unfold poll_query. pose proof (add_filters_nonempty filters _ (nonempty_ParseQuery (uRawQuery u))).
    by case_match; [|apply nonempty_Set]. }
  rewrite ParseQuery_Encode by exact Hne. unfold poll_query.
  assert (forall k x (v : Values), value_of (values_Set k x v) k = [x]) as Hs1
    by (intros; unfold value_of, values_Set; by rewrite lookup_insert_eq).
  assert (forall k k' x (v : Values), k' <> k -> value_of (values_Set k x v) k' = value_of v k') as Hs2
    by (intros; unfold value_of, values_Set; by rewrite lookup_insert_ne).
  destruct (String.eqb_spec cursor "") as [->|Hc]; split_and!; try done.
  - intros _. by rewrite add_filters_spec.
  - by rewrite add_filters_spec.
  - intros k _ Hk. rewrite add_filters_spec. by rewrite (proj2 (String.eqb_neq _ _) Hk).
  - rewrite Hs2 by done. by rewrite add_filters_spec.
  - intros k Hk1 Hk2. rewrite Hs2 by done. rewrite add_filters_spec.
    by rewrite (proj2 (String.eqb_neq _ _) Hk2).
Qed.

(** ** Witnesses *)

(** A codec that reads the string attributes of a flat JSON object, and panics on a
    payload of one byte that is to be base 64, as the SDK's does. *)
Definition str_field (name : string) (kvs : list (string * json)) : string :=
  foldl (fun old kv => if String.eqb kv.1 name then default old (read_string old kv.2) else old)
    "" kvs.

Definition flat_codec : EventCodec := {|
  event_Unmarshal raw :=
    match decode_whole raw with
    | Ok (JObj kvs) =>
        if String.eqb (str_field "specversion" kvs) "1.0" then
          if existsb (fun kv => String.eqb kv.1 "data_base64" &&
               match kv.2 with JNum lit => (String.length lit =? 1)%nat | _ => false end) kvs
          then DecodePanics
          else Decoded (MkEvent "1.0" (str_field "id" kvs) (str_field "source" kvs)
                 (str_field "type" kvs) (MkTime (-62135596800) 0) "" "" ∅ None)
        else Malformed
    | _ => Malformed
    end
|}.

(** A JSON string literal and object, for examples. *)
Definition q (s : string) : string := quote +:+ s +:+ quote.
Definition envelope (id : string) : string :=
  "{" +:+ q "specversion" +:+ ":" +:+ q "1.0" +:+ "," +:+ q "id" +:+ ":" +:+ q id +:+ "}".

(** A valid JSON envelope on which the decoder panics. *)
Definition bad_envelope : string :=
  "{" +:+ q "specversion" +:+ ":" +:+ q "1.0" +:+ "," +:+ q "data_base64" +:+ ":1}".

Definition sample_log : list string := [envelope "e1"; "{}"; envelope "e2"].
Definition sample_pos (c : string) : nat := if String.eqb c "c3" then 3 else 0.

(** The page the server sends to a client without a cursor. *)
Definition sample_page : string :=
  "{" +:+ q "events" +:+ ":[" +:+ join ", " sample_log +:+ "]," +:+ q "next_cursor" +:+ ":" +:+
  q "c3" +:+ "}".

Definition page_server (page : string) : HttpClient := {| client_Do _ := Ok (MkResponse 200 page) |}.

Definition sample_poll : PollClient := NewPollClient sample_config.

Definition good_fs : fs_oracle := MkFsOracle None (Some "123") None true true true.

Definition sample_tick : tick_env := MkTickEnv (page_server sample_page) (fun _ => true) good_fs.

Definition decoded (id : string) : Event :=
  MkEvent "1.0" id "" "" (MkTime (-62135596800) 0) "" "" ∅ None.

Lemma sample_fetch c :
  fetch (H := plain_url_lib) (H0 := flat_codec) (H1 := page_server sample_page) sample_poll c
  = Ok ("c3", [decoded "e1"; decoded "e2"]).
Proof.
  assert (forall r : result string Request, is_ok r = true ->
    (req ← map_err FetchRequest r; resp ← map_err FetchTransport (Ok (MkResponse 200 sample_page));
     if negb (rsStatus resp =? 200)%Z then Err (FetchStatus (rsStatus resp) (read_limited 65536 (rsBody resp)))
     else match decode_payload (rsBody resp) with
          | None => Err FetchDecode
          | Some (raws, next) =>
              events ← map_err FetchPanics (decode_events (H0 := flat_codec) raws); Ok (next, events)
          end) = Ok ("c3", [decoded "e1"; decoded "e2"])) as Hr.
  { intros [req|]; [|done]. intros _. vm_compute. reflexivity. }
  apply Hr. unfold poll_request, api_request. reflexivity.
Qed.

(** The disk is full, and the temporary file cannot be removed. *)
Definition full_fs : fs_oracle := MkFsOracle None (Some "123") (Some 1%nat) true true false.

Lemma cursor_write_atomic_witness :
  let path := "/var/run/yipyap/cursor" in
  let fs : dir_state := {[ file_of path := "c1" ]} in
  let w := writeCursor good_fs path "c3" fs in
  let w' := writeCursor full_fs path "c3" fs in
  w.1.2 !! file_of path = Some "c3" /\ Forall (fun st => st !! file_of path = Some "c1") w.2 /\
  w'.1.2 !! file_of path = Some "c1" /\ w'.1.2 !! temp_of path "123" = Some "c".
Proof.
  cbv zeta.
  pose proof (cursor_write_atomic good_fs "/var/run/yipyap/cursor" "c3"
    {[ file_of "/var/run/yipyap/cursor" := "c1" ]} ltac:(discriminate)
    ltac:(intros rnd [= <-]; reflexivity)) as Hw.
  pose proof (cursor_write_atomic full_fs "/var/run/yipyap/cursor" "c3"
    {[ file_of "/var/run/yipyap/cursor" := "c1" ]} ltac:(discriminate)
    ltac:(intros rnd [= <-]; reflexivity)) as Hw'.
  destruct (writeCursor good_fs "/var/run/yipyap/cursor" "c3" _) as [[e fs'] mid] eqn:E.
  destruct (writeCursor full_fs "/var/run/yipyap/cursor" "c3" _) as [[e1 fs1] mid1] eqn:E1.
  destruct Hw as (Hmid&Hnew&_). destruct Hw' as (_&_&Hold&_).
  split; [|split; [exact Hmid|split]].
  - apply Hnew. change e with (e, fs', mid).1.1. rewrite <- E. reflexivity.
  - apply Hold. change e1 with (e1, fs1, mid1).1.1. rewrite <- E1. discriminate.
  - change fs1 with (e1, fs1, mid1).1.2. rewrite <- E1. vm_compute. reflexivity.
Defined.

Lemma poll_at_least_once_witness :
  exists s, rtc (sys_step (H := plain_url_lib) (H0 := flat_codec) sample_poll sample_log sample_pos)
              (MkSys None ∅ []) s /\
    sysMem s = Some "c3" /\
    covered (H0 := flat_codec) sample_log 3 (sysDelivered s).
Proof.
  assert (rtc (sys_step (H := plain_url_lib) (H0 := flat_codec) sample_poll sample_log sample_pos)
    (MkSys None ∅ [])
    (let '(st, new, panic) := poll_tick (H := plain_url_lib) (H0 := flat_codec) sample_poll
                                sample_tick (MkPollState "" ∅) in
     MkSys (match panic with None => Some (plCursor st) | Some _ => None end) (plFs st)
       ([] ++ new))) as Hrtc.
  { eapply rtc_l.
    - apply (step_start (H := plain_url_lib) (H0 := flat_codec) sample_poll sample_log sample_pos
        (MkSys None ∅ []) true eq_refl).
    - eapply rtc_l; [|apply rtc_refl].
      apply (step_tick (H := plain_url_lib) (H0 := flat_codec) sample_poll sample_log sample_pos
        (MkSys (Some "") ∅ []) sample_tick "" eq_refl).
      intros next events Hf _. cbn [teHttp sample_tick] in Hf. rewrite sample_fetch in Hf.
      injection Hf as <- <-. split; [vm_compute; lia|vm_compute; reflexivity]. }
  assert (exists fs, poll_tick (H := plain_url_lib) (H0 := flat_codec) sample_poll sample_tick
    (MkPollState "" ∅) = (MkPollState "c3" fs, [decoded "e1"; decoded "e2"], None)) as [fs E].
  { unfold poll_tick. cbn [plCursor plFs teHttp sample_tick]. rewrite sample_fetch. eexists. reflexivity. }
  rewrite E in Hrtc. eexists. split; [exact Hrtc|]. split; [reflexivity|].
  apply (proj2 (poll_at_least_once (H := plain_url_lib) (H0 := flat_codec) sample_poll sample_log
    sample_pos ∅ _ eq_refl (lookup_empty _) Hrtc) "c3" eq_refl).
Defined.

Lemma poll_tick_cursor_witness :
  (poll_tick (H := plain_url_lib) (H0 := flat_codec) sample_poll
     (MkTickEnv (page_server sample_page) (fun ev => negb (String.eqb (evID ev) "e2")) good_fs)
     (MkPollState "c0" ∅))
  = (MkPollState "c0" ∅, [decoded "e1"], None).
Proof.
  pose proof (poll_tick_cursor (H := plain_url_lib) (H0 := flat_codec) sample_poll
    (MkTickEnv (page_server sample_page) (fun ev => negb (String.eqb (evID ev) "e2")) good_fs)
    "c0" ∅ "c3" [decoded "e1"; decoded "e2"] (sample_fetch "c0")) as Ht.
  destruct (poll_tick _ _ _) as [[st done] panic].
  destruct Ht as (->&_&Ht). destruct (Ht [decoded "e1"] (decoded "e2") []) as [-> ->];
    [reflexivity|repeat constructor|reflexivity|reflexivity].
Defined.
