(* ===== verification/Stream.v ===== *)
(** * The stream client (cmd/receive-adapter/source/stream.go)

    One connection ([streamOnce]): the request, the lines [bufio.Scanner] finds
    in the response with its four-megabyte limit, and the decode-and-emit
    loop; and the reconnect loop ([run]) with its backoff.  A connection's
    body is the bytes received and how the reading ended. *)

From S2P Require Import Prelude GoStrings GoTime GoJson Types GoHttp Config Sink Poll.
Local Open Scope string_scope.
Local Open Scope list_scope.

(** ** Data *)

Record StreamClient := MkStreamClient {
  stBaseURL : string;
  stAPIKey : string;
  stFilters : list string
}.

Definition streamBackoffInitial : Z := 250 * Millisecond.
Definition streamBackoffCap : Z := 30 * Second.

Definition NewStreamClient (cfg : Config) : StreamClient :=
  MkStreamClient (cfgBaseURL cfg) (cfgAPIKey cfg) (cfgEventFilters cfg).

(** A long-lived response: status, bytes read, and the read error that ended
    it, [None] for the end of the stream. *)
Record StreamResponse := MkStreamResponse {
  srStatus : Z;
  srBody : string;
  srReadError : option string
}.

Class StreamServer := { stream_Do : Request -> result string StreamResponse }.

Inductive stream_error :=
| StreamRequest (msg : string)
| StreamTransport (msg : string)
| StreamStatus (code : Z) (body : string)
| StreamRead (msg : string)
| TokenTooLong
| StreamPanics (raw : string).  (* the decoder panicked on this line *)

(** ** Lines *)

(** The scanner's buffer. *)
Definition max_token : Z := 4 * 1024 * 1024.

Definition newline : ascii := ascii_of_nat 10.

(** [dropCR]. *)
Definition drop_cr (s : string) : string :=
  match String.rev s with
  | String c r => if (nat_of_ascii c =? 13)%nat then String.rev r else s
  | "" => ""
  end.

(** The tokens of the segments between newlines; a segment that fills the
    buffer ends the scan, and the last segment counts only when not empty. *)
Fixpoint scan_segments (segs : list string) : list string * bool :=
  match segs with
  | [] => ([], false)
  | seg :: segs =>
      if (max_token <=? Z.of_nat (String.length seg))%Z then ([], true)
      else match segs with
           | [] => ((if String.eqb seg "" then [] else [drop_cr seg]), false)
           | _ => let '(lines, too_long) := scan_segments segs in (drop_cr seg :: lines, too_long)
           end
  end.

Definition scan_lines (body : string) : list string * bool := scan_segments (split newline body).

(** ** One connection *)

Section stream.
Context `{UrlLib, EventCodec}.

Definition stream_query (filters : list string) (u : URL) : URL :=
  if (0 <? length filters)%nat
  then with_query (values_Encode (add_filters filters (URL_Query u))) u else u.

Definition stream_request (s : StreamClient) : result string Request :=
  api_request (stBaseURL s) "/api/v1/cloudevents/stream" (stAPIKey s)
    "application/cloudevents-batch+json" (stream_query (stFilters s)).

(** The loop over the lines: the events handed to [emit], with its verdict,
    [gotEvent], and the line on which the decoder panicked. *)
Fixpoint stream_loop (emit : Event -> bool) (lines : list string) (gotEvent : bool)
    : list (Event * bool) * bool * option string :=
  match lines with
  | [] => ([], gotEvent, None)
  | line :: lines =>
      if String.eqb (trim_space line) "" then stream_loop emit lines gotEvent
      else match event_Unmarshal line with
           | Malformed => stream_loop emit lines gotEvent
           | DecodePanics => ([], gotEvent, Some line)
           | Decoded ev =>
               let '(sent, got, panic) := stream_loop emit lines true in
               ((ev, emit ev) :: sent, got, panic)
           end
  end.

(** [gotEvent], the error, and what was emitted; on a panic, [gotEvent] as it was. *)
Definition streamOnce `{StreamServer} (s : StreamClient) (emit : Event -> bool)
    : bool * option stream_error * list (Event * bool) :=
  match stream_request s with
  | Err m => (false, Some (StreamRequest m), [])
  | Ok req =>
      match stream_Do req with
      | Err m => (false, Some (StreamTransport m), [])
      | Ok resp =>
          if negb (srStatus resp =? 200)%Z then
            (false, Some (StreamStatus (srStatus resp) (read_limited 65536 (srBody resp))), [])
          else
            let '(lines, too_long) := scan_lines (srBody resp) in
            let '(sent, got, panic) := stream_loop emit lines false in
            let err :=
              match panic with
              | Some raw => Some (StreamPanics raw)
              | None =>
                  if too_long then Some TokenTooLong
                  else match srReadError resp with Some m => Some (StreamRead m) | None => None end
              end in
            (got, err, sent)
      end
  end.

(** ** The reconnect loop *)

(** One turn of [run] after a connection: the wait, and the next backoff. *)
Definition next_backoff (backoff : Z) (gotEvent : bool) : Z * Z :=
  let backoff := if gotEvent then streamBackoffInitial else backoff in
  let doubled := (backoff * 2)%Z in
  (backoff, if (streamBackoffCap <? doubled)%Z then streamBackoffCap else doubled).

(** [run] until the context is cancelled or the decoder panics, one server per
    connection: the waits between connections, everything emitted, and the line
    of the panic. *)
Fixpoint run_from (s : StreamClient) (emit : Event -> bool) (backoff : Z)
    (servers : list StreamServer) : list Z * list (Event * bool) * option string :=
  match servers with
  | [] => ([], [], None)
  | srv :: servers =>
      let '(got, err, sent) := streamOnce (H1 := srv) s emit in
      match err with
      | Some (StreamPanics raw) => ([], sent, Some raw)
      | _ =>
          let '(wait, backoff) := next_backoff backoff got in
          let '(waits, rest, panic) := run_from s emit backoff servers in
          (wait :: waits, sent ++ rest, panic)
      end
  end.

Definition run (s : StreamClient) (emit : Event -> bool) (servers : list StreamServer)
    : list Z * list (Event * bool) * option string :=
  run_from s emit streamBackoffInitial servers.
End stream.

(** ** Lines: lemmas *)

(** A line a client gets back as it was sent. *)
Definition plain_line (l : string) : Prop :=
  string_contains newline l = false /\ drop_cr l = l /\ (Z.of_nat (String.length l) < max_token)%Z.

(** Each line followed by a newline. *)
Definition frame (eol : string) (lines : list string) : string :=
  foldr (fun l s => l +:+ eol +:+ s) "" lines.

Lemma drop_cr_crlf l : drop_cr (l +:+ bytes [13]) = l.
Proof. unfold drop_cr. rewrite rev_append_str. simpl. apply rev_rev_str. Qed.

Lemma scan_segments_cons seg segs :
  segs <> [] -> (Z.of_nat (String.length seg) < max_token)%Z ->
  scan_segments (seg :: segs) =
    (drop_cr seg :: (scan_segments segs).1, (scan_segments segs).2).
Proof.
  intros Hne Hlen. destruct segs as [|s segs]; [done|].
  cbn [scan_segments]. rewrite (proj2 (Z.leb_gt _ _) Hlen).
  set (r := if (max_token <=? Z.of_nat (String.length s))%Z then _ else _). by destruct r.
Qed.

Lemma scan_lines_cons l s :
  string_contains newline l = false -> (Z.of_nat (String.length l) < max_token)%Z ->
  scan_lines (l +:+ String newline s) = (drop_cr l :: (scan_lines s).1, (scan_lines s).2).
Proof.
  intros Hnl Hlen. unfold scan_lines. rewrite split_app_sep by done.
  apply scan_segments_cons; [apply split_not_nil|done].
Qed.

Lemma scan_lines_frame lines s :
  Forall plain_line lines ->
  scan_lines (frame (bytes [10]) lines +:+ s) = (lines ++ (scan_lines s).1, (scan_lines s).2).
Proof.
  induction 1 as [|l lines (Hnl&Hcr&Hlen) _ IH]; [apply surjective_pairing|].
  change (frame (bytes [10]) (l :: lines))
    with (l +:+ String newline (frame (bytes [10]) lines)).
  rewrite <- app_assoc_str. cbn [String.append]. rewrite scan_lines_cons by done.
  by rewrite IH, Hcr.
Qed.

Lemma split_prefix sep a s :
  string_contains sep a = false ->
  exists p segs, split sep (a +:+ s) = (a +:+ p) :: segs.
Proof.
  induction a as [|c a IH]; intros Hc.
  - destruct (split sep s) as [|p segs] eqn:E; [by destruct (split_not_nil sep s)|].
    exists p, segs. exact E.
  - simpl in Hc. apply orb_false_iff in Hc as [Hc Ha]. destruct (IH Ha) as (p&segs&E).
    exists p, segs.
    change (split sep (String c a +:+ s)) with
      (if Ascii.eqb c sep then "" :: split sep (a +:+ s)
       else match split sep (a +:+ s) with
            | [] => [String c ""] | p :: ps => String c p :: ps end).
    by rewrite Ascii.eqb_sym, Hc, E.
Qed.

Lemma scan_lines_long big s :
  string_contains newline big = false -> (max_token <= Z.of_nat (String.length big))%Z ->
  scan_lines (big +:+ s) = ([], true).
Proof.
  intros Hnl Hlen. unfold scan_lines. destruct (split_prefix newline big s Hnl) as (p&segs&->).
  cbn [scan_segments]. rewrite length_app_str.
  by rewrite (proj2 (Z.leb_le _ _)) by lia.
Qed.

Lemma scan_lines_last l :
  plain_line l -> l <> "" -> scan_lines l = ([l], false).
Proof.
  intros (Hnl&Hcr&Hlen) Hne. unfold scan_lines. rewrite split_whole by done.
  cbn [scan_segments]. rewrite (proj2 (Z.leb_gt _ _) Hlen), (proj2 (String.eqb_neq _ _) Hne).
  by rewrite Hcr.
Qed.

(** ** The loop and the backoff: lemmas *)

Section lemmas.
Context `{UrlLib, EventCodec}.

Definition blank (line : string) : bool := String.eqb (trim_space line) "".

(** The decoder gets the line, and panics. *)
Definition panics (line : string) : bool :=
  negb (blank line) && match event_Unmarshal line with DecodePanics => true | _ => false end.

(** The lines up to the first on which the decoder panics, and that one. *)
Fixpoint before_panic (lines : list string) : list string * option string :=
  match lines with
  | [] => ([], None)
  | line :: lines =>
      if panics line then ([], Some line)
      else let '(before, panic) := before_panic lines in (line :: before, panic)
  end.

Lemma before_panic_spec lines :
  let '(before, panic) := before_panic lines in
  Forall (fun l => panics l = false) before /\
  match panic with
  | None => before = lines
  | Some line => panics line = true /\ exists after, lines = before ++ line :: after
  end.
Proof.
  induction lines as [|line lines IH]; [by split|]. cbn [before_panic].
  destruct (panics line) eqn:E; [split; [constructor|eauto]|].
  destruct (before_panic lines) as [before [l|]].
  - destruct IH as (Hb&Hl&after&->). split; [by constructor|]. split; [done|]. by exists after.
  - destruct IH as (Hb&->). split; [by constructor|done].
Qed.

(** The events of a body: the lines that decode, in order. *)
Definition line_events (lines : list string) : list Event :=
  omap (decoded_event ∘ event_Unmarshal) (filter (fun l => blank l = false) lines).

Lemma stream_loop_spec emit lines got :
  stream_loop emit lines got =
    (map (fun ev => (ev, emit ev)) (line_events (before_panic lines).1),
     got || negb (bool_decide (line_events (before_panic lines).1 = [])), (before_panic lines).2).
Proof.
  revert got. induction lines as [|line lines IH]; intros got; [by rewrite orb_false_r|].
  unfold line_events, panics in *. cbn [stream_loop before_panic]. fold (blank line). unfold panics.
  destruct (blank line) eqn:E; cbn [negb andb].
  { rewrite IH. destruct (before_panic lines) as [before panic]. cbn [fst snd].
    by rewrite filter_cons_False by congruence. }
  destruct (event_Unmarshal line) as [ev| |] eqn:Eu.
  3:{ cbn [fst snd]. by rewrite orb_false_r. }
  all: rewrite IH; destruct (before_panic lines) as [before panic]; cbn [fst snd];
    rewrite filter_cons_True by done; cbn [omap list_omap compose]; rewrite Eu.
  2: done. simpl. by rewrite orb_true_r.
Qed.

(** The connections of [run], and whether each got an event. *)
Definition gots (s : StreamClient) (emit : Event -> bool) (servers : list StreamServer) : list bool :=
  map (fun srv => (streamOnce (H1 := srv) s emit).1.1) servers.

(** The connection ends in a panic of the decoder. *)
Definition connection_panic (s : StreamClient) (emit : Event -> bool) (srv : StreamServer)
    : option string :=
  match (streamOnce (H1 := srv) s emit).1.2 with Some (StreamPanics raw) => Some raw | _ => None end.

(** The connections before the first that does. *)
Fixpoint live (s : StreamClient) (emit : Event -> bool) (servers : list StreamServer)
    : list StreamServer :=
  match servers with
  | [] => []
  | srv :: servers => match connection_panic s emit srv with Some _ => [] | None => srv :: live s emit servers end
  end.

(** The wait after [k] connections without an event. *)
Definition backoff_after (k : nat) : Z :=
  Z.min streamBackoffCap (streamBackoffInitial * 2 ^ Z.of_nat k).

Lemma backoff_after_range k : (streamBackoffInitial <= backoff_after k <= streamBackoffCap)%Z.
Proof.
  unfold backoff_after. assert (1 <= 2 ^ Z.of_nat k)%Z by lia.
  assert (0 < streamBackoffInitial <= streamBackoffCap)%Z by (split; [reflexivity|done]). nia.
Qed.

Lemma next_backoff_after k :
  next_backoff (backoff_after k) false = (backoff_after k, backoff_after (S k)).
Proof.
  unfold next_backoff. f_equal. pose proof (backoff_after_range k) as Hr. revert Hr.
  unfold backoff_after. rewrite Nat2Z.inj_succ, Z.pow_succ_r by lia.
  assert (0 < streamBackoffInitial)%Z by reflexivity.
  destruct (Z.ltb_spec streamBackoffCap
    (Z.min streamBackoffCap (streamBackoffInitial * 2 ^ Z.of_nat k) * 2)); lia.
Qed.

Lemma run_from_cons s emit k srv servers :
  let once := streamOnce (H1 := srv) s emit in
  let k' := if once.1.1 then 0%nat else k in
  run_from s emit (backoff_after k) (srv :: servers) =
    match connection_panic s emit srv with
    | Some raw => ([], once.2, Some raw)
    | None =>
        let '(waits, rest, panic) := run_from s emit (backoff_after (S k')) servers in
        (backoff_after k' :: waits, once.2 ++ rest, panic)
    end.
Proof.
  cbv zeta. unfold connection_panic. cbn [run_from].
  destruct (streamOnce s emit) as [[got err] sent]. cbn [fst snd].
  assert (next_backoff (backoff_after k) got =
    (backoff_after (if got then 0 else k), backoff_after (S (if got then 0 else k)))) as ->.
  { destruct got; [|apply next_backoff_after]. apply (next_backoff_after 0). }
  by destruct err as [[]|].
Qed.

(** How many connections, up to each one, have passed without an event. *)
Fixpoint dry_runs (k : nat) (got : list bool) : list nat :=
  match got with
  | [] => []
  | g :: got => let k' := if g then 0%nat else k in k' :: dry_runs (S k') got
  end.

Lemma run_from_waits s emit k servers :
  let '(waits, _, panic) := run_from s emit (backoff_after k) servers in
  waits = map backoff_after (dry_runs k (gots s emit (live s emit servers))) /\
  match panic with
  | None => live s emit servers = servers
  | Some raw => exists srv after, servers = live s emit servers ++ srv :: after /\
      connection_panic s emit srv = Some raw
  end.
Proof.
  revert k. induction servers as [|srv servers IH]; intros k; [done|].
  rewrite run_from_cons. cbn [live]. destruct (connection_panic s emit srv) as [raw|] eqn:E.
  { split; [done|]. by exists srv, servers. }
  specialize (IH (S (if (streamOnce (H1 := srv) s emit).1.1 then 0%nat else k))).
  destruct (run_from s emit _ servers) as [[waits rest] panic]. destruct IH as [-> Hp].
  split; [done|]. destruct panic as [raw|]; [|by rewrite Hp].
  destruct Hp as (srv'&after&Hp&?). exists srv', after. split; [|done].
  cbn [app]. f_equal. exact Hp.
Qed.

Lemma dry_runs_dry got m i :
  (forall j, (j <= i)%nat -> got !! j = Some false) -> dry_runs m got !! i = Some (m + i)%nat.
Proof.
  revert m i. induction got as [|g got IH]; intros m i Hno; [by specialize (Hno 0%nat ltac:(lia))|].
  assert (g = false) as -> by (specialize (Hno 0%nat ltac:(lia)); by injection Hno).
  destruct i as [|i]; simpl; [f_equal; lia|].
  change (dry_runs (S m) got !! i = Some (m + S i)%nat).
  rewrite IH; [f_equal; lia|]. intros j Hj. apply (Hno (S j)). lia.
Qed.

Lemma dry_runs_after got m j k :
  got !! j = Some true ->
  (forall l, (j < l <= j + k)%nat -> got !! l = Some false) ->
  dry_runs m got !! (j + k)%nat = Some k.
Proof.
  revert m j. induction got as [|g got IH]; intros m j Hj Hno; [done|].
  destruct j as [|j].
  - injection Hj as ->. destruct k as [|k]; [done|].
    change (dry_runs 1 got !! k = Some (S k)). rewrite dry_runs_dry; [done|].
    intros l Hl. apply (Hno (S l)). lia.
  - change (dry_runs (S (if g then 0 else m)%nat) got !! (j + k)%nat = Some k).
    apply IH; [done|]. intros l Hl. apply (Hno (S l)). lia.
Qed.

Lemma dry_runs_lookup got j k :
  (j = 0%nat \/ got !! j = Some true) -> (j + k < length got)%nat ->
  (forall l, (j < l <= j + k)%nat -> got !! l = Some false) ->
  dry_runs 0 got !! (j + k)%nat = Some k.
Proof.
  intros Hj Hlt Hno. destruct (lookup_lt_is_Some_2 got j) as [[] E]; [lia|by apply dry_runs_after|].
  destruct Hj as [->|Hj]; [|congruence].
  rewrite dry_runs_dry; [done|]. intros l Hl. destruct l; [done|]. apply Hno. lia.
Qed.

Lemma length_dry_runs m got : length (dry_runs m got) = length got.
Proof. revert m. induction got as [|g got IH]; intros m; simpl; [done|by rewrite IH]. Qed.

Lemma gots_live s emit servers i :
  (i < length (live s emit servers))%nat ->
  gots s emit (live s emit servers) !! i = gots s emit servers !! i.
Proof.
  revert i. induction servers as [|srv servers IH]; intros i; [done|]. cbn [live].
  destruct (connection_panic s emit srv); simpl; [lia|]. destruct i as [|i]; intros Hi; [done|].
  apply IH. lia.
Qed.

(** What a connection, and [run], send carries the verdicts of [emit]. *)
Lemma streamOnce_sent `{StreamServer} s emit :
  Forall (fun ev => ev.2 = emit ev.1) (streamOnce s emit).2.
Proof.
  unfold streamOnce. destruct (stream_request s) as [req|]; [|constructor].
  destruct (stream_Do req) as [resp|]; [|constructor]. destruct (negb _); [constructor|].
  destruct (scan_lines _) as [lines too_long]. rewrite stream_loop_spec. cbn [snd].
  apply Forall_forall. by intros ev (ev'&->&_)%list_elem_of_fmap.
Qed.

Lemma run_sent s emit servers : Forall (fun ev => ev.2 = emit ev.1) (run s emit servers).1.2.
Proof.
  unfold run. change streamBackoffInitial with (backoff_after 0). generalize 0%nat.
  induction servers as [|srv servers IH]; intros k; [constructor|].
  rewrite run_from_cons. pose proof (streamOnce_sent (H1 := srv) s emit) as Hs.
  destruct (connection_panic s emit srv); [done|].
  specialize (IH (S (if (streamOnce (H1 := srv) s emit).1.1 then 0%nat else k))).
  destruct (run_from s emit _ servers) as [[waits rest] panic]. by apply Forall_app_2.
Qed.

(** A panic is of the decoder, on a line of a 200 answer. *)
Lemma streamOnce_panics `{StreamServer} s emit raw :
  (streamOnce s emit).1.2 = Some (StreamPanics raw) ->
  event_Unmarshal raw = DecodePanics /\
  exists req resp, stream_request s = Ok req /\ stream_Do req = Ok resp /\
    raw ∈ (scan_lines (srBody resp)).1.
Proof.
  unfold streamOnce. destruct (stream_request s) as [req|]; [|done].
  destruct (stream_Do req) as [resp|] eqn:Ed; [|done]. destruct (negb _); [done|].
  destruct (scan_lines _) as [lines too_long] eqn:El. rewrite stream_loop_spec. cbn [fst snd].
  pose proof (before_panic_spec lines) as Hb.
  destruct (before_panic lines) as [before [line|]]; cbn [fst snd].
  2:{ destruct too_long; [done|]. by destruct (srReadError resp). }
  intros [= <-]. destruct Hb as (_&Hp&after&->). unfold panics in Hp. split.
  - apply andb_prop in Hp as [_ Hp]. by destruct (event_Unmarshal line).
  - exists req, resp. rewrite El. split_and!; [done..|]. apply elem_of_app. right. left.
Qed.

(** [run] panics when a connection does, after those that do not. *)
Lemma run_panics s emit servers raw :
  (run s emit servers).2 = Some raw ->
  exists srv, srv ∈ servers /\ connection_panic s emit srv = Some raw.
Proof.
  unfold run. change streamBackoffInitial with (backoff_after 0).
  pose proof (run_from_waits s emit 0 servers) as Hw.
  destruct (run_from s emit (backoff_after 0) servers) as [[waits rest] panic]. cbn [snd].
  intros ->. destruct Hw as (_&srv&after&E&Hp). exists srv. split; [|done]. rewrite E.
  apply elem_of_app. right. left.
Qed.

Lemma run_backoff s emit servers :
  run_from s emit streamBackoffInitial servers = run_from s emit (backoff_after 0) servers.
Proof. done. Qed.
End lemmas.

(** ** Theorems *)

(** C35. The reconnect backoff: one wait follows each connection, up to the
    first on which the decoder panics; after the [k]-th connection in a row without
    an event, counted from the start or from the last connection that had one, it is
    250 ms doubled [k] times and at most 30 s; every wait is within these bounds. *)
Theorem stream_backoff `{UrlLib, EventCodec} s emit servers :
  let '(waits, _, panic) := run s emit servers in
  let got := gots s emit servers in
  match panic with
  | None => length waits = length servers
  | Some raw => exists srv, servers !! length waits = Some srv /\
      (streamOnce (H1 := srv) s emit).1.2 = Some (StreamPanics raw)
  end /\
  Forall (fun w => streamBackoffInitial <= w <= streamBackoffCap)%Z waits /\
  (forall j k, (j = 0%nat \/ got !! j = Some true) -> (j + k < length waits)%nat ->
     (forall l, (j < l <= j + k)%nat -> got !! l = Some false) ->
     waits !! (j + k)%nat
       = Some (Z.min streamBackoffCap (streamBackoffInitial * 2 ^ Z.of_nat k))).
Proof.
  unfold run. rewrite run_backoff. pose proof (run_from_waits s emit 0 servers) as Hw.
  destruct (run_from s emit (backoff_after 0) servers) as [[waits rest] panic].
  destruct Hw as [-> Hlive].
  assert (length (map backoff_after (dry_runs 0 (gots s emit (live s emit servers))))
    = length (live s emit servers)) as Hlen.
  { rewrite length_map, length_dry_runs. apply length_map. }
  cbv zeta. rewrite Hlen. split_and!.
  - destruct panic as [raw|]; [|by rewrite Hlive]. destruct Hlive as (srv&after&E&Hp).
    pose proof (list_lookup_middle (live s emit servers) after srv _ eq_refl) as Hl.
    rewrite <- E in Hl. exists srv. split; [done|].
    revert Hp. unfold connection_panic. destruct ((streamOnce s emit).1.2) as [[]|]; congruence.
  - apply Forall_forall. intros w (k&->&_)%list_elem_of_fmap. apply backoff_after_range.
  - intros j k Hj Hlt Hno. rewrite list_lookup_fmap.
    rewrite (dry_runs_lookup _ j k); [done|..].
    + destruct Hj as [->|Hj]; [by left|right]. by rewrite gots_live by lia.
    + unfold gots. by rewrite length_map.
    + intros l Hl. rewrite gots_live by lia. by apply Hno.
Qed.

(** C39. A connection hands each event over once: on a 200 answer the events are
    the lines that are not blank and that decode, in the order received, each
    with the verdict of [emit], up to the first line on which the decoder panics;
    a refused event is dropped, and the rest of the stream does not depend on it;
    the connection counts as healthy exactly when a line decoded, even if every
    event was refused; and it ends in a panic exactly when there is such a line. *)
Theorem stream_delivers_in_order `{UrlLib, EventCodec, StreamServer} s emit req resp :
  stream_request s = Ok req -> stream_Do req = Ok resp -> srStatus resp = 200%Z ->
  let '(lines, panic) := before_panic (scan_lines (srBody resp)).1 in
  let '(got, err, sent) := streamOnce s emit in
  sent = map (fun ev => (ev, emit ev)) (line_events lines) /\
  (got = true <-> line_events lines <> []) /\
  (forall raw, err = Some (StreamPanics raw) <-> panic = Some raw) /\
  (err = None <-> panic = None /\ srReadError resp = None /\ (scan_lines (srBody resp)).2 = false).
Proof.
  intros Hreq Hdo Hst. unfold streamOnce. rewrite Hreq, Hdo, Hst.
  change (negb (200 =? 200)%Z) with false. cbn match.
  destruct (scan_lines (srBody resp)) as [lines too_long]. rewrite stream_loop_spec. cbn [fst snd].
  destruct (before_panic lines) as [before panic]. cbn [fst snd]. split_and!; [done| |..].
  - rewrite orb_false_l, negb_true_iff, bool_decide_eq_false. done.
  - intros raw. destruct panic as [raw'|]; [split; [by intros [= ->]|by intros [= ->]]|].
    destruct too_long; [done|]. by destruct (srReadError resp).
  - destruct panic; [by split; [|intros [? _]]|].
    destruct too_long; [by split; [|intros (_&_&?)]|].
    destruct (srReadError resp); [by split; [|intros (_&?&_)]|done].
Qed.

(** Framing: lines shorter than the limit, without a newline or a final
    carriage return, come back as they were sent, whether each ends with a
    newline or with a carriage return and a newline, and with or without an
    end to the last one; a line of four megabytes or more ends the connection
    with the lines before it, whatever follows. *)
Theorem stream_framing lines :
  Forall plain_line lines ->
  scan_lines (frame (bytes [10]) lines) = (lines, false) /\
  (forall last, plain_line last -> last <> "" ->
     scan_lines (frame (bytes [10]) lines +:+ last) = (lines ++ [last], false)) /\
  (Forall (fun l => Z.of_nat (String.length l) + 1 < max_token)%Z lines ->
     scan_lines (frame (bytes [13; 10]) lines) = (lines, false)) /\
  (forall big rest, string_contains newline big = false ->
     (max_token <= Z.of_nat (String.length big))%Z ->
     scan_lines (frame (bytes [10]) lines +:+ (big +:+ rest)) = (lines, true)).
Proof.
  intros Hl. split_and!.
  - rewrite <- (app_nil_r_str (frame _ _)), scan_lines_frame by done. by rewrite app_nil_r.
  - intros last Hlast Hne. rewrite scan_lines_frame by done. by rewrite scan_lines_last.
  - intros Hshort. induction Hl as [|l lines (Hnl&Hcr&Hlen) _ IH]; [done|].
    apply Forall_cons in Hshort as [Hs Hshort].
    change (frame (bytes [13; 10]) (l :: lines))
      with (l +:+ (bytes [13] +:+ String newline (frame (bytes [13; 10]) lines))).
    rewrite app_assoc_str, scan_lines_cons.
    + by rewrite IH, drop_cr_crlf.
    + by rewrite string_contains_app, Hnl.
    + rewrite length_app_str. simpl. lia.
  - intros big rest Hnl Hbig. rewrite scan_lines_frame by done.
    by rewrite scan_lines_long, app_nil_r.
Qed.

(** The stream request asks for what the configuration says: its query has
    the parameters of the base URL and, after those, one filter parameter per
    glob, in order. *)
Theorem stream_query_params filters u :
  let q := URL_Query (stream_query filters u) in
  value_of q "filter" = value_of (URL_Query u) "filter" ++ filters /\
  (forall k, k <> "filter" -> value_of q k = value_of (URL_Query u) k).
Proof.
  cbv zeta. assert (forall k, value_of (URL_Query (stream_query filters u)) k
    = value_of (add_filters filters (URL_Query u)) k) as Hq.
  { intros k. unfold stream_query. destruct filters as [|f filters]; [done|].
    change (URL_Query (if (0 <? length (f :: filters))%nat then ?a else ?b)) with (URL_Query a).
    change (URL_Query (with_query ?e u)) with (ParseQuery e).
    rewrite ParseQuery_Encode; [done|]. apply add_filters_nonempty, nonempty_ParseQuery. }
  split; [|intros k Hk]; rewrite Hq, add_filters_spec; [done|].
  by rewrite (proj2 (String.eqb_neq _ _) Hk).
Qed.

(** ** Witnesses *)

(** A server whose connection carries the bytes given. *)
Definition body_server (body : string) : StreamServer :=
  {| stream_Do _ := Ok (MkStreamResponse 200 body None) |}.
Definition down_server : StreamServer := {| stream_Do _ := Err "connection refused" |}.

Definition sample_stream : StreamClient := NewStreamClient sample_config.
Definition sample_body : string := frame (bytes [10]) [envelope "e1"; ""; "{}"; envelope "e2"].

Lemma stream_backoff_witness :
  (run (H := plain_url_lib) (H0 := flat_codec) sample_stream (fun _ => false)
    [down_server; body_server sample_body; down_server; down_server]).1.1 !! 3%nat
  = Some (1 * Second)%Z.
Proof.
  pose proof (stream_backoff (H := plain_url_lib) (H0 := flat_codec) sample_stream (fun _ => false)
    [down_server; body_server sample_body; down_server; down_server]) as Hw.
  destruct (run _ _ _) as [[waits rest] panic] eqn:E.
  assert (length waits = 4)%nat as Hlen
    by (change waits with (waits, rest, panic).1.1; rewrite <- E; vm_compute; reflexivity).
  destruct Hw as (_&_&Hw).
  apply (Hw 1%nat 2%nat); [right; vm_compute; reflexivity|rewrite Hlen; lia|].
  intros l Hl. assert (l = 2 \/ l = 3)%nat as [->| ->] by lia; vm_compute; reflexivity.
Defined.

(** A line on which the decoder panics ends the connection: what follows it is lost. *)
Definition bad_body : string :=
  frame (bytes [10]) [envelope "e1"; bad_envelope; envelope "e2"].

Lemma stream_delivers_in_order_witness :
  let run_body body := streamOnce (H := plain_url_lib) (H0 := flat_codec) (H1 := body_server body)
     sample_stream (fun ev => String.eqb (evID ev) "e2") in
  (run_body sample_body).2 = [(decoded "e1", false); (decoded "e2", true)] /\
  (run_body bad_body).1.2 = Some (StreamPanics bad_envelope).
Proof.
  cbv zeta.
  assert (exists req, stream_request (H := plain_url_lib) sample_stream = Ok req) as [req Hreq]
    by (eexists; vm_compute; reflexivity).
  split.
  - pose proof (stream_delivers_in_order (H := plain_url_lib) (H0 := flat_codec)
      (H1 := body_server sample_body) sample_stream (fun ev => String.eqb (evID ev) "e2") req
      (MkStreamResponse 200 sample_body None) Hreq eq_refl eq_refl) as Hd.
    destruct (before_panic _) as [lines panic] eqn:El.
    destruct (streamOnce _ _) as [[got err] sent]. destruct Hd as (->&_). cbn [snd].
    change lines with (lines, panic).1. rewrite <- El. vm_compute. reflexivity.
  - pose proof (stream_delivers_in_order (H := plain_url_lib) (H0 := flat_codec)
      (H1 := body_server bad_body) sample_stream (fun ev => String.eqb (evID ev) "e2") req
      (MkStreamResponse 200 bad_body None) Hreq eq_refl eq_refl) as Hd.
    destruct (before_panic _) as [lines panic] eqn:El.
    destruct (streamOnce _ _) as [[got err] sent]. destruct Hd as (_&_&Hp&_). cbn [fst snd].
    apply Hp. change panic with (lines, panic).2. rewrite <- El. vm_compute. reflexivity.
Defined.

Lemma stream_framing_witness :
  scan_lines (frame (bytes [13; 10]) ["{}"; "x"]) = (["{}"; "x"], false) /\
  scan_lines (frame (bytes [10]) ["{}"; "x"] +:+ "y") = (["{}"; "x"; "y"], false).
Proof.
  destruct (stream_framing ["{}"; "x"]) as (_&Hlast&Hcr&_).
  { repeat constructor. }
  split; [apply Hcr|apply (Hlast "y"); [|discriminate]]; repeat constructor.
Defined.
