(* ===== verification/Run.v ===== *)
(** * The adapter's loop (cmd/receive-adapter/source/run.go)

    [Run] resolves the mode, runs a poll or a stream session for the refresh
    window, and starts again.  What an iteration meets is in its environment
    ([iteration_env]); the state that outlives a session is the directory of
    the cursor file, and the model adds the events the sink accepted and the
    time that has passed, sessions that a panic cut short not counted.
    [time.NewTicker] panics on an interval that is not positive, and the SDK's
    decoder on some envelopes; [Run] ends there, with what it has done.

    A ticker's first tick comes one interval after the session's start, so a
    window has room for the ticks strictly before its end. *)

From S2P Require Import Prelude GoStrings GoTime GoJson Types GoHttp Config Mode Sink Poll Stream.
Local Open Scope string_scope.
Local Open Scope list_scope.

(** ** Data *)

Definition MinRefreshAfter : Z := 1 * Minute.
Definition ResolveErrBackoff : Z := 30 * Second.

(** What one iteration does. *)
Inductive run_action :=
| WaitAfterError (d : Z)
| PollSession (client : PollClient) (refresh : Z)
| StreamSession (client : StreamClient) (refresh : Z)
| UnknownMode (mode : string).

(** What one tick meets: the yipyap server, the sink, the file system. *)
Record tick_world := MkTickWorld {
  twHttp : HttpClient;
  twSink : HttpClient;
  twFs : fs_oracle
}.

Record iteration_env := MkIterationEnv {
  ieReadFile : string -> option string;
  ieHttp : HttpClient;
  ieCursorReadable : bool;
  ieTicks : list tick_world;
  ieConnections : list StreamServer;
  ieSink : HttpClient
}.

Record run_state := MkRunState {
  rnFs : dir_state;
  rnDelivered : list Event;
  rnElapsed : Z
}.

Inductive run_panic :=
| NonPositiveTicker (interval : Z)
| DecodePanicked (raw : string).

(** ** Operations *)

(** [client.interval = ...]. *)
Definition set_interval (d : Z) (p : PollClient) : PollClient :=
  MkPollClient (pcBaseURL p) (pcAPIKey p) (pcFilters p) d (pcCursorPath p).

(** The refresh window, with its floor. *)
Definition refresh_window (requested : Z) : Z :=
  if (requested <? MinRefreshAfter)%Z then MinRefreshAfter else requested.

(** The ticks strictly before the end of a window. *)
Definition session_ticks (refresh interval : Z) : nat := Z.to_nat ((refresh - 1) / interval).

Section run.
Context `{UrlLib, EventCodec}.

(** [emit]: deliver to the sink. *)
Definition sink_emit (cfg : Config) (sink : HttpClient) (ev : Event) : bool :=
  is_ok (Send (H0 := sink) (NewSinkClient cfg) ev).1.

(** From the resolution to the transport. *)
Definition choose_session (cfg : Config) (res : ModeResolution) : run_action :=
  let refresh := refresh_window (mrRefreshAfter res) in
  if String.eqb (mrMode res) "poll" then
    PollSession (set_interval (mrPollInterval res) (NewPollClient cfg)) refresh
  else if String.eqb (mrMode res) "stream" then StreamSession (NewStreamClient cfg) refresh
  else UnknownMode (mrMode res).

Definition run_action_of (cfg : Config) (env : iteration_env) : run_action :=
  match ResolveMode (H0 := ieHttp env) (ieReadFile env) cfg with
  | Err _ => WaitAfterError ResolveErrBackoff
  | Ok res => choose_session cfg res
  end.

(** A tick's environment, with [emit] as its callback. *)
Definition tick_env_of (cfg : Config) (t : tick_world) : tick_env :=
  MkTickEnv (twHttp t) (sink_emit cfg (twSink t)) (twFs t).

(** The end of a session, in order or in a panic of the decoder. *)
Definition end_session (st : run_state) (fs : dir_state) (new : list Event) (refresh : Z)
    (panic : option string) : run_state * option run_panic :=
  let delivered := rnDelivered st ++ new in
  match panic with
  | None => (MkRunState fs delivered (rnElapsed st + refresh), None)
  | Some raw => (MkRunState fs delivered (rnElapsed st), Some (DecodePanicked raw))
  end.

(** The ticks of a poll session of an iteration. *)
Definition iteration_ticks (env : iteration_env) (client : PollClient) (refresh : Z)
    : list tick_world :=
  take (session_ticks refresh (pcInterval client)) (ieTicks env).

(** One iteration of the loop.  A session lasts its window: neither client
    returns before its context is done. *)
Definition run_iteration (cfg : Config) (env : iteration_env) (st : run_state)
    : run_state * option run_panic :=
  match run_action_of cfg env with
  | WaitAfterError d => (MkRunState (rnFs st) (rnDelivered st) (rnElapsed st + d), None)
  | PollSession client refresh =>
      if (pcInterval client <=? 0)%Z then (st, Some (NonPositiveTicker (pcInterval client)))
      else
        let '(s, new, panic) := poll_run client (ieCursorReadable env) (rnFs st)
          (map (tick_env_of cfg) (iteration_ticks env client refresh)) in
        end_session st (plFs s) new refresh panic
  | StreamSession client refresh =>
      let '(_, sent, panic) :=
        Stream.run client (sink_emit cfg (ieSink env)) (ieConnections env) in
      end_session st (rnFs st) (map fst (filter (fun ev => ev.2 = true) sent)) refresh panic
  | UnknownMode _ => (st, None)
  end.

(** [Run] until its context is done or it panics, one environment per iteration. *)
Fixpoint Run (cfg : Config) (envs : list iteration_env) (st : run_state)
    : run_state * option run_panic :=
  match envs with
  | [] => (st, None)
  | env :: envs =>
      match run_iteration cfg env st with
      | (st, Some panic) => (st, Some panic)
      | (st, None) => Run cfg envs st
      end
  end.
End run.

(** ** Lemmas *)

Lemma refresh_window_floor d : (MinRefreshAfter <= refresh_window d)%Z.
Proof. unfold refresh_window. destruct (Z.ltb_spec d MinRefreshAfter); lia. Qed.

Lemma session_ticks_spec refresh interval n :
  (0 < interval)%Z -> (0 < refresh)%Z ->
  ((n <= session_ticks refresh interval)%nat <-> n = 0%nat \/ (Z.of_nat n * interval < refresh)%Z).
Proof.
  intros Hi Hr. unfold session_ticks.
  assert (0 <= (refresh - 1) / interval)%Z by (apply Z.div_pos; lia).
  assert (Z.of_nat n <= (refresh - 1) / interval <-> Z.of_nat n * interval < refresh)%Z as Hd.
  { split.
    - intros Hn. pose proof (Z.mul_div_le (refresh - 1) interval Hi). nia.
    - intros Hn. apply Z.div_le_lower_bound; lia. }
  lia.
Qed.

Section lemmas.
Context `{UrlLib, EventCodec}.

Lemma run_action_cases cfg env :
  match run_action_of cfg env with
  | WaitAfterError d => d = ResolveErrBackoff
  | PollSession client refresh =>
      exists res, ResolveMode (H0 := ieHttp env) (ieReadFile env) cfg = Ok res /\
        mrMode res = "poll" /\ refresh = refresh_window (mrRefreshAfter res) /\
        client = set_interval (mrPollInterval res) (NewPollClient cfg)
  | StreamSession client refresh =>
      exists res, ResolveMode (H0 := ieHttp env) (ieReadFile env) cfg = Ok res /\
        mrMode res = "stream" /\ refresh = refresh_window (mrRefreshAfter res) /\
        client = NewStreamClient cfg
  | UnknownMode _ => False
  end.
Proof.
  unfold run_action_of, choose_session.
  destruct (ResolveMode _ cfg) as [res|e] eqn:E; [|done].
  assert (mrMode res = "poll" \/ mrMode res = "stream") as Hm.
  { eapply (first_opinion_poll_or_stream (H0 := ieHttp env)).
    eapply (ResolveMode_opinion (H0 := ieHttp env)). exact E. }
  destruct Hm as [Hm|Hm]; rewrite Hm; simpl; eauto.
Qed.

(** A mode of poll decides alone. *)
Lemma poll_mode_action cfg env :
  cfgMode cfg = "poll" ->
  run_action_of cfg env
  = PollSession (set_interval (cfgPollInterval cfg) (NewPollClient cfg)) defaultRefreshAfter.
Proof. intros Hm. unfold run_action_of, ResolveMode. by rewrite Hm. Qed.

Lemma Run_app cfg envs1 envs2 st :
  Run cfg (envs1 ++ envs2) st =
    match Run cfg envs1 st with
    | (st, Some panic) => (st, Some panic)
    | (st, None) => Run cfg envs2 st
    end.
Proof.
  revert st. induction envs1 as [|env envs1 IH]; intros st; [done|].
  simpl. destruct (run_iteration cfg env st) as [st' [p|]]; [done|apply IH].
Qed.

(** [Run] panics in the first iteration that does. *)
Lemma Run_panics cfg envs st p :
  (Run cfg envs st).2 = Some p <->
  exists before env after st1, envs = before ++ env :: after /\
    Run cfg before st = (st1, None) /\ (run_iteration cfg env st1).2 = Some p.
Proof.
  revert st. induction envs as [|env envs IH]; intros st.
  { split; [done|]. by intros ([|]&?&?&?&?&_). }
  cbn [Run]. destruct (run_iteration cfg env st) as [st1 [p1|]] eqn:E.
  - split.
    + intros Hp. exists [], env, envs, st. by rewrite E.
    + intros ([|env' before]&env1&after&st2&[= <- ->]&Hb&Hp).
      * injection Hb as <-. by rewrite E in Hp.
      * cbn [Run] in Hb. by rewrite E in Hb.
  - rewrite IH. split.
    + intros (before&env1&after&st2&->&Hb&Hp). exists (env :: before), env1, after, st2.
      cbn [Run]. by rewrite E.
    + intros ([|env' before]&env1&after&st2&[= <- ->]&Hb&Hp).
      * injection Hb as <-. by rewrite E in Hp.
      * cbn [Run] in Hb. rewrite E in Hb. by exists before, env1, after, st2.
Qed.

(** The interval is the session's, not the ticks'. *)
Lemma poll_ticks_interval d p envs s : poll_ticks (set_interval d p) envs s = poll_ticks p envs s.
Proof.
  revert s. induction envs as [|env envs IH]; intros s; [done|]. cbn [poll_ticks].
  change (poll_tick (set_interval d p) env s) with (poll_tick p env s).
  destruct (poll_tick p env s) as [[s' new] [raw|]]; [done|]. by rewrite IH.
Qed.

(** The sink takes an event when it answers its request with a 2xx. *)
Definition answered_2xx (cfg : Config) (sink : HttpClient) (ev : Event) : Prop :=
  exists req resp,
    buildBinaryRequest (cfgSink cfg) (apply_overrides (scOverrides (NewSinkClient cfg)) ev) = Ok req /\
    client_Do (HttpClient := sink) req = Ok resp /\ (200 <= rsStatus resp < 300)%Z.

Lemma sink_emit_2xx cfg sink ev : sink_emit cfg sink ev = true <-> answered_2xx cfg sink ev.
Proof.
  unfold sink_emit, answered_2xx, Send. cbn [fst].
  change (scSink (NewSinkClient cfg)) with (cfgSink cfg).
  destruct (buildBinaryRequest _ _) as [req|m]; cbn [map_err mbind result_bind];
    [|by split; [|intros (?&?&?&_)]].
  destruct (client_Do req) as [resp|m] eqn:Ed; cbn [map_err mbind result_bind];
    [|split; [done|]; intros (?&?&[= <-]&E&_); congruence].
  transitivity (200 <= rsStatus resp < 300)%Z.
  - unfold classify. destruct (Z.leb_spec 200 (rsStatus resp)), (Z.ltb_spec (rsStatus resp) 300);
      cbn [andb]; [by split; [lia|]|..]; (split; [|lia]; by destruct (_ || _)).
  - split; [eauto|]. intros (?&?&[= <-]&E&?). congruence.
Qed.
End lemmas.

(** ** At-least-once delivery across sessions: lemmas *)

Section delivery.
Context `{UrlLib, EventCodec} (cfg : Config) (log : list string) (pos : string -> nat)
  (issued : string -> Prop).

(** The server of every tick answers a cursor it has issued from the log, and
    with a cursor it then has issued. *)
Definition honest_ticks (ticks : list tick_world) : Prop :=
  forall t c, t ∈ ticks -> issued c ->
    honest (NewPollClient cfg) log pos (tick_env_of cfg t) c /\
    (forall next events, fetch (H1 := twHttp t) (NewPollClient cfg) c = Ok (next, events) ->
       next <> "" -> issued next).

(** A sink an iteration posts to. *)
Definition sinks_of (env : iteration_env) : list HttpClient := ieSink env :: map twSink (ieTicks env).

Definition accepted (envs : list iteration_env) (ev : Event) : Prop :=
  exists env sink, env ∈ envs /\ sink ∈ sinks_of env /\ answered_2xx cfg sink ev.

Record run_inv (envs : list iteration_env) (st : run_state) : Prop := {
  rinv_cursor : covered log (pos (disk_cursor (NewPollClient cfg) (rnFs st))) (rnDelivered st);
  rinv_issued : issued (disk_cursor (NewPollClient cfg) (rnFs st));
  rinv_accepted : Forall (accepted envs) (rnDelivered st)
}.

(** The events of a tick are those its sink accepted. *)
Lemma poll_tick_accepted p env s ev : ev ∈ (poll_tick p env s).1.2 -> teEmit env ev = true.
Proof.
  unfold poll_tick. destruct (fetch p (plCursor s)) as [[next events]|e].
  2:{ by destruct e; intros ?%elem_of_nil. }
  destruct (emit_all (teEmit env) events) as [done ok] eqn:E. apply emit_all_spec in E as (Hd&_).
  destruct ok; cbn [negb]; [|apply Hd].
  destruct (_ && _); [|apply Hd]. destruct (writeCursor _ _ _ _) as [[e fs] mid]. apply Hd.
Qed.

(** A tick's cursors, in memory and on disk, are the old ones or the one the
    server returned. *)
Lemma poll_tick_cursors p env c fs :
  let s := (poll_tick p env (MkPollState c fs)).1.1 in
  (s = MkPollState c fs) \/
  exists next events, fetch (H1 := teHttp env) p c = Ok (next, events) /\ next <> "" /\
    plCursor s = next /\ (disk_cursor p (plFs s) = disk_cursor p fs \/ disk_cursor p (plFs s) = next).
Proof.
  cbv zeta. unfold poll_tick. cbn [plCursor plFs].
  destruct (fetch p c) as [[next events]|e]; [|left; by destruct e].
  destruct (emit_all (teEmit env) events) as [done []]; cbn [negb]; [|by left].
  destruct (String.eqb_spec next "") as [|Hne]; cbn [negb andb]; [by left|].
  destruct (String.eqb_spec next c); cbn [negb]; [by left|]. right. exists next, events.
  pose proof (writeCursor_file (teFs env) (pcCursorPath p) next fs) as Hw.
  destruct (writeCursor _ _ _ _) as [[e fs'] mid]. destruct Hw as [Hw _]. cbn [fst plCursor plFs].
  split_and!; [done..|]. unfold disk_cursor. rewrite Hw.
  destruct e; [by left|]. destruct (String.eqb _ _); [by left|by right].
Qed.

(** What holds between two ticks of a poll session. *)
Record session_inv (s : poll_state) (delivered : list Event) : Prop := {
  sinv_mem : covered log (pos (plCursor s)) delivered;
  sinv_disk : covered log (pos (disk_cursor (NewPollClient cfg) (plFs s))) delivered;
  sinv_mem_issued : issued (plCursor s);
  sinv_disk_issued : issued (disk_cursor (NewPollClient cfg) (plFs s))
}.

Lemma poll_tick_session t s delivered :
  honest_ticks [t] -> session_inv s delivered ->
  let '(s', new, _) := poll_tick (NewPollClient cfg) (tick_env_of cfg t) s in
  session_inv s' (delivered ++ new) /\ Forall (answered_2xx cfg (twSink t)) new.
Proof.
  destruct s as [c fs]. intros Hh [Hc Hd Hic Hid]. cbn [plCursor plFs] in *.
  destruct (Hh t c ltac:(left) Hic) as [Hht Hnext].
  pose proof (poll_tick_covered (NewPollClient cfg) log pos (tick_env_of cfg t) c fs
    delivered Hht Hc Hd) as Htick.
  pose proof (poll_tick_accepted (NewPollClient cfg) (tick_env_of cfg t) (MkPollState c fs)) as Hnew.
  pose proof (poll_tick_cursors (NewPollClient cfg) (tick_env_of cfg t) c fs) as Hcur.
  destruct (poll_tick _ _ _) as [[s' new] panic]. destruct Htick as [H1 H2]. cbn [fst snd] in *.
  assert (issued (plCursor s') /\ issued (disk_cursor (NewPollClient cfg) (plFs s'))) as [??].
  { destruct Hcur as [->|(next&events&Hf&Hne&->&Hcur)]; [done|].
    specialize (Hnext next events Hf Hne). by destruct Hcur as [->| ->]. }
  split; [by split|]. apply Forall_forall. intros ev Hev. by apply sink_emit_2xx, Hnew.
Qed.

Lemma poll_ticks_session ticks s delivered :
  honest_ticks ticks -> session_inv s delivered ->
  let '(s', new, _) := poll_ticks (NewPollClient cfg) (map (tick_env_of cfg) ticks) s in
  session_inv s' (delivered ++ new) /\
  Forall (fun ev => exists t, t ∈ ticks /\ answered_2xx cfg (twSink t) ev) new.
Proof.
  revert s delivered. induction ticks as [|t ticks IH]; intros s delivered Hh Hs.
  { cbn [map poll_ticks]. by rewrite app_nil_r. }
  cbn [map poll_ticks].
  pose proof (poll_tick_session t s delivered) as Ht.
  destruct (poll_tick _ _ s) as [[s1 new] panic].
  destruct Ht as [Hs1 Hnew]; [|done|].
  { intros t' c ->%list_elem_of_singleton. apply Hh. left. }
  assert (Forall (fun ev => exists t', t' ∈ t :: ticks /\ answered_2xx cfg (twSink t') ev) new) as Hnew'
    by (eapply Forall_impl; [exact Hnew|]; intros ev ?; exists t; split; [left|done]).
  destruct panic; [done|].
  specialize (IH s1 (delivered ++ new) ltac:(intros t' c Ht'; apply Hh; by right) Hs1).
  destruct (poll_ticks _ _ s1) as [[s2 rest] panic]. destruct IH as [Hs2 Hrest].
  rewrite <- app_assoc in Hs2. split; [done|]. apply Forall_app_2; [done|].
  eapply Forall_impl; [exact Hrest|]. intros ev (t'&?&?). exists t'. split; [by right|done].
Qed.

(** A poll session keeps what the cursor promises. *)
Lemma poll_run_covered d readable fs ticks delivered :
  pos "" = 0%nat -> issued "" -> honest_ticks ticks ->
  covered log (pos (disk_cursor (NewPollClient cfg) fs)) delivered ->
  issued (disk_cursor (NewPollClient cfg) fs) ->
  let '(s, new, _) := poll_run (set_interval d (NewPollClient cfg)) readable fs
                        (map (tick_env_of cfg) ticks) in
  covered log (pos (disk_cursor (NewPollClient cfg) (plFs s))) (delivered ++ new) /\
  issued (disk_cursor (NewPollClient cfg) (plFs s)) /\
  Forall (fun ev => exists t, t ∈ ticks /\ answered_2xx cfg (twSink t) ev) new.
Proof.
  intros Hpos Hnil Hh Hd Hi. unfold poll_run. cbn [pcCursorPath set_interval].
  set (s0 := MkPollState _ fs).
  assert (session_inv s0 delivered) as Hs0.
  { assert (covered log (pos "") delivered) as Hcov by (rewrite Hpos; intros i raw ev Hlt; lia).
    subst s0. split; cbn [plCursor plFs]; try done; unfold readCursor;
      (destruct (String.eqb _ _); [done|by destruct readable]). }
  pose proof (poll_ticks_session ticks s0 delivered Hh Hs0) as Hp.
  rewrite poll_ticks_interval.
  destruct (poll_ticks _ _ _) as [[s new] panic]. by destruct Hp as [[]].
Qed.

Lemma end_session_inv envs st fs new refresh panic :
  run_inv envs st -> covered log (pos (disk_cursor (NewPollClient cfg) fs)) (rnDelivered st ++ new) ->
  issued (disk_cursor (NewPollClient cfg) fs) -> Forall (accepted envs) new ->
  run_inv envs (end_session st fs new refresh panic).1.
Proof.
  intros [_ _ Ha] Hc Hi Hn. destruct panic; (split; [done..|by apply Forall_app_2]).
Qed.

Lemma run_iteration_inv envs env st :
  pos "" = 0%nat -> issued "" -> env ∈ envs -> honest_ticks (ieTicks env) ->
  run_inv envs st -> run_inv envs (run_iteration cfg env st).1.
Proof.
  intros Hpos Hnil Henv Hh Hst. pose proof Hst as [Hc Hi Ha]. unfold run_iteration.
  pose proof (run_action_cases cfg env) as Hcase.
  destruct (run_action_of cfg env) as [w|client refresh|client refresh|m]; [by split|..|done].
  - destruct Hcase as (res&_&_&_&->).
    destruct (_ <=? 0)%Z; [done|]. set (ticks := iteration_ticks _ _ _).
    assert (forall t, t ∈ ticks -> t ∈ ieTicks env) as Hsub.
    { intros t Ht. unfold ticks, iteration_ticks in Ht.
      by apply elem_of_take in Ht as (i&?%list_elem_of_lookup_2&_). }
    pose proof (poll_run_covered (mrPollInterval res) (ieCursorReadable env) (rnFs st) ticks
      (rnDelivered st) Hpos Hnil ltac:(intros t c Ht; by apply Hh, Hsub) Hc Hi) as Hrun.
    destruct (poll_run _ _ _ _) as [[s new] panic]. destruct Hrun as (Hc'&Hi'&Hnew).
    apply end_session_inv; [done..|].
    eapply Forall_impl; [exact Hnew|]. intros ev (t&Ht&He). exists env, (twSink t).
    split_and!; [done| |done]. right. apply list_elem_of_fmap. eauto.
  - destruct Hcase as (res&_&_&_&->).
    pose proof (run_sent (NewStreamClient cfg) (sink_emit cfg (ieSink env)) (ieConnections env)) as Hs.
    destruct (Stream.run _ _ _) as [[waits sent] panic]. cbn [fst snd] in Hs.
    apply end_session_inv; [done|by apply covered_app|done|].
    apply Forall_forall. intros ev ([ev' b]&->&Hin)%list_elem_of_fmap.
    apply list_elem_of_filter in Hin as [Hb Hin]. cbn [fst snd] in *. subst b.
    rewrite Forall_forall in Hs. specialize (Hs _ Hin). cbn [fst snd] in Hs.
    exists env, (ieSink env). split_and!; [done|left|by apply sink_emit_2xx].
Qed.

(** So does the whole loop, from a first boot, however it ends. *)
Lemma Run_inv envs fs :
  pos "" = 0%nat -> issued "" -> fs !! file_of (cfgCursorPath cfg) = None ->
  (forall env, env ∈ envs -> honest_ticks (ieTicks env)) ->
  run_inv envs (Run cfg envs (MkRunState fs [] 0)).1.
Proof.
  intros Hpos Hnil Hfs Hh.
  assert (run_inv envs (MkRunState fs [] 0)) as Hinit.
  { split; [..|constructor]; unfold disk_cursor; cbn [rnFs pcCursorPath NewPollClient];
      rewrite Hfs; [|done]. simpl. rewrite Hpos. intros i raw ev Hi. lia. }
  revert Hinit. generalize (MkRunState fs [] 0).
  assert (forall env, env ∈ envs -> env ∈ envs) as Hsub by done. revert Hsub.
  generalize envs at 1 5. intros rest.
  induction rest as [|env rest IH]; intros Hsub s Hinv; [done|].
  cbn [Run]. pose proof (run_iteration_inv envs env s Hpos Hnil ltac:(apply Hsub; left)
    ltac:(apply Hh, Hsub; left) Hinv) as Hs'.
  destruct (run_iteration cfg env s) as [s' [panic|]]; [done|].
  apply IH; [intros; apply Hsub; by right|done].
Qed.
End delivery.

(** ** Panics of the decoder: lemmas *)

Section panics.
Context `{UrlLib, EventCodec}.

Lemma decode_events_panics raws raw :
  decode_events raws = Err raw -> raw ∈ raws /\ event_Unmarshal raw = DecodePanics.
Proof.
  induction raws as [|r raws IH]; [done|]. cbn [decode_events].
  destruct (event_Unmarshal r) as [ev| |] eqn:E.
  - destruct (decode_events raws) as [evs|m]; [done|]. intros [= ->].
    destruct IH as [? ?]; [done|]. split; [by right|done].
  - intros Hr. destruct (IH Hr) as [? ?]. split; [by right|done].
  - intros [= <-]. split; [left|done].
Qed.

Lemma fetch_panics `{HttpClient} p c raw :
  fetch p c = Err (FetchPanics raw) -> event_Unmarshal raw = DecodePanics.
Proof.
  unfold fetch. destruct (poll_request p c) as [req|]; [|done]. cbn [map_err mbind result_bind].
  destruct (client_Do req) as [resp|]; [|done]. cbn [map_err mbind result_bind].
  destruct (negb _); [done|]. destruct (decode_payload _) as [[raws next]|]; [|done].
  destruct (decode_events raws) as [evs|r] eqn:E; [done|]. intros [= <-].
  by apply decode_events_panics in E as [_ ?].
Qed.

(** The ticks panic at the first whose fetch does. *)
Lemma poll_ticks_panic p envs s raw :
  (poll_ticks p envs s).2 = Some raw <->
  exists before env after s' new, envs = before ++ env :: after /\
    poll_ticks p before s = (s', new, None) /\
    fetch (H1 := teHttp env) p (plCursor s') = Err (FetchPanics raw).
Proof.
  revert s. induction envs as [|env envs IH]; intros s.
  { split; [done|]. by intros ([|]&?&?&?&?&?&_). }
  assert ((poll_tick p env s).2 = Some raw <->
    fetch (H1 := teHttp env) p (plCursor s) = Err (FetchPanics raw)) as Htick.
  { unfold poll_tick. destruct (fetch p (plCursor s)) as [[next events]|e].
    - split; [|discriminate]. destruct (emit_all _ _) as [dn []]; cbn [negb]; [|done].
      destruct (_ && _); [|done]. by destruct (writeCursor _ _ _ _) as [[? ?] ?].
    - destruct e; cbn [snd]; clear; naive_solver. }
  cbn [poll_ticks]. destruct (poll_tick p env s) as [[s1 new] [raw1|]] eqn:E; cbn [snd] in Htick |- *.
  - split.
    + intros Hr. apply Htick in Hr. by exists [], env, envs, s, [].
    + intros ([|env' before]&env1&after&s'&new'&[= <- ->]&Hb&Hf).
      * injection Hb as <- _. by apply Htick.
      * cbn [poll_ticks] in Hb. by rewrite E in Hb.
  - specialize (IH s1). destruct (poll_ticks p envs s1) as [[s2 rest] panic] eqn:Ep. cbn [snd] in *.
    rewrite IH. split.
    + intros (before&env1&after&s'&new'&->&Hb&Hf).
      exists (env :: before), env1, after, s', (new ++ new'). cbn [poll_ticks]. by rewrite E, Hb.
    + intros ([|env' before]&env1&after&s'&new'&[= <- ->]&Hb&Hf).
      * injection Hb as <- _. by apply Htick in Hf.
      * cbn [poll_ticks] in Hb. rewrite E in Hb.
        destruct (poll_ticks p before s1) as [[s3 rest'] [|]] eqn:Eb; [done|].
        injection Hb as -> _. by exists before, env1, after, s', rest'.
Qed.

Lemma stream_run_panic client emit servers raw :
  (Stream.run client emit servers).2 = Some raw <->
  exists before srv after, servers = before ++ srv :: after /\
    Forall (fun srv => connection_panic client emit srv = None) before /\
    connection_panic client emit srv = Some raw.
Proof.
  unfold Stream.run. rewrite run_backoff. generalize 0%nat.
  induction servers as [|srv servers IH]; intros k.
  { split; [done|]. by intros ([|]&?&?&?&_). }
  rewrite run_from_cons. destruct (connection_panic client emit srv) as [raw1|] eqn:E; cbn [snd].
  - split.
    + intros [= ->]. by exists [], srv, servers.
    + intros ([|srv' before]&srv1&after&[= <- ->]&Hb&Hp); [congruence|].
      apply Forall_cons in Hb as [Hb _]. congruence.
  - specialize (IH (S (if (streamOnce (H1 := srv) client emit).1.1 then 0%nat else k))).
    destruct (run_from client emit _ servers) as [[waits rest] panic]. cbn [snd] in *. rewrite IH. split.
    + intros (before&srv1&after&->&Hb&Hp). exists (srv :: before), srv1, after.
      split_and!; [done|by constructor|done].
    + intros ([|srv' before]&srv1&after&[= <- ->]&Hb&Hp); [congruence|].
      apply Forall_cons in Hb as [_ Hb]. by exists before, srv1, after.
Qed.

(** The decoder panics in a session: on the answer to a tick, or on a line of a
    connection, and on none before it. *)
Definition decoder_panics (cfg : Config) (env : iteration_env) (st : run_state) (raw : string)
    : Prop :=
  match run_action_of cfg env with
  | PollSession client refresh =>
      (0 < pcInterval client)%Z /\
      exists before t after s new, iteration_ticks env client refresh = before ++ t :: after /\
        poll_run client (ieCursorReadable env) (rnFs st) (map (tick_env_of cfg) before)
          = (s, new, None) /\
        fetch (H1 := twHttp t) client (plCursor s) = Err (FetchPanics raw)
  | StreamSession client _ =>
      let once srv := (streamOnce (H1 := srv) client (sink_emit cfg (ieSink env))).1.2 in
      exists before srv after, ieConnections env = before ++ srv :: after /\
        (forall srv' raw', srv' ∈ before -> once srv' <> Some (StreamPanics raw')) /\
        once srv = Some (StreamPanics raw)
  | _ => False
  end.

Lemma connection_panic_iff client emit srv raw :
  connection_panic client emit srv = Some raw <->
  (streamOnce (H1 := srv) client emit).1.2 = Some (StreamPanics raw).
Proof.
  unfold connection_panic. destruct ((streamOnce client emit).1.2) as [[]|]; naive_solver.
Qed.

Lemma end_session_panic st fs new refresh panic raw :
  (end_session st fs new refresh panic).2 = Some (DecodePanicked raw) <-> panic = Some raw.
Proof. destruct panic; naive_solver. Qed.

Lemma decoder_panics_iff cfg env st raw :
  (run_iteration cfg env st).2 = Some (DecodePanicked raw) <-> decoder_panics cfg env st raw.
Proof.
  unfold run_iteration, decoder_panics.
  destruct (run_action_of cfg env) as [w|client refresh|client refresh|m]; [done|..|done].
  - destruct (Z.leb_spec (pcInterval client) 0) as [Hi|Hi]; [split; [done|lia]|].
    pose proof (poll_ticks_panic client (map (tick_env_of cfg) (iteration_ticks env client refresh))
      (MkPollState (readCursor (ieCursorReadable env) (pcCursorPath client) (rnFs st)) (rnFs st)) raw)
      as Hp. unfold poll_run in *.
    destruct (poll_ticks _ _ _) as [[s new] panic]. cbn [snd] in Hp. rewrite end_session_panic, Hp.
    split.
    + intros (before&env'&after&s'&new'&Hm&Hb&Hf).
      apply map_eq_app in Hm as (l1&l2&El&<-&Hm). apply map_eq_cons in Hm as (t&l3&->&<-&<-).
      split; [done|]. by exists l1, t, l3, s', new'.
    + intros (_&before&t&after&s'&new'&->&Hb&Hf).
      exists (map (tick_env_of cfg) before), (tick_env_of cfg t), (map (tick_env_of cfg) after), s', new'.
      by rewrite map_app.
  - pose proof (stream_run_panic client (sink_emit cfg (ieSink env)) (ieConnections env) raw) as Hp.
    destruct (Stream.run _ _ _) as [[waits sent] panic]. cbn [snd] in Hp. rewrite end_session_panic, Hp.
    split; intros (before&srv&after&E&Hb&Hr); exists before, srv, after; (split; [done|]);
      (split; [|by apply connection_panic_iff]).
    + intros srv' raw' Hin. rewrite <- connection_panic_iff. rewrite Forall_forall in Hb.
      by rewrite (Hb srv' Hin).
    + apply Forall_forall. intros srv' Hin. destruct (connection_panic _ _ srv') as [raw'|] eqn:Ec; [|done].
      apply connection_panic_iff in Ec. by apply Hb in Ec.
Qed.

Lemma decoder_panics_raw cfg env st raw :
  decoder_panics cfg env st raw -> event_Unmarshal raw = DecodePanics.
Proof.
  unfold decoder_panics.
  destruct (run_action_of cfg env) as [w|client refresh|client refresh|m]; [done|..|done].
  - intros (_&before&t&after&s&new&_&_&Hf). by eapply (fetch_panics (H1 := twHttp t)).
  - intros (before&srv&after&_&_&Hp). by apply (streamOnce_panics (H1 := srv)) in Hp as [? _].
Qed.
End panics.

(** ** Theorems *)

(** C1. At-least-once delivery, through the whole loop: from a first boot, over
    any sequence of poll and stream sessions with servers that answer the
    cursors they issued from their log, whatever the sinks and the file system
    do, and whether [Run] lasts or panics, every decodable event before the cursor
    on disk was delivered; and an event counts as delivered only if a sink of one of
    the sessions answered the request built for it, with the overrides of the
    configuration, with a 2xx. *)
Theorem run_at_least_once `{UrlLib, EventCodec} cfg log pos (issued : string -> Prop) envs fs :
  pos "" = 0%nat -> issued "" -> fs !! file_of (cfgCursorPath cfg) = None ->
  (forall env, env ∈ envs -> honest_ticks cfg log pos issued (ieTicks env)) ->
  let st := (Run cfg envs (MkRunState fs [] 0)).1 in
  covered log (pos (default "" (rnFs st !! file_of (cfgCursorPath cfg)))) (rnDelivered st) /\
  Forall (fun ev => exists env sink req resp,
    env ∈ envs /\ sink ∈ sinks_of env /\
    buildBinaryRequest (cfgSink cfg) (apply_overrides (scOverrides (NewSinkClient cfg)) ev) = Ok req /\
    client_Do (HttpClient := sink) req = Ok resp /\ (200 <= rsStatus resp < 300)%Z)
    (rnDelivered st).
Proof.
  intros Hpos Hnil Hfs Hh st.
  destruct (Run_inv cfg log pos issued envs fs Hpos Hnil Hfs Hh) as [Hc _ Ha]. split; [exact Hc|].
  eapply Forall_impl; [exact Ha|]. intros ev (env&sink&?&?&req&resp&?&?&?).
  exists env, sink, req, resp. done.
Qed.

(** Pacing: an iteration never takes less than the 30 s of the error
    backoff, and with a mode [LoadConfig] accepts never less than the minute
    of the refresh floor, so the mode is resolved at most that often; the
    branch the code calls unreachable is. *)
Theorem run_pacing `{UrlLib, EventCodec} cfg envs st st' :
  Run cfg envs st = (st', None) ->
  (forall env m, run_action_of cfg env <> UnknownMode m) /\
  (rnElapsed st + Z.of_nat (length envs) * ResolveErrBackoff <= rnElapsed st')%Z /\
  (cfgMode cfg ∈ [""; "poll"; "stream"] ->
   rnElapsed st + Z.of_nat (length envs) * MinRefreshAfter <= rnElapsed st')%Z.
Proof.
  intros Hrun. split.
  { intros env m E. pose proof (run_action_cases cfg env) as Hc. by rewrite E in Hc. }
  assert (ResolveErrBackoff <= MinRefreshAfter)%Z as Hle by done.
  revert st Hrun. induction envs as [|env envs IH]; intros st Hrun.
  { injection Hrun as <-. split; [|intros _]; simpl; lia. }
  simpl in Hrun. destruct (run_iteration cfg env st) as [s [panic|]] eqn:E; [done|].
  destruct (IH s Hrun) as [IH1 IH2].
  assert ((rnElapsed st + ResolveErrBackoff <= rnElapsed s)%Z /\
    (cfgMode cfg ∈ [""; "poll"; "stream"] -> rnElapsed st + MinRefreshAfter <= rnElapsed s)%Z)
    as [Hs1 Hs2].
  { revert E. unfold run_iteration. pose proof (run_action_cases cfg env) as Hc.
    destruct (run_action_of cfg env) as [w|client refresh|client refresh|m] eqn:Ea; [|..|done].
    - intros [= <-]. subst w. cbn [rnElapsed]. split; [lia|]. intros Hm. exfalso. revert Ea.
      unfold run_action_of, ResolveMode. rewrite !elem_of_cons, elem_of_nil in Hm.
      destruct Hm as [->|[->|[->|[]]]]; cbn match; unfold choose_session;
        cbn [String.eqb]; repeat case_match; done.
    - destruct Hc as (res&_&_&->&_). destruct (_ <=? 0)%Z; [done|].
      destruct (poll_run _ _ _ _) as [[s' new] [raw|]]; [done|]. intros [= <-]. cbn [rnElapsed].
      pose proof (refresh_window_floor (mrRefreshAfter res)). split; [|intros _]; lia.
    - destruct Hc as (res&_&_&->&_).
      destruct (Stream.run _ _ _) as [[waits sent] [raw|]]; [done|]. intros [= <-]. cbn [rnElapsed].
      pose proof (refresh_window_floor (mrRefreshAfter res)). split; [|intros _]; lia. }
  cbn [length]. rewrite Nat2Z.inj_succ. split; [lia|]. intros Hm. specialize (IH2 Hm).
  specialize (Hs2 Hm). lia.
Qed.

(** C25. When [Run] panics.  A session panics on its ticker exactly when it is a
    poll session whose resolved interval is not positive: [NewPollClient] replaces
    such an interval, and [Run] puts it back.  It panics in the decoder exactly when
    the server of one of its ticks or connections, with no panic before it, sends an
    envelope the SDK cannot even reject.  A configuration of mode poll with an
    interval that is not positive panics on its first iteration, whatever the world
    does. *)
Theorem run_panics_iff `{UrlLib, EventCodec} cfg :
  (0 < pcInterval (NewPollClient cfg))%Z /\
  (forall env st i, (run_iteration cfg env st).2 = Some (NonPositiveTicker i) <->
     exists res, ResolveMode (H0 := ieHttp env) (ieReadFile env) cfg = Ok res /\
       mrMode res = "poll" /\ mrPollInterval res = i /\ (i <= 0)%Z) /\
  (forall env st raw, (run_iteration cfg env st).2 = Some (DecodePanicked raw) <->
     decoder_panics cfg env st raw) /\
  (forall env st raw, decoder_panics cfg env st raw -> event_Unmarshal raw = DecodePanics) /\
  (forall env envs st, cfgMode cfg = "poll" -> (cfgPollInterval cfg <= 0)%Z ->
     Run cfg (env :: envs) st = (st, Some (NonPositiveTicker (cfgPollInterval cfg)))).
Proof.
  split_and!.
  - unfold NewPollClient. cbn [pcInterval]. unfold Second.
    destruct (Z.leb_spec (cfgPollInterval cfg) 0); lia.
  - intros env st i. unfold run_iteration, run_action_of.
    destruct (ResolveMode _ cfg) as [res|m] eqn:Er.
    2:{ split; [done|]. by intros (?&?&_). }
    unfold choose_session. destruct (String.eqb_spec (mrMode res) "poll") as [Hp|Hp].
    + cbn [pcInterval set_interval].
      destruct (Z.leb_spec (mrPollInterval res) 0).
      * split; [intros [= <-]; eauto|]. by intros (?&[= <-]&_&<-&_).
      * destruct (poll_run _ _ _ _) as [[s new] [raw|]];
          (split; [done|]; intros (?&[= <-]&_&<-&?); lia).
    + split; [|by intros (?&[= <-]&?&_)].
      destruct (String.eqb _ _); [|done]. by destruct (Stream.run _ _ _) as [[waits sent] [raw|]].
  - apply decoder_panics_iff.
  - apply decoder_panics_raw.
  - intros env envs st Hm Hi. cbn [Run]. unfold run_iteration. rewrite poll_mode_action by done.
    cbn [pcInterval set_interval]. by rewrite (proj2 (Z.leb_le _ _) Hi).
Qed.

(** One envelope is enough to stop an adapter that polls: when the page after the
    cursor on disk has one on which the decoder panics, the first tick panics,
    nothing is delivered and the cursor stays, so that the process meets the same page
    each time it is started again. *)
Theorem poison_envelope `{UrlLib, EventCodec} cfg env envs st t ticks raw :
  cfgMode cfg = "poll" -> (0 < cfgPollInterval cfg < defaultRefreshAfter)%Z ->
  ieTicks env = t :: ticks ->
  fetch (H1 := twHttp t) (NewPollClient cfg)
    (readCursor (ieCursorReadable env) (cfgCursorPath cfg) (rnFs st)) = Err (FetchPanics raw) ->
  Run cfg (env :: envs) st = (st, Some (DecodePanicked raw)).
Proof.
  intros Hm Hi Et Hf. cbn [Run]. unfold run_iteration. rewrite poll_mode_action by done.
  cbn [pcInterval set_interval]. rewrite (proj2 (Z.leb_gt _ _)) by lia.
  unfold iteration_ticks. rewrite Et. cbn [pcInterval set_interval].
  destruct (session_ticks defaultRefreshAfter (cfgPollInterval cfg)) as [|n] eqn:En.
  { assert (1 <= session_ticks defaultRefreshAfter (cfgPollInterval cfg))%nat; [|lia].
    apply session_ticks_spec; lia. }
  cbn [take map]. unfold poll_run. cbn [poll_ticks pcCursorPath set_interval].
  unfold poll_tick. cbn [plCursor plFs].
  change (fetch (H1 := teHttp (tick_env_of cfg t)) (set_interval (cfgPollInterval cfg) (NewPollClient cfg)))
    with (fetch (H1 := twHttp t) (NewPollClient cfg)).
  change (pcCursorPath (NewPollClient cfg)) with (cfgCursorPath cfg).
  rewrite Hf. cbn [end_session plFs]. rewrite app_nil_r. by destruct st.
Qed.

(** How often a session polls: with a mode of poll and an interval below
    the five minutes of the window, an iteration runs the ticks that fit in
    the window, at least one and as many multiples of the interval as there
    are before its end. *)
Theorem poll_session_ticks `{UrlLib, EventCodec} cfg env st :
  cfgMode cfg = "poll" -> (0 < cfgPollInterval cfg < defaultRefreshAfter)%Z ->
  exists n, (1 <= n)%nat /\
    (Z.of_nat n * cfgPollInterval cfg < defaultRefreshAfter
       <= Z.of_nat (S n) * cfgPollInterval cfg)%Z /\
    let '(s, new, panic) := poll_run (NewPollClient cfg) (ieCursorReadable env) (rnFs st)
                              (map (tick_env_of cfg) (take n (ieTicks env))) in
    run_iteration cfg env st = end_session st (plFs s) new defaultRefreshAfter panic.
Proof.
  intros Hm Hi. exists (session_ticks defaultRefreshAfter (cfgPollInterval cfg)).
  assert (forall n, (n <= session_ticks defaultRefreshAfter (cfgPollInterval cfg))%nat <->
    n = 0%nat \/ (Z.of_nat n * cfgPollInterval cfg < defaultRefreshAfter)%Z) as Hn
    by (intros n; apply session_ticks_spec; lia).
  set (n := session_ticks _ _) in *.
  assert (1 <= n)%nat as H1 by (apply Hn; right; lia). split_and!; [done| | |].
  - destruct (proj1 (Hn n) (le_n n)); [lia|done].
  - destruct (Z.le_gt_cases defaultRefreshAfter (Z.of_nat (S n) * cfgPollInterval cfg)) as [|Hlt];
      [done|]. assert (S n <= n)%nat by (apply Hn; by right). lia.
  - unfold run_iteration. rewrite poll_mode_action by done. cbn [pcInterval set_interval].
    rewrite (proj2 (Z.leb_gt _ _)) by lia. unfold iteration_ticks. cbn [pcInterval set_interval].
    fold n. assert (set_interval (cfgPollInterval cfg) (NewPollClient cfg) = NewPollClient cfg) as ->.
    { unfold NewPollClient, set_interval. cbn [pcBaseURL pcAPIKey pcFilters pcCursorPath].
      by rewrite (proj2 (Z.leb_gt _ _)) by lia. }
    by destruct (poll_run _ _ _ _) as [[s new] panic].
Qed.

(** C26. An interval of five minutes or more never polls: each session ends
    before its first tick, so however long [Run] lasts, nothing is fetched or
    delivered and the cursor never moves. *)
Theorem slow_interval_never_polls `{UrlLib, EventCodec} cfg envs st :
  cfgMode cfg = "poll" -> (defaultRefreshAfter <= cfgPollInterval cfg)%Z ->
  Run cfg envs st =
    (MkRunState (rnFs st) (rnDelivered st)
       (rnElapsed st + Z.of_nat (length envs) * defaultRefreshAfter), None).
Proof.
  intros Hm Hi. revert st. induction envs as [|env envs IH]; intros st.
  { simpl. rewrite Z.add_0_r. by destruct st. }
  assert (0 < defaultRefreshAfter)%Z as Hpos by done.
  cbn [Run]. unfold run_iteration at 1. rewrite poll_mode_action by done.
  unfold iteration_ticks. cbn [pcInterval set_interval]. rewrite (proj2 (Z.leb_gt _ _)) by lia.
  assert (session_ticks defaultRefreshAfter (cfgPollInterval cfg) = 0%nat) as ->.
  { unfold session_ticks. rewrite Z.div_small by lia. done. }
  change (take 0 (ieTicks env)) with (@nil tick_world). unfold poll_run, end_session. cbn [map poll_ticks plFs]. rewrite app_nil_r.
  rewrite IH. cbn [rnFs rnDelivered rnElapsed length].
  do 2 f_equal. rewrite Nat2Z.inj_succ. lia.
Qed.

(** ** Witnesses *)

(** An environment of mode poll with the interval given. *)
Definition interval_env (interval name : string) : string :=
  if String.eqb name "K_SINK" then "http://sink"
  else if String.eqb name "YIPYAP_API_KEY" then "key"
  else if String.eqb name "YIPYAP_MODE" then "poll"
  else if String.eqb name "YIPYAP_POLL_INTERVAL" then interval
  else "".

Definition interval_config (d : Z) : Config :=
  MkConfig "http://sink" ∅ "key" "https://console.yipyap.run" [] "poll" d
    "/var/run/yipyap/cursor" ":8080" "/etc/yipyap/source-mode".

Lemma interval_config_loads :
  LoadConfig (interval_env "0s") = Ok (interval_config 0) /\
  LoadConfig (interval_env "10m") = Ok (interval_config (10 * Minute)) /\
  LoadConfig (interval_env "2m") = Ok (interval_config (2 * Minute)).
Proof. split_and!; vm_compute; reflexivity. Qed.

(** A sink that answers 202, or 500 to the event e2. *)
Definition ok_sink : HttpClient := {| client_Do _ := Ok (MkResponse 202 "") |}.
Definition picky_sink : HttpClient := {|
  client_Do req := Ok (MkResponse (if bool_decide (rqHeader req !! "Ce-Id" = Some "e2")
                                   then 500 else 202) "")
|}.

(** The pages of the sample log: all of it, and what follows it. *)
Definition log_server : HttpClient := {|
  client_Do req := Ok (MkResponse 200
    (if String.eqb (uRawQuery (rqURL req)) "since=c3"
     then "{" +:+ q "events" +:+ ":[]," +:+ q "next_cursor" +:+ ":" +:+ q "c3" +:+ "}"
     else sample_page))
|}.

Definition poll_iteration (sink : HttpClient) : iteration_env :=
  MkIterationEnv (fun _ => None) ok_sink true
    [MkTickWorld log_server sink good_fs;
     MkTickWorld log_server sink good_fs;
     MkTickWorld log_server sink good_fs]
    [] ok_sink.

Definition first_boot : run_state := MkRunState ∅ [] 0.

(** [plain_url_lib] with queries. *)
Definition query_url_lib : UrlLib := {|
  url_Parse s :=
    let '(front, query) := span_char "?" s in
    u ← url_Parse (UrlLib := plain_url_lib) front;
    Ok (with_query (String.substring 1 (String.length query) query) u);
  url_String u :=
    url_String (UrlLib := plain_url_lib) u +:+
    (if String.eqb (uRawQuery u) "" then "" else "?" +:+ uRawQuery u)
|}.

Definition sample_poll_config : Config := interval_config (2 * Minute).
Definition sample_issued (c : string) : Prop := c = "" \/ c = "c3".

(** A configuration that asks for the log without filters. *)
Definition asks_log (cfg : Config) : Prop :=
  cfgBaseURL cfg = "https://console.yipyap.run" /\ cfgEventFilters cfg = [].

Lemma log_server_fetch cfg c :
  asks_log cfg -> sample_issued c ->
  fetch (H := query_url_lib) (H0 := flat_codec) (H1 := log_server) (NewPollClient cfg) c
  = Ok ("c3", if String.eqb c "" then [decoded "e1"; decoded "e2"] else []).
Proof. destruct cfg. intros [Eb Ef]. cbn in Eb, Ef. subst. intros [->| ->]; vm_compute; reflexivity. Qed.

Lemma poll_iteration_honest cfg sink :
  asks_log cfg ->
  honest_ticks (H := query_url_lib) (H0 := flat_codec) cfg
    sample_log sample_pos sample_issued (ieTicks (poll_iteration sink)).
Proof.
  intros Hcfg t c Ht Hc.
  assert (twHttp t = log_server) as Et.
  { cbn [ieTicks poll_iteration] in Ht.
    repeat (apply elem_of_cons in Ht as [->|Ht]; [reflexivity|]). by apply elem_of_nil in Ht. }
  split.
  - intros next events Hf Hne. change (teHttp (tick_env_of cfg t)) with (twHttp t) in Hf.
    rewrite Et, log_server_fetch in Hf by done. injection Hf as <- <-.
    destruct Hc as [->| ->]; (split; [vm_compute; lia|vm_compute; reflexivity]).
  - intros next events Hf _. rewrite Et, log_server_fetch in Hf by done. injection Hf as <- _. by right.
Qed.

Lemma run_at_least_once_witness :
  let r := Run (H := query_url_lib) (H0 := flat_codec) sample_poll_config
             [poll_iteration picky_sink; poll_iteration ok_sink] first_boot in
  r.2 = None /\ rnDelivered r.1 = [decoded "e1"; decoded "e1"; decoded "e1"; decoded "e2"] /\
  covered (H0 := flat_codec) sample_log 3 (rnDelivered r.1).
Proof.
  cbv zeta.
  destruct (run_at_least_once (H := query_url_lib) (H0 := flat_codec) sample_poll_config sample_log
    sample_pos sample_issued [poll_iteration picky_sink; poll_iteration ok_sink] ∅
    eq_refl (or_introl eq_refl) (lookup_empty _)) as [Hcov _].
  - intros env Henv.
    repeat (apply elem_of_cons in Henv as [->|Henv]; [apply poll_iteration_honest; split; reflexivity|]).
    destruct (not_elem_of_nil _ Henv).
  - split; [vm_compute; reflexivity|]. split; [vm_compute; reflexivity|].
    assert (default "" (rnFs (Run (H := query_url_lib) (H0 := flat_codec) sample_poll_config
      [poll_iteration picky_sink; poll_iteration ok_sink] first_boot).1
      !! file_of (cfgCursorPath sample_poll_config)) = "c3") as Ec by (vm_compute; reflexivity).
    unfold first_boot in Ec |- *. rewrite Ec in Hcov. exact Hcov.
Defined.

Lemma run_pacing_witness :
  let r := Run (H := query_url_lib) (H0 := flat_codec) sample_poll_config
             [poll_iteration ok_sink] first_boot in
  r.2 = None /\ (MinRefreshAfter <= rnElapsed r.1)%Z.
Proof.
  cbv zeta. destruct (Run _ _ _) as [st panic] eqn:E.
  assert (panic = None) as ->
    by (change panic with (st, panic).2; rewrite <- E; vm_compute; reflexivity).
  split; [reflexivity|].
  destruct (run_pacing (H := query_url_lib) (H0 := flat_codec) sample_poll_config
    [poll_iteration ok_sink] first_boot st E) as (_&_&Hm).
  apply Hm. right; left.
Defined.

Lemma poll_session_ticks_witness :
  LoadConfig (interval_env "2m") = Ok sample_poll_config /\
  exists n, (1 <= n)%nat /\ (Z.of_nat n * (2 * Minute) < 5 * Minute)%Z.
Proof.
  split; [apply interval_config_loads|].
  destruct (poll_session_ticks (H := query_url_lib) (H0 := flat_codec) sample_poll_config
    (poll_iteration ok_sink) first_boot eq_refl) as (n&H1&H2&_).
  - split; vm_compute; reflexivity.
  - exists n. split; [exact H1|exact (proj1 H2)].
Defined.

Lemma slow_interval_never_polls_witness :
  LoadConfig (interval_env "10m") = Ok (interval_config (10 * Minute)) /\
  Run (H := query_url_lib) (H0 := flat_codec) (interval_config (10 * Minute))
    [poll_iteration ok_sink; poll_iteration ok_sink] first_boot
  = (MkRunState ∅ [] (10 * Minute), None).
Proof.
  split; [apply interval_config_loads|].
  rewrite (slow_interval_never_polls (H := query_url_lib) (H0 := flat_codec)
    (interval_config (10 * Minute)) [poll_iteration ok_sink; poll_iteration ok_sink] first_boot
    eq_refl ltac:(vm_compute; discriminate)). reflexivity.
Defined.

(** A server whose page holds an envelope on which the decoder panics. *)
Definition bad_page : string :=
  "{" +:+ q "events" +:+ ":[" +:+ bad_envelope +:+ "]," +:+ q "next_cursor" +:+ ":" +:+
  q "c3" +:+ "}".
Definition bad_iteration : iteration_env :=
  MkIterationEnv (fun _ => None) ok_sink true [MkTickWorld (page_server bad_page) ok_sink good_fs]
    [] ok_sink.

Lemma run_panics_iff_witness :
  LoadConfig (interval_env "0s") = Ok (interval_config 0) /\
  Run (H := query_url_lib) (H0 := flat_codec) (interval_config 0) [poll_iteration ok_sink] first_boot
  = (first_boot, Some (NonPositiveTicker 0)) /\
  (run_iteration (H := query_url_lib) (H0 := flat_codec) sample_poll_config bad_iteration first_boot).2
  = Some (DecodePanicked bad_envelope).
Proof.
  split; [apply interval_config_loads|]. split.
  - apply (run_panics_iff (H := query_url_lib) (H0 := flat_codec) (interval_config 0));
      vm_compute; [reflexivity|discriminate].
  - destruct (run_panics_iff (H := query_url_lib) (H0 := flat_codec) sample_poll_config)
      as (_&_&Hd&_). apply Hd.
    change (decoder_panics (H := query_url_lib) (H0 := flat_codec) sample_poll_config bad_iteration
      first_boot bad_envelope)
      with ((0 < 2 * Minute)%Z /\ exists before t after s new,
        iteration_ticks bad_iteration (NewPollClient sample_poll_config) defaultRefreshAfter
          = before ++ t :: after /\
        poll_run (H := query_url_lib) (H0 := flat_codec) (NewPollClient sample_poll_config) true ∅
          (map (tick_env_of (H := query_url_lib) sample_poll_config) before) = (s, new, None) /\
        fetch (H := query_url_lib) (H0 := flat_codec) (H1 := twHttp t)
          (NewPollClient sample_poll_config) (plCursor s) = Err (FetchPanics bad_envelope)).
    split; [reflexivity|].
    exists [], (MkTickWorld (page_server bad_page) ok_sink good_fs), [], (MkPollState "" ∅), [].
    split; [vm_compute; reflexivity|]. split; [vm_compute; reflexivity|]. vm_compute. reflexivity.
Defined.

Lemma poison_envelope_witness :
  Run (H := query_url_lib) (H0 := flat_codec) sample_poll_config [bad_iteration; bad_iteration] first_boot
  = (first_boot, Some (DecodePanicked bad_envelope)).
Proof.
  apply (poison_envelope (H := query_url_lib) (H0 := flat_codec) sample_poll_config bad_iteration
    [bad_iteration] first_boot (MkTickWorld (page_server bad_page) ok_sink good_fs) [] bad_envelope);
    [reflexivity|split; vm_compute; reflexivity|reflexivity|vm_compute; reflexivity].
Defined.
