(* ===== verification/Adapter.v ===== *)
(** * The adapter process (cmd/receive-adapter/main.go)

    [main] around [LoadConfig] and [Run]: the health server and the exit
    status.  [Run] ends with the context's error when a signal comes, which
    [main] does not report; a panic in it ends the process.  Joined with the
    controller's half: what the probes of the rendered Deployment meet, and
    which rendered adapters stay up. *)

From S2P Require Import Prelude GoStrings GoTime GoJson CondSet Types Api Names Deployment.
From S2P Require Import GoHttp Config Mode Handoff Sink Poll Stream Run.
Local Open Scope string_scope.
Local Open Scope list_scope.

(** ** The health server *)

Inductive mux_reply :=
| Reply (r : Response)
| MovedPermanently (path : string).

(** The [ServeMux] of [startHealthServer], for any method but CONNECT: the two
    patterns match one path each. *)
Definition serve_health (path : string) : mux_reply :=
  let path' := cleanPath path in
  if negb (String.eqb path' path) then MovedPermanently path'
  else if String.eqb path "/healthz" then Reply (MkResponse 200 "ok")
  else if String.eqb path "/readyz" then Reply (MkResponse 200 "ready")
  else Reply (MkResponse 404 "404 page not found").

(** ** The process *)

Inductive main_event :=
| ConfigError (e : config_error)
| Starting (sink base_url mode : string) (filters : list string)
| ListenAndServe (addr : string)
| Shutdown
| WarnShutdown.

(** The exit status, [None] for a panic, with what the process did. *)
Record main_run := MkMain {
  mnExit : option Z;
  mnEvents : list main_event;
  mnState : run_state
}.

Section main.
Context `{UrlLib, EventCodec}.

Definition main (getenv : string -> string) (envs : list iteration_env) (shutdown_ok : bool)
    (st : run_state) : main_run :=
  match LoadConfig getenv with
  | Err e => MkMain (Some 2%Z) [ConfigError e] st
  | Ok cfg =>
      let started := [Starting (cfgSink cfg) (cfgBaseURL cfg) (cfgMode cfg) (cfgEventFilters cfg);
                      ListenAndServe (cfgHealthAddr cfg)] in
      match Run.Run cfg envs st with
      | (st, Some _) => MkMain None started st
      | (st, None) =>
          MkMain (Some 0%Z)
            (started ++ [Shutdown] ++ if shutdown_ok then [] else [WarnShutdown]) st
      end
  end.

(** ** Lemmas *)

(** A mode given by the environment keeps the interval of the configuration. *)
Lemma mode_given_ticker cfg env st i :
  cfgMode cfg = "poll" \/ cfgMode cfg = "stream" -> (0 < cfgPollInterval cfg)%Z ->
  (run_iteration cfg env st).2 <> Some (NonPositiveTicker i).
Proof.
  intros Hm Hi. unfold run_iteration. destruct Hm as [Hm|Hm].
  - rewrite poll_mode_action by done. cbn [pcInterval set_interval].
    rewrite (proj2 (Z.leb_gt _ _)) by done. by destruct (poll_run _ _ _ _) as [[s new] [raw|]].
  - assert (run_action_of cfg env
      = StreamSession (NewStreamClient cfg) (refresh_window defaultRefreshAfter)) as ->
      by (unfold run_action_of, ResolveMode; by rewrite Hm).
    by destruct (Stream.run _ _ _) as [[waits sent] [raw|]].
Qed.

(** The decoder panics in one of the sessions, after those that end in order. *)
Definition session_panics (cfg : Config.Config) (envs : list iteration_env) (st : run_state) : Prop :=
  exists before env after st1 raw, envs = before ++ env :: after /\
    Run.Run cfg before st = (st1, None) /\ decoder_panics cfg env st1 raw.

(** A process that has its configuration, with the mode given, serves until it is
    told to stop or the decoder panics. *)
Lemma main_serves getenv cfg envs ok st :
  LoadConfig getenv = Ok cfg -> cfgMode cfg = "poll" \/ cfgMode cfg = "stream" ->
  (0 < cfgPollInterval cfg)%Z ->
  let r := main getenv envs ok st in
  mnState r = (Run.Run cfg envs st).1 /\
  (mnExit r = None <-> session_panics cfg envs st) /\
  (mnExit r <> None -> mnExit r = Some 0%Z /\ Shutdown ∈ mnEvents r).
Proof.
  intros Hcfg Hm Hi. cbv zeta. unfold main. rewrite Hcfg.
  assert ((Run.Run cfg envs st).2 <> None <-> session_panics cfg envs st) as Hp.
  { split.
    - destruct (Run.Run cfg envs st).2 as [p|] eqn:Ep; [|done]. intros _.
      apply Run_panics in Ep as (before&env&after&st1&->&Hb&Hp).
      destruct p as [i|raw]; [by apply mode_given_ticker in Hp|].
      exists before, env, after, st1, raw. by rewrite <- decoder_panics_iff.
    - intros (before&env&after&st1&raw&->&Hb&Hp). apply decoder_panics_iff in Hp.
      assert ((Run.Run cfg (before ++ env :: after) st).2 = Some (DecodePanicked raw)) as ->; [|done].
      apply Run_panics. by exists before, env, after, st1. }
  rewrite <- Hp. destruct (Run.Run cfg envs st) as [st' [p|]]; cbn [mnExit mnEvents mnState fst snd].
  - split_and!; [done|by split|done].
  - split_and!; [done|by split|]. intros _. split; [done|]. rewrite elem_of_app. right. left.
Qed.

(** One that has none does nothing. *)
Lemma main_refused getenv envs ok st :
  is_ok (LoadConfig getenv) = false ->
  let r := main getenv envs ok st in
  mnExit r = Some 2%Z /\ (exists e, mnEvents r = [ConfigError e]) /\ mnState r = st.
Proof.
  intros Hl. unfold main. destruct (LoadConfig getenv) as [cfg|e]; [done|]. cbn. eauto.
Qed.
End main.

(** The fields of the configuration a rendered environment gives. *)
Lemma container_config `{UrlLib} secret src sink cfg :
  LoadConfig (container_env secret src sink) = Ok cfg ->
  cfgMode cfg = spMode (ySpec src) /\ cfgPollInterval cfg = (5 * Second)%Z /\
  cfgHealthAddr cfg = ":8080" /\ cfgSink cfg = URL_String sink.
Proof.
  destruct (container_env_values secret src sink) as (E1&_&_&E4&_&_&E7&_&E9).
  unfold LoadConfig. rewrite E1, E4, E7, E9.
  destruct (String.eqb _ _); [done|]. destruct (String.eqb _ _); [done|].
  destruct (if String.eqb (container_env secret src sink "K_CE_OVERRIDES") "" then _ else _);
    [|done].
  cbn [mbind result_bind String.eqb]. case_bool_decide; [|done]. intros [= <-]. done.
Qed.

(** ** Theorems *)

(** The probes of the rendered Deployment meet the adapter's health server:
    whenever the adapter loads the environment it was rendered with, it listens
    on the port both probes name, whatever happens later, and answers each
    probe's path with 200. *)
Theorem probes_are_answered `{UrlLib, EventCodec} secret src sink image d cfg envs ok st :
  MakeAdapterDeployment src sink image = Some d ->
  LoadConfig (container_env secret src sink) = Ok cfg ->
  forall c p, c ∈ psContainers (ptSpec (dpTemplate d)) ->
    ctLivenessProbe c = Some p \/ ctReadinessProbe c = Some p ->
    ListenAndServe (":" +:+ pretty (hgPort p))
      ∈ mnEvents (main (container_env secret src sink) envs ok st) /\
    exists body, serve_health (hgPath p) = Reply (MkResponse 200 body).
Proof.
  intros Hd Hcfg c p Hc Hp. unfold MakeAdapterDeployment in Hd.
  destruct (ChildName _ _) as [name|]; [|done]. cbn in Hd. injection Hd as <-.
  cbn [dpTemplate ptSpec] in Hc. apply list_elem_of_singleton in Hc as ->.
  assert (p = MkHTTPGetAction "/healthz" AdapterHTTPPort "HTTP" \/
          p = MkHTTPGetAction "/readyz" AdapterHTTPPort "HTTP") as Hpp
    by (destruct Hp as [[= <-]|[= <-]]; auto).
  split.
  - assert (":" +:+ pretty (hgPort p) = ":8080") as -> by (by destruct Hpp as [-> | ->]).
    destruct (container_config secret src sink cfg Hcfg) as (_&_&Ha&_).
    unfold main. rewrite Hcfg, Ha.
    destruct (Run.Run cfg envs st) as [st1 [pn|]]; cbn [mnEvents app]; set_solver.
  - destruct Hpp as [-> | ->]; eexists; reflexivity.
Qed.

(** C5. Which rendered adapters stay up, once their environment loads: with a mode of
    poll or stream the process panics exactly when the SDK's decoder does, on an
    envelope of one of its sessions, and otherwise ends with status 0, after shutting
    the health server down; its ticker never panics.  With the default mode the
    environment does not load: the process ends with status 2 before it serves
    anything, so its probes are never answered. *)
Theorem rendered_adapter_exit `{UrlLib, EventCodec} secret src sink envs ok st :
  let r := main (container_env secret src sink) envs ok st in
  (forall cfg, LoadConfig (container_env secret src sink) = Ok cfg ->
   spMode (ySpec src) = "poll" \/ spMode (ySpec src) = "stream" ->
   (mnExit r = None <-> session_panics cfg envs st) /\
   (mnExit r <> None -> mnExit r = Some 0%Z /\ Shutdown ∈ mnEvents r)) /\
  (forall ctx src0, SetDefaults ctx (Some src0) = Some src ->
   spMode (ySpec src0) = "" \/ spMode (ySpec src0) = YipYapSourceModeAuto ->
   mnExit r = Some 2%Z /\ exists e, mnEvents r = [ConfigError e]).
Proof.
  cbv zeta. split.
  - intros cfg Hcfg Hm.
    destruct (container_config secret src sink cfg Hcfg) as (Em&Ei&_&_).
    destruct (main_serves _ cfg envs ok st Hcfg) as (_&?&?); [by rewrite Em|by rewrite Ei|done].
  - intros ctx src0 Hd Hm.
    assert (spMode (ySpec src) = YipYapSourceModeAuto) as Hauto
      by (injection Hd as <-; by destruct Hm as [E|E]; cbn; rewrite E).
    destruct (main_refused (container_env secret src sink) envs ok st) as (?&?&_);
      [by apply auto_never_loads|done].
Qed.

(** ** Witnesses *)

Lemma probes_are_answered_witness :
  let r := main (H := plain_url_lib) (H0 := flat_codec)
             (container_env (H := plain_url_lib) sample_secret sample_source (Some sample_url)) [] true
             first_boot in
  ListenAndServe ":8080" ∈ mnEvents r /\
  exists body, serve_health "/readyz" = Reply (MkResponse 200 body).
Proof.
  cbv zeta.
  assert (exists cfg, LoadConfig (container_env (H := plain_url_lib) sample_secret sample_source
    (Some sample_url)) = Ok cfg) as [cfg Hcfg] by (eexists; vm_compute; reflexivity).
  exact (probes_are_answered (H := plain_url_lib) (H0 := flat_codec) sample_secret sample_source
    (Some sample_url) sample_image sample_deployment cfg [] true first_boot
    ltac:(vm_compute; reflexivity) Hcfg
    (default (MkContainer "" "" [] [] [] None None "" "")
       (hd_error (psContainers (ptSpec (dpTemplate sample_deployment)))))
    (MkHTTPGetAction "/readyz" 8080 "HTTP") ltac:(vm_compute; left) (or_intror eq_refl)).
Defined.

Lemma rendered_adapter_exit_witness :
  let env := container_env (H := plain_url_lib) sample_secret sample_source (Some sample_url) in
  let r := main (H := plain_url_lib) (H0 := flat_codec) env [poll_iteration ok_sink] true first_boot in
  mnExit r = Some 0%Z /\
  exists src, SetDefaults background (Some auto_source) = Some src /\
    mnExit (main (H := plain_url_lib) (H0 := flat_codec)
      (container_env (H := plain_url_lib) sample_secret src (Some sample_url)) [] true first_boot)
    = Some 2%Z.
Proof.
  cbv zeta. split.
  - assert (exists cfg, LoadConfig (container_env (H := plain_url_lib) sample_secret sample_source
      (Some sample_url)) = Ok cfg) as [cfg Hcfg] by (eexists; vm_compute; reflexivity).
    apply (proj1 (rendered_adapter_exit (H := plain_url_lib) (H0 := flat_codec) sample_secret
      sample_source (Some sample_url) [poll_iteration ok_sink] true first_boot) cfg Hcfg (or_introl eq_refl)).
    vm_compute. discriminate.
  - eexists. split; [reflexivity|].
    apply (proj2 (rendered_adapter_exit (H := plain_url_lib) (H0 := flat_codec) sample_secret _
      (Some sample_url) [] true first_boot) background auto_source);
      [reflexivity|by left].
Defined.
