(* ===== verification/Webhook.v ===== *)
(** * The webhook process (cmd/webhook/main.go)

    The three admission controllers [main] serves, built from the constructors
    of the file; the server of knative.dev/pkg/webhook that dispatches to them
    (webhook.go, admission.go) and the ConfigMap controller (configmaps.go);
    the registration each controller keeps in the cluster (the [Reconcile]
    functions of the three packages).

    Parameters: the JSON of a resource ([ObjectCodec]), of a review and of a
    ConfigMap, the parsers of the two ConfigMaps, the pluraliser, the client
    and the caches.  The certificates controller is only a constructor here;
    TLS, tracing and the shared main loop are left out. *)

From S2P Require Import Prelude GoStrings GoPath CondSet FieldError Types Api Admission.
From S2P Require Import Names Deployment GoHttp.
Local Open Scope string_scope.
Local Open Scope list_scope.

(** ** ConfigMaps (configmaps.go) *)

Record ConfigMap := MkConfigMap {
  cmName : string;
  cmAnnotations : gmap string string;
  cmData : gmap string string
}.

(** A constructor keeps its error only. *)
Abbreviation Constructors := (gmap string (ConfigMap -> option string)).

Class WebhookLib := {
  decode_configmap : string -> result string ConfigMap;
  Checksum : string -> string;
  NewConfigFromConfigMap : ConfigMap -> option string;
  o11y_Parse : ConfigMap -> option string;
  (** The request of a review, [None] for a review without one. *)
  decode_review : string -> result string (option AdmissionRequest);
  Pluralize : string -> string
}.

Definition ExampleKey : string := "_example".
Definition ExampleChecksumAnnotation : string := "knative.dev/example-checksum".

Record configmap_admission := MkConfigMapAdmission {
  caName : string;
  caPath : string;
  caConstructors : Constructors
}.

Section configmaps.
Context `{WebhookLib} {op : Type}.

Definition example_modified (cm : ConfigMap) : bool :=
  match cmData cm !! ExampleKey, cmAnnotations cm !! ExampleChecksumAnnotation with
  | Some example, Some checksum => negb (String.eqb checksum (Checksum example))
  | _, _ => false
  end.

Definition validate_configmap (ac : configmap_admission) (req : AdmissionRequest)
    : option string :=
  if bool_decide (rqKind req = MkGVK "" "v1" "ConfigMap") then
    match if String.eqb (rqObject req) "" then Ok (MkConfigMap "" ∅ ∅)
          else decode_configmap (rqObject req) with
    | Err e => Some ("cannot decode incoming new object: " +:+ e)
    | Ok cm =>
        match caConstructors ac !! cmName cm with
        | Some constructor =>
            if example_modified cm then
              Some ("the update modifies a key in " +:+ go_quote ExampleKey
                +:+ " which is probably not what you want. Instead, copy the respective setting to the top-level of the ConfigMap, directly below "
                +:+ go_quote "data")
            else constructor cm
        | None => None
        end
    end
  else Some ("unhandled kind: " +:+ gvk_String (rqKind req)).

Definition Admit_configmaps (ac : configmap_admission) (req : AdmissionRequest)
    : AdmissionResponse op :=
  if bool_decide (rqOperation req ∈ [Create; Update]) then
    match validate_configmap ac req with
    | Some e => MakeErrorStatus ("validation failed: " +:+ e)
    | None => allow None
    end
  else allow None.
End configmaps.

(** ** The program (main.go) *)

Definition new_source : YipYapSource :=
  MkYipYapSource (MkObjectMeta "" "" "" 0 "" None [] no_rest)
    (MkSpec (MkDestination None None None None) None (MkAPIKeyReference "" "") "" None "" "")
    empty_status.

Definition types : gmap GroupVersionKind YipYapSource :=
  {[ WithKind SchemeGroupVersion "YipYapSource" := new_source ]}.

Definition callbacks : gmap GroupVersionKind Callback := ∅.

Definition admissionWebhookName : string := "yipyap-source-webhook".
Definition defaultingWebhookName : string := "defaulting.webhook.sources.yipyap.run".
Definition validationWebhookName : string := "validation.webhook.sources.yipyap.run".
Definition configValidationWebhookName : string := "config.webhook.sources.yipyap.run".

Definition NewDefaultingAdmissionController : resource_admission :=
  MkResourceAdmission defaultingWebhookName "/defaulting" types (Some (fun ctx => ctx)) true ∅.

Definition NewValidationAdmissionController : resource_admission :=
  MkResourceAdmission validationWebhookName "/resource-validation" types
    (Some (fun ctx => ctx)) true callbacks.

(** [logging.ConfigMapName] and [o11yconfigmap.Name]. *)
Definition env_or (getenv : string -> string) (name def : string) : string :=
  if String.eqb (getenv name) "" then def else getenv name.

Definition NewConfigValidationController `{WebhookLib} (getenv : string -> string)
    : configmap_admission :=
  MkConfigMapAdmission configValidationWebhookName "/config-validation"
    (<[env_or getenv "CONFIG_OBSERVABILITY_NAME" "config-observability" := o11y_Parse]>
     {[env_or getenv "CONFIG_LOGGING_NAME" "config-logging" := NewConfigFromConfigMap]}).

(** The reconciler of a controller of the process. *)
Inductive controller :=
| Certificates
| Defaulting (ac : resource_admission)
| Validation (ac : resource_admission)
| ConfigMaps (ac : configmap_admission).

Record Options := MkOptions { ServiceName : string; Port : Z; SecretName : string }.

Record process := MkProcess {
  prOptions : Options;
  prComponent : string;
  prControllers : list controller
}.

Definition main `{WebhookLib} (getenv : string -> string) : process :=
  MkProcess (MkOptions admissionWebhookName 8443 "yipyap-source-webhook-certs")
    admissionWebhookName
    [Certificates; Defaulting NewDefaultingAdmissionController;
     Validation NewValidationAdmissionController;
     ConfigMaps (NewConfigValidationController getenv)].

(** ** The server (webhook.go, admission.go) *)

(** The path and the name of an admission controller. *)
Definition Path (c : controller) : option string :=
  match c with
  | Certificates => None
  | Defaulting ac | Validation ac => Some (raPath ac)
  | ConfigMaps ac => Some (caPath ac)
  end.

Definition Name (c : controller) : string :=
  match c with
  | Certificates => ""
  | Defaulting ac | Validation ac => raName ac
  | ConfigMaps ac => caName ac
  end.

(** The admission controllers among the controllers, as sharedmain collects
    them. *)
Definition admission_controllers (l : list controller) : list controller :=
  filter (fun c => is_Some (Path c)) l.

(** The patterns of the mux beside "/"; a path given twice is the panic [New]
    turns into an error.  No path ends in a slash, so each matches itself. *)
Fixpoint New (mux : gmap string controller) (l : list controller)
    : result string (gmap string controller) :=
  match l with
  | [] => Ok mux
  | c :: l =>
      match Path c with
      | None => Err "unknown webhook controller type"
      | Some p =>
          if bool_decide (is_Some (mux !! p)) || String.eqb p "/" then Err "error creating webhook"
          else New (<[p := c]> mux) l
      end
  end.

Inductive http_reply (op : Type) :=
| Redirect (path : string)
| BadRequest (message : string)
| Review (response : AdmissionResponse op)
| NoReply.
Arguments Redirect {op} _.
Arguments BadRequest {op} _.
Arguments Review {op} _.
Arguments NoReply {op}.

(** [html.EscapeString]. *)
Fixpoint EscapeString (s : string) : string :=
  match s with
  | "" => ""
  | String c s =>
      (if Ascii.eqb c "&" then "&amp;" else if Ascii.eqb c "'" then "&#39;"
       else if Ascii.eqb c "<" then "&lt;" else if Ascii.eqb c ">" then "&gt;"
       else if Ascii.eqb c "034" then "&#34;" else String c "") +:+ EscapeString s
  end.

Section server.
Context `{WebhookLib, CertLib} {op : Type} `{ObjectCodec op}.

Definition Admit (c : controller) (req : AdmissionRequest) : option (AdmissionResponse op) :=
  match c with
  | Certificates => None
  | Defaulting ac => Admit_defaulting ac background req
  | Validation ac => Some (Admit_validation ac background req)
  | ConfigMaps ac => Some (Admit_configmaps ac req)
  end.

(** A warning per line, and the identifier of the request. *)
Definition finish (uid : string) (r : AdmissionResponse op) : AdmissionResponse op :=
  MkAdmissionResponse uid (arAllowed r) (arResult r) (arPatch r)
    (mjoin ∘ map (split "010") <$> arWarnings r).

Definition admissionHandler (c : controller) (body : string) : http_reply op :=
  match decode_review body with
  | Err e => BadRequest ("could not decode body:" +:+ e)
  | Ok None => NoReply
  | Ok (Some req) =>
      match Admit c req with
      | Some r => Review (finish (rqUID req) r)
      | None => NoReply
      end
  end.

Definition ServeHTTP (mux : gmap string controller) (path body : string) : http_reply op :=
  let path' := cleanPath path in
  if negb (String.eqb path' path) then Redirect path'
  else match mux !! path with
       | Some c => admissionHandler c body
       | None => BadRequest ("no controller registered for: " +:+ EscapeString path)
       end.
End server.

(** ** Registration (the [Reconcile] functions) *)

Record LabelSelectorRequirement := MkRequirement {
  lrKey : string;
  lrOperator : string;
  lrValues : list string
}.

Record LabelSelector := MkLabelSelector {
  lsMatchLabels : gmap string string;
  lsMatchExpressions : list LabelSelectorRequirement
}.

Record RuleWithOperations := MkRule {
  ruOperations : list string;
  ruAPIGroups : list string;
  ruAPIVersions : list string;
  ruResources : list string;
  ruScope : option string
}.

(** The fields of a webhook the code reads or writes; the service is its path,
    a pointer. *)
Record WebhookEntry := MkWebhookEntry {
  whName : string;
  whRules : list RuleWithOperations;
  whNamespaceSelector : option LabelSelector;
  whCABundle : string;
  whService : option (option string);
  whReinvocationPolicy : option string
}.

Record WebhookConfiguration := MkWebhookConfiguration {
  wcName : string;
  wcOwnerReferences : list OwnerReference;
  wcWebhooks : list WebhookEntry
}.

#[export] Instance LabelSelectorRequirement_eq_dec : EqDecision LabelSelectorRequirement.
Proof. solve_decision. Defined.
#[export] Instance RuleWithOperations_eq_dec : EqDecision RuleWithOperations.
Proof. solve_decision. Defined.
#[export] Instance LabelSelector_eq_dec : EqDecision LabelSelector.
Proof. solve_decision. Defined.
#[export] Instance WebhookEntry_eq_dec : EqDecision WebhookEntry.
Proof. solve_decision. Defined.
#[export] Instance WebhookConfiguration_eq_dec : EqDecision WebhookConfiguration.
Proof. solve_decision. Defined.

Fixpoint contains (s sub : string) : bool :=
  has_prefix s sub || match s with "" => false | String _ s => contains s sub end.

Definition ensureLabelSelectorRequirements (current want : list LabelSelectorRequirement)
    : list LabelSelectorRequirement :=
  want ++ filter (fun r => contains (lrKey r) "knative.dev" = false) current.

Definition EnsureLabelSelectorExpressions (current : option LabelSelector) (want : LabelSelector)
    : LabelSelector :=
  match current with
  | None => want
  | Some current =>
      MkLabelSelector (lsMatchLabels current)
        match lsMatchExpressions current with
        | [] => lsMatchExpressions want
        | es => ensureLabelSelectorRequirements es (lsMatchExpressions want)
        end
  end.

Definition exclude_selector : LabelSelector :=
  MkLabelSelector ∅ [MkRequirement "webhooks.knative.dev/exclude" "DoesNotExist" []].

(** What the cluster answers in one run. *)
Record registration_env := MkRegistrationEnv {
  reLeader : bool;
  reSecret : result string (gmap string string);
  (** The name and the UID of the system namespace. *)
  reNamespace : result string (string * string);
  reDisableNamespaceOwnership : bool;
  reUpdate : WebhookConfiguration -> option string
}.

(** [NewControllerRef] of the namespace, with [Controller] reset. *)
Definition namespace_ref (ns : string * string) : OwnerReference :=
  MkOwnerReference "v1" "Namespace" ns.1 ns.2 (Some false) (Some true).

Inductive registration_error := NotLeader | RegistrationFailed (message : string).

Definition with_service (path : string) (wh : WebhookEntry) : WebhookEntry :=
  MkWebhookEntry (whName wh) (whRules wh) (whNamespaceSelector wh) (whCABundle wh)
    (Some (Some path)) (whReinvocationPolicy wh).

(** The loop over the webhooks of the configuration. *)
Fixpoint set_entries (name : string) (f : WebhookEntry -> WebhookEntry) (path : string)
    (l : list WebhookEntry) : result string (list WebhookEntry) :=
  match l with
  | [] => Ok []
  | wh :: l =>
      if String.eqb (whName wh) name then
        match whService wh with
        | None => Err ("missing service reference for webhook: " +:+ whName wh)
        | Some _ => rest ← set_entries name f path l; mret (with_service path (f wh) :: rest)
        end
      else rest ← set_entries name f path l; mret (wh :: rest)
  end.

Section registration.
Context `{WebhookLib}.

(** The mutating rules name two operations, the validating ones three. *)
Definition rule_of (operations : list string) (gvk : GroupVersionKind) : RuleWithOperations :=
  let plural := to_lower (Pluralize (gvkKind gvk)) in
  MkRule operations [gvkGroup gvk] [gvkVersion gvk] [plural; plural +:+ "/status"] None.

Definition rule_less (lhs rhs : RuleWithOperations) : bool :=
  let head l := default "" (hd_error l) in
  if negb (String.eqb (head (ruAPIGroups lhs)) (head (ruAPIGroups rhs))) then
    str_ltb (head (ruAPIGroups lhs)) (head (ruAPIGroups rhs))
  else if negb (String.eqb (head (ruAPIVersions lhs)) (head (ruAPIVersions rhs))) then
    str_ltb (head (ruAPIVersions lhs)) (head (ruAPIVersions rhs))
  else str_ltb (head (ruResources lhs)) (head (ruResources rhs)).

Definition rules_of (operations : list string) (ac : resource_admission)
    : list RuleWithOperations :=
  go_sort rule_less (map (rule_of operations ∘ fst) (map_to_list (raHandlers ac))).

Definition configmap_rules : list RuleWithOperations :=
  [MkRule [Create; Update] [""] ["v1"] ["configmaps/*"] (Some "Namespaced")].

(** What each controller writes into its own entry, the path aside. *)
Definition entry_of (c : controller) (caCert : string) (wh : WebhookEntry) : WebhookEntry :=
  let selector := Some (EnsureLabelSelectorExpressions (whNamespaceSelector wh) exclude_selector) in
  match c with
  | Certificates => wh
  | Defaulting ac =>
      MkWebhookEntry (whName wh) (rules_of [Create; Update] ac) selector caCert (whService wh)
        (Some "IfNeeded")
  | Validation ac =>
      MkWebhookEntry (whName wh) (rules_of [Create; Update; Delete] ac) selector caCert
        (whService wh) (whReinvocationPolicy wh)
  | ConfigMaps _ =>
      MkWebhookEntry (whName wh) configmap_rules (whNamespaceSelector wh) caCert (whService wh)
        (whReinvocationPolicy wh)
  end.

(** [reconcileMutatingWebhook] and [reconcileValidatingWebhook], with the
    configuration from the lister: the error, and the update sent. *)
Definition reconcileWebhook (c : controller) (path : string) (env : registration_env)
    (caCert : string) (configured : result string WebhookConfiguration)
    : option registration_error * option WebhookConfiguration :=
  match configured with
  | Err e => (Some (RegistrationFailed ("error retrieving webhook: " +:+ e)), None)
  | Ok configuredWebhook =>
      match if reDisableNamespaceOwnership env then Ok (wcOwnerReferences configuredWebhook)
            else ns ← reNamespace env; mret [namespace_ref ns] with
      | Err e => (Some (RegistrationFailed ("failed to fetch namespace: " +:+ e)), None)
      | Ok owners =>
          match set_entries (wcName configuredWebhook) (entry_of c caCert) path
                  (wcWebhooks configuredWebhook) with
          | Err e => (Some (RegistrationFailed e), None)
          | Ok entries =>
              let current := MkWebhookConfiguration (wcName configuredWebhook) owners entries in
              if bool_decide (configuredWebhook = current) then (None, None)
              else match reUpdate env current with
                   | Some e => (Some (RegistrationFailed ("failed to update webhook: " +:+ e)),
                                Some current)
                   | None => (None, Some current)
                   end
          end
      end
  end.

Definition CACert : string := "ca-cert.pem".

Definition Reconcile (c : controller) (secretName : string) (env : registration_env)
    (configured : result string WebhookConfiguration)
    : option registration_error * option WebhookConfiguration :=
  if reLeader env then
    match reSecret env with
    | Err e => (Some (RegistrationFailed e), None)
    | Ok data =>
        match data !! CACert, Path c with
        | Some caCert, Some path => reconcileWebhook c path env caCert configured
        | _, _ =>
            (Some (RegistrationFailed ("secret " +:+ go_quote secretName +:+ " is missing "
               +:+ go_quote CACert +:+ " key")), None)
        end
    end
  else (Some NotLeader, None).
End registration.

(** ** The API server *)

(** An optional field that was sent is kept. *)
Definition kept {A} (stored sent : option A) : Prop := sent = None \/ stored = sent.

Record stored_rule (stored sent : RuleWithOperations) : Prop := {
  sr_operations : ruOperations stored = ruOperations sent;
  sr_groups : ruAPIGroups stored = ruAPIGroups sent;
  sr_versions : ruAPIVersions stored = ruAPIVersions sent;
  sr_resources : ruResources stored = ruResources sent;
  sr_scope : ruScope stored = ruScope sent \/ ruScope sent = None /\ ruScope stored = Some "*"
}.

Record stored_entry (stored sent : WebhookEntry) : Prop := {
  se_name : whName stored = whName sent;
  se_rules : Forall2 stored_rule (whRules stored) (whRules sent);
  se_selector : kept (whNamespaceSelector stored) (whNamespaceSelector sent);
  se_ca : whCABundle stored = whCABundle sent;
  se_service : whService stored = whService sent;
  se_policy : kept (whReinvocationPolicy stored) (whReinvocationPolicy sent)
}.

Definition with_rules (rules : list RuleWithOperations) (wh : WebhookEntry) : WebhookEntry :=
  MkWebhookEntry (whName wh) rules (whNamespaceSelector wh) (whCABundle wh) (whService wh)
    (whReinvocationPolicy wh).

(** The documented behaviour of the server's defaulting of a configuration: it
    fills in what was left out, the scope of a rule with "*"; and to send what it
    stored, with rules as they were sent before or as stored, stores the same. *)
Record webhook_defaulting (store : WebhookConfiguration -> WebhookConfiguration) : Prop := {
  wd_name : forall cfg, wcName (store cfg) = wcName cfg;
  wd_owners : forall cfg, wcOwnerReferences (store cfg) = wcOwnerReferences cfg;
  wd_entries : forall cfg, Forall2 stored_entry (wcWebhooks (store cfg)) (wcWebhooks cfg);
  wd_again : forall cfg entries,
    Forall2 (fun ab e => e = ab.1 \/ e = with_rules (whRules ab.2) ab.1)
      (zip (wcWebhooks (store cfg)) (wcWebhooks cfg)) entries ->
    store (MkWebhookConfiguration (wcName (store cfg)) (wcOwnerReferences (store cfg)) entries)
    = store cfg
}.

(** How it matches a rule against a request for a resource in a namespace. *)
Definition rule_matches (operation : string) (gvk : GroupVersionKind) (resource sub : string)
    (r : RuleWithOperations) : bool :=
  bool_decide (operation ∈ ruOperations r) && bool_decide (gvkGroup gvk ∈ ruAPIGroups r)
  && bool_decide (gvkVersion gvk ∈ ruAPIVersions r)
  && bool_decide ((if String.eqb sub "" then resource else resource +:+ "/" +:+ sub)
       ∈ ruResources r)
  && bool_decide (ruScope r ∈ [None; Some "*"; Some "Namespaced"]).

(** And a selector against the labels of the namespace. *)
Definition requirement_matches (labels : gmap string string) (r : LabelSelectorRequirement) : bool :=
  let value := labels !! lrKey r in
  let listed := match value with Some v => bool_decide (v ∈ lrValues r) | None => false end in
  if String.eqb (lrOperator r) "In" then listed
  else if String.eqb (lrOperator r) "NotIn" then negb listed
  else if String.eqb (lrOperator r) "Exists" then bool_decide (is_Some value)
  else if String.eqb (lrOperator r) "DoesNotExist" then negb (bool_decide (is_Some value))
  else false.

Definition selector_matches (labels : gmap string string) (s : option LabelSelector) : bool :=
  match s with
  | None => true
  | Some s =>
      forallb (fun kv => bool_decide (labels !! kv.1 = Some kv.2)) (map_to_list (lsMatchLabels s)) &&
      forallb (requirement_matches labels) (lsMatchExpressions s)
  end.

Definition webhook_matches (labels : gmap string string) (operation : string)
    (gvk : GroupVersionKind) (resource sub : string) (wh : WebhookEntry) : bool :=
  selector_matches labels (whNamespaceSelector wh) &&
  existsb (rule_matches operation gvk resource sub) (whRules wh).

(** The requirements of a selector that are not knative's. *)
Definition own_selector (s : option LabelSelector) : option LabelSelector :=
  s ← s;
  Some (MkLabelSelector (lsMatchLabels s)
    (filter (fun r => contains (lrKey r) "knative.dev" = false) (lsMatchExpressions s))).

(** ** Lemmas *)

Lemma ensure_idempotent current want :
  Forall (fun r => contains (lrKey r) "knative.dev" = true) want ->
  ensureLabelSelectorRequirements (ensureLabelSelectorRequirements current want) want
  = ensureLabelSelectorRequirements current want.
Proof.
  intros Hw. unfold ensureLabelSelectorRequirements. f_equal.
  rewrite filter_app, list_filter_filter_l by done.
  assert (filter (fun r => contains (lrKey r) "knative.dev" = false) want = []) as ->; [|done].
  induction Hw as [|r want Hr _ IH]; [done|]. by rewrite filter_cons, decide_False by congruence.
Qed.

Lemma EnsureLabelSelectorExpressions_idempotent current :
  let once := EnsureLabelSelectorExpressions current exclude_selector in
  EnsureLabelSelectorExpressions (Some once) exclude_selector = once.
Proof.
  destruct current as [[ml es]|]; [|reflexivity].
  destruct es as [|e es]; [reflexivity|].
  transitivity (MkLabelSelector ml (ensureLabelSelectorRequirements
    (ensureLabelSelectorRequirements (e :: es) (lsMatchExpressions exclude_selector))
    (lsMatchExpressions exclude_selector))); [reflexivity|].
  by rewrite ensure_idempotent by by repeat constructor.
Qed.

Definition set_entry (name : string) (f : WebhookEntry -> WebhookEntry) (path : string)
    (wh : WebhookEntry) : WebhookEntry :=
  if String.eqb (whName wh) name then with_service path (f wh) else wh.

Lemma set_entries_ok name f path l l' :
  set_entries name f path l = Ok l' -> l' = map (set_entry name f path) l.
Proof.
  revert l'. induction l as [|wh l IH]; intros l'; [by intros [= <-]|]. cbn [set_entries map].
  unfold set_entry at 1. destruct (String.eqb (whName wh) name).
  - destruct (whService wh); [|done]. destruct (set_entries name f path l) as [r|]; [|done].
    intros [= <-]. f_equal. by apply IH.
  - destruct (set_entries name f path l) as [r|]; [|done].
    intros [= <-]. f_equal. by apply IH.
Qed.

Section registered.
Context `{WebhookLib}.

Lemma entry_of_name c ca wh : whName (entry_of c ca wh) = whName wh.
Proof. by destruct c. Qed.

End registered.

(** ** The write path of a source *)

Section writes.
Context {op : Type} `{CodecLaws op, CertLib}.

Definition webhook_write (req : AdmissionRequest) : result string string :=
  admit_write (op:=op) NewDefaultingAdmissionController NewValidationAdmissionController
    background req.

(** A create or an update of a source, on the main resource or its status. *)
Record source_write (req : AdmissionRequest) : Prop := {
  sw_kind : rqKind req = GetGroupVersionKind;
  sw_operation : rqOperation req ∈ [Create; Update]
}.

(** Written out and read again, the object is the same. *)
Definition stores (y : YipYapSource) : Prop := representable (op:=op) y new_source true.

Definition read (doc : string) (y : YipYapSource) : Prop := Decode true doc new_source = Ok y.

Lemma webhook_write_iff req :
  source_write req -> (forall y, read (rqObject req) y -> stores (defaulted background y)) ->
  (forall doc, webhook_write req = Ok doc -> exists y, read (rqObject req) y /\
     old_decodes NewDefaultingAdmissionController new_source req /\
     spec_valid background (ySpec (defaulted background y)) /\
     read doc (defaulted background y)) /\
  (forall y, read (rqObject req) y -> old_decodes NewDefaultingAdmissionController new_source req ->
     spec_valid background (ySpec (defaulted background y)) ->
     exists doc, webhook_write req = Ok doc).
Proof.
  intros [Hk Hop] Hrep.
  destruct (admit_write_iff NewDefaultingAdmissionController NewValidationAdmissionController
    new_source req) with (ctx := background) as [Hsound Hcomplete]; try done; try (by rewrite Hk).
  split.
  - intros doc Hdoc. destruct (Hsound doc Hdoc) as (y&[Hne Hy Hold Hval]&Hread). by exists y.
  - intros y Hy Hold Hval. apply (Hcomplete y). split; try done.
    intros E. unfold read in Hy. rewrite E in Hy. by eapply json_text_nonempty, Decode_json_text.
Qed.
End writes.

(** ** Registration and dispatch *)

Section routes.
Context `{WebhookLib}.

(** The answers of the cluster a run depends on, the update aside. *)
Definition same_answers (env env' : registration_env) : Prop :=
  reLeader env = reLeader env' /\ reSecret env = reSecret env' /\
  reNamespace env = reNamespace env' /\
  reDisableNamespaceOwnership env = reDisableNamespaceOwnership env'.

(** What a run sent: the configuration, with its own entries set. *)
Lemma Reconcile_sent c secretName env cfg w :
  Reconcile c secretName env (Ok cfg) = (None, w) ->
  exists data caCert path owners, reSecret env = Ok data /\ data !! CACert = Some caCert /\
    Path c = Some path /\ reLeader env = true /\
    (if reDisableNamespaceOwnership env then owners = wcOwnerReferences cfg
     else (ns ← reNamespace env; mret [namespace_ref ns]) = Ok owners) /\
    set_entries (wcName cfg) (entry_of c caCert) path (wcWebhooks cfg)
      = Ok (wcWebhooks (default cfg w)) /\
    default cfg w = MkWebhookConfiguration (wcName cfg) owners
      (map (set_entry (wcName cfg) (entry_of c caCert) path) (wcWebhooks cfg)).
Proof.
  unfold Reconcile. destruct (reLeader env); [|done].
  destruct (reSecret env) as [data|] eqn:Es; [|done].
  destruct (data !! CACert) as [ca|] eqn:Eca; [|done].
  destruct (Path c) as [path|]; [|done]. unfold reconcileWebhook.
  destruct (if reDisableNamespaceOwnership env then _ else _) as [owners|] eqn:Eo; [|done].
  destruct (set_entries _ _ _ _) as [entries|] eqn:Ee; [|done].
  set (current := MkWebhookConfiguration _ _ _). intros Hrun.
  assert (default cfg w = current) as ->.
  { case_bool_decide as Heq; [by injection Hrun as <-|].
    destruct (reUpdate env current); [done|]. by injection Hrun as <-. }
  exists data, ca, path, owners. split_and!; try done.
  - destruct (reDisableNamespaceOwnership env); [by injection Eo|done].
  - subst current. f_equal. by apply set_entries_ok.
Qed.

Lemma stored_entries_refl l : Forall2 stored_entry l l.
Proof.
  induction l as [|wh l IH]; constructor; [|done]. split; try done; [|by right..].
  induction (whRules wh); constructor; [split; auto|done].
Qed.

Lemma zip_same l entries :
  Forall2 (fun ab e => e = ab.1 \/ e = with_rules (whRules ab.2) ab.1) (zip l l) entries -> entries = l.
Proof.
  revert entries. induction l as [|wh l IH]; intros entries Hf; inversion Hf as [|ab e z es He Hes]; subst;
    [done|]. f_equal; [|by apply IH]. destruct He as [->| ->]; [done|]. by destruct wh.
Qed.

(** Rewriting an entry as stored gives it the rules as sent. *)
Lemma entry_of_stored c ca path a wh :
  let b := with_service path (entry_of c ca wh) in
  stored_entry a b -> Path c = Some path -> with_service path (entry_of c ca a) = with_rules (whRules b) a.
Proof.
  intros b [Hn _ Hsel Hca Hsvc Hpol] Hp. subst b. destruct a as [an ar asel aca asv apol].
  unfold kept, with_rules, with_service, entry_of in *.
  destruct c; [done|..]; cbn [whName whRules whNamespaceSelector whCABundle whService
    whReinvocationPolicy] in *; subst;
    repeat match goal with
    | Hk : Some _ = None \/ _ |- _ => destruct Hk as [Hk|Hk]; [discriminate Hk|subst]
    end; by rewrite ?EnsureLabelSelectorExpressions_idempotent.
Qed.

Lemma set_entries_services name f path l :
  Forall (fun wh => whName wh = name -> whService wh <> None) l ->
  set_entries name f path l = Ok (map (set_entry name f path) l).
Proof.
  induction 1 as [|wh l Hwh _ IH]; [done|]. cbn [set_entries map]. unfold set_entry at 1.
  rewrite IH. destruct (String.eqb_spec (whName wh) name) as [E|]; [|done].
  destruct (whService wh) eqn:Es; [done|]. by destruct (Hwh E).
Qed.

(** The entries of the next run, over the stored ones. *)
Lemma next_entries c ca path name entries stored :
  Path c = Some path ->
  let sent := map (set_entry name (entry_of c ca) path) entries in
  Forall2 stored_entry stored sent ->
  set_entries name (entry_of c ca) path stored
    = Ok (map (set_entry name (entry_of c ca) path) stored) /\
  Forall2 (fun ab e => e = ab.1 \/ e = with_rules (whRules ab.2) ab.1) (zip stored sent)
    (map (set_entry name (entry_of c ca) path) stored) /\
  (map (set_entry name (entry_of c ca) path) stored = stored <->
   Forall2 (fun a b => whName b = name -> whRules a = whRules b) stored sent).
Proof.
  intros Hp sent Hf.
  assert (Forall2 (fun a b => whName a = whName b /\
      (whName b = name -> whService a <> None) /\
      set_entry name (entry_of c ca) path a
        = if String.eqb (whName b) name then with_rules (whRules b) a else a) stored sent) as Hset.
  { subst sent. clear -Hp Hf. remember (map _ entries) as sent eqn:Es. revert entries Es.
    induction Hf as [|a b stored sent Hab Hf IH]; intros entries Es; [constructor|].
    destruct entries as [|wh entries]; [done|]. injection Es as -> Es.
    constructor; [|by eapply IH]. pose proof (se_name _ _ Hab) as Hn. split; [done|].
    revert Hab Hn. unfold set_entry at 1 2 3 5 6.
    destruct (String.eqb (whName wh) name) eqn:E; intros Hab Hn; unfold set_entry; rewrite Hn.
    - cbn [with_service whName]. rewrite entry_of_name, E.
      split; [by rewrite (se_service _ _ Hab)|]. by apply entry_of_stored.
    - rewrite E. split; [|done]. intros Eb. by rewrite Eb, String.eqb_refl in E. }
  clearbody sent. clear Hf. split_and!.
  - apply set_entries_services. induction Hset as [|a b stored sent (Hn&Hs&_) _ IH]; constructor;
      [by rewrite Hn|done].
  - induction Hset as [|a b stored sent (_&_&Ha) _ IH]; [constructor|]. cbn [zip zip_with map].
    constructor; [|done]. cbn [fst snd]. rewrite Ha. destruct (String.eqb _ _); auto.
  - induction Hset as [|a b stored sent (_&_&Ha) _ IH]; [split; [constructor|done]|].
    cbn [map]. rewrite Forall2_cons, Ha, <- IH.
    destruct (String.eqb_spec (whName b) name) as [E|E].
    + split.
      * intros [= Hr Hrest]. split; [|done]. intros _. by apply (f_equal whRules) in Hr.
      * intros [Hr ->]. rewrite <- (Hr E). by destruct a.
    + split; [by intros [= ->]|by intros [_ ->]].
Qed.

(** The next run, with the same answers of the cluster, leaves the stored
    configuration as it is. *)
Lemma Reconcile_again store c secretName env env' cfg w :
  webhook_defaulting store ->
  Reconcile c secretName env (Ok cfg) = (None, w) ->
  same_answers env env' -> (forall cfg, reUpdate env' cfg = None) ->
  let stored := default cfg (store <$> w) in
  exists w', Reconcile c secretName env' (Ok stored) = (None, w') /\
    default stored (store <$> w') = stored /\
    (w' = None <-> Forall2 (fun a b => whName b = wcName cfg -> whRules a = whRules b)
                    (wcWebhooks stored) (wcWebhooks (default cfg w))).
Proof.
  intros Hd Hrun (Hl&Hs&Hns&Hdis) Hup stored.
  destruct (Reconcile_sent _ _ _ _ _ Hrun) as (data&ca&path&owners&Es&Eca&Hp&El&Eo&Hset&Hsent).
  set (sent := default cfg w) in *.
  assert (wcName stored = wcName cfg /\ wcOwnerReferences stored = owners /\
    Forall2 stored_entry (wcWebhooks stored) (wcWebhooks sent) /\
    forall entries,
      Forall2 (fun ab e => e = ab.1 \/ e = with_rules (whRules ab.2) ab.1)
        (zip (wcWebhooks stored) (wcWebhooks sent)) entries ->
      entries <> wcWebhooks stored ->
      store (MkWebhookConfiguration (wcName stored) (wcOwnerReferences stored) entries) = stored)
    as (Hn&Ho&Hf&Hag).
  { subst sent stored. destruct w as [w|].
    - change (default cfg (store <$> Some w)) with (store w). change (default cfg (Some w)) with w in *.
      assert (wcName w = wcName cfg /\ wcOwnerReferences w = owners) as [Hwn Hwo] by by rewrite Hsent.
      rewrite (wd_name _ Hd), (wd_owners _ Hd). split_and!; [done..|apply (wd_entries _ Hd)|].
      intros entries He _. rewrite <- (wd_name _ Hd w), <- (wd_owners _ Hd w).
      by apply (wd_again _ Hd).
    - change (default cfg (store <$> None)) with cfg. change (default cfg None) with cfg in *.
      split_and!; [done|by rewrite Hsent|apply stored_entries_refl|].
      intros entries He Hne. destruct Hne. by apply zip_same. }
  assert (wcWebhooks sent = map (set_entry (wcName cfg) (entry_of c ca) path) (wcWebhooks cfg)) as Hw
    by by rewrite Hsent.
  rewrite Hw in Hf.
  destruct (next_entries c ca path (wcName cfg) (wcWebhooks cfg) (wcWebhooks stored) Hp Hf)
    as (Hset'&Hover&Hiff).
  set (entries := map (set_entry _ _ _) (wcWebhooks stored)) in *. clearbody entries.
  set (current := MkWebhookConfiguration (wcName cfg) owners entries).
  assert (Reconcile c secretName env' (Ok stored)
    = (None, if bool_decide (stored = current) then None else Some current)) as Hrun'.
  { unfold Reconcile. rewrite <- Hl, El, <- Hs, Es, Eca, Hp. unfold reconcileWebhook.
    rewrite <- Hns, <- Hdis, Hn, Hset'.
    assert ((if reDisableNamespaceOwnership env then Ok (wcOwnerReferences stored)
             else ns ← reNamespace env; mret [namespace_ref ns]) = Ok owners) as ->
      by (destruct (reDisableNamespaceOwnership env); [by rewrite Ho|done]).
    fold current. case_bool_decide; [done|]. by rewrite Hup. }
  assert (stored = current <-> entries = wcWebhooks stored) as Hcur.
  { subst current. split; [by intros ->|]. intros E. rewrite E.
    rewrite <- Hn, <- Ho. by destruct stored. }
  exists (if bool_decide (stored = current) then None else Some current). split; [done|].
  rewrite Hw, <- Hiff. case_bool_decide as E; [by split; [|split; [rewrite <- Hcur|]]|].
  split; [|split; [done|intros E'; by apply Hcur in E']].
  cbn [default fmap option_fmap option_map]. subst current. rewrite <- Hn, <- Ho. apply Hag.
  - rewrite Hw. exact Hover.
  - intros E'. by apply E, Hcur.
Qed.

(** The controllers of the process behind their paths. *)
Definition mux_of (getenv : string -> string) : gmap string controller :=
  <["/config-validation" := ConfigMaps (NewConfigValidationController getenv)]>
  (<["/resource-validation" := Validation NewValidationAdmissionController]>
   {["/defaulting" := Defaulting NewDefaultingAdmissionController]}).

Lemma New_main getenv :
  New ∅ (admission_controllers (prControllers (main getenv))) = Ok (mux_of getenv).
Proof. reflexivity. Qed.

Lemma rules_of_types operations name path wc strict cbs :
  rules_of operations (MkResourceAdmission name path types wc strict cbs)
  = [rule_of operations GetGroupVersionKind].
Proof. unfold rules_of. cbn [raHandlers]. unfold types. by rewrite map_to_list_singleton. Qed.

Lemma source_rule_matches operations o sub r :
  Pluralize "YipYapSource" = "YipYapSources" -> o ∈ operations -> sub ∈ [""; "status"] ->
  stored_rule r (rule_of operations GetGroupVersionKind) ->
  rule_matches o GetGroupVersionKind "yipyapsources" sub r = true.
Proof.
  intros Hp Ho Hsub [Er Eg Ev Es Hscope]. unfold rule_matches. rewrite Er, Eg, Ev, Es.
  unfold rule_of in *. cbn [gvkKind GetGroupVersionKind ruScope] in *.
  rewrite Hp. change (to_lower "YipYapSources") with "yipyapsources".
  cbn [ruOperations ruAPIGroups ruAPIVersions ruResources].
  rewrite (bool_decide_true (o ∈ operations)) by done.
  rewrite (bool_decide_true (ruScope r ∈ _))
    by (destruct Hscope as [->|[_ ->]]; [left|right; left]).
  set_unfold in Hsub. destruct Hsub as [->|[->|[]]]; reflexivity.
Qed.

(** Any namespace without the label of exclusion, and that meets the requirements
    that are not knative's. *)
Lemma selector_matches_ensure labels current :
  selector_matches labels (Some (EnsureLabelSelectorExpressions current exclude_selector))
  = negb (bool_decide (is_Some (labels !! "webhooks.knative.dev/exclude")))
    && selector_matches labels (own_selector current).
Proof.
  assert (forall es, forallb (requirement_matches labels)
      (ensureLabelSelectorRequirements es (lsMatchExpressions exclude_selector))
    = negb (bool_decide (is_Some (labels !! "webhooks.knative.dev/exclude")))
      && forallb (requirement_matches labels)
           (filter (fun r => contains (lrKey r) "knative.dev" = false) es)) as He by reflexivity.
  destruct current as [[ml es]|].
  2:{ change (selector_matches labels (own_selector None)) with true. rewrite andb_true_r.
      transitivity (requirement_matches labels
        (MkRequirement "webhooks.knative.dev/exclude" "DoesNotExist" []) && true); [reflexivity|].
      rewrite andb_true_r. reflexivity. }
  assert (EnsureLabelSelectorExpressions (Some (MkLabelSelector ml es)) exclude_selector
    = MkLabelSelector ml (ensureLabelSelectorRequirements es (lsMatchExpressions exclude_selector))) as ->
    by (by destruct es).
  cbn [own_selector mbind option_bind selector_matches lsMatchLabels lsMatchExpressions].
  rewrite He. destruct (forallb _ (map_to_list ml)); [done|]. by rewrite andb_false_r.
Qed.

(** The entry of a source webhook, as stored. *)
Lemma source_entry_matches c ca path wh wh' labels o sub :
  Pluralize "YipYapSource" = "YipYapSources" ->
  c = Defaulting NewDefaultingAdmissionController \/ c = Validation NewValidationAdmissionController ->
  stored_entry wh' (with_service path (entry_of c ca wh)) ->
  o ∈ [Create; Update] -> sub ∈ [""; "status"] ->
  webhook_matches labels o GetGroupVersionKind "yipyapsources" sub wh'
  = negb (bool_decide (is_Some (labels !! "webhooks.knative.dev/exclude")))
    && selector_matches labels (own_selector (whNamespaceSelector wh)).
Proof.
  intros Hplural Hc [_ Hrules Hsel _ _ _] Ho Hsub. unfold webhook_matches, kept in *.
  assert (whNamespaceSelector wh'
    = Some (EnsureLabelSelectorExpressions (whNamespaceSelector wh) exclude_selector)) as ->.
  { destruct Hc as [-> | ->]; cbn [entry_of with_service whNamespaceSelector] in Hsel;
      by destruct Hsel. }
  rewrite selector_matches_ensure.
  assert (exists operations r, whRules wh' = [r] /\ o ∈ operations /\
    stored_rule r (rule_of operations GetGroupVersionKind)) as (operations&r&->&Hop&Hr).
  { destruct Hc as [-> | ->]; cbn [entry_of with_service whRules] in Hrules;
      [unfold NewDefaultingAdmissionController in Hrules|unfold NewValidationAdmissionController in Hrules];
      rewrite rules_of_types in Hrules;
      apply Forall2_cons_inv_r in Hrules as (r&rest&Hr&Hrest%Forall2_nil_inv_r&->); subst rest;
      eexists _, r; (split; [reflexivity|]); (split; [|exact Hr]); [done|].
    rewrite !elem_of_cons, elem_of_nil in *. tauto. }
  cbn [existsb]. rewrite (source_rule_matches operations) by done. by rewrite andb_true_r.
Qed.
End routes.

(** ** Theorems *)

(** C11. What the two webhooks let into the cluster: a create or an update of a
    source, or of its status, is stored exactly when its object and the old
    one can be read and the defaulted object is valid; the stored document
    then reads as the defaulted object, with a mode, a secret key and a base
    URL. *)
Theorem stored_sources_are_defaulted_and_valid `{CodecLaws op, CertLib} req :
  source_write req -> (forall y, read (rqObject req) y -> stores (defaulted background y)) ->
  (forall doc, webhook_write req = Ok doc -> exists y y', read (rqObject req) y /\
     SetDefaults background (Some y) = Some y' /\ read doc y' /\
     spec_valid background (ySpec y') /\
     spMode (ySpec y') ∈ [YipYapSourceModeAuto; YipYapSourceModePoll; YipYapSourceModeStream] /\
     akKey (spAPIKeyRef (ySpec y')) <> "" /\ spBaseURL (ySpec y') <> "") /\
  ((exists doc, webhook_write req = Ok doc) <->
   exists y y', read (rqObject req) y /\ SetDefaults background (Some y) = Some y' /\
     old_decodes NewDefaultingAdmissionController new_source req /\
     spec_valid background (ySpec y')).
Proof.
  intros Hsw Hrep. destruct (webhook_write_iff req Hsw Hrep) as [Hsound Hcomplete].
  split; [|split].
  - intros doc Hdoc. destruct (Hsound doc Hdoc) as (y&Hy&_&Hval&Hread).
    exists y, (defaulted background y). split_and!; try done; cbn.
    + pose proof (valid_mode _ _ Hval) as Hm. cbn in Hm.
      destruct (String.eqb_spec (spMode (ySpec y)) ""); [left|].
      apply elem_of_cons in Hm as [?|Hm]; [done|exact Hm].
    + by destruct (String.eqb_spec (akKey (spAPIKeyRef (ySpec y))) "").
    + by destruct (String.eqb_spec (spBaseURL (ySpec y)) "").
  - intros [doc Hdoc]. destruct (Hsound doc Hdoc) as (y&Hy&Hold&Hval&_).
    by exists y, (defaulted background y).
  - intros (y&y'&Hy&[= <-]&Hold&Hval). by apply (Hcomplete y).
Qed.

(** C12. What has been let in is never locked out: after a write of a source
    was stored, every later write that keeps its spec and its namespace (the
    controller's status updates and finalizer changes) is let through, and
    stored as it was sent. *)
Theorem stored_sources_stay_writable `{CodecLaws op, CertLib} req req' doc y y' :
  source_write req -> (forall y, read (rqObject req) y -> stores (defaulted background y)) ->
  webhook_write req = Ok doc -> read doc y ->
  source_write req' -> read (rqObject req') y' -> stores y' -> rqOldObject req' = doc ->
  ySpec y' = ySpec y -> omNamespace (yMeta y') = omNamespace (yMeta y) ->
  exists doc', webhook_write req' = Ok doc' /\ read doc' y'.
Proof.
  intros Hsw Hrep Hdoc Hread Hsw' Hy' Hst Hold Hspec Hns.
  destruct (webhook_write_iff req Hsw Hrep) as [Hsound _].
  destruct (Hsound doc Hdoc) as (y0&_&_&Hval&Hread0).
  assert (y = defaulted background y0) as -> by (unfold read in *; congruence).
  assert (defaulted background y' = y') as Hfix.
  { destruct y' as [m s st]. cbn in Hspec, Hns. subst s. unfold defaulted. cbn.
    unfold with_spec. cbn. f_equal. unfold WithinParent at 1. rewrite Hns.
    apply Spec_SetDefaults_idempotent. }
  destruct (webhook_write_iff req' Hsw') as [Hsound' Hcomplete'].
  { intros y1 Hy1. assert (y1 = y') as -> by (unfold read in *; congruence). by rewrite Hfix. }
  destruct (Hcomplete' y' Hy') as [doc' Hdoc'].
  - right. exists (defaulted background y0). by rewrite Hold.
  - by rewrite Hfix, Hspec.
  - exists doc'. split; [done|].
    destruct (Hsound' doc' Hdoc') as (y1&Hy1&_&_&Hr).
    assert (y1 = y') as -> by (unfold read in *; congruence). by rewrite Hfix in Hr.
Qed.

(** C27. Registration and dispatch meet.  Once a controller of the process has
    reconciled its webhook configuration without an error, the configuration as an
    API server stores it, defaults filled in, has in the entry of its name a path
    under which the process's server answers with that controller; the entries of the
    two source webhooks match the creates and updates of a source and of its status
    exactly in the namespaces that have no label webhooks.knative.dev/exclude and that
    meet the entry's own requirements, those on labels that are not knative's; other
    entries are sent as they were.  The next run, with the same answers of the
    cluster and its update let through, leaves the stored configuration as it is: it sends nothing exactly when the
    server has kept the rules as they were sent, and otherwise sends them again. *)
Theorem registered_webhooks_reach_their_controllers `{WebhookLib, CertLib, ObjectCodec op}
    store getenv c secretName env cfg w :
  Pluralize "YipYapSource" = "YipYapSources" -> webhook_defaulting store ->
  c ∈ prControllers (main getenv) -> wcName cfg = Name c ->
  Reconcile c secretName env (Ok cfg) = (None, w) ->
  let sent := default cfg w in
  let stored := default cfg (store <$> w) in
  (exists mux, New ∅ (admission_controllers (prControllers (main getenv))) = Ok mux /\
   forall i wh wh', wcWebhooks cfg !! i = Some wh -> wcWebhooks stored !! i = Some wh' ->
     if String.eqb (whName wh) (Name c) then
       exists p, whService wh' = Some (Some p) /\
         (forall body, ServeHTTP (op:=op) mux p body = admissionHandler c body) /\
         (Name c <> configValidationWebhookName -> forall o sub labels, o ∈ [Create; Update] ->
            sub ∈ [""; "status"] ->
            webhook_matches labels o GetGroupVersionKind "yipyapsources" sub wh'
            = negb (bool_decide (is_Some (labels !! "webhooks.knative.dev/exclude")))
              && selector_matches labels (own_selector (whNamespaceSelector wh)))
     else wcWebhooks sent !! i = Some wh) /\
  (forall env', same_answers env env' -> (forall cfg, reUpdate env' cfg = None) ->
     exists w', Reconcile c secretName env' (Ok stored) = (None, w') /\
       default stored (store <$> w') = stored /\
       (w' = None <-> Forall2 (fun a b => whName b = Name c -> whRules a = whRules b)
                       (wcWebhooks stored) (wcWebhooks sent))).
Proof.
  intros Hplural Hd Hc Hname Hrun sent stored. split.
  2:{ intros env' Hsame Hup. rewrite <- Hname. by eapply Reconcile_again. }
  destruct (Reconcile_sent _ _ _ _ _ Hrun) as (data&ca&path&owners&_&_&Hpath&_&_&_&Hsent).
  fold sent in Hsent. exists (mux_of getenv). split; [apply New_main|].
  intros i wh wh' Hwh Hwh'.
  assert (wcWebhooks sent !! i = Some (set_entry (wcName cfg) (entry_of c ca) path wh)) as Hi
    by (rewrite Hsent; cbn [wcWebhooks]; by rewrite list_lookup_fmap, Hwh).
  assert (Forall2 stored_entry (wcWebhooks stored) (wcWebhooks sent)) as Hf.
  { subst sent stored. destruct w as [w|]; [apply (wd_entries _ Hd)|apply stored_entries_refl]. }
  pose proof (Forall2_lookup_lr _ _ _ _ _ _ Hf Hwh' Hi) as He.
  unfold set_entry in He, Hi. rewrite Hname in He, Hi.
  destruct (String.eqb (whName wh) (Name c)); [|done]. exists path.
  split; [by rewrite (se_service _ _ He)|].
  assert (c <> Certificates) as Hnc by (intros ->; done).
  cbn [main prControllers] in Hc. rewrite !elem_of_cons, elem_of_nil in Hc.
  destruct Hc as [->|[->|[->|[->|[]]]]]; [done|..]; injection Hpath as <-;
    (split; [intros body; reflexivity|]); [..|done];
    intros _ o sub labels Ho Hsub; (eapply source_entry_matches; [done| |exact He|done..]);
    [by left|by right].
Qed.

(** ** Witnesses *)

(** A codec that knows a few documents, with patches that replace the whole
    document: a source as sent, the same defaulted, and with a status; and one that
    polls, which defaulting leaves as it is. *)
Definition sent_source : YipYapSource :=
  with_spec sample_source
    (MkSpec (spSink sample_spec) None (MkAPIKeyReference "yipyap-key" "") "" None "" "").
Definition stored_source : YipYapSource := defaulted background sent_source.
Definition running_source : YipYapSource :=
  with_status stored_source (set_observed_generation 3 empty_status).
Definition polling_source : YipYapSource :=
  defaulted background (with_spec sample_source
    (MkSpec (spSink sample_spec) (spCloudEventOverrides sample_spec) (spAPIKeyRef sample_spec)
       (spBaseURL sample_spec) None "poll" "")).

Definition documents : list (string * YipYapSource) :=
  [("sent", sent_source); ("stored", stored_source); ("running", running_source);
   ("polling", polling_source)].

Definition lookup_document (p : string * YipYapSource -> bool)
    : result string (string * YipYapSource) :=
  match find p documents with Some d => Ok d | None => Err "unknown" end.

Definition replace_codec : ObjectCodec string := {|
  Decode _ a _ := d ← lookup_document (fun d => String.eqb d.1 a); mret d.2;
  Marshal y := d ← lookup_document (fun d => bool_decide (d.2 = y)); mret d.1;
  CreatePatch _ b := Ok [b];
  Unmarshal_unstructured _ := None;
  apply_patch p a := Some (foldl (fun _ b => b) a p)
|}.

Lemma lookup_document_ok p d :
  lookup_document p = Ok d ->
  d.1 <> "" /\ exists a, Marshal (ObjectCodec := replace_codec) d.2 = Ok a.
Proof.
  unfold lookup_document. destruct (find p documents) eqn:E; [|done]. intros [= <-].
  apply find_some in E as [Hd _]. destruct Hd as [<-|[<-|[<-|[<-|[]]]]];
    (split; [done|]); eexists; vm_compute; reflexivity.
Qed.

Lemma documents_roundtrip strict a y0 y :
  Decode (ObjectCodec := replace_codec) strict a y0 = Ok y ->
  a <> "" /\ exists d, Marshal (ObjectCodec := replace_codec) y = Ok d.
Proof.
  cbn [Decode replace_codec]. destruct (lookup_document _) as [d|] eqn:E; [|done]. intros [= <-].
  split; [|by eapply lookup_document_ok]. unfold lookup_document in E.
  destruct (find _ documents) as [d'|] eqn:Ef; [|done]. injection E as ->.
  apply find_some in Ef as [Hd <-%String.eqb_eq].
  by destruct Hd as [<-|[<-|[<-|[<-|[]]]]].
Qed.

#[local] Instance replace_laws : CodecLaws string (H := replace_codec).
Proof.
  refine (Build_CodecLaws string replace_codec eq _ (fun a => a <> "") _ _ _ _ _ _ _ _ _).
  - by intros [].
  - intros s ? <- a ? <- y0 ? <-. done.
  - intros s a y0 y Hy. by apply documents_roundtrip in Hy as [? _].
  - intros y a. cbn [Marshal replace_codec].
    destruct (lookup_document _) as [d|] eqn:E; [|done]. intros [= <-].
    by eapply lookup_document_ok.
  - intros s a y0 y Hy. by apply documents_roundtrip in Hy as [_ ?].
  - intros a b _ _. by eexists.
  - intros a b p [= <-]. by constructor.
  - intros p q a. cbn. by rewrite foldl_app.
Defined.

Definition create_request : AdmissionRequest :=
  MkAdmissionRequest "uid-1" GetGroupVersionKind "" Create "sent" "".
Definition status_request : AdmissionRequest :=
  MkAdmissionRequest "uid-2" GetGroupVersionKind "status" Update "running" "stored".

Lemma sent_stores y :
  read (H := replace_codec) (rqObject create_request) y ->
  stores (H := replace_codec) (defaulted background y).
Proof.
  intros [= <-]. exists "stored". split; vm_compute; reflexivity.
Qed.

Lemma stored_sources_are_defaulted_and_valid_witness :
  webhook_write (H := replace_codec) (H1 := no_cert_lib) create_request = Ok "stored" /\
  spec_valid (H := no_cert_lib) background (ySpec stored_source).
Proof.
  split; [vm_compute; reflexivity|].
  destruct (stored_sources_are_defaulted_and_valid (H0 := replace_laws) (H1 := no_cert_lib)
    create_request) as [Hall _].
  - split; [reflexivity|left].
  - exact sent_stores.
  - destruct (Hall "stored") as (y&y'&_&_&Hr&Hv&_); [vm_compute; reflexivity|].
    unfold read in Hr. vm_compute in Hr. injection Hr as <-. exact Hv.
Defined.

Lemma stored_sources_stay_writable_witness :
  exists doc', webhook_write (H := replace_codec) (H1 := no_cert_lib) status_request = Ok doc' /\
    read (H := replace_codec) doc' running_source.
Proof.
  apply (stored_sources_stay_writable (H0 := replace_laws) (H1 := no_cert_lib)
    create_request status_request "stored" stored_source running_source).
  - split; [reflexivity|left].
  - exact sent_stores.
  - vm_compute. reflexivity.
  - vm_compute. reflexivity.
  - split; [reflexivity|right; left].
  - vm_compute. reflexivity.
  - exists "running". split; vm_compute; reflexivity.
  - reflexivity.
  - reflexivity.
  - reflexivity.
Defined.

#[local] Instance sample_webhook_lib : WebhookLib := {|
  decode_configmap := fun _ => Err "none";
  Checksum := fun s => s;
  NewConfigFromConfigMap := fun _ => None;
  o11y_Parse := fun _ => None;
  decode_review := fun _ => Ok (Some create_request);
  Pluralize := fun s => s +:+ "s"
|}.

Definition sample_env : registration_env :=
  MkRegistrationEnv true (Ok {[ CACert := "ca" ]}) (Ok ("yipyap-sources", "ns-uid")) false
    (fun _ => None).

Definition sample_entry : WebhookEntry :=
  MkWebhookEntry validationWebhookName [] None "" (Some None) None.

Definition sample_configuration : WebhookConfiguration :=
  MkWebhookConfiguration validationWebhookName [] [sample_entry].

(** The rules the process registers also name deletions and the status, which
    the manifests and the comments of main.go do not. *)
Definition registered_configuration : WebhookConfiguration :=
  MkWebhookConfiguration validationWebhookName [namespace_ref ("yipyap-sources", "ns-uid")]
    [MkWebhookEntry validationWebhookName
       [MkRule [Create; Update; Delete] ["sources.yipyap.run"] ["v1alpha1"]
          ["yipyapsources"; "yipyapsources/status"] None]
       (Some exclude_selector) "ca" (Some (Some "/resource-validation")) None].

Example registered_rules :
  Reconcile (Validation NewValidationAdmissionController) "yipyap-source-webhook-certs" sample_env
    (Ok sample_configuration) = (None, Some registered_configuration).
Proof. vm_compute. reflexivity. Qed.

(** A server that fills in the scopes. *)
Definition fill_rule (r : RuleWithOperations) : RuleWithOperations :=
  MkRule (ruOperations r) (ruAPIGroups r) (ruAPIVersions r) (ruResources r)
    (Some (default "*" (ruScope r))).
Definition fill_scopes (cfg : WebhookConfiguration) : WebhookConfiguration :=
  MkWebhookConfiguration (wcName cfg) (wcOwnerReferences cfg)
    (map (fun wh => with_rules (map fill_rule (whRules wh)) wh) (wcWebhooks cfg)).

Lemma fill_rules_again rules : map fill_rule (map fill_rule rules) = map fill_rule rules.
Proof. induction rules as [|r rules IH]; cbn; [done|]. by rewrite IH. Qed.

Lemma fill_scopes_defaulting : webhook_defaulting fill_scopes.
Proof.
  split; [done..| |].
  - intros cfg. cbn [fill_scopes wcWebhooks].
    induction (wcWebhooks cfg) as [|wh l IH]; constructor; [|done].
    split; try done; [|by right..]. cbn [whRules with_rules].
    induction (whRules wh) as [|r rules IHr]; constructor; [|done].
    split; try done. cbn [ruScope fill_rule]. destruct (ruScope r); [by left|by right].
  - intros cfg entries. unfold fill_scopes. cbn [wcName wcOwnerReferences wcWebhooks]. intros Hf. f_equal.
    revert entries Hf. induction (wcWebhooks cfg) as [|wh l IH]; intros entries Hf;
      cbn [map zip zip_with] in Hf; inversion Hf as [|ab e z es He Hes]; subst; [done|].
    cbn [map]. f_equal; [|by apply IH]. cbn [fst snd] in He.
    destruct He as [->| ->]; unfold with_rules; cbn; by rewrite ?fill_rules_again.
Qed.

Lemma registered_webhooks_reach_their_controllers_witness :
  let stored := fill_scopes registered_configuration in
  stored <> registered_configuration /\
  exists mux, New ∅ (admission_controllers (prControllers (main (fun _ => "")))) = Ok mux /\
    (exists p, whService <$> (wcWebhooks stored !! 0%nat) = Some (Some (Some p)) /\
      forall body, ServeHTTP (H0 := no_cert_lib) (H1 := replace_codec) mux p body
        = admissionHandler (H0 := no_cert_lib) (H1 := replace_codec)
            (Validation NewValidationAdmissionController) body) /\
    exists w', Reconcile (Validation NewValidationAdmissionController) "yipyap-source-webhook-certs"
        sample_env (Ok stored) = (None, w') /\ fill_scopes (default stored w') = stored.
Proof.
  cbv zeta. split; [vm_compute; discriminate|].
  destruct (registered_webhooks_reach_their_controllers (H0 := no_cert_lib) (H1 := replace_codec)
    fill_scopes (fun _ => "") (Validation NewValidationAdmissionController) "yipyap-source-webhook-certs"
    sample_env sample_configuration (Some registered_configuration))
    as [(mux&Hmux&Hroute) Hagain].
  - reflexivity.
  - exact fill_scopes_defaulting.
  - right; right; left.
  - reflexivity.
  - vm_compute. reflexivity.
  - exists mux. split; [exact Hmux|]. split.
    + destruct (Hroute 0%nat sample_entry _ eq_refl eq_refl) as (p&Hp&Hserve&_).
      exists p. split; [|exact Hserve]. cbn in Hp |- *. by rewrite Hp.
    + destruct (Hagain sample_env) as (w'&Hrun&Hst&_); [repeat split|reflexivity|].
      exists w'. split; [exact Hrun|]. destruct w' as [w'|]; [exact Hst|vm_compute; reflexivity].
Defined.
