(* ===== verification/EndToEnd.v ===== *)
(** * From a write of a source to the delivery of its events

    Composes the three processes: what the webhooks let into the cluster
    (Webhook.v), the Deployment the controller settles for it (Reconcile.v), and the
    adapter that runs in its container (Adapter.v), whose cursor promises what Run.v
    says.  The kubelet gives the container its environment ([env_lookup]). *)

From S2P Require Import Prelude GoStrings GoTime GoJson CondSet FieldError Types Api Admission.
From S2P Require Import Lifecycle Names Deployment Reconcile GoHttp Config Mode Handoff Sink Poll Stream Run.
From S2P Require Import Webhook Adapter.
Local Open Scope string_scope.
Local Open Scope list_scope.

(** ** Lemmas *)




(** ** Theorem *)


(** ** Witness *)


