(* ===== verification/FakeClientset.v ===== *)
(** * The fake clientset (clientset/versioned/fake, client-go/testing, gentype/fake.go)

    The clientset the tests of the controller run against: the object tracker with
    its watchers, the chain of reactors an action goes through, the typed client
    whose methods are actions.  A step gives [None] for a panic.  What the tracker
    holds here are sources; options are not recorded with an action, and nobody
    reads or stops a watcher, whose channel has room for a hundred events. *)

From S2P Require Import Prelude GoStrings Rest Types Api Admission Lifecycle KindReconciler Leader.
From S2P Require Import Tracker Resolver Scheme Webhook.
Local Open Scope string_scope.
Local Open Scope list_scope.

(** ** Objects and actions (testing/actions.go) *)

Inductive runtime_object :=
| ASource (y : YipYapSource)
| AList (items : list YipYapSource).

Inductive action_impl :=
| GetActionImpl (name : string)
| ListActionImpl (kind : GroupVersionKind)
| CreateActionImpl (obj : YipYapSource)
| UpdateActionImpl (obj : YipYapSource)
| DeleteActionImpl (name : string)
| DeleteCollectionActionImpl
| PatchActionImpl (name pt data : string)
| WatchActionImpl.

Record Action := MkAction {
  acVerb : string;
  acResource : GroupVersionResource;
  acSubresource : string;
  acNamespace : string;
  acImpl : action_impl
}.

(** What the fakes take from elsewhere: the two selectors of a list, parsed, as a
    test of an item ([None] when one does not parse), the effect of a patch of a
    given type on an object, and the body of an apply, decoded as an unstructured
    object that is given a name: the name it then has and the object as JSON. *)
Class FakeLib := {
  parse_selectors : string -> string -> option (YipYapSource -> bool);
  apply_configuration : string -> string -> result string (string * string);
  apply_patch_to : string -> string -> YipYapSource -> result string YipYapSource
}.

(** ** The object tracker (testing/fixture.go) *)

Inductive watch_type := Added | Modified | Deleted.
Record watch_event := MkWatchEvent { weType : watch_type; weObject : YipYapSource }.

(** The events a watcher has not delivered. *)
Abbreviation channel := (list watch_event).
Definition DefaultChanSize : nat := 100.

Record objectTracker := MkTracker {
  trObjects : gmap GroupVersionResource (gmap NamespacedName YipYapSource);
  trWatchers : gmap GroupVersionResource (gmap string (list channel))
}.

Definition NewObjectTracker : objectTracker := MkTracker ∅ ∅.

Definition gvr_resource (gvr : GroupVersionResource) : string :=
  if String.eqb (gvrGroup gvr) "" then gvrResource gvr else gvrResource gvr +:+ "." +:+ gvrGroup gvr.

(** [NewAlreadyExists], [NewNotFound] and [NewBadRequest]. *)
Definition AlreadyExists (gvr : GroupVersionResource) (name : string) : api_error :=
  ApiOther (gvr_resource gvr +:+ " " +:+ go_quote name +:+ " already exists").
Definition BadRequest (msg : string) : api_error := ApiOther msg.

Definition with_namespace (ns : string) (y : YipYapSource) : YipYapSource :=
  let m := yMeta y in
  MkYipYapSource
    (MkObjectMeta (omName m) ns (omUID m) (omGeneration m) (omResourceVersion m)
       (omDeletionTimestamp m) (omFinalizers m) (omRest m)) (ySpec y) (yStatus y).

(** An event for a watcher: a full channel panics. *)
Definition send_event (e : watch_event) (c : channel) : option channel :=
  if (length c <? DefaultChanSize)%nat then Some (c ++ [e]) else None.

(** The event for all the watchers of [getWatches]: those of the namespace, then
    those of all namespaces. *)
Definition notify_at (e : watch_event) (ns : string) (m : gmap string (list channel))
    : option (gmap string (list channel)) :=
  match m !! ns with
  | Some cs =>
      match mapM (M := option) (send_event e) cs with Some cs => Some (<[ns := cs]> m) | None => None end
  | None => Some m
  end.

Definition notify (e : watch_event) (gvr : GroupVersionResource) (ns : string)
    (ws : gmap GroupVersionResource (gmap string (list channel)))
    : option (gmap GroupVersionResource (gmap string (list channel))) :=
  match ws !! gvr with
  | None => Some ws
  | Some m =>
      m ← notify_at e ns m;
      m ← (if String.eqb ns "" then Some m else notify_at e "" m);
      Some (<[gvr := m]> ws)
  end.

Definition objects_of (gvr : GroupVersionResource) (t : objectTracker) : gmap NamespacedName YipYapSource :=
  default ∅ (trObjects t !! gvr).

(** A call of the tracker: its error, if any, and the tracker after it; [None] for
    a panic. *)
Abbreviation tracker_call := (option (result api_error unit * objectTracker)).

Definition tr_add (gvr : GroupVersionResource) (obj : YipYapSource) (ns : string)
    (replaceExisting : bool) (t : objectTracker) : tracker_call :=
  let obj := if String.eqb (omNamespace (yMeta obj)) "" then with_namespace ns obj else obj in
  if negb (String.eqb ns (omNamespace (yMeta obj))) then
    Some (Err (BadRequest ("request namespace does not match object namespace, request: " +:+
                 go_quote ns +:+ " object: " +:+ go_quote (omNamespace (yMeta obj)))), t)
  else
    let objs := objects_of gvr t in
    let t := MkTracker (<[gvr := objs]> (trObjects t)) (trWatchers t) in
    let key := MkNamespacedName (omNamespace (yMeta obj)) (omName (yMeta obj)) in
    let stored ws := Some (Ok tt, MkTracker (<[gvr := <[key := obj]> objs]> (trObjects t)) ws) in
    match objs !! key with
    | Some _ =>
        if replaceExisting then
          ws ← notify (MkWatchEvent Modified obj) gvr ns (trWatchers t); stored ws
        else Some (Err (AlreadyExists gvr (omName (yMeta obj))), t)
    | None =>
        if replaceExisting then Some (Err ApiNotFound, t)
        else ws ← notify (MkWatchEvent Added obj) gvr ns (trWatchers t); stored ws
    end.

Definition tr_Get (gvr : GroupVersionResource) (ns name : string) (t : objectTracker)
    : result api_error YipYapSource :=
  match objects_of gvr t !! MkNamespacedName ns name with
  | Some y => Ok y
  | None => Err ApiNotFound
  end.

Definition tr_Delete (gvr : GroupVersionResource) (ns name : string) (t : objectTracker) : tracker_call :=
  let key := MkNamespacedName ns name in
  match objects_of gvr t !! key with
  | None => Some (Err ApiNotFound, t)
  | Some obj =>
      ws ← notify (MkWatchEvent Deleted obj) gvr ns (trWatchers t);
      Some (Ok tt, MkTracker (<[gvr := delete key (objects_of gvr t)]> (trObjects t)) ws)
  end.

(** [filterByNamespace], in the order of namespace and name. *)
Definition object_less (a b : YipYapSource) : bool :=
  if String.eqb (omNamespace (yMeta a)) (omNamespace (yMeta b))
  then str_ltb (omName (yMeta a)) (omName (yMeta b))
  else str_ltb (omNamespace (yMeta a)) (omNamespace (yMeta b)).

Definition filterByNamespace (objs : gmap NamespacedName YipYapSource) (ns : string)
    : list YipYapSource :=
  go_sort object_less
    (filter (fun y => ns = "" \/ omNamespace (yMeta y) = ns) (map snd (map_to_list objs))).

(** The list has to be a type of the scheme. *)
Definition tr_List (scheme : Scheme) (gvr : GroupVersionResource) (gvk : GroupVersionKind)
    (ns : string) (t : objectTracker) : result api_error (list YipYapSource) :=
  let listGVK := MkGVK (gvkGroup gvk)
                   (if String.eqb (gvkVersion gvk) "" then APIVersionInternal else gvkVersion gvk)
                   (gvkKind gvk +:+ "List") in
  match NewObject scheme listGVK with
  | Some ty =>
      if bool_decide (ty = source_object "YipYapSourceList")
      then Ok (filterByNamespace (objects_of gvr t) ns)
      else Err (ApiOther (go_quote (gvkKind listGVK) +:+ " is not a list type"))
  | None => Err (ApiOther ("no kind is registered for " +:+ gvkKind listGVK))
  end.

(** A watcher is told apart by its namespace and its place among those of it. *)
Definition tr_Watch (gvr : GroupVersionResource) (ns : string) (t : objectTracker)
    : (string * nat) * objectTracker :=
  let m := default ∅ (trWatchers t !! gvr) in
  let cs := default [] (m !! ns) in
  ((ns, length cs),
   MkTracker (trObjects t) (<[gvr := <[ns := cs ++ [[]]]> m]> (trWatchers t))).

(** [Add] of an object given to the constructor, or of the items of a list. *)
Definition tr_Add_source (scheme : Scheme) (y : YipYapSource) (t : objectTracker) : tracker_call :=
  match ObjectKinds scheme (source_object "YipYapSource") with
  | None => Some (Err (ApiOther "no kind is registered for the type v1alpha1.YipYapSource"), t)
  | Some ([], _) => Some (Err (ApiOther "no registered kinds"), t)
  | Some (gvks, _) =>
      (fix add gvks t :=
         match gvks with
         | [] => Some (Ok tt, t)
         | gvk :: gvks =>
             let gvr := UnsafeGuessKindToResource gvk in
             let gvr := if String.eqb (gvrVersion gvr) APIVersionInternal
                        then MkGVR (gvrGroup gvr) "" (gvrResource gvr) else gvr in
             r ← tr_add gvr y (omNamespace (yMeta y)) false t;
             match r.1 with Ok _ => add gvks r.2 | Err e => Some (Err e, r.2) end
         end) gvks t
  end.

Fixpoint tr_addList (scheme : Scheme) (items : list YipYapSource) (t : objectTracker) : tracker_call :=
  match items with
  | [] => Some (Ok tt, t)
  | y :: items =>
      r ← tr_Add_source scheme y t;
      match r.1 with Ok _ => tr_addList scheme items r.2 | Err e => Some (Err e, r.2) end
  end.

Definition tr_Add (scheme : Scheme) (o : runtime_object) (t : objectTracker) : tracker_call :=
  match o with
  | ASource y => tr_Add_source scheme y t
  | AList items => tr_addList scheme items t
  end.

(** ** The reaction of the tracker *)

(** What an action is answered: an object, or none, and an error. *)
Definition reply : Type := option runtime_object * option api_error.

Definition answered (r : result api_error YipYapSource) : reply :=
  match r with Ok y => (Some (ASource y), None) | Err e => (None, Some e) end.

(** A reaction says whether it handled the action. *)
Definition reaction : Type := Action -> objectTracker -> option ((bool * reply) * objectTracker).

Definition patch_types : list string :=
  ["application/json-patch+json"; "application/merge-patch+json";
   "application/strategic-merge-patch+json"].

Section fake.
Context `{FakeLib} (scheme : Scheme).

(** A change, then the object as it is kept. *)
Definition then_get (gvr : GroupVersionResource) (ns name : string) (r : tracker_call)
    : option ((bool * reply) * objectTracker) :=
  r ← r;
  Some (match r.1 with
        | Err e => (true, (None, Some e))
        | Ok _ => (true, answered (tr_Get gvr ns name r.2))
        end, r.2).

Definition react_Create (gvr : GroupVersionResource) (ns sub : string) (obj : YipYapSource)
    (t : objectTracker) : option ((bool * reply) * objectTracker) :=
  let name := omName (yMeta obj) in
  if String.eqb sub "" then then_get gvr ns name (tr_add gvr obj ns false t)
  else
    match tr_Get gvr ns name t with
    | Err e => Some ((true, (None, Some e)), t)
    | Ok _ => then_get gvr ns name (tr_add gvr obj ns true t)
    end.

(** [Patch]: the object is looked up first. *)
Definition react_Patch (gvr : GroupVersionResource) (ns name pt data : string) (t : objectTracker)
    : option ((bool * reply) * objectTracker) :=
  match tr_Get gvr ns name t with
  | Err e => Some ((true, (None, Some e)), t)
  | Ok old =>
      if negb (bool_decide (pt ∈ patch_types)) then
        Some ((true, (None, Some (ApiOther ("PatchType " +:+ pt +:+ " is not supported")))), t)
      else
        match apply_patch_to pt data old with
        | Err e => Some ((true, (None, Some (ApiOther e))), t)
        | Ok obj =>
            r ← tr_add gvr obj ns true t;
            Some (match r.1 with
                  | Err e => (true, (None, Some e))
                  | Ok _ => (true, (Some (ASource obj), None))
                  end, r.2)
        end
  end.

(** [Apply]: the body is decoded first, then merged into the object of its name. *)
Definition tr_Apply (gvr : GroupVersionResource) (name patch ns : string) (t : objectTracker)
    : tracker_call :=
  match tr_Get gvr ns name t with
  | Err e => Some (Err e, t)
  | Ok old =>
      match apply_patch_to "application/strategic-merge-patch+json" patch old with
      | Err e => Some (Err (ApiOther e), t)
      | Ok obj => tr_add gvr obj ns true t
      end
  end.

Definition react_Apply (gvr : GroupVersionResource) (ns name data : string) (t : objectTracker)
    : option ((bool * reply) * objectTracker) :=
  match apply_configuration name data with
  | Err e => Some ((true, (None, Some (ApiOther e))), t)
  | Ok (named, patch) => then_get gvr ns name (tr_Apply gvr named patch ns t)
  end.

Definition ObjectReaction : reaction := fun a t =>
  let gvr := acResource a in
  let ns := acNamespace a in
  match acImpl a with
  | ListActionImpl kind =>
      Some ((true, match tr_List scheme gvr kind ns t with
                   | Ok l => (Some (AList l), None)
                   | Err e => (None, Some e)
                   end), t)
  | GetActionImpl name => Some ((true, answered (tr_Get gvr ns name t)), t)
  | CreateActionImpl obj => react_Create gvr ns (acSubresource a) obj t
  | UpdateActionImpl obj => then_get gvr ns (omName (yMeta obj)) (tr_add gvr obj ns true t)
  | DeleteActionImpl name =>
      r ← tr_Delete gvr ns name t;
      Some ((true, (None, match r.1 with Ok _ => None | Err e => Some e end)), r.2)
  | PatchActionImpl name pt data =>
      if String.eqb pt "application/apply-patch+yaml" then react_Apply gvr ns name data t
      else react_Patch gvr ns name pt data t
  | DeleteCollectionActionImpl | WatchActionImpl =>
      Some ((false, (None, Some (ApiOther ("no reaction implemented for " +:+ acVerb a)))), t)
  end.
End fake.

(** ** The chain of reactors (testing/fake.go) *)

Record SimpleReactor := MkSimpleReactor {
  srVerb : string;
  srResource : string;
  srReaction : reaction
}.

Definition resourceCovers (resource : string) (a : Action) : bool :=
  String.eqb resource "*" || String.eqb resource (gvrResource (acResource a)) ||
  (string_contains "/" resource &&
   String.eqb (span_char "/" resource).1 (gvrResource (acResource a)) &&
   String.eqb (String.substring 1 (String.length (span_char "/" resource).2)
                 (span_char "/" resource).2) (acSubresource a)).

Definition Handles (r : SimpleReactor) (a : Action) : bool :=
  (String.eqb (srVerb r) "*" || String.eqb (srVerb r) (acVerb a)) && resourceCovers (srResource r) a.

(** The clientset: the actions it was asked, its reactors, the tracker they share.
    The one reactor on watches opens one of the tracker. *)
Record fakeClientset := MkClientset {
  csActions : list Action;
  csReactionChain : list SimpleReactor;
  csTracker : objectTracker
}.

Definition AddReactor (verb resource : string) (f : reaction) (c : fakeClientset) : fakeClientset :=
  MkClientset (csActions c) (csReactionChain c ++ [MkSimpleReactor verb resource f]) (csTracker c).
Definition PrependReactor (verb resource : string) (f : reaction) (c : fakeClientset) : fakeClientset :=
  MkClientset (csActions c) (MkSimpleReactor verb resource f :: csReactionChain c) (csTracker c).

Fixpoint react_chain (a : Action) (default_obj : runtime_object) (chain : list SimpleReactor)
    (t : objectTracker) : option (reply * objectTracker) :=
  match chain with
  | [] => Some ((Some default_obj, None), t)
  | r :: chain =>
      if negb (Handles r a) then react_chain a default_obj chain t
      else
        ans ← srReaction r a t;
        if negb ans.1.1 then react_chain a default_obj chain ans.2
        else Some (ans.1.2, ans.2)
  end.

Definition Invokes (a : Action) (default_obj : runtime_object) (c : fakeClientset)
    : option (reply * fakeClientset) :=
  r ← react_chain a default_obj (csReactionChain c) (csTracker c);
  Some (r.1, MkClientset (csActions c ++ [a]) (csReactionChain c) r.2).

(** The reactor on watches [NewSimpleClientset] adds; it handles every watch. *)
Definition watch_reaction (a : Action) (t : objectTracker) : (string * nat) * objectTracker :=
  tr_Watch (acResource a) (acNamespace a) t.

Definition InvokesWatch (a : Action) (c : fakeClientset) : (string * nat) * fakeClientset :=
  let '(w, t) := watch_reaction a (csTracker c) in
  (w, MkClientset (csActions c ++ [a]) (csReactionChain c) t).

Definition ClearActions (c : fakeClientset) : fakeClientset :=
  MkClientset [] (csReactionChain c) (csTracker c).

(** ** The clientset (fake/clientset_generated.go) *)

(** An object that cannot be added panics. *)
Fixpoint add_objects (scheme : Scheme) (objects : list runtime_object) (t : objectTracker)
    : option objectTracker :=
  match objects with
  | [] => Some t
  | o :: objects =>
      r ← tr_Add scheme o t;
      match r.1 with Ok _ => add_objects scheme objects r.2 | Err _ => None end
  end.

Definition NewSimpleClientset `{FakeLib} (objects : list runtime_object) : option fakeClientset :=
  scheme ← fake_scheme;
  t ← add_objects scheme objects NewObjectTracker;
  Some (AddReactor "*" "*" (ObjectReaction scheme) (MkClientset [] [] t)).

(** ** The typed client (typed/sources/v1alpha1/fake, gentype/fake.go) *)

Record FakeClient := MkFakeClient {
  fcNamespace : string;
  fcResource : GroupVersionResource;
  fcKind : GroupVersionKind
}.

Definition newFakeYipYapSources (namespace : string) : FakeClient :=
  MkFakeClient namespace (MkGVR (gvGroup SchemeGroupVersion) (gvVersion SchemeGroupVersion) "yipyapsources")
    (WithKind SchemeGroupVersion "YipYapSource").

(** [YipYapSources] of the clientset's [SourcesV1alpha1], which is the clientset
    itself; the REST client of the fake is a nil pointer. *)
Definition fake_YipYapSources (namespace : string) : FakeClient := newFakeYipYapSources namespace.
Definition fake_RESTClient : option RESTClient := None.

Section methods.
Context `{FakeLib} (c : FakeClient).

Definition action_of (verb sub : string) (impl : action_impl) : Action :=
  MkAction verb (fcResource c) sub (fcNamespace c) impl.

(** The object of a reply, the empty one if there is none; another type panics. *)
Definition as_source (r : reply) : option (YipYapSource * option api_error) :=
  match r.1 with
  | None => Some (new_source, r.2)
  | Some (ASource y) => Some (y, r.2)
  | Some (AList _) => None
  end.

Definition invoke_source (a : Action) (cs : fakeClientset)
    : option ((YipYapSource * option api_error) * fakeClientset) :=
  r ← Invokes a (ASource new_source) cs; ans ← as_source r.1; Some (ans, r.2).

Definition fake_Get (name : string) := invoke_source (action_of "get" "" (GetActionImpl name)).
Definition fake_Create (obj : YipYapSource) :=
  invoke_source (action_of "create" "" (CreateActionImpl obj)).
Definition fake_Update (obj : YipYapSource) :=
  invoke_source (action_of "update" "" (UpdateActionImpl obj)).
Definition fake_UpdateStatus (obj : YipYapSource) :=
  invoke_source (action_of "update" "status" (UpdateActionImpl obj)).
Definition fake_Patch (name pt data : string) (subresources : list string) :=
  invoke_source (action_of "patch" (GoHttp.path_Join subresources) (PatchActionImpl name pt data)).

Definition fake_Delete (name : string) (cs : fakeClientset) : option (option api_error * fakeClientset) :=
  r ← Invokes (action_of "delete" "" (DeleteActionImpl name)) (ASource new_source) cs;
  Some (r.1.2, r.2).

(** A selector that does not parse panics when the action is made. *)
Definition fake_DeleteCollection (label_selector field_selector : string) (cs : fakeClientset)
    : option (option api_error * fakeClientset) :=
  _ ← parse_selectors label_selector field_selector;
  r ← Invokes (action_of "delete-collection" "" DeleteCollectionActionImpl) (AList []) cs;
  Some (r.1.2, r.2).

Definition fake_List (label_selector field_selector : string) (cs : fakeClientset)
    : option ((list YipYapSource * option api_error) * fakeClientset) :=
  matches ← parse_selectors label_selector field_selector;
  r ← Invokes (action_of "list" "" (ListActionImpl (fcKind c))) (AList []) cs;
  match r.1.1 with
  | None => Some (([], r.1.2), r.2)
  | Some (ASource _) => None
  | Some (AList items) => Some ((filter (fun y => matches y = true) items, r.1.2), r.2)
  end.

Definition fake_Watch (label_selector field_selector : string) (cs : fakeClientset)
    : option ((string * nat) * fakeClientset) :=
  _ ← parse_selectors label_selector field_selector;
  Some (InvokesWatch (action_of "watch" "" WatchActionImpl) cs).
End methods.

(** ** Calls of the typed client *)

Inductive call :=
| CGet (name : string)
| CCreate (obj : YipYapSource)
| CUpdate (obj : YipYapSource)
| CUpdateStatus (obj : YipYapSource)
| CDelete (name : string)
| CDeleteCollection (label_selector field_selector : string)
| CPatch (name pt data : string) (subresources : list string)
| CList (label_selector field_selector : string)
| CWatch (label_selector field_selector : string).

Inductive answer :=
| AnObject (y : YipYapSource) (err : option api_error)
| Items (l : list YipYapSource) (err : option api_error)
| Done (err : option api_error)
| Watcher (w : string * nat).

(** A call through [SourcesV1alpha1().YipYapSources(ns)]. *)
Definition exec `{FakeLib} (ns : string) (c : call) (cs : fakeClientset) : option (answer * fakeClientset) :=
  let client := fake_YipYapSources ns in
  let obj r := Some (AnObject r.1.1 r.1.2, r.2) in
  match c with
  | CGet name => fake_Get client name cs ≫= obj
  | CCreate y => fake_Create client y cs ≫= obj
  | CUpdate y => fake_Update client y cs ≫= obj
  | CUpdateStatus y => fake_UpdateStatus client y cs ≫= obj
  | CDelete name => r ← fake_Delete client name cs; Some (Done r.1, r.2)
  | CDeleteCollection l f => r ← fake_DeleteCollection client l f cs; Some (Done r.1, r.2)
  | CPatch name pt data subs => fake_Patch client name pt data subs cs ≫= obj
  | CList l f => r ← fake_List client l f cs; Some (Items r.1.1 r.1.2, r.2)
  | CWatch l f => r ← fake_Watch client l f cs; Some (Watcher r.1, r.2)
  end.

Fixpoint run_calls `{FakeLib} (calls : list (string * call)) (cs : fakeClientset)
    : option (list answer * fakeClientset) :=
  match calls with
  | [] => Some ([], cs)
  | (ns, c) :: calls =>
      r ← exec ns c cs;
      rest ← run_calls calls r.2;
      Some (r.1 :: rest.1, rest.2)
  end.

(** The action a call leaves in the record. *)
Definition recorded (ns : string) (c : call) : Action :=
  let client := fake_YipYapSources ns in
  match c with
  | CGet name => action_of client "get" "" (GetActionImpl name)
  | CCreate y => action_of client "create" "" (CreateActionImpl y)
  | CUpdate y => action_of client "update" "" (UpdateActionImpl y)
  | CUpdateStatus y => action_of client "update" "status" (UpdateActionImpl y)
  | CDelete name => action_of client "delete" "" (DeleteActionImpl name)
  | CDeleteCollection _ _ => action_of client "delete-collection" "" DeleteCollectionActionImpl
  | CPatch name pt data subs =>
      action_of client "patch" (GoHttp.path_Join subs) (PatchActionImpl name pt data)
  | CList _ _ => action_of client "list" "" (ListActionImpl (fcKind client))
  | CWatch _ _ => action_of client "watch" "" WatchActionImpl
  end.

(** ** The specification: a map, the log of its changes, and when watches began *)

Record fake_spec := MkFakeSpec {
  fsObjects : gmap NamespacedName YipYapSource;
  fsLog : list watch_event;
  fsStarts : gmap string (list nat)
}.

Definition object_key (y : YipYapSource) : NamespacedName :=
  MkNamespacedName (omNamespace (yMeta y)) (omName (yMeta y)).

Definition in_namespace (ns : string) (y : YipYapSource) : YipYapSource :=
  if String.eqb (omNamespace (yMeta y)) "" then with_namespace ns y else y.

Definition log (e : watch_event) (objs : gmap NamespacedName YipYapSource) (s : fake_spec)
    : fake_spec :=
  MkFakeSpec objs (fsLog s ++ [e]) (fsStarts s).

(** A write: into its namespace, of an object that has to be there or must not be. *)
Definition spec_put (replace : bool) (ns : string) (y : YipYapSource) (s : fake_spec)
    : result api_error unit * fake_spec :=
  let y := in_namespace ns y in
  if negb (String.eqb ns (omNamespace (yMeta y))) then
    (Err (BadRequest ("request namespace does not match object namespace, request: " +:+
            go_quote ns +:+ " object: " +:+ go_quote (omNamespace (yMeta y)))), s)
  else
    match fsObjects s !! object_key y, replace with
    | Some _, true => (Ok tt, log (MkWatchEvent Modified y) (<[object_key y := y]> (fsObjects s)) s)
    | Some _, false =>
        (Err (AlreadyExists (fcResource (newFakeYipYapSources ns)) (omName (yMeta y))), s)
    | None, true => (Err ApiNotFound, s)
    | None, false => (Ok tt, log (MkWatchEvent Added y) (<[object_key y := y]> (fsObjects s)) s)
    end.

Definition object_answer (ns name : string) (s : fake_spec) : answer :=
  match fsObjects s !! MkNamespacedName ns name with
  | Some y => AnObject y None
  | None => AnObject new_source (Some ApiNotFound)
  end.

Definition put_answer (replace : bool) (ns : string) (y : YipYapSource) (s : fake_spec)
    : answer * fake_spec :=
  match spec_put replace ns y s with
  | (Err e, s) => (AnObject new_source (Some e), s)
  | (Ok _, s) => (object_answer ns (omName (yMeta y)) s, s)
  end.

(** A patch: of the object there is; an apply of a document that does not decode
    fails whether the object is there or not. *)
Definition patch_with `{FakeLib} (ns name pt data : string) (s : fake_spec)
    : result api_error YipYapSource * fake_spec :=
  match fsObjects s !! MkNamespacedName ns name with
  | None => (Err ApiNotFound, s)
  | Some old =>
      if negb (bool_decide (pt ∈ patch_types)) then
        (Err (ApiOther ("PatchType " +:+ pt +:+ " is not supported")), s)
      else
        match apply_patch_to pt data old with
        | Err e => (Err (ApiOther e), s)
        | Ok y => match spec_put true ns y s with
                  | (Err e, s) => (Err e, s)
                  | (Ok _, s) => (Ok y, s)
                  end
        end
  end.

Definition spec_patch `{FakeLib} (ns name pt data : string) (s : fake_spec) : answer * fake_spec :=
  if String.eqb pt "application/apply-patch+yaml" then
    match apply_configuration name data with
    | Err e => (AnObject new_source (Some (ApiOther e)), s)
    | Ok (named, patch) =>
        match patch_with ns named "application/strategic-merge-patch+json" patch s with
        | (Err e, s) => (AnObject new_source (Some e), s)
        | (Ok _, s) => (object_answer ns name s, s)
        end
    end
  else
    match patch_with ns name pt data s with
    | (Err e, s) => (AnObject new_source (Some e), s)
    | (Ok y, s) => (AnObject y None, s)
    end.

Definition spec_step `{FakeLib} (ns : string) (c : call) (s : fake_spec) : answer * fake_spec :=
  match c with
  | CGet name => (object_answer ns name s, s)
  | CCreate y => put_answer false ns y s
  | CUpdate y | CUpdateStatus y => put_answer true ns y s
  | CDelete name =>
      match fsObjects s !! MkNamespacedName ns name with
      | None => (Done (Some ApiNotFound), s)
      | Some y =>
          (Done None, log (MkWatchEvent Deleted y) (delete (MkNamespacedName ns name) (fsObjects s)) s)
      end
  | CDeleteCollection _ _ => (Done None, s)
  | CPatch name pt data _ => spec_patch ns name pt data s
  | CList l f =>
      (Items (filter (fun y => default (fun _ => false) (parse_selectors l f) y = true)
                (filterByNamespace (fsObjects s) ns)) None, s)
  | CWatch _ _ =>
      let starts := default [] (fsStarts s !! ns) in
      (Watcher (ns, length starts),
       MkFakeSpec (fsObjects s) (fsLog s) (<[ns := starts ++ [length (fsLog s)]]> (fsStarts s)))
  end.

Fixpoint spec_run `{FakeLib} (calls : list (string * call)) (s : fake_spec)
    : list answer * fake_spec :=
  match calls with
  | [] => ([], s)
  | (ns, c) :: calls =>
      let '(a, s) := spec_step ns c s in
      let '(l, s) := spec_run calls s in (a :: l, s)
  end.

(** The changes a watcher of a namespace has seen since it began. *)
Definition seen (ns : string) (start : nat) (s : fake_spec) : list watch_event :=
  filter (fun e => ns = "" \/ omNamespace (yMeta (weObject e)) = ns) (drop start (fsLog s)).

(** The sources the objects given to the constructor hold. *)
Definition added_sources (objects : list runtime_object) : list YipYapSource :=
  flat_map (fun o => match o with ASource y => [y] | AList items => items end) objects.

Definition initial (objects : list runtime_object) : fake_spec :=
  MkFakeSpec (foldl (fun objs y => <[object_key y := y]> objs) ∅ (added_sources objects))
    (map (MkWatchEvent Added) (added_sources objects)) ∅.

(** A watcher has no room left. *)
Definition overfull (s : fake_spec) : Prop :=
  exists ns starts start, fsStarts s !! ns = Some starts /\ start ∈ starts /\
    (DefaultChanSize <= length (seen ns start s))%nat.

(** The selectors of a call do not parse. *)
Definition bad_selectors `{FakeLib} (c : call) : Prop :=
  match c with CList l f | CWatch l f | CDeleteCollection l f => parse_selectors l f = None | _ => False end.

(** ** Lemmas *)

Definition sources_gvr : GroupVersionResource :=
  MkGVR (gvGroup SchemeGroupVersion) (gvVersion SchemeGroupVersion) "yipyapsources".

(** The channels of the watchers of a namespace. *)
Definition channels (ws : gmap GroupVersionResource (gmap string (list channel)))
    (gvr : GroupVersionResource) (ns : string) : list channel :=
  default [] (default ∅ (ws !! gvr) !! ns).

Lemma channels_insert gvr ns cs m ws ns' :
  channels (<[gvr := <[ns := cs]> m]> ws) gvr ns'
    = if decide (ns' = ns) then cs else default [] (m !! ns').
Proof.
  unfold channels. rewrite lookup_insert_eq. change (default ∅ (Some ?x)) with x.
  case_decide; [subst; by rewrite lookup_insert_eq|by rewrite lookup_insert_ne].
Qed.

Lemma send_all e cs cs' : mapM (send_event e) cs = Some cs' -> cs' = map (fun c => c ++ [e]) cs.
Proof.
  rewrite mapM_Some. induction 1 as [|c c' cs cs' Hc _ IH]; [done|]. cbn. rewrite <- IH.
  unfold send_event in Hc. destruct (_ <? _)%nat; [|done]. by injection Hc as <-.
Qed.

Lemma send_full e cs : mapM (send_event e) cs = None -> exists c, c ∈ cs /\ (DefaultChanSize <= length c)%nat.
Proof.
  intros (c&Hin&Hc)%mapM_None%Exists_exists. exists c. split; [done|].
  unfold send_event in Hc. destruct (Nat.ltb_spec (length c) DefaultChanSize); [done|lia].
Qed.

Lemma notify_at_spec e ns m m' :
  notify_at e ns m = Some m' ->
  forall ns', default [] (m' !! ns') =
    if decide (ns' = ns) then map (fun c => c ++ [e]) (default [] (m !! ns'))
    else default [] (m !! ns').
Proof.
  unfold notify_at. intros E ns'. destruct (m !! ns) as [cs|] eqn:Em.
  - destruct (mapM (send_event e) cs) as [cs'|] eqn:Es; [|done]. injection E as <-.
    apply send_all in Es as ->. case_decide as Hns; [subst ns'|by rewrite lookup_insert_ne].
    by rewrite lookup_insert_eq, Em.
  - injection E as <-. case_decide; [subst ns'|done]. by rewrite Em.
Qed.

Lemma notify_at_full e ns m :
  notify_at e ns m = None -> exists c, c ∈ default [] (m !! ns) /\ (DefaultChanSize <= length c)%nat.
Proof.
  unfold notify_at. destruct (m !! ns) as [cs|]; [|done].
  destruct (mapM (send_event e) cs) eqn:Es; [done|]. intros _. by apply (send_full e).
Qed.

(** An event goes to the watchers of its namespace and to those of all. *)
Lemma notify_spec e gvr ns ws :
  match notify e gvr ns ws with
  | Some ws' => forall ns', channels ws' gvr ns' =
      if decide (ns' = ns \/ ns' = "") then map (fun c => c ++ [e]) (channels ws gvr ns')
      else channels ws gvr ns'
  | None => exists ns' c, (ns' = ns \/ ns' = "") /\ c ∈ channels ws gvr ns' /\
      (DefaultChanSize <= length c)%nat
  end.
Proof.
  unfold notify, channels. destruct (ws !! gvr) as [m|] eqn:Ew; cbn [default].
  2:{ intros ns'. rewrite Ew. cbn. rewrite lookup_empty. by case_decide. }
  destruct (notify_at e ns m) as [m1|] eqn:E1; cbn [mbind option_bind].
  2:{ destruct (notify_at_full e ns m E1) as (c&?&?). eauto 6. }
  pose proof (notify_at_spec e ns m m1 E1) as H1.
  destruct (String.eqb_spec ns "") as [->|Hns]; cbn [mbind option_bind].
  - intros ns'. rewrite lookup_insert_eq. cbn [default]. rewrite H1.
    repeat case_decide; try done; tauto.
  - destruct (notify_at e "" m1) as [m2|] eqn:E2; cbn [mbind option_bind].
    + intros ns'. rewrite lookup_insert_eq. cbn [default].
      rewrite (notify_at_spec e "" m1 m2 E2), !H1. repeat case_decide; subst; try done; tauto.
    + destruct (notify_at_full e "" m1 E2) as (c&Hc&?). exists "", c. split; [by right|].
      split; [|done]. by rewrite H1, decide_False in Hc.
Qed.

(** The tracker stands for the specification. *)
Record tracks (t : objectTracker) (s : fake_spec) : Prop := {
  tk_objects : objects_of sources_gvr t = fsObjects s;
  tk_keys : map_Forall (fun k y => object_key y = k) (fsObjects s);
  tk_channels : forall ns, channels (trWatchers t) sources_gvr ns
    = map (fun start => seen ns start s) (default [] (fsStarts s !! ns));
  tk_starts : forall ns starts start, fsStarts s !! ns = Some starts -> start ∈ starts ->
    (start <= length (fsLog s))%nat
}.

Lemma seen_log ns start e objs s :
  (start <= length (fsLog s))%nat ->
  seen ns start (log e objs s) = seen ns start s ++
    (if decide (ns = "" \/ omNamespace (yMeta (weObject e)) = ns) then [e] else []).
Proof.
  intros Hs. unfold seen, log. cbn [fsLog]. rewrite drop_app_le, filter_app by done.
  done.
Qed.

(** A change of the objects: it is logged, and the watchers hear of it. *)
Lemma tracks_log t s e objs :
  tracks t s -> map_Forall (fun k y => object_key y = k) objs ->
  match notify e sources_gvr (omNamespace (yMeta (weObject e))) (trWatchers t) with
  | Some ws => tracks (MkTracker (<[sources_gvr := objs]> (trObjects t)) ws) (log e objs s)
  | None => overfull s
  end.
Proof.
  intros [Ho Hk Hc Hst] Hobjs.
  pose proof (notify_spec e sources_gvr (omNamespace (yMeta (weObject e))) (trWatchers t)) as Hn.
  destruct (notify _ _ _ _) as [ws|].
  - split; [by unfold objects_of; cbn; rewrite lookup_insert_eq|done| |].
    + intros ns. cbn [trWatchers]. rewrite Hn, Hc. cbn [fsStarts log].
      destruct (fsStarts s !! ns) as [starts|] eqn:Es; cbn [default]; [|by case_decide].
      case_decide as Hd.
      * rewrite map_map. apply map_ext_in. intros n Hin%list_elem_of_In.
        rewrite seen_log by (by apply (Hst ns starts)). rewrite decide_True; [done|]. destruct Hd; auto.
      * apply map_ext_in. intros n Hin%list_elem_of_In. rewrite seen_log by (by apply (Hst ns starts)).
        rewrite decide_False by (intros [?|?]; apply Hd; auto). by rewrite app_nil_r.
    + intros ns starts start Hs Hin. cbn. rewrite length_app. specialize (Hst ns starts start Hs Hin). lia.
  - destruct Hn as (ns&c&_&Hin&Hlen). rewrite Hc in Hin. apply list_elem_of_fmap in Hin as (start&->&Hin).
    destruct (fsStarts s !! ns) as [starts|] eqn:Es; [|by apply elem_of_nil in Hin].
    by exists ns, starts, start.
Qed.

(** Another tracker with the same objects and watchers. *)
Lemma tracks_same t t' s :
  tracks t s -> objects_of sources_gvr t' = objects_of sources_gvr t -> trWatchers t' = trWatchers t ->
  tracks t' s.
Proof. intros [Ho Hk Hc Hst] E1 E2. split; by rewrite ?E1, ?E2. Qed.

Lemma tr_add_spec t s ns y replace :
  tracks t s ->
  match tr_add sources_gvr y ns replace t with
  | Some (r, t') => exists s', spec_put replace ns y s = (r, s') /\ tracks t' s'
  | None => overfull s
  end.
Proof.
  intros Ht. unfold tr_add, spec_put. fold (in_namespace ns y).
  set (y' := in_namespace ns y). cbv zeta.
  destruct (String.eqb_spec ns (omNamespace (yMeta y'))) as [Hns|]; cbn [negb]; [|by exists s].
  assert (tracks (MkTracker (<[sources_gvr:=objects_of sources_gvr t]> (trObjects t)) (trWatchers t)) s)
    as Ht1.
  { apply (tracks_same t); [done| |done]. unfold objects_of. cbn. by rewrite lookup_insert_eq. }
  rewrite (tk_objects _ _ Ht) in *. fold (object_key y').
  assert (forall ty, match notify (MkWatchEvent ty y') sources_gvr ns (trWatchers t) with
    | Some ws => tracks (MkTracker (<[sources_gvr := <[object_key y' := y']> (fsObjects s)]>
        (<[sources_gvr := fsObjects s]> (trObjects t))) ws)
        (log (MkWatchEvent ty y') (<[object_key y' := y']> (fsObjects s)) s)
    | None => overfull s end) as Hlog.
  { intros ty. rewrite Hns. apply (tracks_log _ s (MkWatchEvent ty y') _ Ht1).
    apply map_Forall_insert_2; [done|]. apply (tk_keys _ _ Ht). }
  cbn [trObjects trWatchers].
  destruct (fsObjects s !! object_key y'); destruct replace; [|eauto..|].
  - specialize (Hlog Modified). destruct (notify _ _ _ _); cbn; eauto.
  - specialize (Hlog Added). destruct (notify _ _ _ _); cbn; eauto.
Qed.

Lemma tr_Get_spec t s ns name :
  tracks t s ->
  tr_Get sources_gvr ns name t
    = match fsObjects s !! MkNamespacedName ns name with Some y => Ok y | None => Err ApiNotFound end.
Proof. intros Ht. unfold tr_Get. by rewrite (tk_objects _ _ Ht). Qed.

Lemma tr_Delete_spec t s ns name :
  tracks t s ->
  match tr_Delete sources_gvr ns name t, fsObjects s !! MkNamespacedName ns name with
  | Some (Err e, t'), None => e = ApiNotFound /\ tracks t' s
  | Some (Ok _, t'), Some y =>
      tracks t' (log (MkWatchEvent Deleted y) (delete (MkNamespacedName ns name) (fsObjects s)) s)
  | None, Some _ => overfull s
  | _, _ => False
  end.
Proof.
  intros Ht. unfold tr_Delete. rewrite (tk_objects _ _ Ht).
  destruct (fsObjects s !! MkNamespacedName ns name) as [y|] eqn:Ey; [|done].
  pose proof (tk_keys _ _ Ht _ _ Ey) as Hy. injection Hy as Hns _.
  pose proof (tracks_log t s (MkWatchEvent Deleted y) (delete (MkNamespacedName ns name) (fsObjects s)) Ht
    (map_Forall_delete _ _ _ (tk_keys _ _ Ht))) as Hlog.
  cbn [weObject] in Hlog. rewrite Hns in Hlog. by destruct (notify _ _ _ _).
Qed.

Section calls.
Context `{FakeLib} (scheme : Scheme).
Context (Hlist : NewObject scheme (WithKind SchemeGroupVersion "YipYapSourceList")
  = Some (source_object "YipYapSourceList")).

(** The one reactor of the clientset. *)
Definition plain (cs : fakeClientset) : Prop :=
  csReactionChain cs = [MkSimpleReactor "*" "*" (ObjectReaction scheme)].

(** What a reaction of the tracker does, against a step of the specification. *)
Definition reacts (s : fake_spec) (r : option ((bool * reply) * objectTracker)) (a : answer)
    (s' : fake_spec) : Prop :=
  match r with
  | Some (true, rep, t) => tracks t s' /\ exists y e, a = AnObject y e /\
      (rep = (Some (ASource y), e) \/ rep = (None, e) /\ y = new_source)
  | Some (false, _, _) => False
  | None => overfull s
  end.

Lemma then_get_spec t s ns y replace name :
  tracks t s ->
  reacts s (then_get sources_gvr ns name (tr_add sources_gvr y ns replace t))
    (match spec_put replace ns y s with
     | (Err e, _) => AnObject new_source (Some e)
     | (Ok _, s') => object_answer ns name s'
     end) (spec_put replace ns y s).2.
Proof.
  intros Ht. pose proof (tr_add_spec t s ns y replace Ht) as Ha. unfold then_get, reacts.
  destruct (tr_add _ _ _ _ _) as [[r t']|]; cbn [mbind option_bind]; [|done].
  destruct Ha as (s'&->&Ht'). cbn [fst snd]. destruct r as [[]|e]; cbn.
  - rewrite (tr_Get_spec t' s') by done. unfold object_answer.
    split; [done|]. destruct (fsObjects s' !! _); eauto 7.
  - eauto 8.
Qed.

Lemma put_spec t s ns y replace :
  tracks t s ->
  reacts s (then_get sources_gvr ns (omName (yMeta y)) (tr_add sources_gvr y ns replace t))
    (put_answer replace ns y s).1 (put_answer replace ns y s).2.
Proof.
  intros Ht. pose proof (then_get_spec t s ns y replace (omName (yMeta y)) Ht) as Hr.
  unfold put_answer. by destruct (spec_put replace ns y s) as [[]].
Qed.

Lemma react_Patch_spec t s ns name pt data :
  tracks t s ->
  reacts s (react_Patch sources_gvr ns name pt data t)
    (match (patch_with ns name pt data s).1 with
     | Err e => AnObject new_source (Some e)
     | Ok y => AnObject y None
     end) (patch_with ns name pt data s).2.
Proof.
  intros Ht. unfold react_Patch, patch_with. rewrite (tr_Get_spec t s) by done.
  destruct (fsObjects s !! MkNamespacedName ns name) as [old|]; [|cbn; eauto 8].
  destruct (negb _); [cbn; eauto 8|].
  destruct (apply_patch_to pt data old) as [y|e]; [|cbn; eauto 8].
  pose proof (tr_add_spec t s ns y true Ht) as Ha.
  destruct (tr_add _ _ _ _ _) as [[r t']|]; cbn [mbind option_bind reacts];
    [|by destruct (spec_put true ns y s) as [[] ?]].
  destruct Ha as (s'&->&Ht'). destruct r as [[]|e]; cbn; eauto 8.
Qed.

Lemma react_Apply_spec t s ns name data :
  tracks t s ->
  reacts s (react_Apply sources_gvr ns name data t)
    (spec_patch ns name "application/apply-patch+yaml" data s).1
    (spec_patch ns name "application/apply-patch+yaml" data s).2.
Proof.
  intros Ht. unfold react_Apply, spec_patch. rewrite String.eqb_refl.
  destruct (apply_configuration name data) as [[named patch]|e]; [|cbn; eauto 8].
  unfold tr_Apply, patch_with. rewrite (tr_Get_spec t s) by done.
  destruct (fsObjects s !! MkNamespacedName ns named) as [old|]; [|cbn; eauto 8].
  rewrite bool_decide_true by (by repeat constructor). cbn [negb].
  destruct (apply_patch_to _ patch old) as [y|e]; [|cbn; eauto 8].
  pose proof (then_get_spec t s ns y true name Ht) as Hr.
  by destruct (spec_put true ns y s) as [[]].
Qed.

(** The reaction to a patch of any type. *)
Lemma patch_spec t s ns name pt data :
  tracks t s ->
  reacts s (if String.eqb pt "application/apply-patch+yaml" then react_Apply sources_gvr ns name data t
            else react_Patch sources_gvr ns name pt data t)
    (spec_patch ns name pt data s).1 (spec_patch ns name pt data s).2.
Proof.
  intros Ht. destruct (String.eqb_spec pt "application/apply-patch+yaml") as [->|Hpt];
    [by apply react_Apply_spec|].
  pose proof (react_Patch_spec t s ns name pt data Ht) as Hr. unfold spec_patch.
  rewrite (proj2 (String.eqb_neq _ _) Hpt). by destruct (patch_with ns name pt data s) as [[]].
Qed.

(** An action whose reaction is known, through the clientset. *)
Lemma invoke_source_spec cs s a ans s' :
  plain cs -> reacts s (ObjectReaction scheme a (csTracker cs)) ans s' ->
  match invoke_source a cs with
  | Some (p, cs') => ans = AnObject p.1 p.2 /\ tracks (csTracker cs') s' /\ plain cs' /\
      csActions cs' = csActions cs ++ [a]
  | None => overfull s
  end.
Proof.
  unfold invoke_source, Invokes, plain, reacts. intros ->. cbn [react_chain].
  change (Handles (MkSimpleReactor "*" "*" (ObjectReaction scheme)) a) with true. cbn [negb srReaction].
  destruct (ObjectReaction scheme a (csTracker cs)) as [[[[] rep] t]|]; cbn; [|done..].
  intros (Ht&y&e&->&[->|[-> ->]]); cbn; done.
Qed.

Lemma tracker_list_spec t s ns :
  tracks t s ->
  tr_List scheme sources_gvr (WithKind SchemeGroupVersion "YipYapSource") ns t
    = Ok (filterByNamespace (fsObjects s) ns).
Proof.
  intros Ht. unfold tr_List.
  change (MkGVK _ _ _) with (WithKind SchemeGroupVersion "YipYapSourceList").
  rewrite Hlist, bool_decide_true by done. by rewrite (tk_objects _ _ Ht).
Qed.

Lemma tr_Watch_spec t s ns :
  tracks t s ->
  let starts := default [] (fsStarts s !! ns) in
  let '(w, t') := tr_Watch sources_gvr ns t in
  w = (ns, length starts) /\
  tracks t' (MkFakeSpec (fsObjects s) (fsLog s) (<[ns := starts ++ [length (fsLog s)]]> (fsStarts s))).
Proof.
  intros [Ho Hk Hc Hst] starts. unfold tr_Watch. fold (channels (trWatchers t) sources_gvr ns).
  split; [by rewrite Hc, length_map|]. split; [done|done| |].
  - intros ns'. cbn [trWatchers fsStarts]. rewrite channels_insert.
    assert (forall n objs m, seen ns' n (MkFakeSpec objs (fsLog s) m) = seen ns' n s) as Hseen by done.
    rewrite (map_ext _ _ (fun n => Hseen n _ _)). destruct (decide (ns' = ns)) as [->|Hne].
    + rewrite lookup_insert_eq, Hc. change (default [] (Some ?l)) with l. rewrite map_app.
      cbn [map]. assert (seen ns (length (fsLog s)) s = []) as -> by (unfold seen; by rewrite drop_all).
      done.
    + rewrite lookup_insert_ne by done. apply Hc.
  - intros ns' starts' start. cbn [fsStarts fsLog]. destruct (decide (ns' = ns)) as [->|Hne].
    + rewrite lookup_insert_eq. intros [= <-] [Hin|Hin]%elem_of_app; [|by apply list_elem_of_singleton in Hin as ->].
      subst starts. destruct (fsStarts s !! ns) as [l|] eqn:El; [|by apply elem_of_nil in Hin].
      by apply (Hst ns l).
    + rewrite lookup_insert_ne by done. apply Hst.
Qed.

Lemma exec_spec ns c cs s :
  plain cs -> tracks (csTracker cs) s ->
  match exec ns c cs with
  | Some (a, cs') => exists s', spec_step ns c s = (a, s') /\ tracks (csTracker cs') s' /\ plain cs' /\
      csActions cs' = csActions cs ++ [recorded ns c]
  | None => bad_selectors c \/ overfull s
  end.
Proof.
  intros Hp Ht.
  assert (forall a ans s', reacts s (ObjectReaction scheme a (csTracker cs)) ans s' ->
    match (r ← invoke_source a cs; Some (AnObject r.1.1 r.1.2, r.2)) with
    | Some (a', cs') => exists s'', (ans, s') = (a', s'') /\ tracks (csTracker cs') s'' /\ plain cs' /\
        csActions cs' = csActions cs ++ [a]
    | None => overfull s
    end) as Hobj.
  { intros a ans s' Hr. pose proof (invoke_source_spec cs s a ans s' Hp Hr) as Hi.
    destruct (invoke_source a cs) as [[p cs']|]; cbn; [|done]. destruct Hi as (->&?&?&?). eauto. }
  assert (forall a ans s', reacts s (ObjectReaction scheme a (csTracker cs)) ans s' ->
    match (r ← invoke_source a cs; Some (AnObject r.1.1 r.1.2, r.2)) with
    | Some (a', cs') => exists s'', (ans, s') = (a', s'') /\ tracks (csTracker cs') s'' /\ plain cs' /\
        csActions cs' = csActions cs ++ [a]
    | None => False \/ overfull s
    end) as Hobj'.
  { intros a ans s' Hr. specialize (Hobj a ans s' Hr).
    destruct (r ← invoke_source a cs; _) as [[]|]; [done|by right]. }
  assert (forall replace y, put_answer replace ns y s
    = ((put_answer replace ns y s).1, (put_answer replace ns y s).2)) as Heta by (intros; by destruct put_answer).
  destruct c as [name|y|y|y|name|l f|name pt data subs|l f|l f]; cbn [exec spec_step recorded bad_selectors].
  - apply (Hobj' _ (object_answer ns name s) s). cbn. rewrite (tr_Get_spec _ s) by done.
    unfold object_answer. destruct (fsObjects s !! _); cbn; eauto 8.
  - rewrite Heta. apply (Hobj' (recorded ns (CCreate y))). by apply put_spec.
  - rewrite Heta. apply (Hobj' (recorded ns (CUpdate y))). by apply put_spec.
  - rewrite Heta. apply (Hobj' (recorded ns (CUpdateStatus y))). by apply put_spec.
  - pose proof (tr_Delete_spec (csTracker cs) s ns name Ht) as Hd.
    unfold fake_Delete, Invokes. rewrite Hp. cbn [react_chain].
    change (Handles (MkSimpleReactor "*" "*" (ObjectReaction scheme)) _) with true.
    cbn -[tr_Delete]. change (MkGVR _ _ _) with sources_gvr.
    destruct (tr_Delete sources_gvr ns name (csTracker cs)) as [[[[]|e] t]|];
      destruct (fsObjects s !! _) as [y|]; try done; cbn.
    + eexists. by split_and!.
    + destruct Hd as [-> Hd]. eexists. by split_and!.
    + by right.
  - unfold fake_DeleteCollection.
    destruct (parse_selectors l f) as [m|] eqn:El; cbn [mbind option_bind]; [|by left].
    unfold Invokes. rewrite Hp. cbn. eexists. by split_and!.
  - destruct (spec_patch ns name pt data s) as [ans s'] eqn:Es.
    apply (Hobj' (recorded ns (CPatch name pt data subs))).
    pose proof (patch_spec (csTracker cs) s ns name pt data Ht) as Hr. by rewrite Es in Hr.
  - unfold fake_List. destruct (parse_selectors l f) as [m|] eqn:El; cbn [mbind option_bind]; [|by left].
    unfold Invokes. rewrite Hp. cbn [react_chain].
    change (Handles (MkSimpleReactor "*" "*" (ObjectReaction scheme)) _) with true.
    cbn -[tr_List]. change (tr_List scheme _ _ ns _)
      with (tr_List scheme sources_gvr (WithKind SchemeGroupVersion "YipYapSource") ns (csTracker cs)).
    rewrite (tracker_list_spec _ s) by done. cbn. eexists. by split_and!.
  - unfold fake_Watch. destruct (parse_selectors l f) as [m|] eqn:El; cbn [mbind option_bind]; [|by left].
    pose proof (tr_Watch_spec (csTracker cs) s ns Ht) as Hw. unfold InvokesWatch, watch_reaction.
    cbn [acResource acNamespace action_of fcResource fcNamespace newFakeYipYapSources fake_YipYapSources].
    change (MkGVR _ _ _) with sources_gvr. destruct (tr_Watch _ _ _) as [w t]. destruct Hw as [-> Hw].
    cbn. eexists. by split_and!.
Qed.
End calls.

(** *** The constructor *)

Fixpoint add_sources (l : list YipYapSource) (t : objectTracker) : option objectTracker :=
  match l with
  | [] => Some t
  | y :: l =>
      match tr_add sources_gvr y (omNamespace (yMeta y)) false t with
      | Some (Ok _, t) => add_sources l t
      | _ => None
      end
  end.

Lemma in_own_namespace y : in_namespace (omNamespace (yMeta y)) y = y.
Proof.
  unfold in_namespace. destruct (String.eqb_spec (omNamespace (yMeta y)) "") as [E|]; [|done].
  rewrite E. destruct y as [[] ? ?]. cbn in E. by subst.
Qed.

Lemma add_sources_app l1 l2 t : add_sources (l1 ++ l2) t = add_sources l1 t ≫= add_sources l2.
Proof.
  revert t. induction l1 as [|y l1 IH]; intros t; [done|]. cbn [app add_sources].
  destruct (tr_add _ _ _ _ _) as [[[] t1]|]; [apply IH|done..].
Qed.

Section constructor.
Context (scheme : Scheme).
Context (Hkinds : ObjectKinds scheme (source_object "YipYapSource")
  = Some ([WithKind SchemeGroupVersion "YipYapSource"], false)).

Lemma tr_Add_source_eq y t :
  tr_Add_source scheme y t = tr_add sources_gvr y (omNamespace (yMeta y)) false t.
Proof.
  unfold tr_Add_source. rewrite Hkinds.
  change (if String.eqb (gvrVersion _) APIVersionInternal then _ else _) with sources_gvr.
  by destruct (tr_add _ _ _ _ _) as [[[[]|] ]|].
Qed.

Lemma add_objects_eq objects t : add_objects scheme objects t = add_sources (added_sources objects) t.
Proof.
  revert t. induction objects as [|o objects IH]; intros t; [done|].
  cbn [add_objects added_sources flat_map]. fold (added_sources objects). rewrite add_sources_app.
  destruct o as [y|items]; cbn [tr_Add add_sources].
  - rewrite tr_Add_source_eq. destruct (tr_add _ _ _ _ _) as [[[] t1]|]; cbn; done.
  - revert t. induction items as [|y items IHi]; intros t; [apply IH|].
    cbn [tr_addList add_sources]. rewrite tr_Add_source_eq.
    destruct (tr_add _ _ _ _ _) as [[[] t1]|]; cbn [mbind option_bind fst snd]; [apply IHi|done..].
Qed.
End constructor.

Lemma add_sources_spec l t s :
  tracks t s -> trWatchers t = ∅ ->
  match add_sources l t with
  | Some t' => NoDup (object_key <$> l) /\ (forall y, y ∈ l -> fsObjects s !! object_key y = None) /\
      trWatchers t' = ∅ /\
      tracks t' (MkFakeSpec (foldl (fun objs y => <[object_key y := y]> objs) (fsObjects s) l)
                   (fsLog s ++ map (MkWatchEvent Added) l) (fsStarts s))
  | None => ~ (NoDup (object_key <$> l) /\ forall y, y ∈ l -> fsObjects s !! object_key y = None)
  end.
Proof.
  revert t s. induction l as [|y l IH]; intros t s Ht Hw.
  { cbn. split; [constructor|]. split; [by intros y ?%elem_of_nil|]. rewrite app_nil_r. by destruct s. }
  cbn [add_sources fmap list_fmap foldl map].
  pose proof (tr_add_spec t s (omNamespace (yMeta y)) y false Ht) as Ha.
  assert (forall r, tr_add sources_gvr y (omNamespace (yMeta y)) false t = r ->
    match r with Some (_, t') => trWatchers t' = ∅ | None => False end) as Hnone.
  { intros r <-. unfold tr_add. destruct (negb _); [done|]. unfold notify. cbn [trWatchers].
    rewrite Hw, lookup_empty. by destruct (objects_of _ _ !! _). }
  specialize (Hnone _ eq_refl). unfold spec_put in Ha. rewrite in_own_namespace in Ha.
  rewrite String.eqb_refl in Ha. cbn [negb] in Ha.
  destruct (tr_add _ _ _ _ _) as [[r t1]|]; [|done]. destruct Ha as (s1&Hs1&Ht1).
  destruct (fsObjects s !! object_key y) as [z|] eqn:Ez; injection Hs1 as <- <-.
  { intros [_ Hall]. specialize (Hall y ltac:(left)). congruence. }
  specialize (IH t1 _ Ht1 Hnone). destruct (add_sources l t1) as [t'|].
  - destruct IH as (Hnd&Hfree&Hw'&Ht'). cbn [fsObjects fsLog fsStarts log] in *. split_and!; [| |done|].
    + constructor; [|done]. intros (z&Ekey&Hz)%list_elem_of_fmap. specialize (Hfree z Hz).
      by rewrite <- Ekey, lookup_insert_eq in Hfree.
    + intros z [->|Hz]%elem_of_cons; [done|]. specialize (Hfree z Hz).
      destruct (decide (object_key z = object_key y)) as [E|]; [by rewrite E, lookup_insert_eq in Hfree|].
      by rewrite lookup_insert_ne in Hfree.
    + by rewrite <- app_assoc in Ht'.
  - intros [Hnd Hfree]. apply IH. apply NoDup_cons in Hnd as [Hy Hnd]. split; [done|].
    intros z Hz. cbn [fsObjects log]. rewrite lookup_insert_ne; [apply Hfree; by right|].
    intros E. apply Hy, list_elem_of_fmap. eauto.
Qed.

(** The scheme of the package knows the source and its list. *)
Lemma fake_scheme_kinds :
  exists scheme, fake_scheme = Some scheme /\
    ObjectKinds scheme (source_object "YipYapSource")
      = Some ([WithKind SchemeGroupVersion "YipYapSource"], false) /\
    NewObject scheme (WithKind SchemeGroupVersion "YipYapSourceList")
      = Some (source_object "YipYapSourceList").
Proof.
  assert ((s ← fake_scheme; ObjectKinds s (source_object "YipYapSource"))
    = Some ([WithKind SchemeGroupVersion "YipYapSource"], false)) as H1 by (vm_compute; reflexivity).
  assert ((s ← fake_scheme; NewObject s (WithKind SchemeGroupVersion "YipYapSourceList"))
    = Some (source_object "YipYapSourceList")) as H2 by (vm_compute; reflexivity).
  destruct fake_scheme as [s|]; [|done]. by exists s.
Qed.

Lemma run_calls_spec `{FakeLib} scheme calls cs s :
  NewObject scheme (WithKind SchemeGroupVersion "YipYapSourceList")
    = Some (source_object "YipYapSourceList") ->
  plain scheme cs -> tracks (csTracker cs) s ->
  match run_calls calls cs with
  | Some (answers, cs') => exists s', spec_run calls s = (answers, s') /\
      csActions cs' = csActions cs ++ map (fun c => recorded c.1 c.2) calls /\
      tracks (csTracker cs') s'
  | None => exists before ns c after, calls = before ++ (ns, c) :: after /\
      (bad_selectors c \/ overfull (spec_run before s).2)
  end.
Proof.
  intros Hlist. revert cs s. induction calls as [|[ns c] calls IH]; intros cs s Hp Ht.
  { cbn. exists s. by rewrite app_nil_r. }
  cbn [run_calls spec_run map]. pose proof (exec_spec scheme Hlist ns c cs s Hp Ht) as He.
  destruct (exec ns c cs) as [[a cs1]|]; cbn [mbind option_bind fst snd].
  2:{ by exists [], ns, c, calls. }
  destruct He as (s1&Es&Ht1&Hp1&Ha). rewrite Es. specialize (IH cs1 s1 Hp1 Ht1).
  destruct (run_calls calls cs1) as [[l cs2]|]; cbn [mbind option_bind fst snd].
  - destruct IH as (s2&->&Ha2&Ht2). exists s2. split; [done|]. split; [|done].
    by rewrite Ha2, Ha, <- app_assoc.
  - destruct IH as (before&ns'&c'&after&->&Hbad). exists ((ns, c) :: before), ns', c', after.
    split; [done|]. cbn [spec_run]. rewrite Es. by destruct (spec_run before s1).
Qed.

(** What the constructor makes, if no two objects have the same key. *)
Lemma NewSimpleClientset_spec `{FakeLib} objects :
  match NewSimpleClientset objects with
  | Some cs => NoDup (object_key <$> added_sources objects) /\ csActions cs = [] /\
      tracks (csTracker cs) (initial objects) /\
      exists scheme, plain scheme cs /\
        NewObject scheme (WithKind SchemeGroupVersion "YipYapSourceList")
          = Some (source_object "YipYapSourceList")
  | None => ~ NoDup (object_key <$> added_sources objects)
  end.
Proof.
  destruct fake_scheme_kinds as (scheme&Es&Hkinds&Hlist). unfold NewSimpleClientset.
  rewrite Es. cbn [mbind option_bind]. rewrite (add_objects_eq scheme Hkinds).
  assert (tracks NewObjectTracker (MkFakeSpec ∅ [] ∅)) as Ht0.
  { split; [done|apply map_Forall_empty| |]; [intros ns|intros ns l n]; cbn; by rewrite lookup_empty. }
  pose proof (add_sources_spec (added_sources objects) _ _ Ht0 eq_refl) as Ha.
  destruct (add_sources _ _) as [t|]; cbn [mbind option_bind].
  - destruct Ha as (Hnd&_&_&Ht). split; [exact Hnd|]. split; [reflexivity|]. split; [exact Ht|].
    exists scheme. split; [reflexivity|exact Hlist].
  - intros Hnd. destruct Ha. split; [done|]. intros y _. apply lookup_empty.
Qed.

(** *** Prepended reactors *)

(** The clientset with a record of actions and a tracker of its own. *)
Definition with_chain (chain : list SimpleReactor) (cs : fakeClientset) : fakeClientset :=
  MkClientset (csActions cs) chain (csTracker cs).

(** What a failed call is answered. *)
Definition failed (c : call) (e : api_error) : answer :=
  match c with
  | CDelete _ | CDeleteCollection _ _ => Done (Some e)
  | CList _ _ => Items [] (Some e)
  | _ => AnObject new_source (Some e)
  end.

Lemma react_chain_skip a d r chain t :
  Handles r a = false -> react_chain a d (r :: chain) t = react_chain a d chain t.
Proof. intros Hr. cbn [react_chain]. by rewrite Hr. Qed.

Lemma react_chain_fails a d r chain t e :
  Handles r a = true -> srReaction r a t = Some ((true, (None, Some e)), t) ->
  react_chain a d (r :: chain) t = Some ((None, Some e), t).
Proof. intros Hr E. cbn [react_chain]. by rewrite Hr, E. Qed.

(** ** Theorems *)

(** C36. The fake clientset refines a map.  It can be made of objects exactly when no
    two of them have the same namespace and name.  Then whatever calls are made
    through its typed client, in any namespaces, the answers are those of a map
    from namespace and name, where an update of the status replaces the whole
    object and a deletion of a collection deletes nothing; the record holds one
    action per call; and every watcher has seen the changes of its namespace since
    it was opened, in order.  It panics only on a selector that does not parse, or
    when a watcher is full. *)
Theorem fake_clientset_refines_map `{FakeLib} objects calls :
  (is_Some (NewSimpleClientset objects) <-> NoDup (object_key <$> added_sources objects)) /\
  forall cs, NewSimpleClientset objects = Some cs ->
  match run_calls calls cs with
  | Some (answers, cs') =>
      let s := (spec_run calls (initial objects)).2 in
      (spec_run calls (initial objects)).1 = answers /\
      csActions cs' = map (fun c => recorded c.1 c.2) calls /\
      objects_of sources_gvr (csTracker cs') = fsObjects s /\
      (forall ns, channels (trWatchers (csTracker cs')) sources_gvr ns
         = map (fun start => seen ns start s) (default [] (fsStarts s !! ns)))
  | None => exists before ns c after, calls = before ++ (ns, c) :: after /\
      (bad_selectors c \/ overfull (spec_run before (initial objects)).2)
  end.
Proof.
  pose proof (NewSimpleClientset_spec objects) as Hn.
  destruct (NewSimpleClientset objects) as [cs0|].
  - destruct Hn as (Hnd&Hno&Ht&scheme&Hp&Hlist).
    split; [split; [done|by eexists]|]. intros cs [= <-].
    pose proof (run_calls_spec scheme calls cs0 (initial objects) Hlist Hp Ht) as Hr.
    destruct (run_calls calls cs0) as [[answers cs']|]; [|exact Hr].
    destruct Hr as (s'&Hs'&Hact&[Ho _ Hc _]). rewrite Hs'. rewrite Hno in Hact. cbn [fst snd].
    split; [reflexivity|]. split; [exact Hact|]. split; [exact Ho|exact Hc].
  - split; [|done]. split; [by intros []|done].
Qed.

(** A reactor the test puts first, to make calls fail: a call it covers is answered
    with its error and changes nothing, any other call is as without it; both are
    recorded. *)
Theorem prepended_reactor `{FakeLib} verb resource f e ns c cs :
  (forall a t, f a t = Some ((true, (None, Some e)), t)) ->
  ~ bad_selectors c -> (forall l fs, c <> CWatch l fs) ->
  let r := MkSimpleReactor verb resource f in
  let cs' := PrependReactor verb resource f cs in
  exec ns c cs' =
    if Handles r (recorded ns c)
    then Some (failed c e, MkClientset (csActions cs ++ [recorded ns c]) (csReactionChain cs')
                             (csTracker cs))
    else '(a, cs1) ← exec ns c cs; Some (a, with_chain (csReactionChain cs') cs1).
Proof.
  intros Hf Hsel Hw r cs'.
  assert (forall a d, Invokes a d cs' =
    if Handles r a
    then Some ((None, Some e), MkClientset (csActions cs ++ [a]) (csReactionChain cs') (csTracker cs))
    else '(rep, cs1) ← Invokes a d cs; Some (rep, with_chain (csReactionChain cs') cs1)) as Hi.
  { intros a d. unfold Invokes. cbn [csReactionChain csTracker csActions PrependReactor cs'].
    destruct (Handles r a) eqn:Hr.
    - by rewrite (react_chain_fails a d r _ _ e Hr (Hf a _)).
    - rewrite react_chain_skip by done. by destruct (react_chain a d _ _) as [[]|]. }
  destruct c as [name|y|y|y|name|l fs|name pt data subs|l fs|l fs]; cbn [exec recorded failed bad_selectors] in *;
    try (unfold fake_Get, fake_Create, fake_Update, fake_UpdateStatus, fake_Patch, invoke_source;
         rewrite Hi; destruct (Handles r _); [done|];
         destruct (Invokes _ _ cs) as [[rep cs1]|]; [|done]; cbn [mbind option_bind fst snd];
         by destruct (as_source rep) as [[]|]).
  - unfold fake_Delete. rewrite Hi. destruct (Handles r _); [done|].
    by destruct (Invokes _ _ cs) as [[]|].
  - unfold fake_DeleteCollection. destruct (parse_selectors l fs) as [m|]; [|by destruct Hsel].
    cbn [mbind option_bind]. rewrite Hi. destruct (Handles r _); [done|].
    by destruct (Invokes _ _ cs) as [[]|].
  - unfold fake_List. destruct (parse_selectors l fs) as [m|]; [|by destruct Hsel].
    cbn [mbind option_bind]. rewrite Hi. destruct (Handles r _); [done|].
    destruct (Invokes _ _ cs) as [[[[[]|] er] cs1]|]; done.
  - by destruct (Hw l fs).
Qed.

(** ** Witnesses *)

#[local] Instance sample_fakes : FakeLib := {|
  parse_selectors l f := if String.eqb l "" && String.eqb f "" then Some (fun _ => true) else None;
  apply_configuration name data := if String.eqb data "" then Err "EOF" else Ok (name, data);
  apply_patch_to _ _ y := Ok y
|}.

Definition other_source : YipYapSource := with_namespace "other" sample_source.

(** The status update takes the whole object, the watcher of the namespace hears of
    it and of the deletion. *)
Definition sample_calls : list (string * call) :=
  [("default", CWatch "" ""); ("", CWatch "" "");
   ("default", CUpdateStatus polling_source);
   ("default", CGet "demo");
   ("default", CDelete "demo"); ("other", CDeleteCollection "" "");
   ("default", CPatch "demo" "application/apply-patch+yaml" "" []);
   ("", CList "" "")].

Lemma fake_clientset_refines_map_witness :
  match NewSimpleClientset [AList [sample_source; other_source]] with
  | Some cs =>
      match run_calls sample_calls cs with
      | Some (answers, cs') =>
          answers = [Watcher ("default", 0%nat); Watcher ("", 0%nat); AnObject polling_source None;
                     AnObject polling_source None; Done None; Done None;
                     AnObject new_source (Some (ApiOther "EOF")); Items [other_source] None] /\
          length (csActions cs') = 8%nat /\
          channels (trWatchers (csTracker cs')) sources_gvr "default"
            = [[MkWatchEvent Modified polling_source; MkWatchEvent Deleted polling_source]]
      | None => False
      end
  | None => False
  end.
Proof.
  destruct (fake_clientset_refines_map [AList [sample_source; other_source]] sample_calls) as [_ Hall].
  destruct (present_Some (NewSimpleClientset [AList [sample_source; other_source]])) as [cs E];
    [vm_compute; reflexivity|].
  rewrite E. specialize (Hall cs E).
  destruct (present_Some (run_calls sample_calls cs)) as [[answers cs'] Er].
  { assert (present (cs ← NewSimpleClientset [AList [sample_source; other_source]];
      run_calls sample_calls cs) = true) as Hp by (vm_compute; reflexivity).
    rewrite E in Hp. exact Hp. }
  rewrite Er in Hall |- *. destruct Hall as (Ha&Hact&_&Hc).
  split; [rewrite <- Ha; vm_compute; reflexivity|].
  split; [rewrite Hact; reflexivity|]. rewrite Hc. vm_compute. reflexivity.
Defined.
