(* ===== verification/Builders.v ===== *)
(** * The builders of the reconciler's tests (pkg/reconciler/yipyapsource/testing)

    The functional options the table tests write their expectations with.  An
    option changes the source and may read the clock, whose ticks are passed along. *)

From S2P Require Import Prelude GoStrings Webhook CondSet Types Api Lifecycle Names Deployment Reconcile.
From S2P Require Import KindReconciler Contents Controller.
Local Open Scope string_scope.
Local Open Scope list_scope.

(** ** Options (yipyapsource.go) *)

Record building := MkBuilding { bdSource : YipYapSource; bdTicks : nat }.

Definition YipYapSourceOption : Type := building -> building.

Definition change_source (f : YipYapSource -> YipYapSource) : YipYapSourceOption := fun b =>
  MkBuilding (f (bdSource b)) (bdTicks b).

(** A method of the status. *)
Definition change_status (f : tstatus -> tstatus) : YipYapSourceOption := fun b =>
  let s := f (TStatus (yStatus (bdSource b)) (bdTicks b)) in
  MkBuilding (with_status (bdSource b) (tsStatus s)) (tsTicks s).

Definition NewYipYapSource (name namespace : string) (opts : list YipYapSourceOption) (ticks : nat)
    : building :=
  foldl (fun b opt => opt b)
    (MkBuilding (MkYipYapSource (MkObjectMeta name namespace "" 0 "" None [] no_rest)
                   (ySpec Webhook.new_source) (yStatus Webhook.new_source)) ticks) opts.

Definition WithYipYapSourceUID (uid : string) : YipYapSourceOption :=
  change_source (fun s =>
    let m := yMeta s in
    MkYipYapSource (MkObjectMeta (omName m) (omNamespace m) uid (omGeneration m)
      (omResourceVersion m) (omDeletionTimestamp m) (omFinalizers m) (omRest m)) (ySpec s) (yStatus s)).

Definition WithYipYapSourceSpec (spec : YipYapSourceSpec) : YipYapSourceOption :=
  change_source (fun s => with_spec s spec).

Section options.
Context `{UrlLib} (clock : nat -> Z).

Definition WithInitYipYapSourceConditions : YipYapSourceOption :=
  change_status (Status_InitializeConditions clock).
Definition WithYipYapSourceSink (uri : option URL) : YipYapSourceOption :=
  change_status (MarkSink clock uri).
Definition WithYipYapSourceSinkNotFound (reason msg : string) : YipYapSourceOption :=
  change_status (MarkNoSink clock reason msg).
Definition WithYipYapSourceDeployed : YipYapSourceOption := change_status (MarkDeployed clock).
Definition WithYipYapSourceNotDeployed (reason msg : string) : YipYapSourceOption :=
  change_status (MarkNotDeployed clock reason msg).
Definition WithYipYapSourceDeploying (reason msg : string) : YipYapSourceOption :=
  change_status (MarkDeploying clock reason msg).
Definition WithYipYapSourceDeploymentName (name : string) : YipYapSourceOption :=
  change_status (with_tstatus (set_deployment_name name)).
Definition WithYipYapSourceStatusObservedGeneration (gen : Z) : YipYapSourceOption :=
  change_status (with_tstatus (set_observed_generation gen)).
Definition WithYipYapSourceCloudEventAttributes (attrs : list CloudEventAttributes)
    : YipYapSourceOption :=
  change_status (with_tstatus (set_ce_attributes attrs)).

(** ** The expectation of a row *)

(** The options a row lists for what a reconciliation meets: the conditions, the
    attributes, the sink or its absence, the name of the Deployment when there is
    one, and its availability. *)
Definition deployment_option (m : mark) : YipYapSourceOption :=
  match m with
  | MTrue _ => WithYipYapSourceDeployed
  | MFalse _ reason msg => WithYipYapSourceNotDeployed reason msg
  | MUnknown _ reason msg => WithYipYapSourceDeploying reason msg
  end.

Definition sink_option (a : Controller.answer) (m : mark) : YipYapSourceOption :=
  match anSink a, m with
  | None, MFalse _ reason msg => WithYipYapSourceSinkNotFound reason msg
  | uri, _ => WithYipYapSourceSink uri
  end.

Definition expectation (a : Controller.answer) : list YipYapSourceOption :=
  [WithInitYipYapSourceConditions;
   WithYipYapSourceCloudEventAttributes knownCloudEventAttributes] ++
  match anMarks a with
  | [] => []
  | m :: ms =>
      sink_option a m ::
      match anDeployment a with Some n => [WithYipYapSourceDeploymentName n] | None => [] end ++
      map deployment_option ms
  end.

(** ** Lemmas *)

Lemma NewYipYapSource_app name ns opts opts' ticks :
  NewYipYapSource name ns (opts ++ opts') ticks
  = foldl (fun b opt => opt b) (NewYipYapSource name ns opts ticks) opts'.
Proof. unfold NewYipYapSource. by rewrite foldl_app. Qed.

(** A chain of changes of the status. *)
Lemma change_status_chain fs b :
  foldl (fun b opt => opt b) b (map change_status fs)
  = change_status (fun s => foldl (fun s f => f s) s fs) b.
Proof.
  revert b. induction fs as [|f fs IH]; intros b; [by destruct b as [[] ?]|].
  cbn [map foldl]. rewrite IH. unfold change_status. cbn [bdSource bdTicks].
  by destruct (f _) as [? ?].
Qed.

(** The marks of an answer: the sink, then at most one of the Deployment. *)
Lemma answer_marks `{Kube} image src :
  let a := answer_of image src in
  exists m ms, anMarks a = m :: ms /\ mark_type m = sinkT /\
    (forall m', m' ∈ ms -> mark_type m' = depT) /\
    match anSink a with
    | Some uri => m = sink_mark uri
    | None => exists e, m = MFalse sinkT "NotFound" e
    end.
Proof.
  cbv zeta. unfold answer_of. destruct (URIFromDestinationV1 _ _) as [uri|e].
  2:{ eexists _, []. split_and!; [done..| |by eexists]. set_solver. }
  destruct (sink_mark_type uri) as [Hty _].
  assert (forall cs m', m' ∈ propagate_marks cs -> mark_type m' = depT) as Hp.
  { intros cs m'. destruct (propagate_marks_shape cs) as [->|(m&->&Hm)]; set_solver. }
  destruct (MakeAdapterDeployment src (Some uri) image) as [d|].
  2:{ eexists _, []. split_and!; [done|done| |done]. set_solver. }
  unfold deployment_answer.
  destruct (lister_get _ _) as [cur|[|msg]]; [destruct (drifted _ _)|..];
    try destruct (kube_write _); eexists _, _; (split_and!; [reflexivity|done| |reflexivity]);
    try apply Hp; set_solver.
Qed.

(** The methods behind the options. *)
Definition deployment_method (m : mark) : tstatus -> tstatus :=
  manage (exec_mark clock yipyapSourceCondSet m).

Definition sink_method (a : Controller.answer) (m : mark) : tstatus -> tstatus :=
  match anSink a, m with
  | None, MFalse _ reason msg => MarkNoSink clock reason msg
  | uri, _ => MarkSink clock uri
  end.

Definition methods (a : Controller.answer) (m : mark) (ms : list mark) : list (tstatus -> tstatus) :=
  [Status_InitializeConditions clock; with_tstatus (set_ce_attributes knownCloudEventAttributes);
   sink_method a m] ++
  match anDeployment a with Some n => [with_tstatus (set_deployment_name n)] | None => [] end ++
  map deployment_method ms.

Lemma expectation_methods a m ms :
  anMarks a = m :: ms -> (forall m', m' ∈ ms -> mark_type m' = depT) ->
  expectation a = map change_status (methods a m ms).
Proof.
  intros Hm Hty. unfold expectation, methods. rewrite Hm, !map_app. cbn [map app].
  f_equal. f_equal. f_equal.
  - unfold sink_option, sink_method. by destruct (anSink a), m.
  - f_equal; [by destruct (anDeployment a)|]. rewrite map_map. apply map_ext_in.
    intros m' Hin%list_elem_of_In. specialize (Hty m' Hin).
    destruct m'; cbn in Hty; subst; done.
Qed.

Lemma deployment_methods ms s :
  foldl (fun s f => f s) s (map deployment_method ms)
  = manage (exec_marks clock yipyapSourceCondSet ms) s.
Proof.
  revert s. induction ms as [|m ms IH]; intros s; [by rewrite manage_nil|].
  cbn [map foldl]. rewrite IH. unfold deployment_method. by rewrite manage_manage.
Qed.

(** All of them together: the fields, and the marks on the initial conditions. *)
Lemma methods_manage a m ms st n :
  stObservedGeneration st = 0%Z -> anMarks a = m :: ms ->
  match anSink a with
  | Some uri => m = sink_mark uri
  | None => exists e, m = MFalse sinkT "NotFound" e
  end ->
  foldl (fun s f => f s) (TStatus st n) (methods a m ms)
  = manage (fun c => exec_marks clock yipyapSourceCondSet (anMarks a)
                       (InitializeConditions clock yipyapSourceCondSet c)) (TStatus (fill a 0 st) n).
Proof.
  intros Hg Hm Hsink. unfold methods. rewrite !foldl_app, deployment_methods, Hm. cbn [foldl exec_marks].
  unfold Status_InitializeConditions. rewrite with_manage by apply keeps_attributes.
  assert (fill a 0 st =
    match anDeployment a with Some d => set_deployment_name d | None => id end
      (match anSink a with Some uri => set_sink_uri (Some uri) | None => id end
         (set_ce_attributes knownCloudEventAttributes st))) as ->.
  { assert (set_observed_generation 0 st = st) as E by (destruct st; cbn in Hg; by subst).
    unfold fill. rewrite E. by destruct (anSink a), (anDeployment a). }
  assert (forall g s, sink_method a m (manage g s) =
    manage (fun c => exec_mark clock yipyapSourceCondSet m (g c))
      (with_tstatus (match anSink a with Some uri => set_sink_uri (Some uri) | None => id end) s)) as Hs.
  { intros g s. unfold sink_method. destruct (anSink a) as [uri|].
    - subst m. rewrite MarkSink_manage, with_manage by apply keeps_uri. by rewrite manage_manage.
    - destruct Hsink as [e ->]. unfold MarkNoSink.
      change (MarkFalse clock yipyapSourceCondSet sinkT "NotFound" e)
        with (exec_mark clock yipyapSourceCondSet (MFalse sinkT "NotFound" e)).
      rewrite manage_manage. by destruct s. }
  rewrite Hs. destruct (anDeployment a) as [d|]; cbn [foldl].
  - rewrite with_manage by apply keeps_name. by rewrite manage_manage.
  - by rewrite manage_manage.
Qed.
End options.

(** ** Theorem *)

(** C37. The tests expect what a run does.  Whatever the resolver and the cluster
    answer, the source a table row builds from the bare one with the options of
    those answers, in the order the rows list them, has exactly the status
    [ReconcileKind] leaves, transition times and all. *)
Theorem builders_expect_the_run `{UrlLib, Kube} clock image name ns uid spec ticks :
  let bare := [WithYipYapSourceUID uid; WithYipYapSourceSpec spec] in
  let src := bdSource (NewYipYapSource name ns bare ticks) in
  let a := answer_of image src in
  let o := Reconcile.ReconcileKind clock image src ticks in
  let row := NewYipYapSource name ns (bare ++ expectation clock a) ticks in
  bdSource row = with_status src (tsStatus (oStatus o)) /\ oError o = anError a.
Proof.
  cbv zeta. set (bare := [_; _]). set (src := bdSource (NewYipYapSource name ns bare ticks)).
  destruct (ReconcileKind_answer clock image src ticks) as [He Hs]. split; [|exact He].
  destruct (answer_marks image src) as (m&ms&Hm&_&Hty&Hsink).
  rewrite NewYipYapSource_app, (expectation_methods clock _ m ms Hm Hty), change_status_chain.
  unfold change_status. fold src.
  rewrite (methods_manage clock (answer_of image src) m ms) by done. by rewrite Hs.
Qed.

(** ** Example *)

(** The row of an available Deployment, as the tests write it. *)
Example available_row :
  let kube := kube_of [MkDeploymentCondition "Available" "True" "" ""] true in
  let bare := [WithYipYapSourceUID "12345"; WithYipYapSourceSpec sample_spec] in
  let src := bdSource (NewYipYapSource "demo" "default" bare 0) in
  exists name,
    with_status src (tsStatus (oStatus (Reconcile.ReconcileKind (H := plain_url_lib) (H0 := kube)
      Z.of_nat sample_image src 0)))
    = bdSource (NewYipYapSource "demo" "default"
        (bare ++ [WithInitYipYapSourceConditions Z.of_nat;
                  WithYipYapSourceCloudEventAttributes knownCloudEventAttributes;
                  WithYipYapSourceSink (H := plain_url_lib) Z.of_nat (Some sample_url);
                  WithYipYapSourceDeploymentName name; WithYipYapSourceDeployed Z.of_nat]) 0).
Proof.
  cbv zeta. rewrite <- (proj1 (builders_expect_the_run (H := plain_url_lib)
    (H0 := kube_of [MkDeploymentCondition "Available" "True" "" ""] true) Z.of_nat sample_image "demo" "default"
    "12345" sample_spec 0)).
  exists "demo-source-12345". vm_compute. reflexivity.
Qed.
