(* ===== verification/TableRow.v ===== *)
(** * What a row of the reconciler's table tests runs on (testing/factory.go)

    The objects of a row go into indexers by their type (reconciler/testing/sorter.go
    of knative.dev/pkg), which serve the listers and from which the fake clientset is
    made.  [None] is a panic.  The scheme of the Kubernetes clientset is an argument;
    the constructor of the reconciler, the other fake clients, the recorder and the
    promotion of the reconciler are not here. *)

From S2P Require Import Prelude GoStrings Types Api Admission Lifecycle KindReconciler Leader.
From S2P Require Import Tracker Resolver Scheme Webhook FakeClientset.
From S2P Require Import Controller Wiring Lister.
Local Open Scope string_scope.
Local Open Scope list_scope.

(** ** Objects and indexers (sorter.go) *)

(** An object of a row: a source, or one of another type, with its key if it has
    metadata; without it an indexer drops the object. *)
Inductive row_object :=
| RowSource (y : YipYapSource)
| RowOther (t : go_type) (key : option string).

Definition row_type (o : row_object) : go_type :=
  match o with RowSource _ => source_object "YipYapSource" | RowOther t _ => t end.

Definition AllKnownTypes (s : Scheme) : list go_type := (map_to_list (gvkToType s)).*2.

Record ObjectSorter := MkObjectSorter {
  osTypes : gset go_type;
  osSources : threadSafeMap;
  osOthers : gmap go_type (gset string)
}.

Definition NewObjectSorter (scheme : Scheme) : ObjectSorter :=
  MkObjectSorter (list_to_set (AllKnownTypes scheme)) empty_cache ∅.

Definition AddObject (o : row_object) (os : ObjectSorter) : option ObjectSorter :=
  if bool_decide (row_type o ∈ osTypes os) then
    match o with
    | RowSource y => Some (MkObjectSorter (osTypes os) (cache_step (osSources os) (CacheAdd y)) (osOthers os))
    | RowOther t (Some key) =>
        Some (MkObjectSorter (osTypes os) (osSources os)
                (<[t := {[key]} ∪ default ∅ (osOthers os !! t)]> (osOthers os)))
    | RowOther _ None => Some os
    end
  else None.

Fixpoint AddObjects (objs : list row_object) (os : ObjectSorter) : option ObjectSorter :=
  match objs with
  | [] => Some os
  | o :: objs => os ← AddObject o os; AddObjects objs os
  end.

(** The items of the indexer of a type. *)
Definition items_of_type (os : ObjectSorter) (t : go_type) : option (list row_object) :=
  if bool_decide (t ∈ osTypes os) then
    Some (if bool_decide (t = source_object "YipYapSource")
          then map RowSource (ts_List (osSources os))
          else map (fun key => RowOther t (Some key)) (elements (default ∅ (osOthers os !! t))))
  else None.

Fixpoint ObjectsForTypes (os : ObjectSorter) (types : list go_type) : option (list row_object) :=
  match types with
  | [] => Some []
  | t :: types => l ← items_of_type os t; rest ← ObjectsForTypes os types; Some (l ++ rest)
  end.

Definition ObjectsForSchemeFunc (f : Scheme -> option Scheme) (os : ObjectSorter)
    : option (list row_object) :=
  scheme ← f Scheme.NewScheme; ObjectsForTypes os (AllKnownTypes scheme).

Definition IndexerForSources (os : ObjectSorter) : option threadSafeMap :=
  if bool_decide (source_object "YipYapSource" ∈ osTypes os) then Some (osSources os) else None.

(** ** The factory (factory.go) *)

Section factory.
Context (kube_AddToScheme : Scheme -> option Scheme).

Definition NewScheme : option Scheme :=
  s ← kube_AddToScheme Scheme.NewScheme; v1alpha1_AddToScheme s.

Definition NewListers (objs : list row_object) : option ObjectSorter :=
  scheme ← NewScheme; AddObjects objs (NewObjectSorter scheme).

Definition GetKubeObjects : ObjectSorter -> option (list row_object) :=
  ObjectsForSchemeFunc kube_AddToScheme.
Definition GetYipYapSourceObjects : ObjectSorter -> option (list row_object) :=
  ObjectsForSchemeFunc v1alpha1_AddToScheme.

(** [indexerFor] and [NewYipYapSourceLister] over it. *)
Definition GetYipYapSourceLister (ls : ObjectSorter) : option (ResourceIndexer * threadSafeMap) :=
  c ← IndexerForSources ls; Some (NewYipYapSourceLister, c).

(** The fake clientset takes sources; any other object makes it panic. *)
Definition as_runtime (o : row_object) : option runtime_object :=
  match o with RowSource y => Some (ASource y) | RowOther _ _ => None end.

Record row := MkRow { rwListers : ObjectSorter; rwKube : list row_object; rwClient : fakeClientset }.

(** The reactors of the row go to the front of the chain of the client. *)
Definition prepend_reactors (reactors : list reaction) (cs : fakeClientset) : fakeClientset :=
  foldl (fun cs r => PrependReactor "*" "*" r cs) cs reactors.

Definition MakeFactory `{FakeLib} (objects : list row_object) (reactors : list reaction) : option row :=
  ls ← NewListers objects;
  kube ← GetKubeObjects ls;
  sources ← GetYipYapSourceObjects ls;
  sources ← mapM as_runtime sources;
  cs ← NewSimpleClientset sources;
  Some (MkRow ls kube (prepend_reactors reactors cs)).
End factory.

(** ** Lemmas *)

Lemma bind_eq {A B} (f : A -> option B) (m : option A) x : m = Some x -> m ≫= f = f x.
Proof. by intros ->. Qed.

Lemma ObjectsForSchemeFunc_eq f os s :
  f Scheme.NewScheme = Some s -> ObjectsForSchemeFunc f os = ObjectsForTypes os (AllKnownTypes s).
Proof. unfold ObjectsForSchemeFunc. by intros ->. Qed.

Lemma MakeFactory_eq `{FakeLib} kube objects reactors ls kobjs sources items cs :
  NewListers kube objects = Some ls -> GetKubeObjects kube ls = Some kobjs ->
  GetYipYapSourceObjects ls = Some sources -> mapM as_runtime sources = Some items ->
  NewSimpleClientset items = Some cs ->
  MakeFactory kube objects reactors
    = Some (MkRow ls kobjs (prepend_reactors reactors cs)).
Proof.
  intros E1 E2 E3 E4 E5. unfold MakeFactory.
  rewrite (bind_eq _ _ _ E1), (bind_eq _ _ _ E2), (bind_eq _ _ _ E3), (bind_eq _ _ _ E4), (bind_eq _ _ _ E5).
  reflexivity.
Qed.

Definition row_sources (objs : list row_object) : list YipYapSource :=
  omap (fun o => match o with RowSource y => Some y | RowOther _ _ => None end) objs.

Lemma AddObjects_spec objs os :
  (forall o, o ∈ objs -> row_type o ∈ osTypes os) ->
  exists os', AddObjects objs os = Some os' /\ osTypes os' = osTypes os /\
    osSources os' = foldl cache_step (osSources os) (map CacheAdd (row_sources objs)) /\
    forall t, default ∅ (osOthers os' !! t) <> ∅ ->
      default ∅ (osOthers os !! t) <> ∅ \/ exists key, RowOther t (Some key) ∈ objs.
Proof.
  revert os. induction objs as [|o objs IH]; intros os Hty; [exists os; auto|].
  cbn [AddObjects]. unfold AddObject at 1.
  rewrite bool_decide_true by (apply Hty; left).
  assert (forall o', o' ∈ objs -> row_type o' ∈ osTypes os) as Hrest by (intros; apply Hty; by right).
  destruct o as [y|t [key|]]; cbn [mbind option_bind];
    match goal with |- context [AddObjects objs ?os1] => destruct (IH os1 Hrest) as (os'&->&E1&E2&E3) end;
    exists os'; (split_and!; [done|done|done|]); intros t' Ht'; destruct (E3 t' Ht') as [Hne|[key' ?]];
    try (right; exists key'; by right); cbn [osOthers] in Hne; auto.
  destruct (decide (t' = t)) as [->|Hne']; [right; exists key; left|left].
  by rewrite lookup_insert_ne in Hne.
Qed.

Lemma ObjectsForTypes_known os types :
  (forall t, t ∈ types -> t ∈ osTypes os) -> exists l, ObjectsForTypes os types = Some l.
Proof.
  induction types as [|t types IH]; intros Hty; [by exists []|]. cbn [ObjectsForTypes].
  unfold items_of_type at 1. rewrite bool_decide_true by (apply Hty; left). cbn [mbind option_bind].
  destruct IH as [l ->]; [intros; apply Hty; by right|]. cbn. eauto.
Qed.

(** Where only sources are to be found, each is found once. *)
Lemma ObjectsForTypes_sources os types :
  NoDup types -> (forall t, t ∈ types -> t ∈ osTypes os) ->
  (forall t, t ∈ types -> t <> source_object "YipYapSource" -> default ∅ (osOthers os !! t) = ∅) ->
  ObjectsForTypes os types
    = Some (if decide (source_object "YipYapSource" ∈ types)
            then map RowSource (ts_List (osSources os)) else []).
Proof.
  induction types as [|t types IH]; intros Hnd Hty Hother; [done|].
  apply NoDup_cons in Hnd as [Hnew Hnd]. cbn [ObjectsForTypes]. unfold items_of_type at 1.
  rewrite bool_decide_true by (apply Hty; left). cbn [mbind option_bind].
  rewrite IH by (done || intros; (apply Hty || apply Hother); (done || by right)). cbn [mbind option_bind].
  f_equal. case_bool_decide as Ht.
  - subst t. rewrite (decide_False (P := _ ∈ types)) by done.
    rewrite decide_True by left. by rewrite app_nil_r.
  - rewrite (Hother t) by (done || left). rewrite elements_empty. cbn [map app].
    destruct (decide (source_object "YipYapSource" ∈ types)) as [Hin|Hin].
    + by rewrite decide_True by (by right).
    + rewrite decide_False; [done|]. by intros [?|?]%elem_of_cons.
Qed.

(** The types of v1alpha1. *)
Definition v1alpha1_types : list go_type :=
  match v1alpha1_AddToScheme Scheme.NewScheme with Some s => AllKnownTypes s | None => [] end.

Lemma v1alpha1_types_once :
  exists s, v1alpha1_AddToScheme Scheme.NewScheme = Some s /\ v1alpha1_types = AllKnownTypes s /\
    NoDup v1alpha1_types /\ source_object "YipYapSource" ∈ v1alpha1_types.
Proof.
  destruct (present_Some (v1alpha1_AddToScheme Scheme.NewScheme)) as [s E]; [vm_compute; reflexivity|].
  exists s. split; [done|]. split; [unfold v1alpha1_types; by rewrite E|].
  split; apply (bool_decide_unpack _); vm_compute; reflexivity.
Qed.

#[local] Opaque v1alpha1_types.

Lemma elem_AllKnownTypes s t :
  t ∈ AllKnownTypes s <-> exists gvk, gvkToType s !! gvk = Some t.
Proof.
  unfold AllKnownTypes. rewrite list_elem_of_fmap. split.
  - intros ([gvk t']&->&Hin%elem_of_map_to_list). eauto.
  - intros [gvk Hg]. exists (gvk, t). split; [done|]. by apply elem_of_map_to_list.
Qed.

Lemma source_type_own : source_object "YipYapSource" ∈ v1alpha1_types.
Proof. by destruct v1alpha1_types_once as (s&_&_&_&Hin). Qed.

(** The sources of a row, from an indexer that knows the types of v1alpha1. *)
Lemma own_objects ls :
  (forall t, t ∈ v1alpha1_types -> t ∈ osTypes ls) ->
  (forall t, t ∈ v1alpha1_types -> default ∅ (osOthers ls !! t) = ∅) ->
  GetYipYapSourceObjects ls = Some (map RowSource (ts_List (osSources ls))).
Proof.
  destruct v1alpha1_types_once as (s&Es&Etys&Hnd&Hin). intros Hknown Hother.
  unfold GetYipYapSourceObjects. rewrite (ObjectsForSchemeFunc_eq _ _ _ Es). clear Es.
  rewrite <- Etys. clear Etys. rewrite ObjectsForTypes_sources; [|exact Hnd|exact Hknown|].
  - rewrite decide_True by exact Hin. reflexivity.
  - intros t Ht _. by apply Hother.
Qed.

Lemma as_runtime_sources l : mapM as_runtime (map RowSource l) = Some (map ASource l).
Proof. apply mapM_Some. induction l; constructor; done. Qed.

(** The types of both schemes are types of theirs together. *)
Lemma NewScheme_types kube s0 s1 t :
  kube Scheme.NewScheme = Some s0 -> scheme_ok s0 -> NewScheme kube = Some s1 ->
  t ∈ AllKnownTypes s0 \/ t ∈ v1alpha1_types -> t ∈ AllKnownTypes s1.
Proof.
  intros E0 Hs0 E1. unfold NewScheme in E1. rewrite E0 in E1. cbn [mbind option_bind] in E1.
  destruct v1alpha1_types_once as (s&Es&->&_).
  rewrite !elem_AllKnownTypes. intros [[gvk Hg]|[gvk Hg]]; exists gvk.
  - destruct (registers_v1alpha1 s0 s1 Hs0 E1) as (_&[Hsub _ _ _]&_). by eapply lookup_weaken.
  - by destruct (adds_alike_v1alpha1 Scheme.NewScheme s s0 s1 gvk t Hs0 Es E1 Hg).
Qed.

Lemma insert_all_lookup l (m : gmap NamespacedName YipYapSource) k y :
  NoDup (object_key <$> l) ->
  foldl (fun objs y => <[object_key y := y]> objs) m l !! k = Some y <->
  (y ∈ l /\ object_key y = k) \/ (k ∉ (object_key <$> l) /\ m !! k = Some y).
Proof.
  revert m. induction l as [|z l IH]; intros m Hnd; cbn [foldl fmap list_fmap].
  { set_solver. }
  apply NoDup_cons in Hnd as [Hz Hnd]. rewrite IH by done.
  destruct (decide (k = object_key z)) as [->|Hne].
  - rewrite lookup_insert_eq. split.
    + intros [[Hin Hk]|[_ [= <-]]]; left; [split; [by right|done]|split; [left|done]].
    + intros [[[->|Hin]%elem_of_cons Hk]|[Hno _]]; [by right|left; by split|]. destruct Hno. left.
  - rewrite lookup_insert_ne by done. split.
    + intros [[Hin Hk]|[Hno Hm]]; [left; split; [by right|done]|right].
      split; [|done]. by intros [?|?]%elem_of_cons.
    + intros [[[->|Hin]%elem_of_cons Hk]|[Hno Hm]]; [by subst|by left|right].
      split; [|done]. intros ?. apply Hno. by right.
Qed.

(** A read through the fake client of a set of sources. *)
Lemma fake_Get_sources `{FakeLib} l :
  NoDup (object_key <$> l) ->
  exists cs, NewSimpleClientset (map ASource l) = Some cs /\
    forall ns name r, (forall y, r = Ok y <-> y ∈ l /\ object_key y = MkNamespacedName ns name) ->
      (forall e, r = Err e -> e = ApiNotFound) ->
      exists cs', exec ns (CGet name) cs = Some
        (match r with Ok y => AnObject y None | Err e => AnObject new_source (Some e) end, cs').
Proof.
  intros Hnd. assert (added_sources (map ASource l) = l) as Esrc
    by (unfold added_sources; clear; induction l; cbn; congruence).
  pose proof (NewSimpleClientset_spec (map ASource l)) as Hn. rewrite Esrc in Hn.
  destruct (NewSimpleClientset _) as [cs|]; [|done]. exists cs. split; [done|].
  destruct Hn as (_&_&Ht&scheme&Hp&Hlist). intros ns name r Hr He.
  pose proof (exec_spec scheme Hlist ns (CGet name) cs _ Hp Ht) as Hx.
  destruct (exec ns (CGet name) cs) as [[a cs']|].
  - exists cs'. destruct Hx as (s'&Ha&_). cbn [spec_step] in Ha. injection Ha as <- _. do 2 f_equal.
    unfold object_answer, initial. cbn [fsObjects]. rewrite Esrc.
    match goal with |- context [?m !! ?k] => destruct (m !! k) as [y|] eqn:Ey end.
    + apply insert_all_lookup in Ey as [Hin|[_ Hm]]; [|by rewrite lookup_empty in Hm|done].
      apply Hr in Hin as ->. done.
    + destruct r as [y|e]; [|by rewrite (He e)].
      destruct (proj1 (Hr y) eq_refl) as [Hin Hk].
      rewrite (proj2 (insert_all_lookup l ∅ _ y Hnd) (or_introl (conj Hin Hk))) in Ey. done.
  - exfalso. destruct Hx as [[]|(ns'&starts&start&Hs&_)]. cbn [initial fsStarts] in Hs. by rewrite lookup_empty in Hs.
Qed.

(** The indexer of the sources of a row, as a list and as a map. *)
Lemma sources_cache l :
  Forall well_named l ->
  let c := foldl cache_step empty_cache (map CacheAdd l) in
  NoDup (object_key <$> ts_List c) /\
  forall ns name, no_slash ns -> no_slash name ->
    let r := Get (YipYapSources NewYipYapSourceLister ns) name c in
    (forall y, r = Ok y <-> y ∈ ts_List c /\ object_key y = MkNamespacedName ns name) /\
    (forall e, r = Err e -> e = ApiNotFound).
Proof.
  intros Hl c. assert (Forall (fun o => Forall well_named (op_objects o)) (map CacheAdd l)) as Hops.
  { apply Forall_map. eapply Forall_impl; [exact Hl|]. intros y Hy. by constructor. }
  destruct (cache_steps_rel _ Hops) as [Hrel _]. fold c in Hrel.
  set (m := foldl spec_step ∅ (map CacheAdd l)) in *.
  pose proof (ir_items _ _ Hrel) as Hi.
  assert (keys_unique c) as Hinj by (intros k k' y [-> _]%Hi [-> _]%Hi; done).
  destruct (ts_List_spec c Hinj) as [Hnd Hin].
  assert (forall y, y ∈ ts_List c <-> m !! spec_key y = Some y) as Hstored.
  { intros y. rewrite Hin. setoid_rewrite Hi. naive_solver. }
  split.
  - apply NoDup_fmap_2_strong; [|done]. intros y y' Hy Hy' E. apply Hstored in Hy, Hy'.
    unfold object_key in E. unfold spec_key in Hy, Hy'. injection E as E1 E2.
    rewrite E1, E2 in Hy. congruence.
  - intros ns name Hns Hname r. subst r.
    rewrite (items_rel_Get c m ns name Hrel Hns Hname). split.
    + intros y. rewrite Hstored. unfold object_key, spec_key. split.
      * destruct (m !! (ns, name)) as [z|] eqn:Ez; [|done]. intros [= <-].
        destruct (ir_spec _ _ Hrel _ _ Ez) as [Ekey _]. unfold spec_key in Ekey.
        injection Ekey as -> ->. done.
      * intros [Hy [= <- <-]]. by rewrite Hy.
    + intros e. destruct (m !! (ns, name)); [done|]. by intros [= <-].
Qed.

(** ** Theorem *)

(** A row is served alike by its lister and by its client.  When the types of its
    objects are known, and its other objects are none of v1alpha1, the factory does
    not panic; reading a source through the lister over the indexers, and, when
    the row has no reactors, through the fake clientset made of them, gives the
    same: the last object of the row with that namespace and name. *)
Theorem row_is_served `{FakeLib} kube s0 s1 objects reactors :
  kube Scheme.NewScheme = Some s0 -> scheme_ok s0 -> NewScheme kube = Some s1 ->
  (forall o, o ∈ objects -> row_type o ∈ AllKnownTypes s1) ->
  (forall t key, RowOther t (Some key) ∈ objects -> t ∉ v1alpha1_types) ->
  Forall well_named (row_sources objects) ->
  exists rw cache, MakeFactory kube objects reactors = Some rw /\
    GetYipYapSourceLister (rwListers rw) = Some (NewYipYapSourceLister, cache) /\
    cache = foldl cache_step empty_cache (map CacheAdd (row_sources objects)) /\
    forall ns name, no_slash ns -> no_slash name -> reactors = [] ->
      exists cs', exec ns (CGet name) (rwClient rw) = Some
        (match Get (YipYapSources NewYipYapSourceLister ns) name cache with
         | Ok y => AnObject y None
         | Err e => AnObject new_source (Some e)
         end, cs').
Proof.
  intros E0 Hs0 E1 Hty Hother Hnames.
  destruct (AddObjects_spec objects (NewObjectSorter s1)) as (ls&Els&Etypes&Esrc&Hothers).
  { intros o Ho. apply elem_of_list_to_set. by apply Hty. }
  cbn [osSources NewObjectSorter] in Esrc.
  assert (NewListers kube objects = Some ls) as El by (unfold NewListers; by rewrite E1).
  assert (forall t, t ∈ AllKnownTypes s0 \/ t ∈ v1alpha1_types -> t ∈ osTypes ls) as Hknown.
  { intros t Ht. rewrite Etypes. apply elem_of_list_to_set.
    by apply (NewScheme_types kube s0 s1). }
  destruct (ObjectsForTypes_known ls (AllKnownTypes s0)) as [kobjs Ek];
    [intros t Ht; apply Hknown; by left|].
  rewrite <- (ObjectsForSchemeFunc_eq kube ls s0 E0) in Ek.
  pose proof (own_objects ls (fun t Ht => Hknown t (or_intror Ht))) as Ey.
  destruct (sources_cache (row_sources objects) Hnames) as [Hkeys Hget]. rewrite <- Esrc in Hkeys, Hget.
  destruct (fake_Get_sources _ Hkeys) as (cs&Ecs&Hcs).
  eexists _, (osSources ls). split.
  - apply (MakeFactory_eq kube objects reactors ls kobjs (map RowSource (ts_List (osSources ls)))
      (map ASource (ts_List (osSources ls))) cs El Ek); [|apply as_runtime_sources|exact Ecs].
    apply Ey. intros t Ht. destruct (decide (default ∅ (osOthers ls !! t) = ∅)) as [|Hne]; [assumption|].
    destruct (Hothers t Hne) as [Hno|[key Hkey]]; [|destruct (Hother t key Hkey Ht)].
    destruct Hno. cbn. rewrite lookup_empty. reflexivity.
  - cbn [rwListers rwClient]. split; [|split; [exact Esrc|]].
    + unfold GetYipYapSourceLister, IndexerForSources. rewrite bool_decide_true; [reflexivity|].
      apply Hknown. right. apply source_type_own.
    + intros ns name Hns Hname ->. cbn [prepend_reactors foldl]. destruct (Hget ns name Hns Hname) as [Hr He].
      exact (Hcs ns name _ Hr He).
Qed.

(** ** Witness *)

(** The Deployment type, as the scheme of the Kubernetes clientset has it. *)
Definition sample_kube (s : Scheme) : option Scheme :=
  AddKnownTypeWithName (MkGVK "apps" "v1" "Deployment") (MkGoType "k8s.io/api/apps/v1" "Deployment") s.

Definition sample_row : list row_object :=
  [RowSource sample_source; RowOther (MkGoType "k8s.io/api/apps/v1" "Deployment") (Some "default/demo-source-12345");
   RowSource other_source].

Lemma row_is_served_witness :
  match MakeFactory (H := sample_fakes) sample_kube sample_row [] with
  | Some rw => exists cs', exec (H := sample_fakes) "other" (CGet "demo") (rwClient rw) = Some (AnObject other_source None, cs')
  | None => False
  end.
Proof.
  destruct (present_Some (sample_kube Scheme.NewScheme)) as [s0 E0]; [vm_compute; reflexivity|].
  destruct (present_Some (NewScheme sample_kube)) as [s1 E1]; [vm_compute; reflexivity|].
  assert (forallb (fun o => bool_decide (row_type o ∈ default [] (AllKnownTypes <$> NewScheme sample_kube)))
    sample_row = true) as Hty by (vm_compute; reflexivity).
  rewrite E1 in Hty.
  destruct (row_is_served (H := sample_fakes) sample_kube s0 s1 sample_row []) as (rw&cache&->&_&->&Hrun).
  - exact E0.
  - exact (AddKnownTypeWithName_ok _ _ _ _ NewScheme_ok E0).
  - exact E1.
  - intros o Ho. rewrite forallb_forall in Hty. apply list_elem_of_In in Ho.
    exact (bool_decide_unpack _ (Is_true_eq_left _ (Hty o Ho))).
  - intros t key Ho. unfold sample_row in Ho. rewrite !elem_of_cons, elem_of_nil in Ho.
    destruct Ho as [Ho|[Ho|[Ho|[]]]]; [discriminate Ho| |discriminate Ho]. injection Ho as -> _.
    apply (bool_decide_unpack _). vm_compute. reflexivity.
  - repeat constructor; reflexivity.
  - destruct (Hrun "other" "demo" eq_refl eq_refl eq_refl) as [cs' Hx]. exists cs'. rewrite Hx.
    vm_compute. reflexivity.
Defined.
